(* ===== verification/_CoqProject ===== *)
-Q . S2P
Prelude.v
Steps.v
GoStrings.v
Utf8.v
Json.v
JsonText.v
VNext.v
Request.v
RequestSpec.v
Backend.v
Session.v
Dispatch.v
DispatchSpec.v
Wire.v
Fake.v
Admission.v
V2Line.v
Xlib.v
X11.v
X11Spec.v
DestBackend.v
Hash.v
DestSpec.v
Scanner.v
Client.v
Ready.v
ClientSpec.v
Crypto.v
Ws.v
WsSpec.v
Legacy.v
LegacySpec.v
Input.v
Owner.v
Serve.v
ServeSpec.v
CallSpec.v
Concurrent.v
ConcurrentSpec.v
OwnerDaemon.v
Observe.v
DisplaySpec.v
Os.v
Listen.v
Lock.v
Daemon.v
NoCgo.v
