(* ===== verification/Prelude.v ===== *)
(** * X11 input daemon: verification development

    The program is a daemon (cmd/xtest-server) that injects pointer and keyboard
    input into an X11 display, and a small client library (x11input).  One
    process serves one of two transports:

    - the destination protocol ("vnext"): one JSON request per line over a
      private Unix socket, validated before anything is dispatched, with one
      session of held keys and buttons per connection and references to windows
      that are revalidated before every change;
    - the legacy protocol ("v2"): one text command per line over standard input,
      TCP or WebSocket, carried out directly, with a global release at the end
      of a connection.

    The development follows the path of a request through the program and then
    the life of the process around it.

    ** Files, in dependency order

    Foundations: [Prelude] (bytes, machine integers, errors and results, shared
    tactics and lemmas); [Steps] (invariants, simulations and inevitability for
    step relations); [GoStrings] (unicode/utf8, strings, strconv,
    path/filepath as the Go library defines them) and [Utf8] (encoding inverts
    decoding, and what becomes of bytes that are no UTF-8); [Json] (encoding/json: the
    byte automaton, the token reader and the writer) and [JsonText] (what is
    written is read back); [Scanner] (bufio.Scanner with ScanLines); [Crypto]
    (crypto/sha1, encoding/base64); [Hash] (which changes of a list its 64-bit
    hash shows); [Xlib] (Xlib and the X server as a type
    class over an arbitrary server state, and the static variables of x11.go);
    [Os] (the file system, sockets and locks as a type class).

    The destination protocol, internal/vnext: [VNext] (outcome.go, ewmh.go, the
    data of request.go and backend.go); [Request] (request.go: [Decode] and its
    two passes) with [RequestSpec]; [Backend] (the [Backend] interface as a type
    of calls, programs over it, their executions against all possible answers
    and against an instance); [Session] (session.go); [Dispatch] (dispatch.go)
    with [DispatchSpec]; [Wire] (WireJSON of outcome.go); [Fake] (fake.go and
    panic_backend.go, two instances of the interface); [Admission]
    (admission.go).

    The daemon, cmd/xtest-server: [X11] (the C and Go functions of x11.go) with
    [X11Spec]; [DestBackend] (the [xDestBackend] methods of dest.go, the third
    instance of the interface) with [DestSpec]; [Owner] (dest_owner.go, a step
    relation); [Serve] (serveVNextConn, allowPeer and the accept loops of
    dest.go and serve.go) with [ServeSpec] and [CallSpec] (the rules all calls
    of a connection keep); [Concurrent] (serveVNext of dest.go: the accept loop
    and all its connections interleaved, a call being one step) with
    [ConcurrentSpec]; [OwnerDaemon] (the same daemon with every call going
    through the channel of the owner thread); [Input] (what an X server with the
    XTEST extension promises about held keys and buttons) and [DisplaySpec] (the
    destination daemon on such a server); [Observe] (inspect, then act);
    [Listen] (listenUnixDest of dest.go); [Lock] (lock.go); [Ready] (ready.go); [Ws] (ws.go) with [WsSpec];
    [Legacy] (handle.go, the connections of serve.go and ws.go) with
    [LegacySpec]; [Daemon] (main.go); [NoCgo] (x11_nocgo.go, the stubs of a build
    without cgo).

    Elsewhere: [V2Line] (internal/v2line: dispatch.go and redact.go) and
    [Client] (x11input/client.go) with [ClientSpec], which joins the client to
    the scanner and the readiness lines of the daemon.

    ** How the code is represented

    A Go string is a [string] of bytes, a [[]byte] a [list ascii]; an integer is
    a [Z] kept in the range of its type, with the wrap-around written out
    ([uwrap], [swrap]) where the code can leave the range.  A map is a [gmap];
    the order in which Go ranges over a map is an argument, a [schedule] that
    visits every key once.  A text written as JSON keeps its code points; a byte
    that belongs to none becomes U+FFFD ([valid_text]).  A Go error is an [error], a fallible function
    returns an [option error], a [result] or a tuple as in the source.

    Code that calls a [Backend] is a [prog]: a tree of calls.  [exec] runs it
    against every possible sequence of answers, so that a theorem about all
    executions holds for every backend and every interleaving with the other
    connections, which share the backend; [run] runs it against one instance.
    The lemma [run_exec] connects the two.  The C layer is a state monad over the static
    variables ([XM]); the requests to the X server that change something are
    recorded in the order in which they are submitted, and theorems are about
    this record.  The answers of the server are the methods of [Xlib], so that
    the theorems hold for every server; those that need more of it state it as
    a class with an instance ([QuietServer], [LockKey], [InputServer]).

    The interfaces between components are classes too: [TotalBackend] (every
    call is answered) and [ObservingBackend] (a window just shown passes
    revalidation) are what the connections and the dispatcher need of a backend;
    the recording backend and the live backend are instances.

    The daemon as a whole is a step relation ([vstep], [ostep]): the accept loop
    takes or turns away a client, a connection makes a call, the owner takes and
    runs a job, a connection goes on, a connection gives its slot back.  An
    unconstrained scheduler picks the step.  [vrun] and [orun] run a schedule as
    a function, so that examples compute.

    ** What is proved

    - Decoding: [Decode] accepts exactly the requests of the protocol
      ([RequestSpec.accepts] is the specification), classifies everything else,
      and reads back what is rendered.
    - Dispatch, for all backends: a window is changed only after the successful
      revalidation of its reference, the session is exactly the record of the
      accepted transitions, the reply is true to the calls, no call is repeated,
      rejected lines reach no backend, a release is exact.
    - Connections: whatever the client sends and however the connection ends,
      everything pressed is asked to be released; reply i is the answer to line
      i, one line of JSON that shows the outcome of handling it;
      exactly the listed peers are admitted, and at most ten at a time.
    - The destination daemon as a whole: each connection behaves as it would
      alone with a backend that others use too; the owner thread is invisible (a
      simulation) and answers in the order of the channel; every run of finitely
      many clients comes to rest ([inevitably]), without deadlock; on a server
      that behaves as documented only clients that are still connected hold
      anything down, and every run ends with a clear display; calls stay within
      the ranges of the interface.
    - What inspect shows can be acted on, for every backend that keeps the
      interface: a client that reads a reference from the text of the reply and
      sends it back in an activate or fullscreen line is not told Conflict, if
      it read a nonzero identifier and a class without U+FFFD.
    - The live backend: revalidation is exact (a client list with another hash
      than the recorded one refuses every reference; a list in which one window
      was replaced by another always has another hash), a stale reference
      submits no request, a move goes to the point of the screen nearest to its
      target, activation uses both mechanisms in order with the atoms interned
      for them, the global release releases exactly the keys the server reports
      as pressed and the buttons 1 to 3.
    - Replies: a reply is one line and reads back as the outcome, the contents
      of its windows included, with no other key and no error.
    - Admission, socket and lock: the transport named by the flags and no other,
      closed allowlists, a private socket that never displaces a live one, a
      lock file that is a regular file of the user.
    - The legacy protocol: each command leads to exactly its calls and X
      requests, composites hold nothing afterwards, sleeps are bounded, logs are
      redacted, every connection ends with the global release, and after it no
      key and no button from 1 to 3 is down on the display.
    - WebSocket frames, the line scanner and the client: what is sent is what
      arrives; the handshake accepts the daemon's readiness lines.
    - The owner thread: jobs run in the order of the calls, each once, within
      the bounds of the queue, and an accepted call can always go on.
    - Without a display: every destination request but a release is refused and
      nothing changes; the build without cgo behaves like that and serves nobody.

    A few theorems state where the code falls short of its comments or
    documentation: [clear_lock_keeps_lock], [legacy_button4_stays_down],
    [ws_long_text_truncated], [lock_name_per_spelling],
    [longest_line_refused].

    ** Fuel and bounds

    [ws_Read] runs its loop with one more step than there are bytes left; every
    frame has at least two bytes, and [ws_read_fuel] shows that more fuel changes
    nothing.  The member loops of [Json] and [Request] have the length of the
    input as fuel and read at least one byte per member.  [digits] has the binary
    logarithm of its argument.  [waitPointer] looks [polls] times, an argument
    of the backend, because the clock decides; the theorems hold for every
    number.  Retries (three listens, twenty lock attempts, the attempts to open
    the display) have the bounds of the source.  The step relations have no fuel:
    their runs end by a measure ([vstep_wf], [pending]).

    ** What is not modelled

    Sleeping and the wall clock other than as recorded sleeps of the legacy
    protocol and as expired deadlines (the error a connection ends with); the
    text of messages on standard error except the log lines of the legacy
    protocol, of the Xlib error handlers and of start-up; the -version output;
    in [Concurrent] and [OwnerDaemon], the runs in which accepting fails (the
    process ends with status 1, [accept_vnext]), those in which a job panics and
    those in which the connection to the X server is lost (the process ends
    too); the data races of Go's memory model: the mutexes of
    the source guard single accesses, and operations are modelled as atomic. *)

From Stdlib Require Export ZArith Lia Ascii.
From stdpp Require Export base tactics numbers list gmap sets strings option.

(** ** Scopes

    The development writes machine integers as [Z]; [go_scope] holds its own
    notations. *)
Declare Scope go_scope.
Delimit Scope go_scope with go.
Global Open Scope go_scope.

(** ** Bytes and Go strings

    A Go [byte] is an [ascii] (eight bits), a Go [string] is a [string] (a
    sequence of bytes, not of code points) and a Go [[]byte] is a
    [list ascii].  [bytes] and [str] are Go's conversions between the two. *)
Abbreviation bytes := String.list_ascii_of_string (only parsing).
Abbreviation str := String.string_of_list_ascii (only parsing).

(** The value of a byte, 0..255, and the truncating conversion [byte(z)]. *)
Definition b2z (c : ascii) : Z := Z.of_N (N_of_ascii c).
Definition z2b (z : Z) : ascii := ascii_of_N (Z.to_N (z mod 256)).

Lemma b2z_range c : (0 ≤ b2z c < 256)%Z.
Proof.
  unfold b2z. pose proof (N_ascii_bounded c). lia.
Qed.

Lemma z2b_b2z c : z2b (b2z c) = c.
Proof.
  unfold z2b. rewrite Z.mod_small by apply b2z_range.
  unfold b2z. rewrite N2Z.id. apply ascii_N_embedding.
Qed.

Lemma b2z_z2b_mod z : b2z (z2b z) = (z mod 256)%Z.
Proof.
  unfold b2z, z2b. pose proof (Z.mod_pos_bound z 256 ltac:(lia)).
  rewrite N_ascii_embedding by lia. lia.
Qed.

Lemma b2z_z2b z : (0 ≤ z < 256)%Z → b2z (z2b z) = z.
Proof. intros. rewrite b2z_z2b_mod. by apply Z.mod_small. Qed.

Lemma b2z_inj c d : b2z c = b2z d → c = d.
Proof. intros E. by rewrite <-(z2b_b2z c), E, z2b_b2z. Qed.

Lemma bytes_str l : bytes (str l) = l.
Proof. apply String.list_ascii_of_string_of_list_ascii. Qed.

Lemma str_bytes s : str (bytes s) = s.
Proof. apply String.string_of_list_ascii_of_string. Qed.

Lemma bytes_app s t : bytes (s +:+ t) = bytes s ++ bytes t.
Proof.
  induction s as [|c s IH]; [done|].
  change (c :: bytes (s +:+ t) = c :: (bytes s ++ bytes t)). by rewrite IH.
Qed.

Lemma str_app l k : str (l ++ k) = str l +:+ str k.
Proof. by rewrite <-(str_bytes (str l +:+ str k)), bytes_app, !bytes_str. Qed.

Lemma bytes_inj s t : bytes s = bytes t → s = t.
Proof. intros E. by rewrite <-(str_bytes s), E, str_bytes. Qed.

Lemma bytes_nil s : bytes s = [] ↔ s = "".
Proof. destruct s; naive_solver. Qed.

Lemma str_nil l : str l = "" ↔ l = [].
Proof. destruct l; naive_solver. Qed.

(** [len(s)] of a Go string counts bytes. *)
Definition len (s : string) : Z := Z.of_nat (length (bytes s)).

(** ** Machine integers

    The daemon runs on 64-bit Linux: [int] and [uint] are 64 bits wide, C's
    [int] and [unsigned int] 32 bits.  The conversions wrap. *)
Definition MaxInt : Z := 2 ^ 63 - 1.
Definition MinInt : Z := - 2 ^ 63.
Definition MaxUint64 : Z := 2 ^ 64 - 1.
Definition MaxUint32 : Z := 2 ^ 32 - 1.
Definition MaxInt32 : Z := 2 ^ 31 - 1.
Definition MinInt32 : Z := - 2 ^ 31.

Definition uwrap (w z : Z) : Z := z mod 2 ^ w.
Definition swrap (w z : Z) : Z := (z + 2 ^ (w - 1)) mod 2 ^ w - 2 ^ (w - 1).

Abbreviation to_uint := (uwrap 64).
Abbreviation to_uint32 := (uwrap 32).
Abbreviation to_cint := (swrap 32).
Abbreviation to_cuint := (uwrap 32).

Definition is_uint (w z : Z) : Prop := (0 ≤ z < 2 ^ w)%Z.
Definition is_sint (w z : Z) : Prop := (- 2 ^ (w - 1) ≤ z < 2 ^ (w - 1))%Z.

#[global] Instance is_uint_dec w z : Decision (is_uint w z).
Proof. unfold is_uint. apply _. Defined.
#[global] Instance is_sint_dec w z : Decision (is_sint w z).
Proof. unfold is_sint. apply _. Defined.

Lemma uwrap_range w z : (0 ≤ w)%Z → is_uint w (uwrap w z).
Proof. intros. unfold is_uint, uwrap. apply Z.mod_pos_bound. lia. Qed.

Lemma uwrap_small w z : is_uint w z → uwrap w z = z.
Proof. intros. by apply Z.mod_small. Qed.

Lemma swrap_small w z : (0 < w)%Z → is_sint w z → swrap w z = z.
Proof.
  unfold is_sint, swrap. intros Hw Hz.
  assert (2 ^ w = 2 * 2 ^ (w - 1))%Z as E.
  { rewrite <-Z.pow_succ_r by lia. f_equal. lia. }
  rewrite Z.mod_small by lia. lia.
Qed.

Lemma swrap_range w z : (0 < w)%Z → is_sint w (swrap w z).
Proof.
  unfold is_sint, swrap. intros Hw.
  assert (2 ^ w = 2 * 2 ^ (w - 1))%Z as E.
  { rewrite <-Z.pow_succ_r by lia. f_equal. lia. }
  pose proof (Z.mod_pos_bound (z + 2 ^ (w - 1)) (2 ^ w)). lia.
Qed.

(** ** Go errors

    The sentinel errors of the program, the errors of the standard library the
    program names, a fresh error ([errors.New]) and an error wrapped with [%w]
    ([fmt.Errorf]).  A method result of Go type [error] is an [option error],
    [None] standing for [nil]. *)
Inductive error : Type :=
  (* internal/vnext/admission.go *)
  | ErrDualBind | ErrNotUnix | ErrEmptyAllowlist | ErrBadAllowlist
  (* internal/vnext/fake.go *)
  | ErrRefMismatch | ErrUnavailable
  (* cmd/xtest-server/dest.go *)
  | errLivePeer | errParentNotPrivate | errXCall | errCoordOutOfRange
  (* cmd/xtest-server/ws.go *)
  | errWSFrameTooLarge | errWSControlLarge
  (* Go standard library *)
  | io_EOF | io_ErrUnexpectedEOF | io_ErrShortWrite | net_ErrClosed
  | strconv_ErrSyntax | strconv_ErrRange | bufio_ErrTooLong | context_Canceled
  | os_ErrNotExist | syscall_Errno (n : Z)
  | errors_New (msg : string)
  | fmt_Errorf (msg : string) (e : error).

#[global] Instance error_eq_dec : EqDecision error.
Proof. solve_decision. Defined.

(** [errors.Is]: equality along the chain of [Unwrap]. *)
Fixpoint errors_Is (err target : error) : bool :=
  bool_decide (err = target) ||
  match err with
  | fmt_Errorf _ e => errors_Is e target
  | _ => false
  end.

(** ** Results that may fail: Go's [(T, error)] *)
Inductive result (A : Type) : Type :=
  | Ok (a : A)
  | Err (e : error).
Arguments Ok {A} a.
Arguments Err {A} e.

#[global] Instance result_ret : MRet result := @Ok.
#[global] Instance result_bind : MBind result := λ A B f m,
  match m with Ok a => f a | Err e => Err e end.

Lemma result_bind_Ok {A B} (f : A → result B) m b :
  (m ≫= f) = Ok b ↔ ∃ a, m = Ok a ∧ f a = Ok b.
Proof. destruct m; naive_solver. Qed.

(** An option that is there, read with any default. *)
Lemma default_is_Some {A} (x : A) (o : option A) :
  match o with Some _ => true | None => false end = true → o = Some (default x o).
Proof. by destruct o. Qed.

(** ** Automation *)
Create HintDb go discriminated.
Create Rewrite HintDb go.
#[export] Hint Rewrite bytes_str str_bytes bytes_app : go.
#[export] Hint Resolve b2z_range uwrap_range swrap_range : go.

(** Turn the boolean comparisons in the context into propositions. *)
Ltac bools :=
  repeat match goal with
  | H : (_ && _) = true |- _ => apply andb_true_iff in H as [? ?]
  | H : (_ || _) = false |- _ => apply orb_false_iff in H as [? ?]
  | H : negb _ = true |- _ => apply negb_true_iff in H
  | H : negb _ = false |- _ => apply negb_false_iff in H
  | H : bool_decide _ = true |- _ => apply bool_decide_eq_true_1 in H
  | H : bool_decide _ = false |- _ => apply bool_decide_eq_false_1 in H
  | H : (_ <? _)%Z = true |- _ => apply Z.ltb_lt in H
  | H : (_ <? _)%Z = false |- _ => apply Z.ltb_ge in H
  | H : (_ <=? _)%Z = true |- _ => apply Z.leb_le in H
  | H : (_ <=? _)%Z = false |- _ => apply Z.leb_gt in H
  | H : (_ =? _)%Z = true |- _ => apply Z.eqb_eq in H
  | H : (_ =? _)%Z = false |- _ => apply Z.eqb_neq in H
  end.

(** ** Generic list lemmas *)
Fixpoint drop_while {A} (f : A → bool) (l : list A) : list A :=
  match l with
  | [] => []
  | x :: l' => if f x then drop_while f l' else l
  end.

Definition trim_by {A} (f : A → bool) (l : list A) : list A :=
  reverse (drop_while f (reverse (drop_while f l))).

Lemma drop_while_false {A} (f : A → bool) x l :
  f x = false → drop_while f (x :: l) = x :: l.
Proof. intros E. cbn. by rewrite E. Qed.

Lemma drop_while_suffix {A} (f : A → bool) l : drop_while f l `suffix_of` l.
Proof.
  induction l as [|x l IH]; [done|]. cbn. destruct (f x); [|done].
  by apply suffix_cons_r.
Qed.

Lemma drop_while_head {A} (f : A → bool) l x k :
  drop_while f l = x :: k → f x = false.
Proof.
  induction l as [|y l IH]; [done|]. cbn.
  destruct (f y) eqn:E; [done|]. naive_solver.
Qed.

Lemma drop_while_idemp {A} (f : A → bool) l :
  drop_while f (drop_while f l) = drop_while f l.
Proof.
  destruct (drop_while f l) as [|x k] eqn:E; [done|].
  by rewrite drop_while_false by eauto using drop_while_head.
Qed.

Lemma trim_by_nil {A} (f : A → bool) : trim_by f [] = [].
Proof. done. Qed.

Lemma drop_while_snoc {A} (f : A → bool) l x :
  f x = false → drop_while f (l ++ [x]) = drop_while f l ++ [x].
Proof. intros E. induction l as [|y l IH]; cbn; [by rewrite E|]. by destruct (f y). Qed.

Lemma trim_by_idemp {A} (f : A → bool) l : trim_by f (trim_by f l) = trim_by f l.
Proof.
  unfold trim_by. destruct (drop_while f l) as [|x k] eqn:E; [done|].
  apply drop_while_head in E. rewrite reverse_cons, drop_while_snoc by done.
  rewrite reverse_app. change (reverse [x]) with [x]. cbn [app].
  rewrite drop_while_false by done.
  rewrite reverse_cons, reverse_involutive, drop_while_snoc by done.
  by rewrite drop_while_idemp, reverse_app.
Qed.

(** A list whose first and last elements stay is left alone. *)
Lemma trim_by_id {A} (f : A → bool) x l y k :
  x :: l = k ++ [y] → f x = false → f y = false → trim_by f (x :: l) = x :: l.
Proof.
  intros E Hx Hy. unfold trim_by. rewrite drop_while_false by done.
  rewrite E, reverse_app. change (reverse [y]) with [y]. cbn [app drop_while].
  rewrite Hy, reverse_cons, reverse_involutive. done.
Qed.
