(* ===== verification/Steps.v ===== *)
(** * Step relations: reachability, simulation and inevitability

    Generic facts the concurrent parts of the development share.  A run is a
    chain of steps ([rtc]); [inevitably] says that a condition is reached on
    every run, whatever the scheduler does. *)

From S2P Require Import Prelude.
From stdpp Require Import relations.

Section steps.
Context {S : Type} (step : S → S → Prop).

(** A property of the first state that every step keeps holds all along. *)
Lemma rtc_invariant (P : S → Prop) s s' :
  (∀ a b, P a → step a b → P b) → P s → rtc step s s' → P s'.
Proof. intros Hp Hs Hr. revert Hs. induction Hr; eauto. Qed.

(** On every run from [s] the condition [P] is reached: it holds now, or some
    step is possible and it is reached after every possible step. *)
Inductive inevitably (P : S → Prop) (s : S) : Prop :=
  | inevitably_now : P s → inevitably P s
  | inevitably_later :
    (∃ s', step s s') → (∀ s', step s s' → inevitably P s') → inevitably P s.

Lemma inevitably_mono (P Q : S → Prop) s :
  (∀ s', P s' → Q s') → inevitably P s → inevitably Q s.
Proof.
  intros HPQ. induction 1 as [s Hs|s He _ IH]; [by apply inevitably_now, HPQ|].
  by apply inevitably_later.
Qed.
End steps.

(** A map that turns steps into runs turns runs into runs. *)
Lemma rtc_simulates {C A} (cstep : C → C → Prop) (astep : A → A → Prop) (abs : C → A) s s' :
  (∀ a b, cstep a b → rtc astep (abs a) (abs b)) → rtc cstep s s' → rtc astep (abs s) (abs s').
Proof. intros Hs. induction 1 as [|a b c Hab _ IH]; [done|]. etrans; [by apply Hs|done]. Qed.

Section simulation.
Context {C A : Type} (cstep : C → C → Prop) (astep : A → A → Prop).
Context (abs : C → A) (inv : C → Prop) (measure : C → nat).

(** The diagram: a step of the detailed system is a step of the abstract one,
    or it is invisible there and makes the measure smaller. *)
Context (Hsim : ∀ s s', inv s → cstep s s' →
  inv s' ∧ (astep (abs s) (abs s') ∨ abs s = abs s' ∧ (measure s' < measure s)%nat)).

(** If the abstract system cannot run forever and the detailed one stops only
    where [P] holds, then [P] is reached on every run. *)
Lemma simulation_inevitably (P : C → Prop) s :
  (∀ t, inv t → P t ∨ ∃ t', cstep t t') →
  Acc (flip astep) (abs s) → inv s → inevitably cstep P s.
Proof.
  intros Hprog Hacc. remember (abs s) as a eqn:Ea. revert s Ea.
  induction Hacc as [a _ IHa]. intros s Ea.
  remember (measure s) as n eqn:En. revert s Ea En.
  induction n as [n IHn] using lt_wf_ind. intros s Ea En Hi.
  destruct (Hprog s Hi) as [Hp|He]; [by apply inevitably_now|].
  apply inevitably_later; [done|]. intros t Ht.
  destruct (Hsim s t Hi Ht) as [Hit [Hd|[E Hm]]].
  - eapply (IHa (abs t)); [by subst a|done|done].
  - eapply IHn; [|by rewrite <-E|done|done]. by subst n.
Qed.
End simulation.
