(* ===== verification/GoStrings.v ===== *)
(** * The parts of Go's text packages the daemon uses

    [unicode/utf8], [unicode.IsSpace], [strings], [strconv] and
    [path/filepath], as functions on byte strings.  Every function treats all
    byte strings, invalid UTF-8 included, the way the Go 1.26 library does. *)

From S2P Require Import Prelude.
Local Open Scope Z_scope.

(** ** unicode/utf8 *)
Module utf8.

Definition RuneSelf : Z := 0x80.
Definition RuneError : Z := 0xFFFD.

(** The size of the sequence a lead byte announces, with the range its second
    byte must lie in; [None] for a byte that starts no sequence. *)
Definition lead (s0 : Z) : option (nat * Z * Z) :=
  if (0xC2 <=? s0) && (s0 <=? 0xDF) then Some (2%nat, 0x80, 0xBF)
  else if s0 =? 0xE0 then Some (3%nat, 0xA0, 0xBF)
  else if s0 =? 0xED then Some (3%nat, 0x80, 0x9F)
  else if (0xE1 <=? s0) && (s0 <=? 0xEF) then Some (3%nat, 0x80, 0xBF)
  else if s0 =? 0xF0 then Some (4%nat, 0x90, 0xBF)
  else if s0 =? 0xF4 then Some (4%nat, 0x80, 0x8F)
  else if (0xF1 <=? s0) && (s0 <=? 0xF3) then Some (4%nat, 0x80, 0xBF)
  else None.

Definition within (lo hi : Z) (c : ascii) : bool :=
  (lo <=? b2z c) && (b2z c <=? hi).

Definition low6 (c : ascii) : Z := Z.land (b2z c) 0x3F.

(** [utf8.DecodeRune]: the first code point and its width in bytes;
    [(RuneError, 1)] for an invalid encoding, [(RuneError, 0)] at the end. *)
Definition DecodeRune (l : list ascii) : Z * nat :=
  match l with
  | [] => (RuneError, 0%nat)
  | c0 :: l1 =>
    if b2z c0 <? RuneSelf then (b2z c0, 1%nat) else
    match lead (b2z c0), l1 with
    | Some (sz, lo, hi), c1 :: l2 =>
      if negb (within lo hi c1) then (RuneError, 1%nat) else
      match sz, l2 with
      | 2%nat, _ =>
        (Z.lor (Z.shiftl (Z.land (b2z c0) 0x1F) 6) (low6 c1), 2%nat)
      | 3%nat, c2 :: _ =>
        if negb (within 0x80 0xBF c2) then (RuneError, 1%nat) else
        (Z.lor (Z.shiftl (Z.land (b2z c0) 0x0F) 12)
           (Z.lor (Z.shiftl (low6 c1) 6) (low6 c2)), 3%nat)
      | 4%nat, c2 :: c3 :: _ =>
        if negb (within 0x80 0xBF c2 && within 0x80 0xBF c3)
        then (RuneError, 1%nat) else
        (Z.lor (Z.shiftl (Z.land (b2z c0) 0x07) 18)
           (Z.lor (Z.shiftl (low6 c1) 12)
              (Z.lor (Z.shiftl (low6 c2) 6) (low6 c3))), 4%nat)
      | _, _ => (RuneError, 1%nat)
      end
    | _, _ => (RuneError, 1%nat)
    end
  end.

(** [utf8.AppendRune]: the encoding of a code point; surrogates and values
    outside the Unicode range are written as U+FFFD. *)
Definition EncodeRune (r : Z) : list ascii :=
  let r := if (r <? 0) || (0x10FFFF <? r) || ((0xD800 <=? r) && (r <=? 0xDFFF))
           then RuneError else r in
  let tail n := z2b (Z.lor 0x80 (Z.land (Z.shiftr r n) 0x3F)) in
  if r <? 0x80 then [z2b r]
  else if r <? 0x800 then [z2b (Z.lor 0xC0 (Z.shiftr r 6)); tail 0]
  else if r <? 0x10000 then
    [z2b (Z.lor 0xE0 (Z.shiftr r 12)); tail 6; tail 0]
  else [z2b (Z.lor 0xF0 (Z.shiftr r 18)); tail 12; tail 6; tail 0].

(** Iteration by code points ([for _, r := range s]): each code point with the
    bytes it was read from.  [skip] counts the bytes of the current code point
    still to be passed over. *)
Fixpoint runes_from (skip : nat) (l : list ascii) : list (Z * list ascii) :=
  match l with
  | [] => []
  | _ :: l' =>
    match skip with
    | S k => runes_from k l'
    | O => let '(r, n) := DecodeRune l in (r, take n l) :: runes_from (pred n) l'
    end
  end.

Definition runes (s : string) : list (Z * list ascii) := runes_from 0 (bytes s).

Lemma DecodeRune_width c l :
  (1 ≤ snd (DecodeRune (c :: l)) ≤ length (c :: l))%nat.
Proof.
  unfold DecodeRune. repeat case_match; simplify_eq/=; lia.
Qed.

Lemma DecodeRune_ascii c l :
  b2z c < RuneSelf → DecodeRune (c :: l) = (b2z c, 1%nat).
Proof. intros Hc. unfold DecodeRune. by rewrite (proj2 (Z.ltb_lt _ _) Hc). Qed.

Lemma runes_from_skip k l : (k ≤ length l)%nat → runes_from k l = runes_from 0 (drop k l).
Proof.
  revert k. induction l as [|c l IH]; intros [|k] Hk; cbn in *; try done; try lia.
  apply IH. lia.
Qed.

Lemma runes_from_cons c l :
  runes_from 0 (c :: l) =
  let n := snd (DecodeRune (c :: l)) in
  (fst (DecodeRune (c :: l)), take n (c :: l)) :: runes_from 0 (drop n (c :: l)).
Proof.
  pose proof (DecodeRune_width c l) as Hw.
  cbn -[DecodeRune take drop]. destruct (DecodeRune (c :: l)) as [r n].
  cbn -[take drop] in *. f_equal. destruct n as [|n]; [lia|].
  cbn [pred drop]. apply runes_from_skip. cbn in Hw. lia.
Qed.

(** Induction along the code points of a byte string. *)
Lemma rune_ind (P : list ascii → Prop) :
  P [] →
  (∀ c l, P (drop (snd (DecodeRune (c :: l))) (c :: l)) → P (c :: l)) →
  ∀ l, P l.
Proof.
  intros H0 Hc l. remember (length l) as n eqn:Hn. revert l Hn.
  induction (lt_wf n) as [n _ IH]. intros [|c l] ->; [done|].
  apply Hc. eapply IH; [|done]. pose proof (DecodeRune_width c l).
  rewrite length_drop. cbn in *. lia.
Qed.

(** Iterating by code points loses no byte. *)
Lemma concat_runes l : concat (map snd (runes_from 0 l)) = l.
Proof.
  induction l as [|c l IH] using rune_ind; [done|].
  rewrite runes_from_cons. cbv zeta. cbn [map concat snd].
  rewrite IH. apply take_drop.
Qed.

(** Decoding looks only at the bytes of the code point it finds, or finds an
    error that missing bytes cannot repair. *)
Lemma DecodeRune_prefix c k m :
  (snd (DecodeRune (c :: k ++ m)) ≤ S (length k))%nat →
  DecodeRune (c :: k) = DecodeRune (c :: k ++ m).
Proof.
  unfold DecodeRune. case_match; [done|].
  destruct (lead (b2z c)) as [[[sz lo] hi]|] eqn:Hl; [|by destruct k, m].
  assert (sz = 2 ∨ sz = 3 ∨ sz = 4)%nat as Hsz
    by (unfold lead in Hl; repeat case_match; naive_solver).
  destruct k as [|c1 [|c2 [|c3 k]]]; cbn [app length]; [| | |done];
    destruct m as [|d1 [|d2 [|d3 m]]]; destruct Hsz as [-> |[-> | ->]];
    repeat case_match; cbn; intros; try done; lia.
Qed.

Lemma runes_from_take n l :
  runes_from 0 (concat (map snd (take n (runes_from 0 l)))) = take n (runes_from 0 l).
Proof.
  revert n. induction l as [|c l IH] using rune_ind; intros n; [by destruct n|].
  destruct n as [|n]; [done|]. rewrite runes_from_cons. cbv zeta.
  set (w := snd (DecodeRune (c :: l))) in *.
  pose proof (DecodeRune_width c l) as Hw. fold w in Hw.
  cbn [take map concat snd]. set (t := concat (map snd (take n (runes_from 0 (drop w (c :: l)))))).
  assert (∃ u, drop w (c :: l) = t ++ u) as [u Hu].
  { exists (concat (map snd (drop n (runes_from 0 (drop w (c :: l)))))).
    unfold t. by rewrite <-concat_app, <-map_app, take_drop, concat_runes. }
  destruct w as [|w'] eqn:Ew; [lia|]. cbn [take app]. cbn [drop] in Hu.
  cbn [length] in Hw.
  assert (c :: l = c :: (take w' l ++ t) ++ u) as El
    by (by rewrite <-app_assoc, <-Hu, take_drop).
  rewrite runes_from_cons, (DecodeRune_prefix _ _ u), <-El.
  2: { rewrite <-El. fold w. rewrite Ew, length_app, length_take. lia. }
  fold w. rewrite Ew. cbv zeta. cbn [take drop].
  rewrite take_app_le, drop_app_le by (rewrite length_take; lia).
  rewrite take_take, Nat.min_id, drop_ge by (rewrite length_take; lia). cbn [app].
  f_equal. apply IH.
Qed.

Lemma runes_from_drop n l :
  runes_from 0 (concat (map snd (drop n (runes_from 0 l)))) = drop n (runes_from 0 l).
Proof.
  revert n. induction l as [|c l IH] using rune_ind; intros n; [by destruct n|].
  destruct n as [|n]; [by rewrite !drop_0, concat_runes|].
  rewrite runes_from_cons. cbv zeta. apply IH.
Qed.

(** An ASCII byte is a code point of its own, whatever precedes it. *)
Lemma DecodeRune_snoc c l d :
  b2z d < RuneSelf → DecodeRune ((c :: l) ++ [d]) = DecodeRune (c :: l).
Proof.
  intros Hd. unfold RuneSelf in Hd. unfold DecodeRune. cbn [app].
  case_match; [done|].
  destruct (lead (b2z c)) as [[[sz lo] hi]|] eqn:Hl; [|by destruct l].
  assert (∀ lo, 0x80 ≤ lo → within lo hi d = false) as Hw.
  { intros lo' ?. unfold within. by rewrite (proj2 (Z.leb_gt _ _)) by lia. }
  assert (0x80 ≤ lo).
  { unfold lead in Hl. repeat case_match; simplify_eq; lia. }
  assert (within 0x80 0xBF d = false) as Hw'.
  { unfold within. by rewrite (proj2 (Z.leb_gt _ _)) by lia. }
  destruct l as [|c1 [|c2 [|c3 l]]]; cbn [app].
  - by rewrite Hw.
  - repeat case_match; try done; by rewrite Hw' in *.
  - repeat case_match; try done; by rewrite Hw', ?andb_false_r in *.
  - done.
Qed.

Lemma runes_from_snoc l d :
  b2z d < RuneSelf → runes_from 0 (l ++ [d]) = runes_from 0 l ++ [(b2z d, [d])].
Proof.
  intros Hd. induction l as [|c l IH] using rune_ind.
  - cbn [app]. rewrite runes_from_cons, DecodeRune_ascii by done. done.
  - pose proof (DecodeRune_width c l) as Hw.
    change ((c :: l) ++ [d]) with (c :: (l ++ [d])). rewrite !runes_from_cons.
    change (c :: (l ++ [d])) with ((c :: l) ++ [d]). rewrite DecodeRune_snoc by done.
    cbv zeta. rewrite take_app_le, drop_app_le, IH by lia. done.
Qed.

(** On an all-ASCII string the code points are the bytes. *)
Lemma runes_from_ascii l :
  Forall (λ c, b2z c < RuneSelf) l → runes_from 0 l = map (λ c, (b2z c, [c])) l.
Proof.
  induction 1 as [|c l Hc _ IH]; [done|].
  rewrite runes_from_cons, DecodeRune_ascii by done.
  cbv zeta. cbn [fst snd take drop map]. by rewrite take_0, drop_0, IH.
Qed.
End utf8.

(** ** unicode.IsSpace: the White_Space property *)
Definition IsSpace (r : Z) : bool :=
  ((9 <=? r) && (r <=? 13)) || (r =? 0x20) || (r =? 0x85) || (r =? 0xA0) ||
  (r =? 0x1680) || ((0x2000 <=? r) && (r <=? 0x200A)) ||
  (r =? 0x2028) || (r =? 0x2029) || (r =? 0x202F) || (r =? 0x205F) ||
  (r =? 0x3000).

(** ** strings *)
Module strings.
Import utf8.

Definition space_rune (p : Z * list ascii) : bool := IsSpace (fst p).
Definition join_runes (l : list (Z * list ascii)) : string :=
  str (concat (map snd l)).

(** [strings.TrimSpace]: drop the leading and the trailing white-space code
    points.  Reading a string from its end finds the same trailing code points
    as reading it from its start: the first byte of the encoding of a space is
    never a continuation byte. *)
Definition TrimSpace (s : string) : string :=
  join_runes (trim_by space_rune (runes s)).

(** [strings.Fields]: the maximal runs of code points that are not spaces.
    [cur] is the field being read, last byte first. *)
Fixpoint fields_from (cur : list ascii) (l : list (Z * list ascii)) : list string :=
  let flush rest := match cur with [] => rest | _ => str (reverse cur) :: rest end in
  match l with
  | [] => flush []
  | (r, b) :: l' =>
    if IsSpace r then flush (fields_from [] l')
    else fields_from (reverse b ++ cur) l'
  end.

Definition Fields (s : string) : list string := fields_from [] (runes s).

(** [strings.Split] with a one-byte separator. *)
Fixpoint split_from (sep : ascii) (cur : list ascii) (l : list ascii) : list string :=
  match l with
  | [] => [str (reverse cur)]
  | c :: l' =>
    if bool_decide (c = sep) then str (reverse cur) :: split_from sep [] l'
    else split_from sep (c :: cur) l'
  end.

Definition Split (s : string) (sep : ascii) : list string :=
  split_from sep [] (bytes s).

Fixpoint is_prefix (p l : list ascii) : bool :=
  match p, l with
  | [], _ => true
  | c :: p', d :: l' => bool_decide (c = d) && is_prefix p' l'
  | _ :: _, [] => false
  end.

Definition HasPrefix (s p : string) : bool := is_prefix (bytes p) (bytes s).

Definition TrimPrefix (s p : string) : string :=
  if HasPrefix s p then str (drop (length (bytes p)) (bytes s)) else s.

Fixpoint contains_at (p l : list ascii) : bool :=
  is_prefix p l || match l with [] => false | _ :: l' => contains_at p l' end.

Definition Contains (s p : string) : bool := contains_at (bytes p) (bytes s).

(** [strings.ContainsAny] and [strings.ContainsRune] for ASCII characters, and
    [strings.TrimRight] for an ASCII cutset: these work byte by byte. *)
Definition ContainsAny (s : string) (cs : list ascii) : bool :=
  existsb (λ c, existsb (λ d, bool_decide (c = d)) cs) (bytes s).

Definition ContainsByte (s : string) (c : ascii) : bool := ContainsAny s [c].

Definition TrimRight (s : string) (cs : list ascii) : string :=
  str (reverse (drop_while (λ c, existsb (λ d, bool_decide (c = d)) cs)
                  (reverse (bytes s)))).

Lemma join_runes_runes s : join_runes (runes s) = s.
Proof. unfold join_runes, runes. by rewrite concat_runes, str_bytes. Qed.

(** A text that starts and ends with an ASCII byte that is no space has
    nothing to trim. *)
Lemma TrimSpace_id s c l k d :
  bytes s = c :: l → bytes s = k ++ [d] →
  b2z c < RuneSelf → IsSpace (b2z c) = false →
  b2z d < RuneSelf → IsSpace (b2z d) = false →
  TrimSpace s = s.
Proof.
  intros Hs Hs' Hc Hcs Hd Hds. unfold TrimSpace.
  assert (runes s = (b2z c, [c]) :: runes_from 0 l) as E1.
  { unfold runes. rewrite Hs, runes_from_cons, DecodeRune_ascii by done.
    cbv zeta. cbn [fst snd take drop]. by rewrite take_0, drop_0. }
  assert (runes s = runes_from 0 k ++ [(b2z d, [d])]) as E2.
  { unfold runes. rewrite Hs'. by apply runes_from_snoc. }
  rewrite E1. erewrite trim_by_id; [|by rewrite <-E1, E2|done|done].
  rewrite <-E1. apply join_runes_runes.
Qed.

(** The code points of a trimmed text. *)
Lemma runes_TrimSpace s : runes (TrimSpace s) = trim_by space_rune (runes s).
Proof.
  unfold TrimSpace, join_runes. unfold runes at 1. rewrite bytes_str. unfold trim_by.
  destruct (drop_while_suffix space_rune (runes s)) as [p Hp].
  set (l := drop_while space_rune (runes s)) in *.
  destruct (drop_while_suffix space_rune (reverse l)) as [q Hq].
  set (k := drop_while space_rune (reverse l)) in *.
  assert (l = reverse k ++ reverse q) as El
    by (by rewrite <-reverse_app, <-Hq, reverse_involutive).
  assert (runes_from 0 (concat (map snd l)) = l) as Hl.
  { replace l with (drop (length p) (runes s)); [apply runes_from_drop|].
    by rewrite Hp, drop_app_length. }
  pose proof (runes_from_take (length (reverse k)) (concat (map snd l))) as Ht.
  rewrite Hl in Ht. by rewrite El, take_app_length in Ht.
Qed.

Lemma TrimSpace_idemp s : TrimSpace (TrimSpace s) = TrimSpace s.
Proof. unfold TrimSpace at 1. by rewrite runes_TrimSpace, trim_by_idemp. Qed.

Lemma TrimSpace_nil : TrimSpace "" = "".
Proof. done. Qed.

Lemma is_prefix_spec p l : is_prefix p l = true ↔ ∃ k, l = p ++ k.
Proof.
  revert l. induction p as [|c p IH]; intros l; cbn; [naive_solver|].
  destruct l as [|d l]; [naive_solver|].
  rewrite andb_true_iff, bool_decide_eq_true, IH. naive_solver.
Qed.

Lemma HasPrefix_spec s p : HasPrefix s p = true ↔ ∃ t, s = p +:+ t.
Proof.
  unfold HasPrefix. rewrite is_prefix_spec. split.
  - intros [k E]. exists (str k). apply bytes_inj. by rewrite bytes_app, bytes_str.
  - intros [t ->]. exists (bytes t). apply bytes_app.
Qed.

Lemma HasPrefix_app p t : HasPrefix (p +:+ t) p = true.
Proof. apply HasPrefix_spec. eauto. Qed.

Lemma TrimPrefix_app p t : TrimPrefix (p +:+ t) p = t.
Proof.
  unfold TrimPrefix. rewrite HasPrefix_app, bytes_app, drop_app_length. apply str_bytes.
Qed.

(** The pieces of a split hold no separator, and joining them undoes it. *)
Fixpoint Join (l : list string) (sep : ascii) : string :=
  match l with
  | [] => ""
  | x :: l' => match l' with [] => x | _ => x +:+ String sep (Join l' sep) end
  end.

Lemma split_from_pieces sep cur l :
  sep ∉ cur → Forall (λ p, sep ∉ bytes p) (split_from sep cur l).
Proof.
  revert cur. induction l as [|c l IH]; intros cur Hc; cbn.
  - constructor; [|constructor]. rewrite bytes_str. by rewrite elem_of_reverse.
  - case_bool_decide.
    + constructor; [by rewrite bytes_str, elem_of_reverse|]. apply IH, not_elem_of_nil.
    + apply IH. apply not_elem_of_cons. auto.
Qed.

Lemma split_from_app sep cur x l :
  sep ∉ x → split_from sep cur (x ++ sep :: l) = str (reverse cur ++ x) :: split_from sep [] l.
Proof.
  revert cur. induction x as [|c x IH]; intros cur Hx; cbn.
  - by rewrite bool_decide_eq_true_2, app_nil_r.
  - apply not_elem_of_cons in Hx as [Hc Hx]. rewrite bool_decide_eq_false_2 by done.
    rewrite IH by done. by rewrite reverse_cons, <-app_assoc.
Qed.

Lemma split_from_last sep cur x : sep ∉ x → split_from sep cur x = [str (reverse cur ++ x)].
Proof.
  revert cur. induction x as [|c x IH]; intros cur Hx; cbn; [by rewrite app_nil_r|].
  apply not_elem_of_cons in Hx as [Hc Hx]. rewrite bool_decide_eq_false_2 by done.
  rewrite IH by done. by rewrite reverse_cons, <-app_assoc.
Qed.

Lemma Split_Join l sep :
  l ≠ [] → Forall (λ p, sep ∉ bytes p) l → Split (Join l sep) sep = l.
Proof.
  intros Hl H. unfold Split. induction H as [|x l Hx Hl' IH]; [done|].
  destruct l as [|y l]; cbn [Join].
  - rewrite split_from_last by done. by rewrite app_nil_l, str_bytes.
  - rewrite bytes_app. change (bytes (String sep ?t)) with (sep :: bytes t).
    rewrite split_from_app by done. rewrite app_nil_l, str_bytes. f_equal. by apply IH.
Qed.
End strings.

(** ** strconv *)
Module strconv.

Definition digit (c : ascii) : option Z :=
  let d := b2z c - 48 in
  if (0 <=? d) && (d <=? 9) then Some d else None.

(** The digit loop of [strconv.ParseUint] in base 10: it stops at the first
    byte that is not a digit or that takes the value past [maxVal]. *)
Fixpoint uint_loop (maxVal n : Z) (l : list ascii) : Z * option error :=
  match l with
  | [] => (n, None)
  | c :: l' =>
    match digit c with
    | None => (0, Some strconv_ErrSyntax)
    | Some d =>
      let n1 := n * 10 + d in
      if maxVal <? n1 then (maxVal, Some strconv_ErrRange)
      else uint_loop maxVal n1 l'
    end
  end.

Definition ParseUint (s : string) (bits : Z) : Z * option error :=
  match bytes s with
  | [] => (0, Some strconv_ErrSyntax)
  | l => uint_loop (2 ^ bits - 1) 0 l
  end.

(** [strconv.ParseInt(s, 10, 64)]: an optional sign, then [ParseUint]; a value
    out of range is returned clamped together with the error. *)
Definition ParseInt (s : string) : Z * option error :=
  let '(neg, t) := match s with
                   | String "-" t => (true, t)
                   | String "+" t => (false, t)
                   | _ => (false, s)
                   end in
  match ParseUint t 64 with
  | (_, Some strconv_ErrSyntax) => (0, Some strconv_ErrSyntax)
  | (un, _) =>
    if negb neg && (2 ^ 63 <=? un) then (2 ^ 63 - 1, Some strconv_ErrRange)
    else if neg && (2 ^ 63 <? un) then (- 2 ^ 63, Some strconv_ErrRange)
    else (if neg then - un else un, None)
  end.

Definition Atoi (s : string) : Z * option error := ParseInt s.

Definition digit_char (d : Z) : ascii := z2b (48 + d).

(** The decimal digits of [n], most significant first.  The binary length of
    [n] is more fuel than it has decimal digits. *)
Fixpoint digits_loop (fuel : nat) (n : Z) (acc : list ascii) : list ascii :=
  let acc' := digit_char (n mod 10) :: acc in
  match fuel with
  | O => acc'
  | S f => if n <? 10 then acc' else digits_loop f (n / 10) acc'
  end.

Definition digits (n : Z) : list ascii := digits_loop (Z.to_nat (Z.log2 n)) n [].

(** [strconv.Itoa] and [%d]. *)
Definition Itoa (z : Z) : string :=
  if z <? 0 then String "-" (str (digits (- z))) else str (digits z).

Lemma digit_char_spec d : 0 ≤ d ≤ 9 → digit (digit_char d) = Some d.
Proof.
  intros. unfold digit, digit_char. rewrite b2z_z2b by lia.
  rewrite (proj2 (andb_true_iff _ _)) by lia. f_equal. lia.
Qed.

Lemma digit_inv c d : digit c = Some d → 0 ≤ d ≤ 9 ∧ b2z c = 48 + d.
Proof. unfold digit. case_match; intros; simplify_eq; bools; lia. Qed.

Lemma log2_div10 n : 10 ≤ n → Z.log2 (n / 10) ≤ Z.log2 n - 1.
Proof.
  intros Hn.
  assert (Z.log2 (n / 10) ≤ Z.log2 (n / 2)) by (apply Z.log2_le_mono, Z.div_le_compat_l; lia).
  assert (Z.log2 (n / 2) = Z.log2 n - 1) as Hl; [|lia].
  rewrite <-Z.div2_div, Z.div2_spec, Z.log2_shiftr by lia.
  pose proof (Z.log2_le_mono 2 n). change (Z.log2 2) with 1 in *. lia.
Qed.

(** Reading a number back: the loop of [ParseUint] inverts the printer. *)
Lemma uint_loop_digits_loop maxVal fuel n acc :
  0 ≤ n ≤ maxVal → Z.log2 n ≤ Z.of_nat fuel →
  uint_loop maxVal 0 (digits_loop fuel n acc) = uint_loop maxVal n acc.
Proof.
  revert n acc. induction fuel as [|f IH]; intros n acc Hn Hf;
    cbn [digits_loop].
  - assert (n ≤ 1) by (apply Z.log2_null; pose proof (Z.log2_nonneg n); lia).
    cbn [uint_loop]. rewrite digit_char_spec by (rewrite Z.mod_small; lia).
    rewrite Z.mod_small by lia. cbv zeta.
    rewrite (proj2 (Z.ltb_ge _ _)) by lia. f_equal; lia.
  - pose proof (Z.mod_pos_bound n 10). pose proof (Z.div_mod n 10).
    destruct (n <? 10) eqn:E; bools.
    + cbn [uint_loop]. rewrite digit_char_spec by lia.
      rewrite Z.mod_small by lia. cbv zeta.
      rewrite (proj2 (Z.ltb_ge _ _)) by lia. f_equal; lia.
    + rewrite IH; [|lia|].
      * cbn [uint_loop]. rewrite digit_char_spec by lia. cbv zeta.
        rewrite (proj2 (Z.ltb_ge _ _)) by lia. f_equal; lia.
      * pose proof (log2_div10 n). lia.
Qed.

Lemma uint_loop_digits maxVal n :
  0 ≤ n ≤ maxVal → uint_loop maxVal 0 (digits n) = (n, None).
Proof.
  intros. unfold digits. rewrite uint_loop_digits_loop; [done|done|].
  pose proof (Z.log2_nonneg n). lia.
Qed.

Lemma digits_loop_forall fuel n acc :
  0 ≤ n → Forall (λ c, is_Some (digit c)) acc →
  Forall (λ c, is_Some (digit c)) (digits_loop fuel n acc).
Proof.
  revert n acc. induction fuel as [|f IH]; intros n acc Hn Hacc; cbn;
    pose proof (Z.mod_pos_bound n 10);
    (assert (Forall (λ c, is_Some (digit c)) (digit_char (n mod 10) :: acc));
     [constructor; [rewrite digit_char_spec by lia; eauto|done]|]); [done|].
  case_match; [done|]. apply IH; [|done]. apply Z.div_pos; lia.
Qed.

Lemma digits_forall n : 0 ≤ n → Forall (λ c, is_Some (digit c)) (digits n).
Proof. intros. by apply digits_loop_forall. Qed.

Lemma digits_loop_snoc fuel n acc : digits_loop fuel n acc ≠ [].
Proof.
  revert n acc. induction fuel as [|f IH]; intros n acc; cbn; [done|].
  case_match; [done|]. apply IH.
Qed.

Lemma digits_cons n : ∃ c l, digits n = c :: l.
Proof.
  destruct (digits n) eqn:E; [|eauto]. by apply digits_loop_snoc in E.
Qed.

(** No leading zero: a positive number starts with a digit from 1 to 9. *)
Lemma digits_loop_head fuel n acc :
  0 < n → Z.log2 n ≤ Z.of_nat fuel →
  ∃ d l, digits_loop fuel n acc = digit_char d :: l ∧ 1 ≤ d ≤ 9.
Proof.
  revert n acc. induction fuel as [|f IH]; intros n acc Hn Hf; cbn [digits_loop].
  - assert (n ≤ 1) by (apply Z.log2_null; pose proof (Z.log2_nonneg n); lia).
    eexists _, _. split; [done|]. rewrite Z.mod_small; lia.
  - destruct (n <? 10) eqn:E; bools.
    + eexists _, _. split; [done|]. rewrite Z.mod_small; lia.
    + pose proof (log2_div10 n). apply IH; [|lia]. apply Z.div_str_pos. lia.
Qed.

Lemma digits_head n : 0 < n → ∃ d l, digits n = digit_char d :: l ∧ 1 ≤ d ≤ 9.
Proof.
  intros. apply digits_loop_head; [done|]. pose proof (Z.log2_nonneg n). lia.
Qed.

Lemma ParseUint_digits n bits :
  is_uint bits n → ParseUint (str (digits n)) bits = (n, None).
Proof.
  intros Hn. unfold ParseUint. rewrite bytes_str.
  destruct (digits_cons n) as (c & l & E). rewrite E, <-E.
  apply uint_loop_digits. unfold is_uint in Hn. lia.
Qed.

Lemma ParseUint_Itoa n bits : 0 ≤ n < 2 ^ bits → ParseUint (Itoa n) bits = (n, None).
Proof.
  intros Hn. unfold Itoa. rewrite (proj2 (Z.ltb_ge n 0)) by lia.
  by apply ParseUint_digits.
Qed.

(** A larger limit accepts what a smaller one does. *)
Lemma uint_loop_weaken m m' n l v :
  m ≤ m' → uint_loop m n l = (v, None) → uint_loop m' n l = (v, None).
Proof.
  intros Hm. revert n. induction l as [|c l IH]; intros n; cbn [uint_loop]; [done|].
  destruct (digit c); [|done]. cbv zeta. destruct (m <? _) eqn:E; [done|]. bools.
  rewrite (proj2 (Z.ltb_ge m' _)) by lia. apply IH.
Qed.

(** Only the number itself is read from a printed number. *)
Lemma ParseUint_Itoa_inv z bits v :
  0 ≤ bits → ParseUint (Itoa z) bits = (v, None) → v = z.
Proof.
  intros Hb H. destruct (Z.lt_ge_cases z 0) as [Hz|Hz].
  - unfold Itoa in H. rewrite (proj2 (Z.ltb_lt z 0)) in H by done. done.
  - assert (ParseUint (Itoa z) (Z.max bits z) = (v, None)) as H'.
    { unfold ParseUint in *. destruct (bytes (Itoa z)); [done|].
      eapply uint_loop_weaken; [|exact H]. pose proof (Z.pow_le_mono_r 2 bits (Z.max bits z)). lia. }
    rewrite ParseUint_Itoa in H'; [congruence|].
    pose proof (Z.pow_gt_lin_r 2 z). pose proof (Z.pow_le_mono_r 2 z (Z.max bits z)). lia.
Qed.

(** A successful unsigned parse fits the width asked for. *)
Lemma uint_loop_range maxVal n l m :
  0 ≤ n ≤ maxVal → uint_loop maxVal n l = (m, None) → 0 ≤ m ≤ maxVal.
Proof.
  revert n. induction l as [|c l IH]; intros n Hn; cbn; [naive_solver|].
  destruct (digit c) as [d|] eqn:Hd; [|done]. apply digit_inv in Hd.
  case_match; [done|]. bools. apply IH. lia.
Qed.

Lemma ParseUint_range s bits m :
  0 ≤ bits → ParseUint s bits = (m, None) → is_uint bits m.
Proof.
  intros Hb. unfold ParseUint, is_uint. case_match; [done|]. intros Hp.
  apply uint_loop_range in Hp; [lia|]. pose proof (Z.pow_pos_nonneg 2 bits). lia.
Qed.

Lemma uint_loop_nonneg maxVal n l :
  0 ≤ maxVal → 0 ≤ n → 0 ≤ fst (uint_loop maxVal n l).
Proof.
  intros Hm. revert n. induction l as [|c l IH]; intros n Hn; cbn; [done|].
  destruct (digit c) as [d|] eqn:Hd; [|done]. apply digit_inv in Hd.
  case_match; [done|]. apply IH. lia.
Qed.

Lemma ParseUint_nonneg s bits : 0 ≤ bits → 0 ≤ fst (ParseUint s bits).
Proof.
  intros. unfold ParseUint. case_match; [done|]. apply uint_loop_nonneg; [|done].
  pose proof (Z.pow_pos_nonneg 2 bits). lia.
Qed.

Lemma ParseInt_unsigned c t :
  is_Some (digit c) →
  ParseInt (String c t) =
    match ParseUint (String c t) 64 with
    | (_, Some strconv_ErrSyntax) => (0, Some strconv_ErrSyntax)
    | (un, _) => if 2 ^ 63 <=? un then (2 ^ 63 - 1, Some strconv_ErrRange) else (un, None)
    end.
Proof.
  intros [d Hd]. destruct c as [[] [] [] [] [] [] [] []]; done.
Qed.

(** Signed round trip. *)
Lemma ParseInt_Itoa z : is_sint 64 z → ParseInt (Itoa z) = (z, None).
Proof.
  unfold is_sint. change (64 - 1) with 63. intros Hz.
  unfold Itoa. destruct (z <? 0) eqn:E; bools.
  - unfold ParseInt. rewrite ParseUint_digits by (unfold is_uint; lia). cbn.
    rewrite (proj2 (Z.ltb_ge _ _)) by lia. f_equal. lia.
  - destruct (digits_cons z) as (c & l & Hd). pose proof (digits_forall z E) as Hf.
    rewrite Hd in Hf. apply Forall_cons_1 in Hf as [Hc _].
    pose proof (ParseUint_digits z 64) as Hp. rewrite Hd in Hp |- *.
    change (str (c :: l)) with (String c (str l)) in *.
    rewrite ParseInt_unsigned, Hp by (done || (unfold is_uint; lia)).
    by rewrite (proj2 (Z.leb_gt _ _)) by lia.
Qed.

(** Whatever the text, the value [ParseInt] and [Atoi] return is an [int]. *)
Lemma ParseInt_range s : is_sint 64 (fst (ParseInt s)).
Proof.
  unfold ParseInt, is_sint. change (64 - 1) with 63.
  destruct (match s with String "-" t => (true, t) | String "+" t => (false, t)
            | _ => (false, s) end) as [neg t].
  pose proof (ParseUint_nonneg t 64 ltac:(lia)) as Hu.
  destruct (ParseUint t 64) as [u o]. cbn in Hu.
  repeat case_match; cbn [fst]; bools; try lia; destruct neg; bools; cbn in *; lia.
Qed.
End strconv.

(** ** path/filepath (Unix) *)
Module filepath.
Import strings.

Definition join_slash (l : list string) : string :=
  match l with
  | [] => ""
  | x :: l' => foldl (λ a b, a +:+ "/" +:+ b) x l'
  end.

(** One component of [filepath.Clean]; [out] holds the components kept so far,
    last one first. *)
Definition clean_step (rooted : bool) (out : list string) (p : string) : list string :=
  if bool_decide (p = "" ∨ p = ".") then out
  else if bool_decide (p = "..") then
    match out with
    | [] => if rooted then [] else [".."]
    | q :: out' => if bool_decide (q = "..") then ".." :: out else out'
    end
  else p :: out.

Definition Clean (path : string) : string :=
  if bool_decide (path = "") then "." else
  let rooted := HasPrefix path "/" in
  let out := reverse (foldl (clean_step rooted) [] (Split path "/")) in
  let body := join_slash out in
  if rooted then "/" +:+ body
  else if bool_decide (body = "") then "." else body.

(** [filepath.Dir]: what precedes the last separator, cleaned. *)
Definition Dir (path : string) : string :=
  Clean (str (reverse (drop_while (λ c, negb (bool_decide (c = "/"%char)))
                         (reverse (bytes path))))).

(** A file name: not empty, not a dot entry, without a separator. *)
Definition real_name (p : string) : Prop :=
  p ≠ "" ∧ p ≠ "." ∧ p ≠ ".." ∧ "/"%char ∉ bytes p.

Lemma clean_step_rooted out p :
  "/"%char ∉ bytes p → Forall real_name out → Forall real_name (clean_step true out p).
Proof.
  intros Hp Ho. unfold clean_step. repeat case_bool_decide.
  - done.
  - destruct Ho as [|q out Hq Ho]; [constructor|].
    rewrite bool_decide_eq_false_2 by apply Hq. done.
  - constructor; [|done]. unfold real_name. naive_solver.
Qed.

(** A rooted path is cleaned to a list of file names. *)
Lemma Clean_rooted path :
  HasPrefix path "/" = true →
  ∃ names, Forall real_name names ∧ Clean path = "/" +:+ join_slash names.
Proof.
  intros H. unfold Clean. rewrite H.
  rewrite bool_decide_eq_false_2 by (by intros ->).
  eexists. split; [|done]. apply list.Forall_reverse.
  assert (Forall (λ p, "/"%char ∉ bytes p) (Split path "/")) as Hs
    by (apply split_from_pieces, not_elem_of_nil).
  assert (∀ out, Forall real_name out →
    Forall real_name (foldl (clean_step true) out (Split path "/"))) as Hf; [|by apply Hf].
  induction Hs as [|p ps Hp _ IH]; intros out Ho; [done|].
  cbn. apply IH. by apply clean_step_rooted.
Qed.
End filepath.
