(* ===== verification/Utf8.v ===== *)
(** * Encoding inverts decoding (unicode/utf8)

    The bytes of a code point are the ones it was decoded from, unless no code
    point was found.  So a text whose code points are written one after the
    other is the text itself with each byte that belongs to none replaced by
    U+FFFD. *)

From S2P Require Import Prelude GoStrings.
Local Open Scope Z_scope.
Import utf8.

(** ** Bit fields as arithmetic *)
Lemma lor_low k a b : 0 ≤ k → 0 ≤ b < 2 ^ k → Z.lor (Z.shiftl a k) b = a * 2 ^ k + b.
Proof.
  intros Hk Hb. rewrite Z.shiftl_mul_pow2, <-Z.add_lor_land by done.
  replace (Z.land (a * 2 ^ k) b) with 0; [lia|].
  symmetry. apply Z.bits_inj'. intros n Hn. rewrite Z.land_spec, Z.bits_0.
  destruct (Z.lt_ge_cases n k) as [Hlt|Hge]; [by rewrite Z.mul_pow2_bits_low|].
  destruct (Z.eq_dec b 0) as [->|]; [by rewrite Z.bits_0, andb_false_r|].
  rewrite (Z.bits_above_log2 b n), andb_false_r; [done|lia|].
  apply Z.log2_lt_pow2; [lia|]. pose proof (Z.pow_le_mono_r 2 k n). lia.
Qed.

Lemma low6_spec c : low6 c = b2z c mod 64.
Proof. apply (Z.land_ones _ 6). done. Qed.

Lemma low6_range c : 0 ≤ low6 c < 64.
Proof. rewrite low6_spec. by apply Z.mod_pos_bound. Qed.

(** The bits a lead byte carries. *)
Lemma lead_bits c base n :
  0 ≤ n → base mod 2 ^ n = 0 → 0 ≤ b2z c - base < 2 ^ n → Z.land (b2z c) (Z.ones n) = b2z c - base.
Proof.
  intros Hn Hb Hc. rewrite Z.land_ones by done.
  replace (b2z c) with (b2z c - base + (base / 2 ^ n) * 2 ^ n) at 1.
  - rewrite Z_mod_plus_full. by apply Z.mod_small.
  - pose proof (Z.div_mod base (2 ^ n)). lia.
Qed.

(** A continuation byte. *)
Lemma continuation c : within 0x80 0xBF c = true → b2z c = 0x80 + low6 c.
Proof.
  unfold within. intros H. bools. rewrite low6_spec.
  replace (b2z c) with (b2z c - 0x80 + 2 * 64) at 2 by lia.
  rewrite Z_mod_plus_full, Z.mod_small; lia.
Qed.

Lemma within_continuation lo hi c :
  0x80 ≤ lo → hi ≤ 0xBF → within lo hi c = true → within 0x80 0xBF c = true.
Proof. unfold within. intros ?? H. bools. apply andb_true_iff. split; apply Z.leb_le; lia. Qed.

Definition tail_byte (r n : Z) : ascii := z2b (Z.lor 0x80 (Z.land (Z.shiftr r n) 0x3F)).

Lemma tail_byte_spec c q r n :
  0 ≤ n → r / 2 ^ n = q * 64 + low6 c → within 0x80 0xBF c = true → tail_byte r n = c.
Proof.
  intros Hn E H%continuation. unfold tail_byte.
  rewrite Z.shiftr_div_pow2, E by done.
  change 0x3F with (Z.ones 6). rewrite Z.land_ones by done.
  change 0x80 with (Z.shiftl 2 6). rewrite lor_low by (done || by apply Z.mod_pos_bound).
  change (2 ^ 6) with 64. rewrite (Z.add_comm (q * 64)), Z_mod_plus_full, Z.mod_small by apply low6_range.
  change (2 * 64) with 0x80. by rewrite <-H, z2b_b2z.
Qed.

Lemma lead_byte_spec c base n r m b :
  0 ≤ n → 0 ≤ m → base = Z.shiftl b n → 0 ≤ b2z c - base < 2 ^ n → r / 2 ^ m = b2z c - base →
  z2b (Z.lor base (Z.shiftr r m)) = c.
Proof.
  intros Hn Hm -> Hc E. rewrite Z.shiftr_div_pow2, E by done.
  rewrite lor_low by done. rewrite Z.shiftl_mul_pow2 by done.
  replace (_ + _) with (b2z c) by lia. apply z2b_b2z.
Qed.

Lemma EncodeRune_two r :
  0x80 ≤ r < 0x800 → EncodeRune r = [z2b (Z.lor 0xC0 (Z.shiftr r 6)); tail_byte r 0].
Proof.
  intros Hr. unfold EncodeRune, tail_byte. rewrite (proj2 (Z.ltb_ge r 0)), (proj2 (Z.ltb_ge 0x10FFFF r)),
    (proj2 (Z.leb_gt 0xD800 r)) by lia. cbn [orb andb].
  by rewrite (proj2 (Z.ltb_ge r 0x80)), (proj2 (Z.ltb_lt r 0x800)) by lia.
Qed.

Lemma EncodeRune_three r :
  0x800 ≤ r < 0x10000 → ¬ 0xD800 ≤ r ≤ 0xDFFF →
  EncodeRune r = [z2b (Z.lor 0xE0 (Z.shiftr r 12)); tail_byte r 6; tail_byte r 0].
Proof.
  intros Hr Hs. unfold EncodeRune, tail_byte.
  replace ((r <? 0) || (0x10FFFF <? r) || ((0xD800 <=? r) && (r <=? 0xDFFF))) with false by lia.
  by rewrite (proj2 (Z.ltb_ge r 0x80)), (proj2 (Z.ltb_ge r 0x800)), (proj2 (Z.ltb_lt r 0x10000)) by lia.
Qed.

Lemma EncodeRune_four r :
  0x10000 ≤ r ≤ 0x10FFFF →
  EncodeRune r =
    [z2b (Z.lor 0xF0 (Z.shiftr r 18)); tail_byte r 12; tail_byte r 6; tail_byte r 0].
Proof.
  intros Hr. unfold EncodeRune, tail_byte.
  replace ((r <? 0) || (0x10FFFF <? r) || ((0xD800 <=? r) && (r <=? 0xDFFF))) with false by lia.
  by rewrite (proj2 (Z.ltb_ge r 0x80)), (proj2 (Z.ltb_ge r 0x800)), (proj2 (Z.ltb_ge r 0x10000)) by lia.
Qed.

(** ** Decoding, then encoding *)
Lemma two_bytes c0 c1 :
  0xC2 ≤ b2z c0 ≤ 0xDF → within 0x80 0xBF c1 = true →
  EncodeRune (Z.lor (Z.shiftl (Z.land (b2z c0) 0x1F) 6) (low6 c1)) = [c0; c1].
Proof.
  intros H0 H1. pose proof (low6_range c1).
  change 0x1F with (Z.ones 5). rewrite (lead_bits c0 0xC0) by (done || lia).
  rewrite lor_low by (done || lia). change (2 ^ 6) with 64. rewrite EncodeRune_two by lia.
  f_equal; [|f_equal].
  - apply (lead_byte_spec _ _ 5 _ 6 6); try done; [lia|]. symmetry. apply (Z.div_unique _ _ _ (low6 c1)); lia.
  - apply (tail_byte_spec _ (b2z c0 - 0xC0)); [done| |done]. by rewrite Z.div_1_r.
Qed.

Lemma three_bytes c0 c1 c2 :
  0xE0 ≤ b2z c0 ≤ 0xEF → (b2z c0 = 0xE0 → 0xA0 ≤ b2z c1) → (b2z c0 = 0xED → b2z c1 ≤ 0x9F) →
  within 0x80 0xBF c1 = true → within 0x80 0xBF c2 = true →
  EncodeRune (Z.lor (Z.shiftl (Z.land (b2z c0) 0x0F) 12)
    (Z.lor (Z.shiftl (low6 c1) 6) (low6 c2))) = [c0; c1; c2].
Proof.
  intros H0 Ha Hd H1 H2. pose proof (low6_range c1). pose proof (low6_range c2).
  pose proof (continuation _ H1) as E1.
  change 0x0F with (Z.ones 4). rewrite (lead_bits c0 0xE0) by (done || lia).
  rewrite (lor_low 6) by (done || lia). change (2 ^ 6) with 64.
  rewrite lor_low by (done || (change (2 ^ 12) with 4096; lia)). change (2 ^ 12) with 4096.
  rewrite EncodeRune_three by lia.
  f_equal; [|f_equal; [|f_equal]].
  - apply (lead_byte_spec _ _ 4 _ 12 14); try done; [lia|]. symmetry.
    apply (Z.div_unique _ _ _ (low6 c1 * 64 + low6 c2)); lia.
  - apply (tail_byte_spec _ (b2z c0 - 0xE0)); [done| |done]. symmetry.
    apply (Z.div_unique _ _ _ (low6 c2)); lia.
  - apply (tail_byte_spec _ ((b2z c0 - 0xE0) * 64 + low6 c1)); [done| |done].
    rewrite Z.div_1_r. lia.
Qed.

Lemma four_bytes c0 c1 c2 c3 :
  0xF0 ≤ b2z c0 ≤ 0xF4 → (b2z c0 = 0xF0 → 0x90 ≤ b2z c1) → (b2z c0 = 0xF4 → b2z c1 ≤ 0x8F) →
  within 0x80 0xBF c1 = true → within 0x80 0xBF c2 = true → within 0x80 0xBF c3 = true →
  EncodeRune (Z.lor (Z.shiftl (Z.land (b2z c0) 0x07) 18)
    (Z.lor (Z.shiftl (low6 c1) 12)
      (Z.lor (Z.shiftl (low6 c2) 6) (low6 c3)))) = [c0; c1; c2; c3].
Proof.
  intros H0 Ha Hd H1 H2 H3.
  pose proof (low6_range c1). pose proof (low6_range c2). pose proof (low6_range c3).
  pose proof (continuation _ H1) as E1.
  change 0x07 with (Z.ones 3). rewrite (lead_bits c0 0xF0) by (done || lia).
  rewrite (lor_low 6) by (done || lia). change (2 ^ 6) with 64.
  rewrite (lor_low 12) by (done || (change (2 ^ 12) with 4096; lia)). change (2 ^ 12) with 4096.
  rewrite (lor_low 18) by (done || (change (2 ^ 18) with 262144; lia)). change (2 ^ 18) with 262144.
  rewrite EncodeRune_four by lia.
  f_equal; [|f_equal; [|f_equal; [|f_equal]]].
  - apply (lead_byte_spec _ _ 3 _ 18 30); try done; [lia|]. symmetry.
    apply (Z.div_unique _ _ _ (low6 c1 * 4096 + low6 c2 * 64 + low6 c3)); lia.
  - apply (tail_byte_spec _ (b2z c0 - 0xF0)); [done| |done]. symmetry.
    apply (Z.div_unique _ _ _ (low6 c2 * 64 + low6 c3)); lia.
  - apply (tail_byte_spec _ ((b2z c0 - 0xF0) * 64 + low6 c1)); [done| |done]. symmetry.
    apply (Z.div_unique _ _ _ (low6 c3)); lia.
  - apply (tail_byte_spec _ ((b2z c0 - 0xF0) * 4096 + low6 c1 * 64 + low6 c2)); [done| |done].
    rewrite Z.div_1_r. lia.
Qed.

(** What a lead byte announces. *)
Lemma lead_inv c0 sz lo hi :
  lead (b2z c0) = Some (sz, lo, hi) →
  0x80 ≤ lo ∧ hi ≤ 0xBF ∧
  (sz = 2%nat ∧ 0xC2 ≤ b2z c0 ≤ 0xDF ∨
   sz = 3%nat ∧ 0xE0 ≤ b2z c0 ≤ 0xEF ∧ (b2z c0 = 0xE0 → lo = 0xA0) ∧ (b2z c0 = 0xED → hi = 0x9F) ∨
   sz = 4%nat ∧ 0xF0 ≤ b2z c0 ≤ 0xF4 ∧ (b2z c0 = 0xF0 → lo = 0x90) ∧ (b2z c0 = 0xF4 → hi = 0x8F)).
Proof. unfold lead. intros H. repeat case_match; simplify_eq; bools; lia. Qed.

(** A byte sequence that is no code point is one byte that is not ASCII; one that
    is, is what the code point is encoded as. *)
Lemma Encode_DecodeRune c l :
  DecodeRune (c :: l) = (RuneError, 1%nat) ∨
  EncodeRune (fst (DecodeRune (c :: l))) = take (snd (DecodeRune (c :: l))) (c :: l).
Proof.
  unfold DecodeRune. destruct (b2z c <? RuneSelf) eqn:Hc.
  { right. cbn [fst snd take]. pose proof (b2z_range c). unfold RuneSelf in Hc. bools.
    unfold EncodeRune. rewrite (proj2 (Z.ltb_ge (b2z c) 0)), (proj2 (Z.ltb_ge 0x10FFFF (b2z c))),
      (proj2 (Z.leb_gt 0xD800 (b2z c))) by lia. cbn [orb andb].
    rewrite (proj2 (Z.ltb_lt (b2z c) 0x80)) by done. by rewrite z2b_b2z. }
  destruct (lead (b2z c)) as [[[sz lo] hi]|] eqn:Hl; [|by left].
  apply lead_inv in Hl as (Hlo & Hhi & Hsz). destruct l as [|c1 l]; [by left|].
  destruct (within lo hi c1) eqn:H1; cbn [negb]; [|by left].
  pose proof (within_continuation _ _ _ Hlo Hhi H1) as H1'. unfold within in H1. bools.
  destruct Hsz as [(-> & Hc0)|[(-> & Hc0 & Ha & Hd)|(-> & Hc0 & Ha & Hd)]].
  - right. cbn [fst snd take]. by apply two_bytes.
  - destruct l as [|c2 l]; [by left|]. destruct (within 0x80 0xBF c2) eqn:H2; [|by left].
    right. cbn [fst snd take negb]. apply three_bytes; try done; lia.
  - destruct l as [|c2 [|c3 l]]; [by left..|].
    destruct (within 0x80 0xBF c2) eqn:H2; [|by left].
    destruct (within 0x80 0xBF c3) eqn:H3; [|by left].
    right. cbn [fst snd take negb andb]. apply four_bytes; try done; lia.
Qed.

(** A code point is found again whatever follows its bytes. *)
Lemma DecodeRune_extend c k m :
  DecodeRune (c :: k) ≠ (RuneError, 1%nat) → DecodeRune (c :: k ++ m) = DecodeRune (c :: k).
Proof.
  unfold DecodeRune. case_match; [done|].
  destruct (lead (b2z c)) as [[[sz lo] hi]|] eqn:Hl; [|done].
  apply lead_inv in Hl as (_ & _ & Hsz).
  destruct k as [|c1 [|c2 [|c3 k]]]; cbn [app]; [done|..];
    destruct Hsz as [[-> _]|[[-> _]|[-> _]]]; by repeat case_match.
Qed.

(** ** Texts made of code points *)

(** The replacement character, and the bytes that stand for what was found at one
    place: a byte that belongs to no code point is replaced. *)
Definition replacement : list ascii := ["239"; "191"; "189"]%char.
Definition invalid (rb : Z * list ascii) : bool := (rb.1 =? RuneError) && (length rb.2 =? 1)%nat.
Definition valid_bytes (rb : Z * list ascii) : list ascii :=
  if invalid rb then replacement else rb.2.
Definition valid_text (s : string) : string := str (concat (map valid_bytes (runes s))).

(** UTF-8: every byte belongs to a code point. *)
Definition utf8_text (s : string) : Prop := forallb (λ rb, negb (invalid rb)) (runes s) = true.

(** The replacement character occurs in the text. *)
Definition has_replacement (s : string) : Prop := ∃ a b, bytes s = a ++ replacement ++ b.

Lemma valid_text_utf8 s : utf8_text s → valid_text s = s.
Proof.
  unfold utf8_text, valid_text. intros H. rewrite <-(str_bytes s) at 2. f_equal.
  rewrite <-(concat_runes (bytes s)). change (runes_from 0 (bytes s)) with (runes s).
  f_equal. induction (runes s) as [|rb rs IH]; [done|]. cbn in H. bools. cbn [map].
  rewrite IH by done. unfold valid_bytes. by destruct (invalid rb).
Qed.

(** A text that was made valid without a replacement is the original one. *)
Lemma valid_text_utf8_inv s : ¬ has_replacement (valid_text s) → utf8_text s.
Proof.
  unfold valid_text, has_replacement, utf8_text. rewrite bytes_str. intros Hn.
  apply forallb_forall. intros rb Hin. apply negb_true_iff.
  destruct (invalid rb) eqn:E; [|done]. exfalso. apply Hn.
  apply in_split in Hin as (rs1 & rs2 & ->). exists (concat (map valid_bytes rs1)).
  exists (concat (map valid_bytes rs2)). rewrite map_app, concat_app. cbn [map concat].
  unfold valid_bytes at 2. by rewrite E.
Qed.

Lemma ascii_utf8 s : Forall (λ c, b2z c < RuneSelf) (bytes s) → utf8_text s.
Proof.
  unfold utf8_text, runes. induction 1 as [|c l Hc _ IH]; [done|].
  rewrite runes_from_cons, DecodeRune_ascii by done. cbn [fst snd take drop forallb].
  rewrite take_0, drop_0, IH. unfold invalid. cbn [fst snd].
  by rewrite (proj2 (Z.eqb_neq _ _)) by (unfold RuneSelf, RuneError in *; lia).
Qed.
