(* ===== verification/Json.v ===== *)
(** * encoding/json as the daemon uses it

    The reading side follows Go's [scanner.go] (a byte-at-a-time pushdown
    automaton with its nesting limit) and the parts of [stream.go] and
    [decode.go] the request decoder calls: [Decoder.Token], [More], [Decode].
    The writing side is [json.Marshal] on strings and integers, with Go's HTML
    escaping.  Input is a byte list; a decoder is the input it has left. *)

From S2P Require Import Prelude GoStrings.
Local Open Scope Z_scope.

Module json.
Import utf8.

Definition dquote : ascii := "034"%char.
Definition backslash : ascii := "092"%char.

(** [isSpace] of scanner.go. *)
Definition isSpace (c : ascii) : bool :=
  match c with
  | " " | "009" | "010" | "013" => true
  | _ => false
  end%char.

Definition skip_ws : list ascii → list ascii := drop_while isSpace.

Definition is_digit (c : ascii) : bool := (48 <=? b2z c) && (b2z c <=? 57).
Definition is_digit19 (c : ascii) : bool := (49 <=? b2z c) && (b2z c <=? 57).
Definition hex (c : ascii) : option Z :=
  let z := b2z c in
  if (48 <=? z) && (z <=? 57) then Some (z - 48)
  else if (97 <=? z) && (z <=? 102) then Some (z - 87)
  else if (65 <=? z) && (z <=? 70) then Some (z - 55)
  else None.

(** ** The scanner

    [pstate] is an entry of the parse stack, [scan] the state function
    installed in [scanner.step]. *)
Inductive pstate := parseObjectKey | parseObjectValue | parseArrayValue.

Inductive scan :=
  | BeginValue | BeginValueOrEmpty | BeginString | BeginStringOrEmpty
  | EndValue
  | InString | InStringEsc | InStringEscU (missing : nat)
  | Neg | Int0 | Int1 | Dot | Dot0 | Exp | ExpSign | Exp0
  | Lit (rest : list ascii).

(** What one byte does: the scan goes on, or the value ended before this byte
    ([scanEnd]), or the input is malformed ([scanError]). *)
Inductive verdict :=
  | Continue (st : scan) (stk : list pstate)
  | EndBefore
  | Malformed.

Definition maxNestingDepth : nat := Z.to_nat 10000.

Definition push (p : pstate) (st : scan) (stk : list pstate) : verdict :=
  if decide (length (p :: stk) ≤ maxNestingDepth)%nat
  then Continue st (p :: stk) else Malformed.

Definition begin_value (stk : list pstate) (c : ascii) : verdict :=
  if isSpace c then Continue BeginValue stk else
  match c with
  | "{" => push parseObjectKey BeginStringOrEmpty stk
  | "[" => push parseArrayValue BeginValueOrEmpty stk
  | "034" => Continue InString stk
  | "-" => Continue Neg stk
  | "0" => Continue Int0 stk
  | "t" => Continue (Lit ["r"; "u"; "e"]) stk
  | "f" => Continue (Lit ["a"; "l"; "s"; "e"]) stk
  | "n" => Continue (Lit ["u"; "l"; "l"]) stk
  | _ => if is_digit19 c then Continue Int1 stk else Malformed
  end%char.

Definition begin_string (stk : list pstate) (c : ascii) : verdict :=
  if isSpace c then Continue BeginString stk
  else if bool_decide (c = dquote) then Continue InString stk
  else Malformed.

Definition end_value (stk : list pstate) (c : ascii) : verdict :=
  match stk with
  | [] => EndBefore
  | p :: k =>
    if isSpace c then Continue EndValue stk else
    match p, c with
    | parseObjectKey, ":" => Continue BeginValue (parseObjectValue :: k)
    | parseObjectValue, "," => Continue BeginString (parseObjectKey :: k)
    | parseObjectValue, "}" => Continue EndValue k
    | parseArrayValue, "," => Continue BeginValue stk
    | parseArrayValue, "]" => Continue EndValue k
    | _, _ => Malformed
    end%char
  end.

(** The fraction and exponent that may follow the integer part. *)
Definition after_int (stk : list pstate) (c : ascii) : verdict :=
  match c with
  | "." => Continue Dot stk
  | "e" | "E" => Continue Exp stk
  | _ => end_value stk c
  end%char.

Definition step (st : scan) (stk : list pstate) (c : ascii) : verdict :=
  match st with
  | BeginValue => begin_value stk c
  | BeginValueOrEmpty =>
    if isSpace c then Continue BeginValueOrEmpty stk
    else if bool_decide (c = "]"%char) then end_value stk c
    else begin_value stk c
  | BeginString => begin_string stk c
  | BeginStringOrEmpty =>
    if isSpace c then Continue BeginStringOrEmpty stk
    else match c, stk with
         | "}"%char, _ :: k => end_value (parseObjectValue :: k) c
         | _, _ => begin_string stk c
         end
  | EndValue => end_value stk c
  | InString =>
    if bool_decide (c = dquote) then Continue EndValue stk
    else if bool_decide (c = backslash) then Continue InStringEsc stk
    else if b2z c <? 0x20 then Malformed else Continue InString stk
  | InStringEsc =>
    match c with
    | "b" | "f" | "n" | "r" | "t" | "092" | "/" | "034" => Continue InString stk
    | "u" => Continue (InStringEscU 4) stk
    | _ => Malformed
    end%char
  | InStringEscU n =>
    match hex c with
    | None => Malformed
    | Some _ => Continue (match n with 1%nat => InString | _ => InStringEscU (pred n) end) stk
    end
  | Neg => if bool_decide (c = "0"%char) then Continue Int0 stk
           else if is_digit19 c then Continue Int1 stk else Malformed
  | Int1 => if is_digit c then Continue Int1 stk else after_int stk c
  | Int0 => after_int stk c
  | Dot => if is_digit c then Continue Dot0 stk else Malformed
  | Dot0 => if is_digit c then Continue Dot0 stk
            else if bool_decide (c = "e"%char ∨ c = "E"%char) then Continue Exp stk
            else end_value stk c
  | Exp => if bool_decide (c = "+"%char ∨ c = "-"%char) then Continue ExpSign stk
           else if is_digit c then Continue Exp0 stk else Malformed
  | ExpSign => if is_digit c then Continue Exp0 stk else Malformed
  | Exp0 => if is_digit c then Continue Exp0 stk else end_value stk c
  | Lit [] => end_value stk c
  | Lit (d :: rest) =>
    if bool_decide (c = d)
    then Continue (match rest with [] => EndValue | _ => Lit rest end) stk
    else Malformed
  end.

(** [Decoder.readValue]: the bytes of the next value, leading space included,
    and the input after it.  A value that closes with its last byte (string,
    literal, object, array) ends there; a number ends before the byte that
    does not continue it, and at the end of the input. *)
Fixpoint read_from (st : scan) (stk : list pstate) (acc l : list ascii)
    : option (list ascii * list ascii) :=
  match l with
  | [] => match step st stk " "%char with
          | EndBefore => Some (reverse acc, [])
          | _ => None
          end
  | c :: l' =>
    match step st stk c with
    | Malformed => None
    | EndBefore => Some (reverse acc, l)
    | Continue EndValue [] => Some (reverse (c :: acc), l')
    | Continue st' stk' => read_from st' stk' (c :: acc) l'
    end
  end.

Definition readValue (l : list ascii) : option (list ascii * list ascii) :=
  read_from BeginValue [] [] l.

#[global] Arguments readValue : simpl never.

(** ** String literals *)

(** The escapes of one character. *)
Definition simple_escape (c : ascii) : option ascii :=
  match c with
  | "b" => Some "008" | "f" => Some "012" | "n" => Some "010"
  | "r" => Some "013" | "t" => Some "009"
  | "034" => Some "034" | "092" => Some "092" | "/" => Some "/"
  | _ => None
  end%char.

Definition hex4 (l : list ascii) : option Z :=
  match l with
  | a :: b :: c :: d :: _ =>
    a ← hex a; b ← hex b; c ← hex c; d ← hex d;
    Some (((a * 16 + b) * 16 + c) * 16 + d)
  | _ => None
  end.

(** [getu4]: the code unit of a four-digit escape at the head of the input. *)
Definition getu4 (l : list ascii) : option Z :=
  match l with
  | "092"%char :: "u"%char :: l' => hex4 l'
  | _ => None
  end.

Definition is_surrogate (r : Z) : bool := (0xD800 <=? r) && (r <? 0xE000).

(** The code point of an escape that starts at [l], and how many bytes it
    takes: twelve for a surrogate pair, six otherwise; a lone surrogate is
    U+FFFD. *)
Definition unicode_escape (l : list ascii) : Z * nat :=
  match getu4 l with
  | None => (RuneError, 6%nat)
  | Some r =>
    if negb (is_surrogate r) then (r, 6%nat) else
    match getu4 (drop 6 l) with
    | Some r1 =>
      if (r <? 0xDC00) && (0xDC00 <=? r1) && (r1 <? 0xE000)
      then (Z.shiftl (r - 0xD800) 10 + (r1 - 0xDC00) + 0x10000, 12%nat)
      else (RuneError, 6%nat)
    | None => (RuneError, 6%nat)
    end
  end.

(** [unquoteBytes] on the text after the opening quote: decode the escapes,
    replace invalid UTF-8 by U+FFFD, stop at the closing quote. *)
Fixpoint unquote_from (skip : nat) (l : list ascii) : list ascii :=
  match l with
  | [] => []
  | c :: l' =>
    match skip with
    | S k => unquote_from k l'
    | O =>
      if bool_decide (c = dquote) then []
      else if bool_decide (c = backslash) then
        match l' with
        | [] => []
        | e :: _ =>
          match simple_escape e with
          | Some d => d :: unquote_from 1 l'
          | None => let '(r, n) := unicode_escape l in
                    EncodeRune r ++ unquote_from (pred n) l'
          end
        end
      else if b2z c <? RuneSelf then c :: unquote_from 0 l'
      else let '(r, n) := DecodeRune l in EncodeRune r ++ unquote_from (pred n) l'
    end
  end.

Definition unquote (raw : list ascii) : string := str (unquote_from 0 (tail raw)).

(** ** Values

    What the decoder sees of a value when it stores it into a struct field:
    arrays and objects fit none of the field types in use. *)
Inductive value :=
  | Null | Bool (b : bool) | Number (lit : string) | Str (s : string)
  | Array | Object.

Definition classify (raw : list ascii) : value :=
  let l := skip_ws raw in
  match l with
  | [] => Number (str l)
  | c :: _ =>
    if bool_decide (c = "{"%char) then Object
    else if bool_decide (c = "["%char) then Array
    else if bool_decide (c = dquote) then Str (unquote l)
    else if bool_decide (c = "t"%char) then Bool true
    else if bool_decide (c = "f"%char) then Bool false
    else if bool_decide (c = "n"%char) then Null
    else Number (str l)
  end.

(** ** The decoder *)

(** [Decoder.More]. *)
Definition More (l : list ascii) : bool :=
  match skip_ws l with
  | [] => false
  | c :: _ => negb (bool_decide (c = "]"%char ∨ c = "}"%char))
  end.

(** The next byte that is not space, if it is [c], and the input after it. *)
Definition expect (c : ascii) (l : list ascii) : option (list ascii) :=
  match skip_ws l with
  | d :: r => if bool_decide (d = c) then Some r else None
  | [] => None
  end.

(** [Decoder.Token] in front of the first value: the delimiter it returns when
    that value is an object. *)
Definition token_open (l : list ascii) : option (list ascii) := expect "{" l.

(** [Decoder.Token] where an object key is due: right after the opening brace
    ([tokenObjectStart]) or, with its comma, after a member
    ([tokenObjectComma]).  [None] is an error or a token that is no string. *)
Definition token_string (l : list ascii) : option (string * list ascii) :=
  _ ← expect dquote l;
  '(raw, rest) ← readValue (skip_ws l);
  Some (unquote raw, rest).

Definition token_key (start : bool) (l : list ascii) : option (string * list ascii) :=
  if start then token_string l else expect "," l ≫= token_string.

(** [Decoder.Decode] where an object value is due ([tokenObjectColon]). *)
Definition token_value (l : list ascii) : option (list ascii * list ascii) :=
  expect ":" l ≫= readValue.

(** The members of an object whose opening brace has been read, up to the
    closing brace: the walk of [decodeState.object].  One unit of fuel reads
    one member; every member takes input, so the input's length is enough. *)
Fixpoint members_from (fuel : nat) (start : bool) (l : list ascii)
    : option (list (string * value)) :=
  match expect "}" l with
  | Some _ => Some []
  | None =>
    match fuel with
    | O => None
    | S f =>
      '(k, l1) ← token_key start l;
      '(raw, l2) ← token_value l1;
      ms ← members_from f false l2;
      Some ((k, classify raw) :: ms)
    end
  end.

(** [Decoder.Decode] into a struct: the members of the object and the input
    after it.  A value that is not an object is no error only for [null],
    which leaves the struct alone. *)
Definition decode_object (l : list ascii)
    : option (list (string * value) * list ascii) :=
  '(raw, rest) ← readValue l;
  match classify raw with
  | Object => r ← token_open raw;
              ms ← members_from (length raw) true r; Some (ms, rest)
  | Null => Some ([], rest)
  | _ => None
  end.

(** ** Writing: json.Marshal *)

Definition hex_digit (n : Z) : ascii :=
  if n <? 10 then z2b (48 + n) else z2b (87 + n).

(** The bytes [htmlSafeSet] lets through. *)
Definition html_safe (c : ascii) : bool :=
  (0x20 <=? b2z c) && (b2z c <? RuneSelf) &&
  negb (bool_decide (c = dquote ∨ c = backslash ∨ c = "<"%char ∨ c = ">"%char ∨ c = "&"%char)).

(** The escape of an ASCII byte that is not safe. *)
Definition escape (c : ascii) : list ascii :=
  match c with
  | "034" | "092" => [backslash; c]
  | "008" => [backslash; "b"]
  | "012" => [backslash; "f"]
  | "010" => [backslash; "n"]
  | "013" => [backslash; "r"]
  | "009" => [backslash; "t"]
  | _ => [backslash; "u"; "0"; "0"; hex_digit (Z.shiftr (b2z c) 4);
          hex_digit (Z.land (b2z c) 0xF)]
  end%char.

(** [appendString] with HTML escaping: the text between the quotes. *)
Fixpoint quote_from (skip : nat) (l : list ascii) : list ascii :=
  match l with
  | [] => []
  | c :: l' =>
    match skip with
    | S k => quote_from k l'
    | O =>
      if b2z c <? RuneSelf then
        (if html_safe c then [c] else escape c) ++ quote_from 0 l'
      else
        let '(r, n) := DecodeRune l in
        (if (r =? RuneError) && bool_decide (n = 1%nat)
         then [backslash; "u"; "f"; "f"; "f"; "d"]%char
         else if (r =? 0x2028) || (r =? 0x2029)
         then [backslash; "u"; "2"; "0"; "2"; hex_digit (Z.land r 0xF)]%char
         else take n l) ++ quote_from (pred n) l'
    end
  end.

Definition quote (s : string) : list ascii := dquote :: quote_from 0 (bytes s) ++ [dquote].

Definition number (z : Z) : list ascii := bytes (strconv.Itoa z).
Definition boolean (b : bool) : list ascii := bytes (if b then "true" else "false").

Definition commas (l : list (list ascii)) : list ascii :=
  match l with
  | [] => []
  | x :: l' => x ++ concat (map (cons ","%char) l')
  end.

(** An object from its members, an array from its elements. *)
Definition member (kv : string * list ascii) : list ascii :=
  quote (fst kv) ++ [":"%char] ++ snd kv.
Definition object (ms : list (string * list ascii)) : list ascii :=
  ["{"%char] ++ commas (map member ms) ++ ["}"%char].
Definition array (vs : list (list ascii)) : list ascii :=
  ["["%char] ++ commas vs ++ ["]"%char].

(** ** Lemmas on the scanner and the decoder *)

(** The scanner splits its input: nothing is lost, nothing invented. *)
Lemma read_from_split st stk acc l raw rest :
  read_from st stk acc l = Some (raw, rest) → reverse acc ++ l = raw ++ rest.
Proof.
  revert st stk acc. induction l as [|c l IH]; intros st stk acc; cbn -[step].
  - case_match; naive_solver.
  - assert (reverse acc ++ c :: l = reverse (c :: acc) ++ l) as E.
    { by rewrite reverse_cons, <-app_assoc. }
    destruct (step st stk c) as [[] []| |]; intros; simplify_eq; rewrite ?E; eauto.
Qed.

(** A value that ended inside the input is not changed by what follows. *)
Lemma read_from_extend st stk acc l raw c rest k :
  read_from st stk acc l = Some (raw, c :: rest) →
  read_from st stk acc (l ++ k) = Some (raw, (c :: rest) ++ k).
Proof.
  revert st stk acc. induction l as [|d l IH]; intros st stk acc; cbn -[step].
  - case_match; naive_solver.
  - destruct (step st stk d) as [[] []| |]; intros; simplify_eq/=; eauto.
Qed.

Lemma readValue_split l raw rest : readValue l = Some (raw, rest) → l = raw ++ rest.
Proof. intros H. by apply read_from_split in H. Qed.

Lemma readValue_extend l raw c rest k :
  readValue l = Some (raw, c :: rest) →
  readValue (l ++ k) = Some (raw, (c :: rest) ++ k).
Proof. apply read_from_extend. Qed.

Lemma skip_ws_extend l c r k :
  skip_ws l = c :: r → skip_ws (l ++ k) = (c :: r) ++ k.
Proof.
  unfold skip_ws. induction l as [|d l IH]; cbn; [done|].
  destruct (isSpace d); naive_solver.
Qed.

Lemma skip_ws_length l : (length (skip_ws l) ≤ length l)%nat.
Proof. apply suffix_length, drop_while_suffix. Qed.

Lemma expect_extend c l r k : expect c l = Some r → expect c (l ++ k) = Some (r ++ k).
Proof.
  unfold expect. destruct (skip_ws l) as [|d l'] eqn:E; [done|].
  rewrite (skip_ws_extend _ _ _ k E). cbn. case_bool_decide; naive_solver.
Qed.

Lemma expect_skip_ws c l r : expect c l = Some r → skip_ws l = c :: r.
Proof. unfold expect. repeat case_match; try done. case_bool_decide; naive_solver. Qed.

Lemma expect_length c l r : expect c l = Some r → (length r < length l)%nat.
Proof.
  intros E%expect_skip_ws. pose proof (skip_ws_length l) as H.
  rewrite E in H. cbn in H. lia.
Qed.

Lemma token_string_extend l s c r k :
  token_string l = Some (s, c :: r) → token_string (l ++ k) = Some (s, (c :: r) ++ k).
Proof.
  unfold token_string. intros (t & Ht & ([raw rest] & Hr & ?)%bind_Some)%bind_Some.
  simplify_eq. apply bind_Some. exists (t ++ k). split; [by apply expect_extend|].
  apply bind_Some. exists (raw, (c :: r) ++ k). split; [|done].
  pose proof (expect_skip_ws _ _ _ Ht) as E. rewrite E in Hr.
  rewrite (skip_ws_extend _ _ _ k E). by apply readValue_extend.
Qed.

Lemma token_key_extend b l s c r k :
  token_key b l = Some (s, c :: r) → token_key b (l ++ k) = Some (s, (c :: r) ++ k).
Proof.
  destruct b; cbn; [apply token_string_extend|].
  rewrite !bind_Some. intros (t & Ht & Hr). eauto using expect_extend, token_string_extend.
Qed.

Lemma token_value_extend l raw c r k :
  token_value l = Some (raw, c :: r) → token_value (l ++ k) = Some (raw, (c :: r) ++ k).
Proof.
  unfold token_value. rewrite !bind_Some. intros (t & Ht & Hr).
  eauto using expect_extend, readValue_extend.
Qed.

(** Each of them takes input. *)
Lemma token_string_length l s r : token_string l = Some (s, r) → (length r ≤ length l)%nat.
Proof.
  unfold token_string. intros (t & Ht & ([raw rest] & Hr & ?)%bind_Some)%bind_Some.
  simplify_eq. apply readValue_split in Hr. pose proof (skip_ws_length l) as H.
  rewrite Hr, length_app in H. lia.
Qed.

Lemma token_key_length b l s r : token_key b l = Some (s, r) → (length r ≤ length l)%nat.
Proof.
  destruct b; cbn; [apply token_string_length|].
  rewrite bind_Some. intros (t & Ht%expect_length & Hr%token_string_length). lia.
Qed.

Lemma token_value_length l raw r : token_value l = Some (raw, r) → (length r < length l)%nat.
Proof.
  unfold token_value. rewrite bind_Some. intros (t & Ht%expect_length & Hr%readValue_split).
  subst t. rewrite length_app in Ht. lia.
Qed.

(** Where a key was read, there was a member to read. *)
Lemma token_key_More b l s r : token_key b l = Some (s, r) → More l = true.
Proof.
  assert (∀ c t, expect c l = Some t → c ≠ "]"%char ∧ c ≠ "}"%char → More l = true) as H.
  { intros c t E%expect_skip_ws [? ?]. unfold More. rewrite E. by case_bool_decide; naive_solver. }
  destruct b; cbn; unfold token_string; intros (t & Ht & _)%bind_Some; eapply H; eauto.
Qed.

Lemma members_from_length f b l ms :
  members_from f b l = Some ms → (length ms ≤ f)%nat.
Proof.
  revert b l ms. induction f as [|f IH]; intros b l ms; cbn.
  - case_match; naive_solver.
  - case_match; [intros; simplify_eq/=; lia|].
    intros ([s l1] & _ & ([raw l2] & _ & (ms' & Hm & ?)%bind_Some)%bind_Some)%bind_Some.
    simplify_eq/=.
    apply IH in Hm. lia.
Qed.

(** Members read to the closing brace: there is input left. *)
Lemma members_from_nonempty f b l ms : members_from f b l = Some ms → l ≠ [].
Proof. intros H ->. destruct f, b; done. Qed.

Lemma token_value_nonempty l raw r : token_value l = Some (raw, r) → l ≠ [].
Proof. by intros H ->. Qed.
End json.
