(* ===== verification/JsonText.v ===== *)
(** * Reading back the JSON that is written

    What [json.Marshal] writes is read by the scanner as one value, gives back
    the members that were written, and holds no byte below space. *)

From S2P Require Import Prelude GoStrings Utf8 Json.
Import json utf8.
Local Open Scope Z_scope.

(** ** One byte at a time *)
Lemma read_from_end acc l : read_from EndValue [] acc l = Some (reverse acc, l).
Proof. by destruct l. Qed.

Lemma read_from_cons st stk acc c l :
  read_from st stk acc (c :: l) =
  match step st stk c with
  | Malformed => None
  | EndBefore => Some (reverse acc, c :: l)
  | Continue st' stk' => read_from st' stk' (c :: acc) l
  end.
Proof.
  cbn -[step]. destruct (step st stk c) as [[] []| |]; try done.
  by rewrite read_from_end.
Qed.

(** ** Text inside a string literal *)
Definition in_string (t : list ascii) : Prop :=
  ∀ stk acc k, read_from InString stk acc (t ++ k) = read_from InString stk (reverse t ++ acc) k.

Lemma in_string_nil : in_string [].
Proof. done. Qed.

Lemma in_string_app t u : in_string t → in_string u → in_string (t ++ u).
Proof.
  intros Ht Hu stk acc k. by rewrite <-app_assoc, Ht, Hu, reverse_app, <-app_assoc.
Qed.

Lemma in_string_byte c :
  c ≠ dquote → c ≠ backslash → 0x20 ≤ b2z c → in_string [c].
Proof.
  intros Hq Hb Hc stk acc k. cbn [app]. rewrite read_from_cons. cbn [step].
  rewrite !bool_decide_eq_false_2 by done. by rewrite (proj2 (Z.ltb_ge _ _)).
Qed.

Lemma in_string_bytes t :
  Forall (λ c, RuneSelf ≤ b2z c) t → in_string t.
Proof.
  unfold RuneSelf. induction 1 as [|c t Hc _ IH]; [done|].
  apply (in_string_app [c]); [|done]. apply in_string_byte; [| |lia];
    intros ->; vm_compute in Hc; by apply Hc.
Qed.

Lemma in_string_html_safe c : html_safe c = true → in_string [c].
Proof.
  unfold html_safe. intros H. bools. apply in_string_byte; naive_solver.
Qed.

Lemma in_string_escape c : b2z c < RuneSelf → in_string (escape c).
Proof.
  intros Hc stk acc k.
  destruct c as [[] [] [] [] [] [] [] []]; try done; by vm_compute in Hc.
Qed.

Lemma in_string_ufffd : in_string [backslash; "u"; "f"; "f"; "f"; "d"]%char.
Proof. done. Qed.

Lemma in_string_u202 r :
  r = 0x2028 ∨ r = 0x2029 →
  in_string [backslash; "u"; "2"; "0"; "2"; hex_digit (Z.land r 0xF)]%char.
Proof. by intros [-> | ->]. Qed.

(** The bytes of a code point that is not ASCII are not ASCII either. *)
Lemma DecodeRune_high c l :
  RuneSelf ≤ b2z c →
  Forall (λ d, RuneSelf ≤ b2z d) (take (snd (DecodeRune (c :: l))) (c :: l)).
Proof.
  unfold RuneSelf. intros Hc. unfold DecodeRune, lead, within, RuneSelf.
  rewrite (proj2 (Z.ltb_ge _ _)) by done.
  repeat case_match; simplify_eq/=; bools; repeat constructor; lia.
Qed.

Lemma quote_from_skip k l : (k ≤ length l)%nat → quote_from k l = quote_from 0 (drop k l).
Proof.
  revert k. induction l as [|c l IH]; intros [|k] Hk; cbn in *; try done; try lia.
  apply IH. lia.
Qed.

Lemma quote_from_high c l :
  RuneSelf ≤ b2z c →
  ∃ t, quote_from 0 (c :: l) = t ++ quote_from 0 (drop (snd (DecodeRune (c :: l))) (c :: l)) ∧
    (t = take (snd (DecodeRune (c :: l))) (c :: l) ∨
     t = [backslash; "u"; "f"; "f"; "f"; "d"]%char ∨
     ∃ r, (r = 0x2028 ∨ r = 0x2029) ∧
          t = [backslash; "u"; "2"; "0"; "2"; hex_digit (Z.land r 0xF)]%char).
Proof.
  intros Hc. pose proof (DecodeRune_width c l) as Hw.
  cbn -[DecodeRune take drop]. rewrite (proj2 (Z.ltb_ge _ _)) by done.
  destruct (DecodeRune (c :: l)) as [r n]. cbn -[take drop] in *.
  rewrite quote_from_skip by lia.
  replace (drop (pred n) l) with (drop n (c :: l)) by (by destruct n; [lia|]).
  eexists. split; [done|]. repeat case_match; bools; auto.
  right; right. exists r. split; [|done]. destruct (r =? 0x2028) eqn:?; bools; auto.
  cbn in *. bools. auto.
Qed.

Lemma quote_from_low c l :
  b2z c < RuneSelf →
  quote_from 0 (c :: l) = (if html_safe c then [c] else escape c) ++ quote_from 0 l.
Proof. intros Hc. cbn -[escape]. by rewrite (proj2 (Z.ltb_lt _ _)). Qed.

Lemma quote_in_string l : in_string (quote_from 0 l).
Proof.
  induction l as [|c l IH] using rune_ind; [done|].
  destruct (Z.lt_ge_cases (b2z c) RuneSelf) as [Hc|Hc].
  - rewrite DecodeRune_ascii in IH by done. cbn [snd drop] in IH. rewrite drop_0 in IH.
    rewrite quote_from_low by done. apply in_string_app; [|done].
    case_match; [by apply in_string_html_safe|by apply in_string_escape].
  - destruct (quote_from_high c l Hc) as (t & -> & Ht). apply in_string_app; [|done].
    destruct Ht as [->|[->|(r & Hr & ->)]].
    + apply in_string_bytes, DecodeRune_high, Hc.
    + apply in_string_ufffd.
    + by apply in_string_u202.
Qed.

(** ** No byte below space *)
Definition printable (l : list ascii) : Prop := Forall (λ c, 0x20 ≤ b2z c) l.

Lemma quote_from_printable l : printable (quote_from 0 l).
Proof.
  unfold printable. induction l as [|c l IH] using rune_ind; [constructor|].
  destruct (Z.lt_ge_cases (b2z c) RuneSelf) as [Hc|Hc].
  - rewrite DecodeRune_ascii in IH by done. cbn [snd drop] in IH. rewrite drop_0 in IH.
    rewrite quote_from_low by done. apply Forall_app. split; [|done].
    case_match eqn:Hs.
    + constructor; [|done]. unfold html_safe in Hs. bools. done.
    + clear -Hc. unfold RuneSelf in Hc.
      destruct c as [[] [] [] [] [] [] [] []]; try (by vm_compute in Hc);
      repeat constructor; vm_compute; discriminate.
  - destruct (quote_from_high c l Hc) as (t & -> & Ht). apply Forall_app. split; [|done].
    destruct Ht as [->|[->|(r & [-> | ->] & ->)]].
    + eapply Forall_impl; [|exact (DecodeRune_high c l Hc)]. unfold RuneSelf. cbn. lia.
    + repeat constructor; vm_compute; discriminate.
    + repeat constructor; vm_compute; discriminate.
    + repeat constructor; vm_compute; discriminate.
Qed.

Lemma quote_printable s : printable (quote s).
Proof.
  unfold quote. constructor; [done|]. apply Forall_app.
  split; [apply quote_from_printable|]. by repeat constructor.
Qed.

Lemma digits_printable n : 0 ≤ n → printable (strconv.digits n).
Proof.
  intros Hn. eapply Forall_impl; [|exact (strconv.digits_forall n Hn)].
  intros c [d Hd]. apply strconv.digit_inv in Hd. lia.
Qed.

Lemma number_printable z : printable (number z).
Proof.
  unfold number, strconv.Itoa, printable. case_match; bools; cbn [bytes].
  - change (bytes (String "-" ?t)) with ("-"%char :: bytes t) in *.
    constructor; [done|]. rewrite bytes_str. apply digits_printable. lia.
  - rewrite bytes_str. by apply digits_printable.
Qed.

Lemma boolean_printable b : printable (boolean b).
Proof. destruct b; repeat constructor; vm_compute; discriminate. Qed.

Lemma commas_printable ls : Forall printable ls → printable (commas ls).
Proof.
  unfold printable. destruct 1 as [|x ls Hx Hl]; [constructor|]. apply Forall_app.
  split; [done|]. clear x Hx. induction Hl as [|x ls Hx _ IH]; [constructor|].
  cbn. constructor; [done|]. by apply Forall_app.
Qed.

Lemma object_printable ms : Forall (λ kv, printable kv.2) ms → printable (object ms).
Proof.
  intros H. unfold object. constructor; [done|]. apply Forall_app.
  split; [|by repeat constructor]. apply commas_printable.
  apply Forall_map. eapply Forall_impl; [|exact H]. intros [k v] Hv.
  unfold member, printable. apply Forall_app. split; [apply quote_printable|].
  by constructor.
Qed.

Lemma array_printable vs : Forall printable vs → printable (array vs).
Proof.
  intros H. unfold array. constructor; [done|]. apply Forall_app.
  split; [by apply commas_printable|by repeat constructor].
Qed.

(** ** Values in their context

    [scans d v]: in front of a byte that closes a value, the scanner takes the
    text [v] as one value; [d] bounds the nesting of [v]. *)
Definition closes (c : ascii) : Prop := c = ","%char ∨ c = "}"%char ∨ c = "]"%char.

Definition scans (d : nat) (v : list ascii) : Prop :=
  ∀ stk acc c k, (length stk + d ≤ maxNestingDepth)%nat → closes c →
  read_from BeginValue stk acc (v ++ c :: k) = read_from EndValue stk (reverse v ++ acc) (c :: k).

Lemma scans_readValue d v c k :
  (d ≤ maxNestingDepth)%nat → scans d v → closes c →
  readValue (v ++ c :: k) = Some (v, c :: k).
Proof.
  intros Hd Hv Hc. unfold readValue. rewrite Hv by (cbn; done || lia).
  by rewrite read_from_end, app_nil_r, reverse_involutive.
Qed.

(** A string literal, where a value or a key may start. *)
Lemma read_quote st stk acc s k :
  st = BeginValue ∨ st = BeginString ∨ st = BeginStringOrEmpty →
  read_from st stk acc (quote s ++ k) = read_from EndValue stk (reverse (quote s) ++ acc) k.
Proof.
  intros Hst. unfold quote.
  replace ((dquote :: quote_from 0 (bytes s) ++ [dquote]) ++ k)
    with (dquote :: (quote_from 0 (bytes s) ++ dquote :: k))
    by (cbn; by rewrite <-app_assoc).
  rewrite read_from_cons.
  assert (step st stk dquote = Continue InString stk) as ->
    by (destruct Hst as [->|[->| ->]]; done).
  rewrite (quote_in_string (bytes s)), read_from_cons. cbn [step].
  rewrite bool_decide_eq_true_2 by done. f_equal.
  rewrite reverse_cons, reverse_app. change (reverse [dquote]) with [dquote].
  cbn. by rewrite <-app_assoc.
Qed.

Lemma scans_quote s : scans 0 (quote s).
Proof. intros stk acc c k _ _. by rewrite read_quote by auto. Qed.

Lemma scans_boolean b : scans 0 (boolean b).
Proof. intros stk acc c k _ [->|[->| ->]]; destruct b, stk; done. Qed.

Lemma digit_is_digit c : is_Some (strconv.digit c) → is_digit c = true.
Proof.
  intros [d Hd]. apply strconv.digit_inv in Hd. unfold is_digit.
  apply andb_true_iff. lia.
Qed.

Lemma read_digits stk acc l k :
  Forall (λ c, is_Some (strconv.digit c)) l →
  read_from Int1 stk acc (l ++ k) = read_from Int1 stk (reverse l ++ acc) k.
Proof.
  intros H. revert acc. induction H as [|c l Hc _ IH]; intros acc; [done|].
  cbn [app]. rewrite read_from_cons. cbn [step]. rewrite digit_is_digit by done.
  rewrite IH, reverse_cons, <-app_assoc. done.
Qed.

Lemma read_close st stk acc c k :
  st = Int0 ∨ st = Int1 → closes c →
  read_from st stk acc (c :: k) = read_from EndValue stk acc (c :: k).
Proof. intros [-> | ->] [->|[->| ->]]; rewrite !read_from_cons; done. Qed.

(** The digits of a number, where a value starts or after the sign. *)
Lemma read_number st stk acc n c k :
  st = BeginValue ∨ st = Neg → 0 ≤ n → closes c →
  read_from st stk acc (strconv.digits n ++ c :: k) =
  read_from EndValue stk (reverse (strconv.digits n) ++ acc) (c :: k).
Proof.
  intros Hst Hn Hc. destruct (decide (n = 0)) as [-> |Hz].
  - change (strconv.digits 0) with ["0"%char]. cbn [app]. rewrite read_from_cons.
    assert (step st stk "0" = Continue Int0 stk) as -> by (destruct Hst as [-> | ->]; done).
    apply read_close; auto.
  - destruct (strconv.digits_head n) as (d & l & Hl & Hd); [lia|].
    pose proof (strconv.digits_forall n Hn) as Hf. rewrite Hl in *.
    apply Forall_cons_1 in Hf as [_ Hf]. cbn [app]. rewrite read_from_cons.
    assert (step st stk (strconv.digit_char d) = Continue Int1 stk) as ->.
    { assert (d = 1 ∨ d = 2 ∨ d = 3 ∨ d = 4 ∨ d = 5 ∨ d = 6 ∨ d = 7 ∨ d = 8 ∨ d = 9) by lia.
      destruct Hst as [-> | ->]; destruct_or! H; subst; done. }
    rewrite read_digits, read_close by auto. by rewrite reverse_cons, <-app_assoc.
Qed.

Lemma scans_number z : scans 0 (number z).
Proof.
  intros stk acc c k _ Hc. unfold number, strconv.Itoa. case_match; bools.
  - change (bytes (String "-" (str (strconv.digits (- z)))))
      with ("-"%char :: bytes (str (strconv.digits (- z)))).
    rewrite bytes_str. cbn [app]. rewrite read_from_cons. cbn [step begin_value isSpace].
    rewrite read_number by (auto; lia). by rewrite reverse_cons, <-app_assoc.
  - rewrite bytes_str. by apply read_number; auto.
Qed.

(** ** Objects *)

(** What is left of an object after its first member. *)
Definition more_members (ms : list (string * list ascii)) : list ascii :=
  concat (map (λ m, ","%char :: member m) ms).

Lemma object_cons m ms :
  object (m :: ms) = "{"%char :: member m ++ more_members ms ++ ["}"%char].
Proof.
  unfold object, commas, more_members. cbn. rewrite map_map. by rewrite <-app_assoc.
Qed.

Lemma more_members_close ms k :
  ∃ c t, more_members ms ++ "}"%char :: k = c :: t ∧ closes c.
Proof.
  destruct ms as [|m ms]; [exists "}"%char, k; split; [done|right; by left]|].
  eexists ","%char, _. split; [done|by left].
Qed.

Lemma read_member st stk acc d m c k :
  st = BeginString ∨ st = BeginStringOrEmpty →
  (S (length stk) + d ≤ maxNestingDepth)%nat → scans d m.2 → closes c →
  read_from st (parseObjectKey :: stk) acc (member m ++ c :: k) =
  read_from EndValue (parseObjectValue :: stk) (reverse (member m) ++ acc) (c :: k).
Proof.
  intros Hst Hd Hv Hc. unfold member. rewrite <-!app_assoc.
  rewrite read_quote by naive_solver. cbn [app]. rewrite read_from_cons.
  cbn [step end_value isSpace]. rewrite Hv by (cbn; done || lia).
  f_equal. by rewrite reverse_app, reverse_cons, <-!app_assoc.
Qed.

Lemma read_more_members stk acc d ms k :
  (S (length stk) + d ≤ maxNestingDepth)%nat → Forall (λ m, scans d m.2) ms →
  read_from EndValue (parseObjectValue :: stk) acc (more_members ms ++ "}"%char :: k) =
  read_from EndValue stk ("}"%char :: reverse (more_members ms) ++ acc) k.
Proof.
  intros Hd H. revert acc. induction H as [|m ms Hm _ IH]; intros acc.
  - cbn [more_members map concat app]. by rewrite read_from_cons.
  - change (more_members (m :: ms)) with (","%char :: member m ++ more_members ms).
    destruct (more_members_close ms k) as (c & t & E & Hc).
    cbn [app]. rewrite <-app_assoc, E, read_from_cons. cbn [step end_value isSpace].
    rewrite (read_member _ _ _ d) by auto. rewrite <-E, IH. f_equal.
    by rewrite reverse_cons, reverse_app, <-!app_assoc.
Qed.

(** An object is one value, whatever follows it. *)
Lemma read_object stk acc d ms k :
  (length stk + S d ≤ maxNestingDepth)%nat → Forall (λ m, scans d m.2) ms →
  read_from BeginValue stk acc (object ms ++ k) =
  read_from EndValue stk (reverse (object ms) ++ acc) k.
Proof.
  intros Hd H. destruct H as [|m ms Hm Hms].
  - change (object []) with ["{"%char; "}"%char]. cbn [app]. rewrite read_from_cons.
    cbn [step begin_value isSpace]. unfold push. rewrite decide_True by (cbn; lia).
    by rewrite read_from_cons.
  - rewrite object_cons. cbn [app]. rewrite <-!app_assoc. cbn [app].
    rewrite read_from_cons. cbn [step begin_value isSpace]. unfold push.
    rewrite decide_True by (cbn; lia).
    destruct (more_members_close ms k) as (c & t & E & Hc). rewrite E.
    rewrite (read_member _ _ _ d) by (auto; lia). rewrite <-E.
    rewrite (read_more_members _ _ d) by (done || lia). f_equal.
    rewrite reverse_cons, !reverse_app. change (reverse ["}"%char]) with ["}"%char].
    by rewrite <-!app_assoc.
Qed.

Lemma scans_object d ms : Forall (λ m, scans d m.2) ms → scans (S d) (object ms).
Proof. intros H stk acc c k Hd _. by apply (read_object _ _ d). Qed.

Lemma readValue_object d ms k :
  (S d ≤ maxNestingDepth)%nat → Forall (λ m, scans d m.2) ms →
  readValue (object ms ++ k) = Some (object ms, k).
Proof.
  intros Hd H. unfold readValue. rewrite (read_object _ _ d) by done.
  by rewrite read_from_end, app_nil_r, reverse_involutive.
Qed.

(** ** Reading the members back *)
Definition ascii_text (s : string) : Prop := Forall (λ c, b2z c < RuneSelf) (bytes s).

Lemma unquote_escape c t :
  b2z c < RuneSelf → html_safe c = false →
  unquote_from 0 (escape c ++ t) = c :: unquote_from 0 t.
Proof.
  intros Hc Hs.
  destruct c as [[] [] [] [] [] [] [] []]; first [by vm_compute in Hc|by vm_compute in Hs|reflexivity].
Qed.

Lemma unquote_skip k l : (k ≤ length l)%nat → unquote_from k l = unquote_from 0 (drop k l).
Proof.
  revert k. induction l as [|c l IH]; intros [|k] Hk; cbn [length] in *; try done; try lia.
  cbn [unquote_from drop]. apply IH. lia.
Qed.

(** What is written for a byte that is not ASCII. *)
Lemma quote_from_rune c l r n :
  RuneSelf ≤ b2z c → DecodeRune (c :: l) = (r, n) →
  quote_from 0 (c :: l) =
    (if (r =? RuneError) && bool_decide (n = 1%nat)
     then [backslash; "u"; "f"; "f"; "f"; "d"]%char
     else if (r =? 0x2028) || (r =? 0x2029)
     then [backslash; "u"; "2"; "0"; "2"; hex_digit (Z.land r 0xF)]%char
     else take n (c :: l)) ++ quote_from 0 (drop n (c :: l)).
Proof.
  intros Hc Er. pose proof (DecodeRune_width c l) as Hw. rewrite Er in Hw. cbn [snd length] in Hw.
  cbn -[DecodeRune take drop]. rewrite (proj2 (Z.ltb_ge _ _)), Er by done.
  rewrite quote_from_skip by lia.
  by replace (drop (pred n) l) with (drop n (c :: l)) by (by destruct n; [lia|]).
Qed.

(** The bytes of a code point are read as they are. *)
Lemma unquote_rune c k t r n :
  RuneSelf ≤ b2z c → DecodeRune (c :: k) = (r, n) → n = S (length k) → (r, n) ≠ (RuneError, 1%nat) →
  unquote_from 0 (c :: k ++ t) = c :: k ++ unquote_from 0 t.
Proof.
  intros Hc Er -> Hv. cbn [unquote_from].
  rewrite !bool_decide_eq_false_2 by (intros ->; by vm_compute in Hc).
  rewrite (proj2 (Z.ltb_ge _ _)) by done.
  rewrite DecodeRune_extend by (by rewrite Er). rewrite Er. cbn [pred].
  rewrite unquote_skip by (rewrite length_app; lia). rewrite drop_app_length.
  destruct (Encode_DecodeRune c k) as [E|E]; rewrite Er in E; [done|]. cbn [fst snd] in E.
  rewrite E, firstn_all2 by (cbn; lia). done.
Qed.

(** Reading a text back: the code points, and the replacement for other bytes. *)
Lemma unquote_quote_from l t :
  unquote_from 0 (quote_from 0 l ++ dquote :: t) = concat (map valid_bytes (runes_from 0 l)).
Proof.
  induction l as [|c l IH] using rune_ind; [done|].
  rewrite runes_from_cons. cbv zeta. cbn [map concat].
  destruct (Z.lt_ge_cases (b2z c) RuneSelf) as [Hc|Hc].
  - rewrite DecodeRune_ascii in * by done. cbn [fst snd take drop] in *.
    rewrite take_0 in *. rewrite drop_0 in *. rewrite quote_from_low, <-app_assoc by done.
    unfold valid_bytes at 1, invalid. cbn [fst snd].
    rewrite (proj2 (Z.eqb_neq _ _)) by (unfold RuneSelf, RuneError in *; lia). cbn [andb app].
    destruct (html_safe c) eqn:Hs; [|by rewrite unquote_escape, IH].
    unfold html_safe in Hs. bools. cbn [app unquote_from].
    rewrite !bool_decide_eq_false_2 by naive_solver.
    rewrite (proj2 (Z.ltb_lt _ _)) by done. by rewrite IH.
  - pose proof (DecodeRune_width c l) as Hw. pose proof (Encode_DecodeRune c l) as He.
    destruct (DecodeRune (c :: l)) as [r n] eqn:Er. cbn [fst snd] in *.
    rewrite (quote_from_rune _ _ _ _ Hc Er), <-app_assoc.
    unfold valid_bytes at 1, invalid. cbn [fst snd]. rewrite length_take, Nat.min_l by lia.
    destruct ((r =? RuneError) && bool_decide (n = 1%nat)) eqn:Ei.
    + bools. subst. rewrite Z.eqb_refl, <-IH. done.
    + replace ((r =? RuneError) && (n =? 1)%nat) with false
        by (rewrite <-Ei; f_equal; case_bool_decide; symmetry; [by apply Nat.eqb_eq|by apply Nat.eqb_neq]).
      assert ((r, n) ≠ (RuneError, 1%nat)) as Hv by (by intros [= -> ->]).
      destruct He as [He|He]; [done|]. rewrite <-IH.
      destruct ((r =? 0x2028) || (r =? 0x2029)) eqn:Eu.
      * rewrite <-He. by apply orb_true_iff in Eu as [->%Z.eqb_eq| ->%Z.eqb_eq].
      * destruct n as [|n]; [lia|]. cbn [take app drop length] in *.
        eapply unquote_rune; [done| |by rewrite length_take, Nat.min_l by lia|done].
        assert (DecodeRune (c :: take n l) = DecodeRune (c :: take n l ++ drop n l)) as ->.
        { apply DecodeRune_prefix. rewrite take_drop, Er, length_take. cbn. lia. }
        by rewrite take_drop.
Qed.

Lemma unquote_quote_valid s : unquote (quote s) = valid_text s.
Proof.
  unfold unquote, quote, valid_text. cbn [tail]. by rewrite unquote_quote_from.
Qed.

Lemma unquote_quote s : utf8_text s → unquote (quote s) = s.
Proof. intros Hs. by rewrite unquote_quote_valid, valid_text_utf8. Qed.

Lemma skip_ws_hd c l : isSpace c = false → skip_ws (c :: l) = c :: l.
Proof. apply drop_while_false. Qed.

Lemma expect_hd c l : isSpace c = false → expect c (c :: l) = Some l.
Proof. intros H. unfold expect. rewrite skip_ws_hd by done. by rewrite bool_decide_eq_true_2. Qed.

Lemma expect_other c d l : isSpace d = false → d ≠ c → expect c (d :: l) = None.
Proof.
  intros H ?. unfold expect. rewrite skip_ws_hd by done. by rewrite bool_decide_eq_false_2.
Qed.

Lemma quote_hd s k : quote s ++ k = dquote :: quote_from 0 (bytes s) ++ dquote :: k.
Proof. unfold quote. cbn [app]. by rewrite <-app_assoc. Qed.

Lemma token_string_quote s k : ascii_text s → token_string (quote s ++ k) = Some (s, k).
Proof.
  intros Hs. unfold token_string. rewrite quote_hd, expect_hd, skip_ws_hd by done.
  rewrite <-quote_hd. unfold readValue. rewrite read_quote by auto.
  rewrite read_from_end, app_nil_r, reverse_involutive. cbn [mbind option_bind].
  by rewrite unquote_quote by (by apply ascii_utf8).
Qed.

(** A member to be written: its key, its text and the value it stands for. *)
Definition member_ok (d : nat) (m : string * list ascii * value) : Prop :=
  let '(k, v, x) := m in ascii_text k ∧ scans d v ∧ classify v = x.

Definition text (m : string * list ascii * value) : string * list ascii := m.1.
Definition meaning (m : string * list ascii * value) : string * value := (m.1.1, m.2).

(** *** Texts

    A reader that keeps the text of every member: the keys with the texts of
    their values. *)
Fixpoint members_raw (fuel : nat) (start : bool) (l : list ascii)
    : option (list (string * list ascii)) :=
  match expect "}" l with
  | Some _ => Some []
  | None =>
    match fuel with
    | O => None
    | S f =>
      '(k, l1) ← token_key start l;
      '(raw, l2) ← token_value l1;
      ms ← members_raw f false l2;
      Some ((k, raw) :: ms)
    end
  end.

Lemma members_from_raw f b l :
  members_from f b l = map (λ m, (m.1, classify m.2)) <$> members_raw f b l.
Proof.
  revert b l. induction f as [|f IH]; intros b l; cbn [members_from members_raw];
    destruct (expect "}" l); try done.
  destruct (token_key b l) as [[k l1]|]; [|done]. cbn [mbind option_bind].
  destruct (token_value l1) as [[raw l2]|]; [|done]. cbn [mbind option_bind].
  rewrite IH. by destruct (members_raw f false l2).
Qed.

(** A member that is read back as its key and its text. *)
Definition raw_ok (d : nat) (m : string * list ascii) : Prop := ascii_text m.1 ∧ scans d m.2.

(** The next member, where its key is due. *)
Lemma members_step f b l m d c t ms :
  (d ≤ maxNestingDepth)%nat → raw_ok d m → closes c →
  expect "}" l = None →
  token_key b l = token_string (member m ++ c :: t) →
  members_raw f false (c :: t) = Some ms →
  members_raw (S f) b l = Some (m :: ms).
Proof.
  destruct m as [k v]. intros Hd (Hk & Hv) Hc He Ht Hms. cbn [members_raw]. rewrite He, Ht.
  unfold member. cbn [fst snd] in *. rewrite <-!app_assoc, token_string_quote by done.
  cbn [mbind option_bind app]. unfold token_value. rewrite expect_hd by done.
  cbn [mbind option_bind]. rewrite (scans_readValue d) by done.
  cbn [mbind option_bind]. by rewrite Hms.
Qed.

Lemma members_more f d ms t :
  (d ≤ maxNestingDepth)%nat → Forall (raw_ok d) ms → (length ms ≤ f)%nat →
  members_raw f false (more_members ms ++ "}"%char :: t) = Some ms.
Proof.
  intros Hd H. revert f. induction H as [|m ms Hm _ IH]; intros f Hf.
  - by destruct f.
  - destruct f as [|f]; cbn in Hf; [lia|].
    change (more_members (m :: ms)) with (","%char :: member m ++ more_members ms).
    destruct (more_members_close ms t) as (c & u & E & Hc).
    cbn [app]. rewrite <-app_assoc, E.
    eapply (members_step f false _ m d c u ms); try done.
    rewrite <-E. apply IH. lia.
Qed.

Lemma members_raw_object f d ms t :
  (d ≤ maxNestingDepth)%nat → Forall (raw_ok d) ms → (length ms ≤ f)%nat →
  ∃ r, token_open (object ms) = Some r ∧ members_raw f true (r ++ t) = Some ms.
Proof.
  intros Hd H Hf. destruct H as [|m ms Hm Hms].
  - exists ["}"%char]. by destruct f.
  - destruct f as [|f]; cbn in Hf; [lia|].
    rewrite object_cons. eexists. split; [by apply expect_hd|].
    destruct (more_members_close ms t) as (c & u & E & Hc).
    rewrite <-!app_assoc. cbn [app]. rewrite E.
    eapply (members_step f true _ m d c u ms); try done.
    rewrite <-E. apply (members_more _ d); [done|done|lia].
Qed.

Lemma members_object f d ms t :
  (d ≤ maxNestingDepth)%nat → Forall (member_ok d) ms → (length ms ≤ f)%nat →
  ∃ r, token_open (object (map text ms)) = Some r ∧
       members_from f true (r ++ t) = Some (map meaning ms).
Proof.
  intros Hd H Hf. destruct (members_raw_object f d (map text ms) t) as (r & Hr & Hm); [done| | |].
  - apply Forall_map. eapply Forall_impl; [|exact H]. by intros [[k v] x] (? & ? & _).
  - by rewrite length_map.
  - exists r. split; [done|]. rewrite members_from_raw, Hm. cbn. f_equal. rewrite map_map.
    apply map_ext_Forall. eapply Forall_impl; [|exact H]. intros [[k v] x] (_ & _ & Hx).
    cbn. by rewrite Hx.
Qed.

Lemma object_length ms : (length ms ≤ length (object ms))%nat.
Proof.
  destruct ms as [|m ms]; [cbn; lia|]. rewrite object_cons.
  cbn [length]. rewrite !length_app. cbn [length].
  enough (length ms ≤ length (more_members ms))%nat by lia.
  induction ms as [|m' ms IH]; [cbn; lia|].
  change (more_members (m' :: ms)) with (","%char :: member m' ++ more_members ms).
  cbn [length]. rewrite length_app. lia.
Qed.

Lemma classify_number z : classify (number z) = Number (strconv.Itoa z).
Proof.
  unfold number, classify.
  assert (∃ c l, bytes (strconv.Itoa z) = c :: l ∧ (c = "-"%char ∨ is_Some (strconv.digit c)))
    as (c & l & E & Hc).
  { unfold strconv.Itoa. case_match; bools.
    - eexists "-"%char, _. split; [done|by left].
    - rewrite bytes_str. destruct (strconv.digits_cons z) as (c & l & E).
      exists c, l. split; [done|]. right. pose proof (strconv.digits_forall z) as Hf.
      rewrite E in Hf. by apply Forall_cons_1 in Hf as [? _]. }
  rewrite <-(str_bytes (strconv.Itoa z)), E, bytes_str.
  destruct Hc as [-> |[d Hd]]; [done|].
  destruct c as [[] [] [] [] [] [] [] []]; done.
Qed.

Lemma classify_quoted s : classify (quote s) = Str (unquote (quote s)).
Proof.
  unfold classify. rewrite <-(app_nil_r (quote s)), quote_hd.
  rewrite skip_ws_hd by done. by rewrite <-quote_hd, app_nil_r.
Qed.

Lemma classify_quote s : utf8_text s → classify (quote s) = Str s.
Proof. intros Hs. by rewrite classify_quoted, unquote_quote. Qed.

Lemma classify_boolean b : classify (boolean b) = Bool b.
Proof. by destruct b. Qed.

(** ** Arrays *)
Definition more_elements (vs : list (list ascii)) : list ascii :=
  concat (map (cons ","%char) vs).

Lemma more_elements_close vs k :
  ∃ c t, more_elements vs ++ "]"%char :: k = c :: t ∧ closes c.
Proof.
  destruct vs as [|v vs]; [exists "]"%char, k; split; [done|by right; right]|].
  eexists ","%char, _. split; [done|by left].
Qed.

Lemma read_more_elements stk acc d vs k :
  (S (length stk) + d ≤ maxNestingDepth)%nat → Forall (scans d) vs →
  read_from EndValue (parseArrayValue :: stk) acc (more_elements vs ++ "]"%char :: k) =
  read_from EndValue stk ("]"%char :: reverse (more_elements vs) ++ acc) k.
Proof.
  intros Hd H. revert acc. induction H as [|v vs Hv _ IH]; intros acc.
  - cbn [more_elements map concat app]. by rewrite read_from_cons.
  - change (more_elements (v :: vs)) with (","%char :: v ++ more_elements vs).
    destruct (more_elements_close vs k) as (c & t & E & Hc).
    cbn [app]. rewrite <-app_assoc, E, read_from_cons. cbn [step end_value isSpace].
    rewrite Hv by (cbn; done || lia). rewrite <-E, IH. f_equal.
    by rewrite reverse_cons, reverse_app, <-!app_assoc.
Qed.

(** The first byte of a value: where a value may start, so may the first
    element of an array. *)
Definition starts_value (v : list ascii) : Prop :=
  ∃ c t, v = c :: t ∧ isSpace c = false ∧ c ≠ "]"%char.

(** An array is one value, whatever follows it. *)
Lemma read_array stk acc d vs k :
  (length stk + S d ≤ maxNestingDepth)%nat → Forall (scans d) vs → Forall starts_value vs →
  read_from BeginValue stk acc (array vs ++ k) =
  read_from EndValue stk (reverse (array vs) ++ acc) k.
Proof.
  intros Hd H Hst. unfold array, commas. destruct H as [|v vs Hv Hvs].
  - cbn [app]. rewrite read_from_cons. cbn [step begin_value isSpace]. unfold push.
    rewrite decide_True by (cbn; lia). by rewrite read_from_cons.
  - apply Forall_cons_1 in Hst as [(a & u & -> & Ha & Hb) _].
    change (concat (map (cons ","%char) vs)) with (more_elements vs).
    cbn [app]. rewrite <-!app_assoc. cbn [app].
    rewrite read_from_cons. cbn [step begin_value isSpace]. unfold push.
    rewrite decide_True by (cbn; lia).
    destruct (more_elements_close vs k) as (c' & t & E & Hc'). rewrite E.
    assert (read_from BeginValueOrEmpty (parseArrayValue :: stk) ("["%char :: acc) (a :: u ++ c' :: t) =
            read_from BeginValue (parseArrayValue :: stk) ("["%char :: acc) (a :: u ++ c' :: t)) as ->.
    { rewrite !read_from_cons. cbn [step]. by rewrite Ha, bool_decide_eq_false_2. }
    change (a :: u ++ c' :: t) with ((a :: u) ++ c' :: t).
    rewrite Hv by (cbn; done || lia). rewrite <-E, (read_more_elements _ _ d) by (done || lia).
    f_equal. rewrite !reverse_cons, !reverse_app. cbn [reverse rev_append app].
    by rewrite <-!app_assoc.
Qed.

Lemma scans_array d vs :
  Forall (scans d) vs → Forall starts_value vs → scans (S d) (array vs).
Proof. intros H Hst stk acc c k Hd _. by apply (read_array _ _ d). Qed.

Lemma starts_object ms : starts_value (object ms).
Proof. eexists "{"%char, _. done. Qed.

Lemma starts_quote s : starts_value (quote s).
Proof. eexists dquote, _. done. Qed.

Lemma scans_weaken d d' v : (d ≤ d')%nat → scans d v → scans d' v.
Proof. intros Hd Hv stk acc c k Hl Hc. apply Hv; [lia|done]. Qed.

Lemma classify_array vs : classify (array vs) = Array.
Proof. done. Qed.

(** ** Reading texts back

    What a client makes of a text: the members of an object and the elements of
    an array, each with its own text, to be read in turn. *)
Definition object_members (l : list ascii) : option (list (string * list ascii)) :=
  '(raw, rest) ← readValue l;
  if negb (forallb isSpace rest) then None else
  r ← token_open raw;
  members_raw (length raw) true r.

Fixpoint elements_raw (fuel : nat) (start : bool) (l : list ascii) : option (list (list ascii)) :=
  match expect "]" l with
  | Some _ => Some []
  | None =>
    match fuel with
    | O => None
    | S f =>
      l1 ← (if start then Some l else expect "," l);
      '(raw, l2) ← readValue l1;
      vs ← elements_raw f false l2;
      Some (raw :: vs)
    end
  end.

Definition array_elements (l : list ascii) : option (list (list ascii)) :=
  '(raw, rest) ← readValue l;
  if negb (forallb isSpace rest) then None else
  r ← expect "[" raw;
  elements_raw (length raw) true r.

Lemma object_members_object d ms :
  (S d ≤ maxNestingDepth)%nat → Forall (raw_ok d) ms → object_members (object ms) = Some ms.
Proof.
  intros Hd H. unfold object_members. rewrite <-(app_nil_r (object ms)) at 1.
  rewrite (readValue_object d); [|done|eapply Forall_impl; [|exact H]; by intros ? [? ?]].
  cbn [mbind option_bind forallb negb].
  destruct (members_raw_object (length (object ms)) d ms []) as (r & -> & Hm);
    [lia|done|apply object_length|].
  cbn [mbind option_bind]. by rewrite app_nil_r in Hm.
Qed.

Lemma elements_more f d vs t :
  (d ≤ maxNestingDepth)%nat → Forall (scans d) vs → (length vs ≤ f)%nat →
  elements_raw f false (more_elements vs ++ "]"%char :: t) = Some vs.
Proof.
  intros Hd H. revert f. induction H as [|v vs Hv _ IH]; intros f Hf.
  - by destruct f.
  - destruct f as [|f]; cbn in Hf; [lia|].
    change (more_elements (v :: vs)) with (","%char :: v ++ more_elements vs).
    destruct (more_elements_close vs t) as (c & u & E & Hc).
    cbn [app]. rewrite <-app_assoc, E. cbn [elements_raw].
    rewrite expect_other, expect_hd by done. cbn [mbind option_bind].
    rewrite (scans_readValue d) by done. cbn [mbind option_bind].
    by rewrite <-E, IH by lia.
Qed.

Lemma elements_raw_array f d vs :
  (d ≤ maxNestingDepth)%nat → Forall (scans d) vs → Forall starts_value vs → (length vs ≤ f)%nat →
  ∃ r, expect "[" (array vs) = Some r ∧ elements_raw f true r = Some vs.
Proof.
  intros Hd H Hst Hf. unfold array, commas. eexists. split; [by apply expect_hd|].
  destruct H as [|v vs Hv Hvs]; [by destruct f|]. destruct f as [|f]; cbn in Hf; [lia|].
  change (concat (map (cons ","%char) vs)) with (more_elements vs).
  apply Forall_cons_1 in Hst as [(a & u & -> & Ha & Hb) _].
  destruct (more_elements_close vs []) as (c & t & E & Hc).
  rewrite <-app_assoc, E. cbn [elements_raw]. cbn [app]. rewrite expect_other by done.
  change (a :: u ++ c :: t) with ((a :: u) ++ c :: t). cbn [mbind option_bind].
  rewrite (scans_readValue d) by done. cbn [mbind option_bind].
  by rewrite <-E, (elements_more f d) by (done || lia).
Qed.

Lemma array_length vs : Forall starts_value vs → (length vs ≤ length (array vs))%nat.
Proof.
  unfold array, commas. destruct vs as [|v vs]; [cbn; lia|]. intros [Hv _]%Forall_cons_1.
  destruct Hv as (a & u & -> & _). cbn [length app]. rewrite !length_app. cbn [length].
  enough (length vs ≤ length (more_elements vs))%nat by (unfold more_elements in *; lia).
  clear. induction vs as [|v vs IH]; [cbn; lia|].
  change (more_elements (v :: vs)) with (","%char :: v ++ more_elements vs).
  cbn [length]. rewrite length_app. lia.
Qed.

Lemma array_elements_array d vs :
  (S d ≤ maxNestingDepth)%nat → Forall (scans d) vs → Forall starts_value vs →
  array_elements (array vs) = Some vs.
Proof.
  intros Hd H Hst. unfold array_elements.
  assert (readValue (array vs) = Some (array vs, [])) as ->.
  { rewrite <-(app_nil_r (array vs)) at 1. unfold readValue.
    rewrite (read_array _ _ d) by done.
    by rewrite read_from_end, app_nil_r, reverse_involutive. }
  cbn [mbind option_bind forallb negb].
  destruct (elements_raw_array (length (array vs)) d vs) as (r & -> & Hm);
    [lia|done|done|by apply array_length|].
  exact Hm.
Qed.
