(* ===== verification/VNext.v ===== *)
(** * Data of the vnext protocol

    internal/vnext/outcome.go, backend.go (the window record), ewmh.go and the
    data types of request.go.  Field names are the source's; where a field name
    would clash with another record of the development it carries the record's
    initial. *)

From S2P Require Import Prelude.
Local Open Scope Z_scope.

(** ** ewmh.go *)
Definition SubstructureNotifyMask : Z := Z.shiftl 1 19.
Definition SubstructureRedirectMask : Z := Z.shiftl 1 20.
Definition ActivateEventMask : Z := Z.lor SubstructureRedirectMask SubstructureNotifyMask.
Definition NetActiveWindowSource : Z := 2.
Definition RevertToParent : Z := 2.
Definition NetActiveWindowAtom : string := "_NET_ACTIVE_WINDOW".
Definition NetWMStateAtom : string := "_NET_WM_STATE".
Definition NetWMStateFullscreenAtom : string := "_NET_WM_STATE_FULLSCREEN".
Definition NetClientListAtom : string := "_NET_CLIENT_LIST".
Definition NetSupportedAtom : string := "_NET_SUPPORTED".
Definition NetWMNameAtom : string := "_NET_WM_NAME".
Definition NetWMPIDAtom : string := "_NET_WM_PID".

(** ** backend.go: what [inspect] reports about a window *)
Record WindowInfo := {
  XID : Z;          (* uint32 *)
  Class : string;
  PID : Z;          (* uint32 *)
  Name : string;
  X : Z;
  Y : Z;
  Width : Z;
  Height : Z;
  State : list string;
  DisplayGen : Z;   (* uint64 *)
  ObserveGen : Z;   (* uint64 *)
}.

#[global] Instance WindowInfo_eq_dec : EqDecision WindowInfo.
Proof. solve_decision. Defined.

(** ** outcome.go *)
Record Outcome := {
  Code : string;
  OErr : option error;
  Windows : list WindowInfo;
  ScreenWidth : Z;
  ScreenHeight : Z;
  RequestedActive : Z;  (* uint32 *)
  ObservedActive : Z;   (* uint32 *)
}.

#[global] Instance Outcome_eq_dec : EqDecision Outcome.
Proof. solve_decision. Defined.

Definition CodeSubmitted : string := "Submitted".
Definition CodeNotSubmitted : string := "NotSubmitted".
Definition CodeInvalidRequest : string := "InvalidRequest".
Definition CodeConflict : string := "Conflict".
Definition CodeUnavailable : string := "Unavailable".

(** An outcome that carries only a code, [Outcome{Code: c}]. *)
Definition outcome (c : string) : Outcome :=
  {| Code := c; OErr := None; Windows := []; ScreenWidth := 0; ScreenHeight := 0;
     RequestedActive := 0; ObservedActive := 0 |}.

Definition Submitted (o : Outcome) : bool :=
  bool_decide (Code o = CodeSubmitted) && bool_decide (OErr o = None).

Definition submitted : Outcome := outcome CodeSubmitted.
Definition notSubmitted : Outcome := outcome CodeNotSubmitted.
Definition invalidRequest : Outcome := outcome CodeInvalidRequest.
Definition conflict : Outcome := outcome CodeConflict.

(** dispatch.go: [mapBackendError], for the [nil] error too. *)
Definition mapBackendError (err : option error) : Outcome :=
  match err with
  | None => outcome CodeUnavailable
  | Some e =>
    if errors_Is e ErrRefMismatch then conflict
    else {| Code := CodeUnavailable; OErr := Some e; Windows := [];
            ScreenWidth := 0; ScreenHeight := 0;
            RequestedActive := 0; ObservedActive := 0 |}
  end.

(** ** request.go: the operations *)
Definition OpMove : string := "move".
Definition OpKey : string := "key".
Definition OpButton : string := "button".
Definition OpInspect : string := "inspect".
Definition OpActivate : string := "activate".
Definition OpFullscreen : string := "fullscreen".
Definition OpRelease : string := "release".

Definition maxJSONLine : Z := Z.shiftl 1 20.

Record WindowRef := {
  RDisplayGen : Z;       (* uint64 *)
  RObserveGen : Z;       (* uint64 *)
  RXID : Z;              (* uint32 *)
  ExpectedClass : string;
  ExpectedPID : Z;       (* uint32 *)
}.

#[global] Instance WindowRef_eq_dec : EqDecision WindowRef.
Proof. solve_decision. Defined.

(** The zero value [WindowRef{}]. *)
Definition WindowRef0 : WindowRef :=
  {| RDisplayGen := 0; RObserveGen := 0; RXID := 0; ExpectedClass := "";
     ExpectedPID := 0 |}.

Record Request := {
  Op : string;
  QX : Z;
  QY : Z;
  Key : string;
  Press : bool;
  Button : Z;            (* uint *)
  Window : WindowRef;
  AddState : bool;
}.

#[global] Instance Request_eq_dec : EqDecision Request.
Proof. solve_decision. Defined.

(** The zero value [Request{}] and the composite literals of [Decode]. *)
Definition Request0 : Request :=
  {| Op := ""; QX := 0; QY := 0; Key := ""; Press := false; Button := 0;
     Window := WindowRef0; AddState := false |}.

Definition move_request (x y : Z) : Request :=
  {| Op := OpMove; QX := x; QY := y; Key := ""; Press := false; Button := 0;
     Window := WindowRef0; AddState := false |}.
Definition key_request (name : string) (press : bool) : Request :=
  {| Op := OpKey; QX := 0; QY := 0; Key := name; Press := press; Button := 0;
     Window := WindowRef0; AddState := false |}.
Definition button_request (b : Z) (press : bool) : Request :=
  {| Op := OpButton; QX := 0; QY := 0; Key := ""; Press := press; Button := b;
     Window := WindowRef0; AddState := false |}.
Definition plain_request (op : string) : Request :=
  {| Op := op; QX := 0; QY := 0; Key := ""; Press := false; Button := 0;
     Window := WindowRef0; AddState := false |}.
Definition window_request (op : string) (ref : WindowRef) (add : bool) : Request :=
  {| Op := op; QX := 0; QY := 0; Key := ""; Press := false; Button := 0;
     Window := ref; AddState := add |}.
