(* ===== verification/Request.v ===== *)
(** * The request decoder (internal/vnext/request.go)

    [Decode] reads one line of the JSON protocol in two passes, the top-level
    scan for unknown and repeated keys and the struct decoding, and validates
    every field the operation needs.  The lemmas relate the two passes: the scan
    sees the keys the struct pass stores, and with every key at most once the
    struct pass is a function of the object as a map. *)

From S2P Require Import Prelude GoStrings Json VNext.
Local Open Scope Z_scope.

(** ** The wire struct *)
Record wire := {
  wOp : string;
  wX : option Z;
  wY : option Z;
  wName : string;
  wPress : option bool;
  wButton : option Z;
  wDisplayGen : option Z;
  wObserveGen : option Z;
  wXID : option Z;
  wExpectedClass : string;
  wExpectedPID : Z;
  wAdd : option bool;
}.

Definition wire0 : wire :=
  {| wOp := ""; wX := None; wY := None; wName := ""; wPress := None;
     wButton := None; wDisplayGen := None; wObserveGen := None; wXID := None;
     wExpectedClass := ""; wExpectedPID := 0; wAdd := None |}.

Definition knownWireKeys : gset string :=
  list_to_set
    ["op"; "x"; "y"; "name"; "press"; "button"; "displayGen"; "observeGen";
     "xid"; "expectedClass"; "expectedPID"; "add"].

(** ** Storing a JSON value into a field

    [None] is an [UnmarshalTypeError]; [null] resets a pointer and leaves any
    other field alone. *)
Definition store_string (old : string) (v : json.value) : option string :=
  match v with
  | json.Str s => Some s
  | json.Null => Some old
  | _ => None
  end.

Definition store_bool (v : json.value) : option (option bool) :=
  match v with
  | json.Bool b => Some (Some b)
  | json.Null => Some None
  | _ => None
  end.

Definition store_int (v : json.value) : option (option Z) :=
  match v with
  | json.Number lit =>
    match strconv.ParseInt lit with (n, None) => Some (Some n) | _ => None end
  | json.Null => Some None
  | _ => None
  end.

Definition store_uint (bits : Z) (v : json.value) : option (option Z) :=
  match v with
  | json.Number lit =>
    match strconv.ParseUint lit bits with (n, None) => Some (Some n) | _ => None end
  | json.Null => Some None
  | _ => None
  end.

(** One member, stored into the field its key names.  The keys are compared
    exactly: the scan has already refused every key that is not spelled as in
    [knownWireKeys].  An unknown key is an error ([DisallowUnknownFields]). *)
Definition store (w : wire) (kv : string * json.value) : option wire :=
  let '(k, v) := kv in
  let '(Build_wire op x y nm pr bt dg og xi ec ep ad) := w in
  if bool_decide (k = "op") then
    op ← store_string op v; Some (Build_wire op x y nm pr bt dg og xi ec ep ad)
  else if bool_decide (k = "x") then
    x ← store_int v; Some (Build_wire op x y nm pr bt dg og xi ec ep ad)
  else if bool_decide (k = "y") then
    y ← store_int v; Some (Build_wire op x y nm pr bt dg og xi ec ep ad)
  else if bool_decide (k = "name") then
    nm ← store_string nm v; Some (Build_wire op x y nm pr bt dg og xi ec ep ad)
  else if bool_decide (k = "press") then
    pr ← store_bool v; Some (Build_wire op x y nm pr bt dg og xi ec ep ad)
  else if bool_decide (k = "button") then
    bt ← store_uint 64 v; Some (Build_wire op x y nm pr bt dg og xi ec ep ad)
  else if bool_decide (k = "displayGen") then
    dg ← store_uint 64 v; Some (Build_wire op x y nm pr bt dg og xi ec ep ad)
  else if bool_decide (k = "observeGen") then
    og ← store_uint 64 v; Some (Build_wire op x y nm pr bt dg og xi ec ep ad)
  else if bool_decide (k = "xid") then
    xi ← store_uint 32 v; Some (Build_wire op x y nm pr bt dg og xi ec ep ad)
  else if bool_decide (k = "expectedClass") then
    ec ← store_string ec v; Some (Build_wire op x y nm pr bt dg og xi ec ep ad)
  else if bool_decide (k = "expectedPID") then
    p ← store_uint 32 v;
    Some (Build_wire op x y nm pr bt dg og xi ec (default ep p) ad)
  else if bool_decide (k = "add") then
    ad ← store_bool v; Some (Build_wire op x y nm pr bt dg og xi ec ep ad)
  else None.

Definition unmarshal (ms : list (string * json.value)) : option wire :=
  foldl (λ w kv, w ← w; store w kv) (Some wire0) ms.

(** ** The decoder *)
Definition windowFromWire (w : wire) : WindowRef * bool :=
  match wDisplayGen w, wObserveGen w, wXID w with
  | Some dg, Some og, Some xid =>
    if xid =? 0 then (WindowRef0, false)
    else ({| RDisplayGen := dg; RObserveGen := og; RXID := xid;
             ExpectedClass := wExpectedClass w; ExpectedPID := wExpectedPID w |}, true)
  | _, _, _ => (WindowRef0, false)
  end.

Definition extraSeen (seen : gset string) (allowed : list string) : bool :=
  let allow : gset string := list_to_set allowed in
  existsb (λ k, negb (bool_decide (k ∈ allow))) (elements seen).

(** The loop of [scanTopLevelJSON]; one unit of fuel per member. *)
Fixpoint scan_members (fuel : nat) (start : bool) (seen : gset string)
    (l : list ascii) : bool * gset string :=
  if negb (json.More l) then (false, seen) else
  match fuel with
  | O => (true, seen)
  | S f =>
    match json.token_key start l with
    | None => (true, seen)
    | Some (k, l1) =>
      if bool_decide (k ∉ knownWireKeys) then (true, seen)
      else if bool_decide (k ∈ seen) then (true, seen)
      else
        let seen := {[k]} ∪ seen in
        match json.token_value l1 with
        | None => (true, seen)
        | Some (_, l2) => scan_members f false seen l2
        end
    end
  end.

Definition scanTopLevelJSON (line : string) : bool * gset string :=
  match json.token_open (bytes line) with
  | None => (true, ∅)
  | Some l => scan_members (length (bytes line)) true ∅ l
  end.

Definition invalid : Request * Outcome := (Request0, invalidRequest).

(** The switch on the operation: the validation of the decoded fields against
    what the operation needs and allows. *)
Definition validate (seen : gset string) (w : wire) : Request * Outcome :=
  let op := wOp w in
  if bool_decide (op = OpMove) then
    match wX w, wY w with
    | Some x, Some y =>
      if extraSeen seen ["op"; "x"; "y"] then invalid
      else (move_request x y, submitted)
    | _, _ => invalid
    end
  else if bool_decide (op = OpKey) then
    match wPress w with
    | Some press =>
      if extraSeen seen ["op"; "name"; "press"] || bool_decide (wName w = "") ||
         strings.ContainsByte (wName w) "000" then invalid
      else (key_request (wName w) press, submitted)
    | None => invalid
    end
  else if bool_decide (op = OpButton) then
    match wButton w, wPress w with
    | Some b, Some press =>
      if extraSeen seen ["op"; "button"; "press"] || (b <? 1) || (3 <? b) then invalid
      else (button_request b press, submitted)
    | _, _ => invalid
    end
  else if bool_decide (op = OpInspect) then
    if extraSeen seen ["op"] then invalid else (plain_request OpInspect, submitted)
  else if bool_decide (op = OpActivate) then
    let '(ref, ok) := windowFromWire w in
    if negb ok || extraSeen seen ["op"; "displayGen"; "observeGen"; "xid";
                                  "expectedClass"; "expectedPID"] then invalid
    else (window_request OpActivate ref false, submitted)
  else if bool_decide (op = OpFullscreen) then
    let '(ref, ok) := windowFromWire w in
    match wAdd w with
    | Some add =>
      if negb ok || extraSeen seen ["op"; "displayGen"; "observeGen"; "xid";
                                    "expectedClass"; "expectedPID"; "add"]
      then invalid
      else (window_request OpFullscreen ref add, submitted)
    | None => invalid
    end
  else if bool_decide (op = OpRelease) then
    if extraSeen seen ["op"] then invalid else (plain_request OpRelease, submitted)
  else (Request0, notSubmitted).

Definition Decode (line : string) : Request * Outcome :=
  let line := strings.TrimSpace line in
  if bool_decide (line = "") || (maxJSONLine <? len line) then invalid else
  let '(bad, seen) := scanTopLevelJSON line in
  if bad then invalid else
  match json.decode_object (bytes line) with
  | None => invalid
  | Some (ms, rest) =>
    match unmarshal ms with
    | None => invalid
    | Some w =>
      if json.More rest then invalid
      else if negb (bool_decide (strings.TrimSpace (str rest) = "")) then invalid
      else validate seen w
    end
  end.

(** ** The scan pass *)

(** What the scan does with the keys alone. *)
Fixpoint scan_keys (seen : gset string) (ks : list string) : bool * gset string :=
  match ks with
  | [] => (false, seen)
  | k :: ks' =>
    if bool_decide (k ∉ knownWireKeys) then (true, seen)
    else if bool_decide (k ∈ seen) then (true, seen)
    else scan_keys ({[k]} ∪ seen) ks'
  end.

Lemma scan_keys_ok seen ks S :
  scan_keys seen ks = (false, S) →
  NoDup ks ∧ (∀ k, k ∈ ks → k ∈ knownWireKeys) ∧ (∀ k, k ∈ ks → k ∉ seen) ∧
  S = list_to_set ks ∪ seen.
Proof.
  revert seen. induction ks as [|k ks IH]; intros seen; cbn.
  - intros; simplify_eq. split_and!; try set_solver. constructor.
  - do 2 (case_bool_decide; [done|]). intros (?&?&Hn&->)%IH.
    clear IH.
    split_and!; [|set_solver..].
    constructor; [|done]. intros Hk. specialize (Hn k Hk). set_solver.
Qed.

Lemma scan_keys_complete seen ks :
  NoDup ks → (∀ k, k ∈ ks → k ∈ knownWireKeys) → (∀ k, k ∈ ks → k ∉ seen) →
  scan_keys seen ks = (false, list_to_set ks ∪ seen).
Proof.
  intros Hd. revert seen. induction Hd as [|k ks Hk _ IH]; intros seen Hk1 Hk2; cbn.
  - f_equal. set_solver.
  - rewrite !bool_decide_eq_false_2 by set_solver.
    rewrite IH; [f_equal; set_solver|set_solver|]. intros j Hj. set_solver.
Qed.

Lemma scan_members_close f b seen l r k :
  json.expect "}" l = Some r → scan_members f b seen (l ++ k) = (false, seen).
Proof.
  intros E%json.expect_skip_ws.
  assert (json.More (l ++ k) = false) as Hm.
  { unfold json.More. by rewrite (json.skip_ws_extend _ _ _ k E). }
  destruct f; cbn; by rewrite Hm.
Qed.

(** Where the struct pass finds the members [ms], the scan pass sees exactly
    their keys, whatever follows the object. *)
Lemma scan_members_keys f b l ms :
  json.members_from f b l = Some ms →
  ∀ f' seen k, (length ms ≤ f')%nat →
  scan_members f' b seen (l ++ k) = scan_keys seen ms.*1.
Proof.
  revert b l ms. induction f as [|f IH]; intros b l ms Hm f' seen k Hf'; cbn in Hm.
  { case_match eqn:He; simplify_eq/=. by eapply scan_members_close. }
  destruct (json.expect "}" l) as [r|] eqn:He.
  { simplify_eq/=. by eapply scan_members_close. }
  apply bind_Some in Hm as ([s l1] & Hk &
    ([raw l2] & Hv & (ms' & Hms & ?)%bind_Some)%bind_Some). simplify_eq/=.
  destruct l1 as [|c1 l1]; [by apply json.token_value_nonempty in Hv|].
  destruct l2 as [|c2 l2]; [by apply json.members_from_nonempty in Hms|].
  pose proof (json.token_key_extend _ _ _ _ _ k Hk) as Hk'.
  pose proof (json.token_value_extend _ _ _ _ k Hv) as Hv'.
  destruct f' as [|f']; [lia|]. cbn [scan_members].
  rewrite (json.token_key_More _ _ _ _ Hk'), Hk'. cbn [negb]. rewrite Hv'.
  do 2 (case_bool_decide; [done|]). apply (IH _ _ _ Hms). lia.
Qed.

(** The fuel of the scan is enough: past the length of the input, more of it
    changes nothing. *)
Lemma scan_members_fuel f f' b seen l :
  (length l ≤ f)%nat → (length l ≤ f')%nat →
  scan_members f b seen l = scan_members f' b seen l.
Proof.
  revert f' b seen l. induction f as [|f IH]; intros [|f'] b seen l Hf Hf'; cbn;
    case_match; try done.
  all: try (destruct l; [by destruct b|cbn in *; lia]).
  destruct (json.token_key b l) as [[s l1]|] eqn:Hk; [|done].
  do 2 (case_bool_decide; [done|]).
  destruct (json.token_value l1) as [[raw l2]|] eqn:Hv; [|done].
  apply json.token_key_length in Hk. apply json.token_value_length in Hv.
  apply IH; lia.
Qed.

(** ** The struct pass as a function of the object

    With every key at most once, storing the members one after another is
    reading each field off the map from keys to values. *)
Definition field {A} (zero : A) (f : json.value → option A) (o : option json.value)
    : option A :=
  match o with None => Some zero | Some v => f v end.

Definition wire_of (m : gmap string json.value) : option wire :=
  op ← field "" (store_string "") (m !! "op");
  x ← field None store_int (m !! "x");
  y ← field None store_int (m !! "y");
  nm ← field "" (store_string "") (m !! "name");
  pr ← field None store_bool (m !! "press");
  bt ← field None (store_uint 64) (m !! "button");
  dg ← field None (store_uint 64) (m !! "displayGen");
  og ← field None (store_uint 64) (m !! "observeGen");
  xi ← field None (store_uint 32) (m !! "xid");
  ec ← field "" (store_string "") (m !! "expectedClass");
  ep ← field None (store_uint 32) (m !! "expectedPID");
  ad ← field None store_bool (m !! "add");
  Some (Build_wire op x y nm pr bt dg og xi ec (default 0 ep) ad).

Lemma wire_of_insert m k v :
  m !! k = None → k ∈ knownWireKeys →
  wire_of (<[k:=v]> m) = (w ← wire_of m; store w (k, v)).
Proof.
  intros Hm Hk. unfold knownWireKeys in Hk.
  rewrite elem_of_list_to_set, !elem_of_cons, elem_of_nil in Hk.
  unfold wire_of, store.
  destruct_or! Hk; subst k; try done;
    rewrite lookup_insert_eq, !lookup_insert_ne by done; rewrite Hm;
    rewrite ?bool_decide_eq_false_2 by done; rewrite bool_decide_eq_true_2 by done;
    cbn [field];
    try match goal with |- context [store_string "" v] => destruct (store_string "" v) eqn:? end;
    try match goal with |- context [store_int v] => destruct (store_int v) eqn:? end;
    try match goal with |- context [store_bool v] => destruct (store_bool v) eqn:? end;
    try match goal with |- context [store_uint ?b v] => destruct (store_uint b v) eqn:? end;
    repeat match goal with
    | |- context [@field ?A ?z ?f ?o] => destruct (@field A z f o); [|reflexivity]
    end; cbn; try match goal with H : store_string _ _ = _ |- _ => rewrite H end; reflexivity.
Qed.

Lemma wire_of_empty : wire_of ∅ = Some wire0.
Proof. reflexivity. Qed.

Lemma unmarshal_wire_of ms :
  NoDup ms.*1 → (∀ k, k ∈ ms.*1 → k ∈ knownWireKeys) →
  unmarshal ms = wire_of (list_to_map ms).
Proof.
  unfold unmarshal. induction ms as [|[k v] ms IH] using rev_ind; intros Hd Hk; [done|].
  rewrite fmap_app in Hd, Hk. cbn in Hd, Hk.
  apply list.NoDup_app in Hd as (Hd & Hn & _).
  assert (k ∉ ms.*1) as Hk' by (intros H; specialize (Hn k H); set_solver).
  rewrite foldl_snoc, IH by set_solver.
  rewrite list_to_map_snoc by done.
  rewrite wire_of_insert; [done| |set_solver].
  by apply not_elem_of_list_to_map_1.
Qed.

(** The scan pass on a line that starts with an object. *)
Lemma scanTopLevelJSON_keys line raw rest r ms :
  json.readValue (bytes line) = Some (raw, rest) →
  json.token_open raw = Some r →
  json.members_from (length raw) true r = Some ms →
  scanTopLevelJSON line = scan_keys ∅ ms.*1.
Proof.
  intros Hr Ho Hm. apply json.readValue_split in Hr. unfold scanTopLevelJSON, json.token_open in *.
  rewrite Hr. rewrite (json.expect_extend _ _ _ rest Ho).
  apply (scan_members_keys _ _ _ _ Hm). apply json.members_from_length in Hm.
  rewrite length_app. lia.
Qed.

(** When the scan finds nothing wrong, the struct pass reads an object. *)
Lemma decode_object_scan line ms rest seen :
  scanTopLevelJSON line = (false, seen) →
  json.decode_object (bytes line) = Some (ms, rest) →
  ∃ raw r, json.readValue (bytes line) = Some (raw, rest) ∧
           json.token_open raw = Some r ∧
           json.members_from (length raw) true r = Some ms.
Proof.
  intros Hs ([raw rest'] & Hr & Hc)%bind_Some.
  destruct (json.classify raw) eqn:E; try done.
  - exfalso. simplify_eq. unfold scanTopLevelJSON in Hs.
    destruct (json.token_open (bytes line)) as [l|] eqn:Ho; [|done].
    apply json.expect_skip_ws in Ho. apply json.readValue_split in Hr.
    rewrite Hr in Ho. unfold json.classify in E.
    destruct (json.skip_ws raw) as [|c t] eqn:Ew; [done|].
    rewrite (json.skip_ws_extend _ _ _ rest Ew) in Ho. simplify_eq/=.
  - apply bind_Some in Hc as (r & Ho & (ms' & Hm & ?)%bind_Some). simplify_eq. eauto.
Qed.
