(* ===== verification/RequestSpec.v ===== *)
(** * What the request decoder accepts

    The requests of the protocol reference as a relation between the object a
    line holds and the request it means ([accepts]); [Decode] returns exactly
    these. *)

From S2P Require Import Prelude GoStrings Utf8 Json JsonText VNext Request.
Local Open Scope Z_scope.

(** ** What a request line means

    The line holds one object and nothing else; [ms] are its members in
    order. *)
Definition json_line (line : string) (ms : list (string * json.value)) : Prop :=
  ∃ raw rest r,
    json.readValue (bytes line) = Some (raw, rest) ∧
    json.token_open raw = Some r ∧
    json.members_from (length raw) true r = Some ms ∧
    json.More rest = false ∧ strings.TrimSpace (str rest) = "".

Definition has_int (m : gmap string json.value) (k : string) (z : Z) : Prop :=
  ∃ lit, m !! k = Some (json.Number lit) ∧ strconv.ParseInt lit = (z, None).

Definition has_uint (bits : Z) (m : gmap string json.value) (k : string) (z : Z) : Prop :=
  ∃ lit, m !! k = Some (json.Number lit) ∧ strconv.ParseUint lit bits = (z, None).

Definition opt_string (m : gmap string json.value) (k s : string) : Prop :=
  m !! k = Some (json.Str s) ∨ (s = "" ∧ (m !! k = None ∨ m !! k = Some json.Null)).

Definition opt_uint (bits : Z) (m : gmap string json.value) (k : string) (z : Z) : Prop :=
  has_uint bits m k z ∨ (z = 0 ∧ (m !! k = None ∨ m !! k = Some json.Null)).

Definition keys_within (m : gmap string json.value) (ks : list string) : Prop :=
  ∀ k, is_Some (m !! k) → k ∈ ks.

(** The window reference of an activation or fullscreen request. *)
Definition has_window (m : gmap string json.value) (ref : WindowRef) : Prop :=
  has_uint 64 m "displayGen" (RDisplayGen ref) ∧
  has_uint 64 m "observeGen" (RObserveGen ref) ∧
  has_uint 32 m "xid" (RXID ref) ∧ RXID ref ≠ 0 ∧
  opt_string m "expectedClass" (ExpectedClass ref) ∧
  opt_uint 32 m "expectedPID" (ExpectedPID ref).

(** The requests of the protocol reference: which object is which request. *)
Inductive accepts (m : gmap string json.value) : Request → Prop :=
  | accepts_move x y :
    keys_within m ["op"; "x"; "y"] → m !! "op" = Some (json.Str OpMove) →
    has_int m "x" x → has_int m "y" y → accepts m (move_request x y)
  | accepts_key name press :
    keys_within m ["op"; "name"; "press"] → m !! "op" = Some (json.Str OpKey) →
    m !! "name" = Some (json.Str name) → name ≠ "" →
    strings.ContainsByte name "000" = false →
    m !! "press" = Some (json.Bool press) → accepts m (key_request name press)
  | accepts_button b press :
    keys_within m ["op"; "button"; "press"] → m !! "op" = Some (json.Str OpButton) →
    has_uint 64 m "button" b → 1 ≤ b ≤ 3 →
    m !! "press" = Some (json.Bool press) → accepts m (button_request b press)
  | accepts_plain op :
    op = OpInspect ∨ op = OpRelease →
    keys_within m ["op"] → m !! "op" = Some (json.Str op) → accepts m (plain_request op)
  | accepts_activate ref :
    keys_within m ["op"; "displayGen"; "observeGen"; "xid"; "expectedClass"; "expectedPID"] →
    m !! "op" = Some (json.Str OpActivate) →
    has_window m ref → accepts m (window_request OpActivate ref false)
  | accepts_fullscreen ref add :
    keys_within m ["op"; "displayGen"; "observeGen"; "xid"; "expectedClass"; "expectedPID"; "add"] →
    m !! "op" = Some (json.Str OpFullscreen) →
    has_window m ref → m !! "add" = Some (json.Bool add) →
    accepts m (window_request OpFullscreen ref add).

(** ** From the line to the object *)

Lemma classify_open raw r : json.token_open raw = Some r → json.classify raw = json.Object.
Proof. intros E%json.expect_skip_ws. unfold json.classify. by rewrite E. Qed.

(** On a line that is one object with proper keys, [Decode] is the validation
    of that object as a map. *)
Lemma Decode_object line ms :
  let t := strings.TrimSpace line in
  json_line t ms → len t ≤ maxJSONLine → NoDup ms.*1 →
  (∀ k, k ∈ ms.*1 → k ∈ knownWireKeys) →
  Decode line =
    match wire_of (list_to_map ms) with
    | None => invalid
    | Some w => validate (dom (list_to_map ms : gmap string json.value)) w
    end.
Proof.
  intros t (raw & rest & r & Hr & Ho & Hm & Hmore & Htrim) Hlen Hd Hk.
  unfold Decode. change (strings.TrimSpace line) with t.
  rewrite (bool_decide_eq_false_2 (t = "")) by (intros E; rewrite E in Hr; done).
  rewrite (proj2 (Z.ltb_ge _ _)) by done. cbn [orb].
  rewrite (scanTopLevelJSON_keys _ _ _ _ _ Hr Ho Hm).
  rewrite scan_keys_complete by set_solver.
  unfold json.decode_object. rewrite Hr. cbn.
  rewrite (classify_open _ _ Ho), Ho. cbn. rewrite Hm. cbn.
  rewrite unmarshal_wire_of by done. rewrite Hmore, bool_decide_eq_true_2 by done. cbn.
  by rewrite dom_list_to_map_L, (right_id_L ∅ (∪)).
Qed.

(** Every other line is refused as invalid. *)
Lemma Decode_refuse line :
  let t := strings.TrimSpace line in
  Decode line = invalid ∨
  ∃ ms, json_line t ms ∧ len t ≤ maxJSONLine ∧ NoDup ms.*1 ∧
        (∀ k, k ∈ ms.*1 → k ∈ knownWireKeys).
Proof.
  intros t. unfold Decode. change (strings.TrimSpace line) with t.
  case_match eqn:H0; [by left|]. bools.
  destruct (scanTopLevelJSON t) as [bad seen] eqn:Hs.
  destruct bad; [by left|].
  destruct (json.decode_object (bytes t)) as [[ms rest]|] eqn:Hd; [|by left].
  destruct (decode_object_scan _ _ _ _ Hs Hd) as (raw & r & Hr & Ho & Hm).
  rewrite (scanTopLevelJSON_keys _ _ _ _ _ Hr Ho Hm) in Hs.
  apply scan_keys_ok in Hs as (? & ? & _ & _).
  destruct (unmarshal ms); [|by left].
  destruct (json.More rest) eqn:Hmore; [by left|].
  case_bool_decide; [|by left].
  right. exists ms. unfold json_line. naive_solver.
Qed.

(** ** From the object to the request *)

Lemma extraSeen_keys_within (m : gmap string json.value) ks :
  extraSeen (dom m) ks = false ↔ keys_within m ks.
Proof.
  unfold extraSeen, keys_within. split.
  - intros H k Hk. apply elem_of_dom, elem_of_elements in Hk.
    destruct (decide (k ∈ ks)); [done|].
    rewrite <-not_true_iff_false, existsb_exists in H. destruct H.
    exists k. rewrite <-list_elem_of_In. split; [done|].
    rewrite bool_decide_eq_false_2; [done|]. by rewrite elem_of_list_to_set.
  - intros H. apply not_true_iff_false. rewrite existsb_exists.
    intros (k & Hk & Hn). apply list_elem_of_In, elem_of_elements, elem_of_dom in Hk.
    bools. rewrite elem_of_list_to_set in Hn. naive_solver.
Qed.

Lemma wire_of_Some m w :
  wire_of m = Some w ↔
  field "" (store_string "") (m !! "op") = Some (wOp w) ∧
  field None store_int (m !! "x") = Some (wX w) ∧
  field None store_int (m !! "y") = Some (wY w) ∧
  field "" (store_string "") (m !! "name") = Some (wName w) ∧
  field None store_bool (m !! "press") = Some (wPress w) ∧
  field None (store_uint 64) (m !! "button") = Some (wButton w) ∧
  field None (store_uint 64) (m !! "displayGen") = Some (wDisplayGen w) ∧
  field None (store_uint 64) (m !! "observeGen") = Some (wObserveGen w) ∧
  field None (store_uint 32) (m !! "xid") = Some (wXID w) ∧
  field "" (store_string "") (m !! "expectedClass") = Some (wExpectedClass w) ∧
  (∃ p, field None (store_uint 32) (m !! "expectedPID") = Some p ∧
        wExpectedPID w = default 0 p) ∧
  field None store_bool (m !! "add") = Some (wAdd w).
Proof.
  unfold wire_of. split.
  - intros H.
    repeat match goal with
    | H : (_ ≫= _) = Some _ |- _ => apply bind_Some in H as (? & ? & H)
    end. simplify_eq/=. split_and!; eauto.
  - intros (?&?&?&?&?&?&?&?&?&?&(p&?&Hp)&?).
    repeat match goal with H : field _ _ _ = Some _ |- _ => rewrite H; clear H end.
    cbn. rewrite <-Hp. by destruct w.
Qed.

(** The remaining cases compare two concrete values. *)
Ltac by_value :=
  split; intros;
  repeat match goal with
  | H : ∃ _, _ |- _ => destruct H as [? H]
  | H : _ ∧ _ |- _ => destruct H
  | H : _ ∨ _ |- _ => destruct H
  end; simplify_eq/=; eauto 6; try congruence.

Lemma field_int_Some m k z :
  field None store_int (m !! k) = Some (Some z) ↔ has_int m k z.
Proof.
  unfold has_int. destruct (m !! k) as [[]|]; cbn; try by by_value.
  destruct (strconv.ParseInt lit) as [n [e|]] eqn:E; by_value.
Qed.

Lemma field_uint_Some bits m k z :
  field None (store_uint bits) (m !! k) = Some (Some z) ↔ has_uint bits m k z.
Proof.
  unfold has_uint. destruct (m !! k) as [[]|]; cbn; try by by_value.
  destruct (strconv.ParseUint lit bits) as [n [e|]] eqn:E; by_value.
Qed.

Lemma field_bool_Some (m : gmap string json.value) k b :
  field None store_bool (m !! k) = Some (Some b) ↔ m !! k = Some (json.Bool b).
Proof. destruct (m !! k) as [[]|]; by_value. Qed.

Lemma field_string_Some m k s :
  field "" (store_string "") (m !! k) = Some s ↔ opt_string m k s.
Proof. unfold opt_string. destruct (m !! k) as [[]|]; by_value. Qed.

Lemma field_uint_default bits m k z :
  (∃ p, field None (store_uint bits) (m !! k) = Some p ∧ z = default 0 p)
  ↔ opt_uint bits m k z.
Proof.
  unfold opt_uint, has_uint. destruct (m !! k) as [[]|]; cbn.
  all: try destruct (strconv.ParseUint lit bits) as [n [e|]] eqn:E.
  all: by_value. exists (Some n). split; [done|]. cbn. congruence.
Qed.

Lemma opt_string_Some m k s : opt_string m k s → s ≠ "" → m !! k = Some (json.Str s).
Proof. unfold opt_string. naive_solver. Qed.

Lemma field_absent {A} (z : A) f (m : gmap string json.value) k :
  m !! k = None → field z f (m !! k) = Some z.
Proof. by intros ->. Qed.

Lemma keys_within_absent m ks k : keys_within m ks → k ∉ ks → m !! k = None.
Proof. intros H Hk. apply eq_None_not_Some. naive_solver. Qed.

Lemma windowFromWire_ok w m ref :
  wire_of m = Some w →
  (windowFromWire w = (ref, true) ↔ has_window m ref).
Proof.
  intros Hw. apply wire_of_Some in Hw as (_&_&_&_&_&_&Hdg&Hog&Hxi&Hec&Hep&_).
  apply field_uint_default in Hep. apply field_string_Some in Hec.
  unfold windowFromWire, has_window. rewrite <-!field_uint_Some, Hdg, Hog, Hxi.
  split.
  - intros H. repeat case_match; simplify_eq/=; bools. done.
  - intros (?&?&?&?&Hc&Hp). simplify_eq/=.
    assert (wExpectedClass w = ExpectedClass ref) as ->.
    { clear -Hec Hc. unfold opt_string in *. naive_solver congruence. }
    assert (wExpectedPID w = ExpectedPID ref) as ->.
    { clear -Hep Hp. apply field_uint_default in Hep, Hp. naive_solver congruence. }
    repeat match goal with H : _ = Some _ |- _ => rewrite H end.
    rewrite (proj2 (Z.eqb_neq _ _)) by done. by destruct ref.
Qed.

(** Rewrite the tests of the validation into statements about the object. *)
Ltac to_object :=
  bools;
  repeat match goal with
  | H : extraSeen (dom _) _ = false |- _ => apply extraSeen_keys_within in H
  | H : field None store_int _ = Some (Some _) |- _ => apply field_int_Some in H
  | H : field None store_bool _ = Some (Some _) |- _ => apply field_bool_Some in H
  | H : field None (store_uint _) _ = Some (Some _) |- _ => apply field_uint_Some in H
  end.

(** Soundness of the validation. *)
Lemma validate_sound m w r :
  wire_of m = Some w → validate (dom m) w = (r, submitted) → accepts m r.
Proof.
  intros Hw Hv. pose proof (λ ref, proj1 (windowFromWire_ok w m ref Hw)) as Hwin.
  apply wire_of_Some in Hw as (Hop&Hx&Hy&Hn&Hp&Hb&_&_&_&_&_&Ha).
  apply field_string_Some in Hop, Hn. unfold validate in Hv.
  destruct (windowFromWire w) as [ref ok].
  case_bool_decide as E; [|clear E; case_bool_decide as E; [|clear E; case_bool_decide as E;
    [|clear E; case_bool_decide as E; [|clear E; case_bool_decide as E; [|clear E;
    case_bool_decide as E; [|clear E; case_bool_decide as E; [|done]]]]]]].
  all: rewrite E in Hop; apply opt_string_Some in Hop; [|done].
  - destruct (wX w), (wY w); try done. case_match; [done|]. simplify_eq. to_object.
    by constructor.
  - destruct (wPress w); [|done]. case_match; [done|]. simplify_eq. to_object.
    constructor; auto using opt_string_Some.
  - destruct (wButton w), (wPress w); try done. case_match; [done|]. simplify_eq. to_object.
    by constructor.
  - case_match; [done|]. simplify_eq. to_object. constructor; auto.
  - case_match; [done|]. simplify_eq. to_object. subst. constructor; auto.
  - destruct (wAdd w); [|done]. case_match; [done|]. simplify_eq. to_object. subst.
    constructor; auto.
  - case_match; [done|]. simplify_eq. to_object. constructor; auto.
Qed.

(** Completeness of the validation. *)
Ltac by_keys :=
  eapply keys_within_absent; [eassumption|apply (bool_decide_unpack _); vm_compute; exact I].

Ltac by_fields :=
  apply wire_of_Some; cbn; split_and!;
  first [ by apply field_int_Some | by apply field_bool_Some | by apply field_uint_Some
        | by (apply field_string_Some; left) | by apply field_string_Some
        | by apply field_uint_default
        | apply field_absent; by_keys
        | exists None; split; [apply field_absent; by_keys|done] ].

Lemma validate_complete m r :
  accepts m r → ∃ w, wire_of m = Some w ∧ validate (dom m) w = (r, submitted).
Proof.
  intros Ha. destruct Ha as
    [x y Hk Hop Hx Hy|name press Hk Hop Hn Hne Hz Hp|b press Hk Hop Hb Hr Hp
    |op Hor Hk Hop|ref Hk Hop Hwin|ref add Hk Hop Hwin Hadd].
  - exists (Build_wire OpMove (Some x) (Some y) "" None None None None None "" 0 None).
    split; [by_fields|]. unfold validate. cbn.
    by rewrite (proj2 (extraSeen_keys_within _ _) Hk).
  - exists (Build_wire OpKey None None name (Some press) None None None None "" 0 None).
    split; [by_fields|]. unfold validate. cbn -[strings.ContainsByte].
    rewrite (proj2 (extraSeen_keys_within _ _) Hk), Hz. cbn [orb].
    by rewrite (bool_decide_eq_false_2 (name = "")) by done.
  - exists (Build_wire OpButton None None "" (Some press) (Some b) None None None "" 0 None).
    split; [by_fields|]. unfold validate. cbn.
    rewrite (proj2 (extraSeen_keys_within _ _) Hk).
    rewrite !(proj2 (Z.ltb_ge _ _)) by lia. done.
  - exists (Build_wire op None None "" None None None None None "" 0 None).
    split; [by_fields|]. unfold validate. cbn.
    rewrite (proj2 (extraSeen_keys_within _ _) Hk). by destruct Hor; subst.
  - set (w := Build_wire OpActivate None None "" None None (Some (RDisplayGen ref))
      (Some (RObserveGen ref)) (Some (RXID ref)) (ExpectedClass ref) (ExpectedPID ref) None).
    assert (wire_of m = Some w) as Hw
      by (destruct Hwin as (?&?&?&?&?&?); by_fields).
    exists w. split; [done|]. apply (windowFromWire_ok w m ref Hw) in Hwin.
    unfold validate. cbn -[windowFromWire].
    by rewrite Hwin, (proj2 (extraSeen_keys_within _ _) Hk).
  - set (w := Build_wire OpFullscreen None None "" None None (Some (RDisplayGen ref))
      (Some (RObserveGen ref)) (Some (RXID ref)) (ExpectedClass ref) (ExpectedPID ref) (Some add)).
    assert (wire_of m = Some w) as Hw
      by (destruct Hwin as (?&?&?&?&?&?); by_fields).
    exists w. split; [done|]. apply (windowFromWire_ok w m ref Hw) in Hwin.
    unfold validate. cbn -[windowFromWire].
    by rewrite Hwin, (proj2 (extraSeen_keys_within _ _) Hk).
Qed.

Lemma accepts_known m r k : accepts m r → is_Some (m !! k) → k ∈ knownWireKeys.
Proof.
  intros Ha Hk. unfold knownWireKeys. rewrite elem_of_list_to_set.
  assert (∃ ks, keys_within m ks ∧
    ks ⊆ ["op"; "x"; "y"; "name"; "press"; "button"; "displayGen"; "observeGen";
          "xid"; "expectedClass"; "expectedPID"; "add"]) as (ks & Hw & Hs).
  { destruct Ha; eexists; (split; [eassumption|]);
      apply (bool_decide_unpack _); vm_compute; exact I. }
  by apply Hs, Hw.
Qed.

(** ** The decoder *)

(** The request a line stands for: one object within the size limit, no key
    twice, and the object is one of the protocol's requests. *)
Definition denotes (line : string) (r : Request) : Prop :=
  let t := strings.TrimSpace line in
  ∃ ms, json_line t ms ∧ len t ≤ maxJSONLine ∧ NoDup ms.*1 ∧ accepts (list_to_map ms) r.

Lemma Decode_submitted line r : Decode line = (r, submitted) ↔ denotes line r.
Proof.
  unfold denotes. split.
  - intros Hd. destruct (Decode_refuse line) as [E|(ms & Hj & Hl & Hn & Hk)];
      [by rewrite E in Hd|].
    exists ms. split_and!; try done.
    rewrite (Decode_object _ _ Hj Hl Hn Hk) in Hd.
    case_match eqn:Hw; [|done]. by eapply validate_sound.
  - intros (ms & Hj & Hl & Hn & Ha).
    destruct (validate_complete _ _ Ha) as (w & Hw & Hv).
    rewrite (Decode_object _ _ Hj Hl Hn); [by rewrite Hw|].
    intros k Hk. eapply accepts_known; [done|]. apply elem_of_dom.
    by rewrite dom_list_to_map_L, elem_of_list_to_set.
Qed.

(** ** Well-formed requests *)

(** The machine types of a window reference, and an X window that exists. *)
Definition valid_ref (ref : WindowRef) : Prop :=
  is_uint 64 (RDisplayGen ref) ∧ is_uint 64 (RObserveGen ref) ∧
  is_uint 32 (RXID ref) ∧ RXID ref ≠ 0 ∧ is_uint 32 (ExpectedPID ref).

(** A fully populated request: only the fields of its operation are set, and
    they are in range. *)
Inductive valid_request : Request → Prop :=
  | valid_move x y : is_sint 64 x → is_sint 64 y → valid_request (move_request x y)
  | valid_key name press :
    name ≠ "" → strings.ContainsByte name "000" = false →
    valid_request (key_request name press)
  | valid_button b press : 1 ≤ b ≤ 3 → valid_request (button_request b press)
  | valid_inspect : valid_request (plain_request OpInspect)
  | valid_release : valid_request (plain_request OpRelease)
  | valid_activate ref :
    valid_ref ref → valid_request (window_request OpActivate ref false)
  | valid_fullscreen ref add :
    valid_ref ref → valid_request (window_request OpFullscreen ref add).

Lemma has_int_range m k z : has_int m k z → is_sint 64 z.
Proof.
  intros (lit & _ & H). pose proof (strconv.ParseInt_range lit) as Hr. by rewrite H in Hr.
Qed.

Lemma has_uint_range bits m k z : 0 ≤ bits → has_uint bits m k z → is_uint bits z.
Proof. intros Hb (lit & _ & H). by eapply strconv.ParseUint_range. Qed.

Lemma has_window_valid m ref : has_window m ref → valid_ref ref.
Proof.
  intros (H1 & H2 & H3 & H4 & _ & H6). unfold valid_ref.
  split_and!; [..|done|];
    try (eapply has_uint_range; [|eassumption]; done).
  destruct H6 as [H6|[-> _]]; [by eapply has_uint_range in H6|]. unfold is_uint. lia.
Qed.

Lemma accepts_valid m r : accepts m r → valid_request r.
Proof.
  destruct 1 as [| | |op [-> | ->]| |]; constructor; eauto using has_int_range, has_window_valid.
Qed.

(** ** Writing a request *)

(** The members of a request as the protocol reference writes them. *)
Definition num (k : string) (z : Z) : string * list ascii * json.value :=
  (k, json.number z, json.Number (strconv.Itoa z)).
Definition txt (k s : string) : string * list ascii * json.value :=
  (k, json.quote s, json.Str s).
Definition flag (k : string) (b : bool) : string * list ascii * json.value :=
  (k, json.boolean b, json.Bool b).

Definition ref_members (ref : WindowRef) : list (string * list ascii * json.value) :=
  [num "displayGen" (RDisplayGen ref); num "observeGen" (RObserveGen ref);
   num "xid" (RXID ref); txt "expectedClass" (ExpectedClass ref);
   num "expectedPID" (ExpectedPID ref)].

Definition request_members (r : Request) : list (string * list ascii * json.value) :=
  txt "op" (Op r) ::
  if bool_decide (Op r = OpMove) then [num "x" (QX r); num "y" (QY r)]
  else if bool_decide (Op r = OpKey) then [txt "name" (Key r); flag "press" (Press r)]
  else if bool_decide (Op r = OpButton) then [num "button" (Button r); flag "press" (Press r)]
  else if bool_decide (Op r = OpActivate) then ref_members (Window r)
  else if bool_decide (Op r = OpFullscreen) then
    ref_members (Window r) ++ [flag "add" (AddState r)]
  else [].

Definition render (r : Request) : string := str (json.object (map text (request_members r))).

Lemma ascii_text_dec s :
  forallb (λ c, b2z c <? 128) (bytes s) = true → ascii_text s.
Proof.
  intros H. unfold ascii_text. apply Forall_forall. intros c Hc.
  rewrite forallb_forall in H. apply H in Hc. bools. done.
Qed.

Lemma num_ok k z : ascii_text k → member_ok 0 (num k z).
Proof. intros. repeat split; auto using scans_number, classify_number. Qed.
Lemma txt_ok k s : ascii_text k → utf8_text s → member_ok 0 (txt k s).
Proof. intros. repeat split; auto using scans_quote, classify_quote. Qed.
Lemma flag_ok k b : ascii_text k → member_ok 0 (flag k b).
Proof. intros. repeat split; auto using scans_boolean, classify_boolean. Qed.

(** Text written as one object is read as one object. *)
Lemma json_line_object_depth d ms :
  (S d ≤ json.maxNestingDepth)%nat → Forall (member_ok d) ms →
  json_line (str (json.object (map text ms))) (map meaning ms).
Proof.
  intros Hd H.
  destruct (members_object (length (json.object (map text ms))) d ms [])
    as (r & Ho & Hm); [lia|done| |].
  { rewrite <-(length_map text ms). apply object_length. }
  rewrite app_nil_r in Hm. exists (json.object (map text ms)), [], r.
  rewrite bytes_str. split_and!; try done.
  rewrite <-(app_nil_r (json.object (map text ms))) at 1.
  apply (readValue_object d); [done|]. apply Forall_map.
  eapply Forall_impl; [|exact H]. by intros [[k v] x] (?&?&?).
Qed.

Lemma json_line_object ms :
  Forall (member_ok 0) ms → json_line (str (json.object (map text ms))) (map meaning ms).
Proof. apply json_line_object_depth. vm_compute. lia. Qed.

Lemma TrimSpace_object ms : strings.TrimSpace (str (json.object ms)) = str (json.object ms).
Proof.
  eapply (strings.TrimSpace_id _ "{"%char _ ("{"%char :: json.commas (map json.member ms)) "}"%char);
    rewrite ?bytes_str; done.
Qed.

Lemma keys_within_list (l : list (string * json.value)) ks :
  l.*1 = ks → keys_within (list_to_map l) ks.
Proof.
  intros <- k Hk. apply elem_of_dom in Hk.
  by rewrite dom_list_to_map_L, elem_of_list_to_set in Hk.
Qed.

Lemma has_int_num m k z :
  m !! k = Some (json.Number (strconv.Itoa z)) → is_sint 64 z → has_int m k z.
Proof. intros. eexists. split; [done|]. by apply strconv.ParseInt_Itoa. Qed.

Lemma has_uint_num bits m k z :
  m !! k = Some (json.Number (strconv.Itoa z)) → is_uint bits z → has_uint bits m k z.
Proof. intros. eexists. split; [done|]. by apply strconv.ParseUint_Itoa. Qed.

Ltac by_lookup := cbn; by simplify_map_eq.

Lemma ref_members_window l k ref :
  valid_ref ref →
  has_window (list_to_map (map meaning (txt "op" k :: ref_members ref ++ l))) ref.
Proof.
  intros (?&?&?&?&?). unfold has_window. split_and!; try done.
  - apply has_uint_num; [by_lookup|done].
  - apply has_uint_num; [by_lookup|done].
  - apply has_uint_num; [by_lookup|done].
  - left. by_lookup.
  - left. apply has_uint_num; [by_lookup|done].
Qed.

Lemma render_accepts r :
  valid_request r → accepts (list_to_map (map meaning (request_members r))) r.
Proof.
  destruct 1 as [x y|name press|b press| | |ref Hr|ref add Hr].
  - apply accepts_move; [by apply keys_within_list|by_lookup| |];
      (apply has_int_num; [by_lookup|done]).
  - apply accepts_key; [by apply keys_within_list|by_lookup|by_lookup|done|done|by_lookup].
  - apply accepts_button; [by apply keys_within_list|by_lookup| |done|by_lookup].
    apply has_uint_num; [by_lookup|unfold is_uint; lia].
  - apply accepts_plain; [by left|by apply keys_within_list|by_lookup].
  - apply accepts_plain; [by right|by apply keys_within_list|by_lookup].
  - apply accepts_activate; [by apply keys_within_list|by_lookup|].
    apply (ref_members_window []). done.
  - apply accepts_fullscreen; [by apply keys_within_list|by_lookup| |by_lookup].
    by apply (ref_members_window [flag "add" add]).
Qed.

(** The texts a request carries are UTF-8: other bytes cannot be written. *)
Definition utf8_request (r : Request) : Prop :=
  utf8_text (Key r) ∧ utf8_text (ExpectedClass (Window r)).

Lemma request_members_ok r :
  valid_request r → utf8_request r → Forall (member_ok 0) (request_members r).
Proof.
  intros Hv [Hk Hc].
  destruct Hv; repeat constructor;
    first [done|apply scans_quote|apply scans_number|apply scans_boolean|apply classify_boolean
          |apply classify_number|apply classify_quote; done
          |apply classify_quote; reflexivity
          |apply ascii_text_dec; reflexivity].
Qed.

Lemma request_members_NoDup r : valid_request r → NoDup (map meaning (request_members r)).*1.
Proof.
  destruct 1; apply (bool_decide_unpack _); vm_compute; exact I.
Qed.

(** A request that is written out denotes itself. *)
Lemma render_denotes r :
  valid_request r → utf8_request r → len (render r) ≤ maxJSONLine → denotes (render r) r.
Proof.
  intros Hv Ha Hl. exists (map meaning (request_members r)). unfold render in *.
  rewrite TrimSpace_object.
  auto using json_line_object, request_members_ok, request_members_NoDup, render_accepts.
Qed.

(** ** The theorems *)

Lemma validate_cases seen w :
  (∃ r, validate seen w = (r, submitted)) ∨ validate seen w = invalid ∨
  (validate seen w = (Request0, notSubmitted) ∧
   wOp w ∉ [OpMove; OpKey; OpButton; OpInspect; OpActivate; OpFullscreen; OpRelease]).
Proof.
  unfold validate. destruct (windowFromWire w) as [ref ok].
  repeat (case_bool_decide; [repeat case_match; eauto|]).
  right; right. split; [done|]. set_solver.
Qed.

Lemma validate_known_op seen w :
  validate seen w = (Request0, notSubmitted) ↔
  wOp w ∉ [OpMove; OpKey; OpButton; OpInspect; OpActivate; OpFullscreen; OpRelease].
Proof.
  split.
  - destruct (validate_cases seen w) as [[r E]|[E|[_ H]]]; [by rewrite E..|done].
  - intros H. unfold validate.
    by rewrite !bool_decide_eq_false_2 by set_solver.
Qed.

Lemma Decode_cases line :
  (∃ r, Decode line = (r, submitted) ∧ valid_request r) ∨
  Decode line = (Request0, notSubmitted) ∨
  Decode line = (Request0, invalidRequest).
Proof.
  destruct (Decode_refuse line) as [->|(ms & Hj & Hl & Hn & Hk)]; [auto|].
  destruct (Decode line) as [r o] eqn:E.
  pose proof E as E'. rewrite (Decode_object _ _ Hj Hl Hn Hk) in E'.
  destruct (wire_of (list_to_map ms)) as [w|] eqn:Hw; [|by simplify_eq; auto].
  destruct (validate_cases (dom (list_to_map ms : gmap string json.value)) w)
    as [[r' Hv]|[Hv|[Hv _]]]; rewrite Hv in E'; simplify_eq; [|by auto..].
  left. exists r. split; [done|]. eapply accepts_valid, validate_sound; eauto.
Qed.

(** C1: the two decoding passes accept exactly the requests of the protocol.
    [Decode] reports a line as submitted with request [r] if and only if the
    line, trimmed, is at most 1 MiB long and holds one JSON object and nothing
    else, no key occurs twice, and the object is one of the seven request
    forms, with the fields of its operation and no others, every number in the
    range of its Go type. *)
Theorem decode_accepts_exactly line r : Decode line = (r, submitted) ↔ denotes line r.
Proof. apply Decode_submitted. Qed.

(** Every line has one of three outcomes: a complete, in-range request; the
    zero request with NotSubmitted; or the zero request with InvalidRequest.
    No rejected line leaks a partially filled request. *)
Theorem decode_outcomes line :
  (∃ r, Decode line = (r, submitted) ∧ valid_request r) ∨
  Decode line = (Request0, notSubmitted) ∨
  Decode line = (Request0, invalidRequest).
Proof. apply Decode_cases. Qed.

(** NotSubmitted means an unknown operation and nothing else: the line is
    a well-formed object with known, distinct keys whose values have the types
    of their fields, and its operation is none of the seven. *)
Theorem decode_unknown_op line :
  Decode line = (Request0, notSubmitted) ↔
  ∃ ms w, json_line (strings.TrimSpace line) ms ∧
          len (strings.TrimSpace line) ≤ maxJSONLine ∧
          NoDup ms.*1 ∧ (∀ k, k ∈ ms.*1 → k ∈ knownWireKeys) ∧
          wire_of (list_to_map ms) = Some w ∧
          wOp w ∉ [OpMove; OpKey; OpButton; OpInspect; OpActivate; OpFullscreen; OpRelease].
Proof.
  split.
  - intros Hd. destruct (Decode_refuse line) as [E|(ms & Hj & Hl & Hn & Hk)];
      [by rewrite E in Hd|].
    rewrite (Decode_object _ _ Hj Hl Hn Hk) in Hd.
    case_match eqn:Hw; [|done]. apply validate_known_op in Hd. eauto 10.
  - intros (ms & w & Hj & Hl & Hn & Hk & Hw & Hop).
    rewrite (Decode_object _ _ Hj Hl Hn Hk), Hw. by apply validate_known_op.
Qed.

(** C19: a well-formed request written as the protocol reference writes it (with
    UTF-8 texts, within the size limit) is read back as itself. *)
Theorem decode_roundtrip r :
  valid_request r → utf8_request r → len (render r) ≤ maxJSONLine →
  Decode (render r) = (r, submitted).
Proof.
  intros Hv Ha Hl. by apply Decode_submitted, render_denotes.
Qed.

Lemma decode_roundtrip_witness :
  Decode (render (window_request OpFullscreen
    {| RDisplayGen := 1; RObserveGen := 7; RXID := 4194307;
       ExpectedClass := "Example"; ExpectedPID := 1234 |} true))
  = (window_request OpFullscreen
    {| RDisplayGen := 1; RObserveGen := 7; RXID := 4194307;
       ExpectedClass := "Example"; ExpectedPID := 1234 |} true, submitted).
Proof.
  apply decode_roundtrip.
  - apply valid_fullscreen. repeat split; vm_compute; congruence.
  - split; reflexivity.
  - vm_compute. congruence.
Defined.
