(* ===== verification/Backend.v ===== *)
(** * The backend interface (internal/vnext/backend.go)

    The [Backend] interface as a type of calls, programs over it, and the two
    ways to run a program: against a concrete backend ([run], with panics) and
    against all possible answers ([exec]).  A statement about every [exec] of a
    program holds for every backend. *)

From S2P Require Import Prelude VNext.
Local Open Scope Z_scope.

(** ** The methods, with the types of their results *)
Inductive call : Set → Type :=
  | KeycodeFor (name : string) : call Z
  | WarpMouse (x y : Z) : call (option error)
  | SendKey (keycode : Z) (press : bool) : call (option error)
  | SendButton (button : Z) (press : bool) : call (option error)
  | ScreenGeometry : call (Z * Z * option error)
  | ManagedClients : call (list WindowInfo * option error)
  | Revalidate (ref : WindowRef) : call (option error)
  | ActivateAlwaysBoth (ref : WindowRef) : call (option error)
  | SetFullscreen (ref : WindowRef) (add : bool) : call (option error)
  | ActiveWindow : call (Z * option error).

(** ** Programs that call a backend *)
Inductive prog (A : Type) : Type :=
  | Ret (a : A)
  | Call {R : Set} (c : call R) (k : R → prog A).
Arguments Ret {A} a.
Arguments Call {A R} c k.

Fixpoint prog_bind_def {A B} (f : A → prog B) (p : prog A) : prog B :=
  match p with
  | Ret a => f a
  | Call c k => Call c (λ r, prog_bind_def f (k r))
  end.

#[global] Instance prog_ret : MRet prog := @Ret.
#[global] Instance prog_bind : MBind prog := @prog_bind_def.

(** One method call. *)
Definition ask {R : Set} (c : call R) : prog R := Call c Ret.

(** ** Executions *)

(** A call together with the answer it got. *)
Inductive event : Type :=
  | EKeycodeFor (name : string) (kc : Z)
  | EWarpMouse (x y : Z) (err : option error)
  | ESendKey (kc : Z) (press : bool) (err : option error)
  | ESendButton (b : Z) (press : bool) (err : option error)
  | EScreenGeometry (geometry : Z * Z * option error)
  | EManagedClients (clients : list WindowInfo * option error)
  | ERevalidate (ref : WindowRef) (err : option error)
  | EActivate (ref : WindowRef) (err : option error)
  | ESetFullscreen (ref : WindowRef) (add : bool) (err : option error)
  | EActiveWindow (active : Z * option error).

Definition Ev {R : Set} (c : call R) : R → event :=
  match c in call R return R → event with
  | KeycodeFor name => EKeycodeFor name
  | WarpMouse x y => EWarpMouse x y
  | SendKey kc press => ESendKey kc press
  | SendButton b press => ESendButton b press
  | ScreenGeometry => EScreenGeometry
  | ManagedClients => EManagedClients
  | Revalidate ref => ERevalidate ref
  | ActivateAlwaysBoth ref => EActivate ref
  | SetFullscreen ref add => ESetFullscreen ref add
  | ActiveWindow => EActiveWindow
  end.

(** The error an answer carries; a keycode lookup has none. *)
Definition ev_error (e : event) : option error :=
  match e with
  | EKeycodeFor _ _ => None
  | EWarpMouse _ _ err | ESendKey _ _ err | ESendButton _ _ err
  | ERevalidate _ err | EActivate _ err | ESetFullscreen _ _ err => err
  | EScreenGeometry g => g.2
  | EManagedClients l => l.2
  | EActiveWindow a => a.2
  end.

(** The first error of a run. *)
Fixpoint first_error (evs : list event) : option error :=
  match evs with
  | [] => None
  | e :: evs' => match ev_error e with Some err => Some err | None => first_error evs' end
  end.

Lemma first_error_app l k :
  first_error (l ++ k) = match first_error l with Some e => Some e | None => first_error k end.
Proof. induction l as [|e l IH]; cbn; [done|]. by destruct (ev_error e). Qed.

(** [exec p evs a]: with the answers recorded in [evs], in this order and no
    others, the program [p] returns [a]. *)
Inductive exec {A} : prog A → list event → A → Prop :=
  | exec_ret a : exec (Ret a) [] a
  | exec_call {R : Set} (c : call R) k (r : R) evs a :
    exec (k r) evs a → exec (Call c k) (Ev c r :: evs) a.

Lemma exec_ret_inv {A} (a b : A) evs : exec (Ret a) evs b → evs = [] ∧ a = b.
Proof. inversion 1; auto. Qed.

(** Inversion of a call without axioms: the answer and the rest of the run. *)
Definition exec_head {A} (p : prog A) (evs : list event) (a : A) : Prop :=
  match p with
  | Ret b => evs = [] ∧ a = b
  | Call c k => ∃ r evs', evs = Ev c r :: evs' ∧ exec (k r) evs' a
  end.

Lemma exec_inv {A} (p : prog A) evs a : exec p evs a → exec_head p evs a.
Proof. destruct 1; cbn; eauto. Qed.

Lemma exec_call_inv {A} {R : Set} (c : call R) (k : R → prog A) evs a :
  exec (Call c k) evs a → ∃ r evs', evs = Ev c r :: evs' ∧ exec (k r) evs' a.
Proof. exact (exec_inv (Call c k) evs a). Qed.

Lemma exec_bind {A B} (p : prog A) (f : A → prog B) evs b :
  exec (p ≫= f) evs b ↔
  ∃ evs1 evs2 a, evs = evs1 ++ evs2 ∧ exec p evs1 a ∧ exec (f a) evs2 b.
Proof.
  revert evs. induction p as [a|R c k IH]; intros evs.
  - split; [intros; exists [], evs, a; by split; [|split; [constructor|]]|].
    intros (evs1 & evs2 & a' & -> & H1%exec_ret_inv & H2). by destruct H1 as [-> ->].
  - split.
    + intros (r & evs' & -> & H)%exec_call_inv.
      apply IH in H as (evs1 & evs2 & a & -> & H1 & H2).
      exists (Ev c r :: evs1), evs2, a. split; [done|]. by split; [constructor|].
    + intros (evs1 & evs2 & a & -> & H1 & H2).
      apply exec_call_inv in H1 as (r & evs' & -> & H1).
      cbn. constructor. apply IH. by exists evs', evs2, a.
Qed.

Lemma exec_ask {R : Set} (c : call R) evs r : exec (ask c) evs r → evs = [Ev c r].
Proof.
  intros (r' & evs' & -> & H)%exec_call_inv. by apply exec_ret_inv in H as [-> ->].
Qed.

(** Undo one bind whose first part is a call. *)
Lemma exec_ask_bind {R : Set} {B} (c : call R) (f : R → prog B) evs b :
  exec (ask c ≫= f) evs b → ∃ r evs', evs = Ev c r :: evs' ∧ exec (f r) evs' b.
Proof.
  intros (evs1 & evs2 & r & -> & H1%exec_ask & H2)%exec_bind. subst. eauto.
Qed.

(** ** Concrete backends *)

(** The result of running Go code on a state: a value or a panic. *)
Inductive res (W A : Type) : Type :=
  | Val (a : A) (w : W)
  | Panicked (msg : string) (w : W).
Arguments Val {W A} a w.
Arguments Panicked {W A} msg w.

(** An implementation of the interface over the state [W]: what each method
    does.  [Backend] is a type class, so that a program run at a state type
    uses that type's implementation. *)
Class Backend (W : Type) := handle : ∀ {R : Set}, call R → W → res W R.

Fixpoint run {W A} `{Backend W} (p : prog A) (w : W) : res W A :=
  match p with
  | Ret a => Val a w
  | Call c k =>
    match handle c w with
    | Val r w' => run (k r) w'
    | Panicked m w' => Panicked m w'
    end
  end.

(** A run that returns is one of the executions. *)
Lemma run_exec {W A} `{Backend W} (p : prog A) w a w' :
  run p w = Val a w' → ∃ evs, exec p evs a.
Proof.
  revert w. induction p as [b|R c k IH]; intros w; cbn.
  - intros; simplify_eq. eauto using exec_ret.
  - destruct (handle c w) as [r w1|]; [|done].
    intros (evs & He)%IH. eauto using exec_call.
Qed.
