(* ===== verification/Session.v ===== *)
(** * Sessions (internal/vnext/session.go)

    The keys and buttons one client holds, and their release.  The mutex of the
    source guards single map accesses; a session belongs to one connection, so
    its operations are modelled one after another. *)

From S2P Require Import Prelude VNext Backend.
Local Open Scope Z_scope.

Record Session := {
  keys : gmap Z bool;
  buttons : gmap Z bool;
}.

#[global] Instance Session_eq_dec : EqDecision Session.
Proof. solve_decision. Defined.

Definition NewSession : Session := {| keys := ∅; buttons := ∅ |}.

Definition noteKey (kc : Z) (press : bool) (s : Session) : Session :=
  {| keys := if press then <[kc:=true]> (keys s) else delete kc (keys s);
     buttons := buttons s |}.

Definition noteButton (b : Z) (press : bool) (s : Session) : Session :=
  {| keys := keys s;
     buttons := if press then <[b:=true]> (buttons s) else delete b (buttons s) |}.

(** Reading a Go map: the zero value for a missing key. *)
Definition KeyDown (kc : Z) (s : Session) : bool := default false (keys s !! kc).
Definition ButtonDown (b : Z) (s : Session) : bool := default false (buttons s !! b).

(** The order in which [for ... range m] visits a Go map is not specified: any
    order of the entries is possible, a different one each time. *)
Record map_range := {
  range_over : gmap Z bool → list (Z * bool);
  range_perm : ∀ m, range_over m ≡ₚ map_to_list m;
}.

(** The orders chosen for the two loops of one [Release]. *)
Record schedule := { range_keys : map_range; range_buttons : map_range }.

(** The order used in the examples: that of the underlying tree. *)
Definition tree_order : map_range :=
  {| range_over := map_to_list; range_perm := λ m, reflexivity _ |}.
Definition tree_schedule : schedule := {| range_keys := tree_order; range_buttons := tree_order |}.

(** The entries with [down] set. *)
Definition held_in (rng : map_range) (m : gmap Z bool) : list Z :=
  map fst (filter (λ e, e.2 = true) (range_over rng m)).

(** The two release loops: a failed release keeps the hold and the first
    error. *)
Fixpoint release_keys (kcs : list Z) (s : Session) (first : option error)
    : prog (Session * option error) :=
  match kcs with
  | [] => Ret (s, first)
  | kc :: kcs' =>
    err ← ask (SendKey kc false);
    match err with
    | Some e => release_keys kcs' s (match first with None => Some e | _ => first end)
    | None => release_keys kcs' {| keys := delete kc (keys s); buttons := buttons s |} first
    end
  end.

Fixpoint release_buttons (bs : list Z) (s : Session) (first : option error)
    : prog (Session * option error) :=
  match bs with
  | [] => Ret (s, first)
  | b :: bs' =>
    err ← ask (SendButton b false);
    match err with
    | Some e => release_buttons bs' s (match first with None => Some e | _ => first end)
    | None => release_buttons bs' {| keys := keys s; buttons := delete b (buttons s) |} first
    end
  end.

(** [Session.Release]; [sess = None] is the nil session, [nilb] says whether
    the backend argument is nil. *)
Definition Release (sch : schedule) (sess : option Session) (nilb : bool)
    : prog (Outcome * option Session) :=
  match sess with
  | None => Ret (invalidRequest, None)
  | Some s =>
    if nilb then Ret (outcome CodeUnavailable, sess) else
    let kcs := held_in (range_keys sch) (keys s) in
    let btns := held_in (range_buttons sch) (buttons s) in
    '(s, first) ← release_keys kcs s None;
    '(s, first) ← release_buttons btns s first;
    match first with
    | Some e => Ret (mapBackendError (Some e), Some s)
    | None => Ret (submitted, Some s)
    end
  end.

(** ** What a run does to the session *)

(** A session follows the transitions that were submitted without error. *)
Definition track (s : Session) (e : event) : Session :=
  match e with
  | ESendKey kc press None => noteKey kc press s
  | ESendButton b press None => noteButton b press s
  | _ => s
  end.

(** The events of a release loop: one release per hold, in order. *)
Definition key_ups (kcs : list Z) (errs : list (option error)) : list event :=
  zip_with (λ kc err, ESendKey kc false err) kcs errs.
Definition button_ups (bs : list Z) (errs : list (option error)) : list event :=
  zip_with (λ b err, ESendButton b false err) bs errs.

Lemma release_keys_exec kcs s first evs s' first' :
  exec (release_keys kcs s first) evs (s', first') →
  ∃ errs, length errs = length kcs ∧ evs = key_ups kcs errs ∧
    s' = foldl track s evs ∧
    first' = match first with Some _ => first | None => first_error evs end.
Proof.
  revert s first evs. induction kcs as [|kc kcs IH]; intros s first evs; cbn [release_keys].
  - intros [-> ?]%exec_ret_inv. simplify_eq. exists []. by destruct first'.
  - intros (err & evs' & -> & H)%exec_ask_bind.
    destruct err as [e|]; apply IH in H as (errs & Hl & -> & -> & ->).
    + exists (Some e :: errs). cbn. by destruct first; rewrite Hl.
    + exists (None :: errs). cbn. by rewrite Hl.
Qed.

Lemma release_buttons_exec bs s first evs s' first' :
  exec (release_buttons bs s first) evs (s', first') →
  ∃ errs, length errs = length bs ∧ evs = button_ups bs errs ∧
    s' = foldl track s evs ∧
    first' = match first with Some _ => first | None => first_error evs end.
Proof.
  revert s first evs. induction bs as [|b bs IH]; intros s first evs; cbn [release_buttons].
  - intros [-> ?]%exec_ret_inv. simplify_eq. exists []. by destruct first'.
  - intros (err & evs' & -> & H)%exec_ask_bind.
    destruct err as [e|]; apply IH in H as (errs & Hl & -> & -> & ->).
    + exists (Some e :: errs). cbn. by destruct first; rewrite Hl.
    + exists (None :: errs). cbn. by rewrite Hl.
Qed.

(** A release visits every hold once, whatever the order of the maps. *)
Lemma Release_exec sch s evs out sess' :
  exec (Release sch (Some s) false) evs (out, sess') →
  ∃ errs1 errs2,
    let kcs := held_in (range_keys sch) (keys s) in
    let bs := held_in (range_buttons sch) (buttons s) in
    length errs1 = length kcs ∧ length errs2 = length bs ∧
    evs = key_ups kcs errs1 ++ button_ups bs errs2 ∧
    sess' = Some (foldl track s evs) ∧
    out = match first_error evs with Some e => mapBackendError (Some e) | None => submitted end.
Proof.
  unfold Release.
  intros (evs1 & evs2 & [s1 f1] & -> & H1 & (evs3 & evs4 & [s2 f2] & -> & H2 & H3)%exec_bind)%exec_bind.
  apply release_keys_exec in H1 as (errs1 & Hl1 & -> & -> & ->).
  apply release_buttons_exec in H2 as (errs2 & Hl2 & -> & -> & ->).
  exists errs1, errs2. cbn zeta.
  destruct (first_error (key_ups _ errs1)) as [e|] eqn:E1;
    [|destruct (first_error (button_ups _ errs2)) as [e|] eqn:E2];
    apply exec_ret_inv in H3 as [-> ?]; simplify_eq;
    rewrite app_nil_r, foldl_app, first_error_app, E1; try rewrite E2; done.
Qed.

Lemma held_in_spec rng m kc : kc ∈ held_in rng m ↔ m !! kc = Some true.
Proof.
  unfold held_in. change (map fst ?l) with (l.*1). rewrite list_elem_of_fmap. split.
  - intros ([k b] & -> & [Hb Hin]%list_elem_of_filter). cbn in *. subst.
    rewrite (range_perm rng m) in Hin. by apply elem_of_map_to_list.
  - intros H. exists (kc, true). split; [done|]. apply list_elem_of_filter.
    split; [done|]. rewrite (range_perm rng m). by apply elem_of_map_to_list.
Qed.

Lemma held_in_NoDup rng m : NoDup (held_in rng m).
Proof.
  unfold held_in. change (map fst ?l) with (l.*1).
  assert (NoDup (range_over rng m).*1) as H.
  { rewrite (range_perm rng m). apply NoDup_fst_map_to_list. }
  revert H. generalize (range_over rng m). intros l.
  induction l as [|[k b] l IH]; [constructor|]. rewrite fmap_cons.
  intros [Hk Hl]%list.NoDup_cons. rewrite filter_cons. case_decide; [|auto].
  rewrite fmap_cons. constructor; [|auto]. intros Hin. apply Hk.
  apply list_elem_of_fmap in Hin as (x & -> & [_ Hx]%list_elem_of_filter).
  by apply list_elem_of_fmap_2.
Qed.
