(* ===== verification/Dispatch.v ===== *)
(** * Dispatching requests (internal/vnext/dispatch.go) *)

From S2P Require Import Prelude GoStrings VNext Request Backend Session.
Local Open Scope Z_scope.

Definition note_key (kc : Z) (press : bool) (sess : option Session) : option Session :=
  noteKey kc press <$> sess.
Definition note_button (b : Z) (press : bool) (sess : option Session) : option Session :=
  noteButton b press <$> sess.

Definition Dispatch (sch : schedule) (req : Request) (sess : option Session) (nilb : bool)
    : prog (Outcome * option Session) :=
  if nilb then Ret (outcome CodeUnavailable, sess) else
  if bool_decide (Op req = OpMove) then
    err ← ask (WarpMouse (QX req) (QY req));
    match err with
    | Some e => Ret (mapBackendError (Some e), sess)
    | None => Ret (submitted, sess)
    end
  else if bool_decide (Op req = OpKey) then
    kc ← ask (KeycodeFor (Key req));
    if kc =? 0 then Ret (invalidRequest, sess) else
    err ← ask (SendKey kc (Press req));
    match err with
    | Some e => Ret (mapBackendError (Some e), sess)
    | None => Ret (submitted, note_key kc (Press req) sess)
    end
  else if bool_decide (Op req = OpButton) then
    err ← ask (SendButton (Button req) (Press req));
    match err with
    | Some e => Ret (mapBackendError (Some e), sess)
    | None => Ret (submitted, note_button (Button req) (Press req) sess)
    end
  else if bool_decide (Op req = OpInspect) then
    '(width, height, err) ← ask ScreenGeometry;
    match err with
    | Some e => Ret (mapBackendError (Some e), sess)
    | None =>
      '(windows, err) ← ask ManagedClients;
      match err with
      | Some e => Ret (mapBackendError (Some e), sess)
      | None =>
        Ret ({| Code := CodeSubmitted; OErr := None; Windows := windows;
                ScreenWidth := width; ScreenHeight := height;
                RequestedActive := 0; ObservedActive := 0 |}, sess)
      end
    end
  else if bool_decide (Op req = OpActivate) then
    err ← ask (Revalidate (Window req));
    match err with
    | Some e => Ret (mapBackendError (Some e), sess)
    | None =>
      err ← ask (ActivateAlwaysBoth (Window req));
      match err with
      | Some e => Ret (mapBackendError (Some e), sess)
      | None =>
        '(obs, err) ← ask ActiveWindow;
        match err with
        | Some e => Ret (mapBackendError (Some e), sess)
        | None =>
          Ret ({| Code := CodeSubmitted; OErr := None; Windows := [];
                  ScreenWidth := 0; ScreenHeight := 0;
                  RequestedActive := RXID (Window req); ObservedActive := obs |}, sess)
        end
      end
    end
  else if bool_decide (Op req = OpFullscreen) then
    err ← ask (Revalidate (Window req));
    match err with
    | Some e => Ret (mapBackendError (Some e), sess)
    | None =>
      err ← ask (SetFullscreen (Window req) (AddState req));
      match err with
      | Some e => Ret (mapBackendError (Some e), sess)
      | None => Ret (submitted, sess)
      end
    end
  else if bool_decide (Op req = OpRelease) then
    match sess with
    | None => Ret (invalidRequest, sess)
    | Some _ => Release sch sess nilb
    end
  else Ret (notSubmitted, sess).

Definition HandleLine (sch : schedule) (line : string) (sess : option Session) (nilb : bool)
    : prog (Outcome * option Session) :=
  let '(req, out) := Decode line in
  if bool_decide (Code out = CodeSubmitted) then Dispatch sch req sess nilb
  else Ret (out, sess).
