(* ===== verification/DispatchSpec.v ===== *)
(** * What dispatching a request does, for every backend

    Statements about all executions of [Dispatch] and [HandleLine]: which calls
    are made, in which order, what the session records and what is reported. *)

From S2P Require Import Prelude GoStrings Json VNext Request RequestSpec Backend Session Dispatch.
Local Open Scope Z_scope.

(** Invert the execution of a program call by call, splitting on the answers. *)
Ltac run_inv :=
  repeat match goal with
  | H : exec (Ret _) _ _ |- _ => apply exec_ret_inv in H as [? ?]; simplify_eq
  | H : exec (ask _ ≫= _) _ _ |- _ =>
    let r := fresh "r" in
    apply exec_ask_bind in H as (r & ? & ? & H); simplify_eq
  | H : exec (Call _ _) _ _ |- _ =>
    let r := fresh "r" in
    apply exec_call_inv in H as (r & ? & ? & H); simplify_eq/=
  | H : exec (if ?b then _ else _) _ _ |- _ => destruct b eqn:?
  | H : exec (match ?x with _ => _ end) _ _ |- _ => destruct x; simplify_eq/=
  end.

Lemma Dispatch_release sch req s :
  Op req = OpRelease → Dispatch sch req (Some s) false = Release sch (Some s) false.
Proof. intros E. unfold Dispatch. by rewrite E. Qed.

(** A request that is not a release notes the transitions it made. *)
Lemma Dispatch_session sch req sess evs out sess' :
  Op req ≠ OpRelease →
  exec (Dispatch sch req sess false) evs (out, sess') →
  sess' = (λ s, foldl track s evs) <$> sess.
Proof.
  intros Hop H. unfold Dispatch in H. cbn [negb] in H.
  repeat (case_bool_decide; [|]); try done; run_inv.
  all: match goal with |- context [_ <$> ?x] => by destruct x end.
Qed.

(** ** Events and the abstract state they describe *)

(** The window a mutating window call is about. *)
Definition mutated_window (e : event) : option WindowRef :=
  match e with
  | EActivate ref _ | ESetFullscreen ref _ _ => Some ref
  | _ => None
  end.

Lemma Release_no_window sch s evs o :
  exec (Release sch (Some s) false) evs o → Forall (λ e, mutated_window e = None) evs.
Proof.
  destruct o as [out sess']. intros H. apply Release_exec in H as (e1 & e2 & _ & _ & -> & _).
  apply Forall_app. split; unfold key_ups, button_ups; apply Forall_forall;
    intros e He; apply list_elem_of_In, elem_of_lookup_zip_with in He as (? & ? & ? & -> & _);
    done.
Qed.

(** A line either denotes a request, which is dispatched, or it is answered
    without a call. *)
Lemma HandleLine_cases sch line sess nilb :
  (∃ r, denotes line r ∧ valid_request r ∧
        HandleLine sch line sess nilb = Dispatch sch r sess nilb) ∨
  (¬ (∃ r, denotes line r) ∧
   ∃ o, (o = notSubmitted ∨ o = invalidRequest) ∧ Decode line = (Request0, o) ∧
        HandleLine sch line sess nilb = Ret (o, sess)).
Proof.
  unfold HandleLine.
  destruct (Decode_cases line) as [(r & E & Hv)|H].
  - left. exists r. rewrite E. split_and!; [by apply Decode_submitted|done|done].
  - right. assert (∃ o, (o = notSubmitted ∨ o = invalidRequest) ∧ Decode line = (Request0, o))
      as (o & Ho & E) by naive_solver.
    split.
    + intros [r Hr%Decode_submitted]. rewrite E in Hr. destruct Ho; subst; done.
    + exists o. rewrite E. split_and!; try done. by destruct Ho; subst.
Qed.

(** A call without its answer. *)
Definition command (e : event) : event :=
  match e with
  | EKeycodeFor name _ => EKeycodeFor name 0
  | EWarpMouse x y _ => EWarpMouse x y None
  | ESendKey kc press _ => ESendKey kc press None
  | ESendButton b press _ => ESendButton b press None
  | EScreenGeometry _ => EScreenGeometry (0, 0, None)
  | EManagedClients _ => EManagedClients ([], None)
  | ERevalidate ref _ => ERevalidate ref None
  | EActivate ref _ => EActivate ref None
  | ESetFullscreen ref add _ => ESetFullscreen ref add None
  | EActiveWindow _ => EActiveWindow (0, None)
  end.

Lemma command_key_ups kcs errs :
  length errs = length kcs →
  command <$> key_ups kcs errs = (λ kc, ESendKey kc false None) <$> kcs.
Proof.
  revert errs. induction kcs as [|kc kcs IH]; intros [|e errs] Hl; try done.
  cbn. f_equal. apply IH. by injection Hl.
Qed.

Lemma command_button_ups bs errs :
  length errs = length bs →
  command <$> button_ups bs errs = (λ b, ESendButton b false None) <$> bs.
Proof.
  revert errs. induction bs as [|b bs IH]; intros [|e errs] Hl; try done.
  cbn. f_equal. apply IH. by injection Hl.
Qed.

(** The calls of a release, answers aside. *)
Lemma Release_commands sch s evs o :
  exec (Release sch (Some s) false) evs o →
  command <$> evs =
    ((λ kc, ESendKey kc false None) <$> held_in (range_keys sch) (keys s)) ++
    ((λ b, ESendButton b false None) <$> held_in (range_buttons sch) (buttons s)).
Proof.
  destruct o as [out sess']. intros H. apply Release_exec in H as (e1 & e2 & H1 & H2 & -> & _).
  by rewrite fmap_app, command_key_ups, command_button_ups.
Qed.

Lemma Release_NoDup sch s evs o :
  exec (Release sch (Some s) false) evs o → NoDup (command <$> evs).
Proof.
  intros H. rewrite (Release_commands _ _ _ _ H). apply list.NoDup_app. split_and!.
  - apply NoDup_fmap_2; [intros ???; congruence|apply held_in_NoDup].
  - intros x (kc & -> & _)%list_elem_of_fmap (b & ? & _)%list_elem_of_fmap. done.
  - apply NoDup_fmap_2; [intros ???; congruence|apply held_in_NoDup].
Qed.

Lemma Dispatch_NoDup sch req sess evs o :
  Op req ≠ OpRelease → exec (Dispatch sch req sess false) evs o → NoDup (command <$> evs).
Proof.
  intros Hop H. unfold Dispatch in H. cbn [negb] in H.
  repeat (case_bool_decide; [|]); try done; run_inv; cbn [fmap list_fmap command Ev].
  all: repeat (constructor; [set_solver|]); constructor.
Qed.

(** How a line is handled with a live session and a backend: without a call, as
    a release or as one of the other requests. *)
Lemma HandleLine_inv sch line s evs o :
  exec (HandleLine sch line (Some s) false) evs o →
  (evs = [] ∧ o = (snd (Decode line), Some s) ∧ ¬ ∃ r, denotes line r) ∨
  exec (Release sch (Some s) false) evs o ∨
  ∃ r, denotes line r ∧ Op r ≠ OpRelease ∧ exec (Dispatch sch r (Some s) false) evs o.
Proof.
  destruct (HandleLine_cases sch line (Some s) false)
    as [(r & Hd & _ & ->)|(Hn & c & _ & E & ->)]; intros H.
  - destruct (decide (Op r = OpRelease)) as [Hr|Hr]; [|by right; right; exists r].
    rewrite (Dispatch_release _ _ _ Hr) in H. by right; left.
  - apply exec_ret_inv in H as [-> <-]. left. by rewrite E.
Qed.

(** ** Holds as a function of the history *)

(** The last submitted transition of a key, if there was one. *)
Definition last_key (kc : Z) (evs : list event) : option bool :=
  foldl (λ acc e, match e with
                  | ESendKey k press None => if decide (k = kc) then Some press else acc
                  | _ => acc
                  end) None evs.
Definition last_button (b : Z) (evs : list event) : option bool :=
  foldl (λ acc e, match e with
                  | ESendButton k press None => if decide (k = b) then Some press else acc
                  | _ => acc
                  end) None evs.

Lemma track_key kc s e :
  KeyDown kc (track s e) =
  match e with
  | ESendKey k press None => if decide (k = kc) then press else KeyDown kc s
  | _ => KeyDown kc s
  end.
Proof.
  destruct e; cbn; repeat case_match; unfold KeyDown, noteKey; cbn; try done;
    case_match; subst; by simplify_map_eq.
Qed.

Lemma track_button b s e :
  ButtonDown b (track s e) =
  match e with
  | ESendButton k press None => if decide (k = b) then press else ButtonDown b s
  | _ => ButtonDown b s
  end.
Proof.
  destruct e; cbn; repeat case_match; unfold ButtonDown, noteButton; cbn; try done;
    case_match; subst; by simplify_map_eq.
Qed.

Lemma track_last_key kc evs :
  KeyDown kc (foldl track NewSession evs) = default false (last_key kc evs).
Proof.
  induction evs as [|e evs IH] using rev_ind; [done|].
  unfold last_key in *. rewrite !foldl_app. cbn. rewrite track_key, IH.
  by repeat case_match.
Qed.

Lemma track_last_button b evs :
  ButtonDown b (foldl track NewSession evs) = default false (last_button b evs).
Proof.
  induction evs as [|e evs IH] using rev_ind; [done|].
  unfold last_button in *. rewrite !foldl_app. cbn. rewrite track_button, IH.
  by repeat case_match.
Qed.

(** What a hold map holds under a number when the transitions of a history were
    added to it: the last transition decides, and without one nothing changes. *)
Definition held_after (before : option bool) (last : option bool) : option bool :=
  match last with
  | Some true => Some true
  | Some false => None
  | None => before
  end.

Lemma track_keys kc s evs :
  keys (foldl track s evs) !! kc = held_after (keys s !! kc) (last_key kc evs).
Proof.
  induction evs as [|e evs IH] using rev_ind; [done|].
  unfold last_key in *. rewrite !foldl_app. cbn.
  destruct e as [| |k press [err|]|k press [err|]| | | | | |]; cbn; try done.
  case_decide; subst; destruct press; by simplify_map_eq.
Qed.

Lemma track_buttons b s evs :
  buttons (foldl track s evs) !! b = held_after (buttons s !! b) (last_button b evs).
Proof.
  induction evs as [|e evs IH] using rev_ind; [done|].
  unfold last_button in *. rewrite !foldl_app. cbn.
  destruct e as [| |k press [err|]|k press [err|]| | | | | |]; cbn; try done.
  case_decide; subst; destruct press; by simplify_map_eq.
Qed.

Lemma HandleLine_session sch line s evs out sess' :
  exec (HandleLine sch line (Some s) false) evs (out, sess') →
  sess' = Some (foldl track s evs).
Proof.
  intros [(-> & E & _)|[H|(r & _ & Hop & H)]]%HandleLine_inv.
  - by simplify_eq.
  - by apply Release_exec in H as (? & ? & _ & _ & _ & -> & _).
  - by apply Dispatch_session in H as ->.
Qed.

(** ** What a reply says about the calls *)

(** What the backend answered about the display: the windows, the size of the
    screen, the active window, and the window an activation was asked for; what
    was not asked is empty or zero. *)
Record told := {
  t_windows : list WindowInfo;
  t_width : Z;
  t_height : Z;
  t_requested : Z;
  t_active : Z;
}.
Definition nothing_told : told :=
  {| t_windows := []; t_width := 0; t_height := 0; t_requested := 0; t_active := 0 |}.

Definition tell (t : told) (e : event) : told :=
  match e with
  | EScreenGeometry (w, h, _) =>
    {| t_windows := t_windows t; t_width := w; t_height := h;
       t_requested := t_requested t; t_active := t_active t |}
  | EManagedClients (ws, _) =>
    {| t_windows := ws; t_width := t_width t; t_height := t_height t;
       t_requested := t_requested t; t_active := t_active t |}
  | EActivate ref _ =>
    {| t_windows := t_windows t; t_width := t_width t; t_height := t_height t;
       t_requested := RXID ref; t_active := t_active t |}
  | EActiveWindow (active, _) =>
    {| t_windows := t_windows t; t_width := t_width t; t_height := t_height t;
       t_requested := t_requested t; t_active := active |}
  | _ => t
  end.

(** The outcome carries these data. *)
Definition carries (out : Outcome) (t : told) : Prop :=
  Windows out = t_windows t ∧ ScreenWidth out = t_width t ∧ ScreenHeight out = t_height t ∧
  RequestedActive out = t_requested t ∧ ObservedActive out = t_active t.

(** A failed call decides the code and nothing else is told; with no failed call
    the line is submitted and the outcome carries the answers, or nothing was
    submitted and the code says so. *)
Definition reports (out : Outcome) (evs : list event) : Prop :=
  match first_error evs with
  | Some e =>
    Code out = (if errors_Is e ErrRefMismatch then "Conflict" else "Unavailable") ∧
    carries out nothing_told
  | None =>
    Code out = "Submitted" ∧ carries out (foldl tell nothing_told evs) ∨
    (Code out = "InvalidRequest" ∨ Code out = "NotSubmitted") ∧ carries out nothing_told ∧
    (evs = [] ∨ ∃ name, evs = [EKeycodeFor name 0])
  end.

Lemma mapBackendError_reports e :
  Code (mapBackendError (Some e)) =
    (if errors_Is e ErrRefMismatch then "Conflict" else "Unavailable") ∧
  carries (mapBackendError (Some e)) nothing_told.
Proof. cbn. by destruct (errors_Is e ErrRefMismatch). Qed.

(** The calls of a release tell nothing about the display. *)
Lemma key_ups_tell t kcs errs : foldl tell t (key_ups kcs errs) = t.
Proof.
  unfold key_ups. revert errs. induction kcs as [|kc kcs IH]; intros [|e errs]; [done..|apply IH].
Qed.
Lemma button_ups_tell t bs errs : foldl tell t (button_ups bs errs) = t.
Proof.
  unfold button_ups. revert errs. induction bs as [|b bs IH]; intros [|e errs]; [done..|apply IH].
Qed.

Lemma Release_reports sch s evs out sess' :
  exec (Release sch (Some s) false) evs (out, sess') → reports out evs.
Proof.
  intros (e1 & e2 & _ & _ & -> & _ & ->)%Release_exec. unfold reports.
  case_match; [apply mapBackendError_reports|]. left.
  by rewrite foldl_app, key_ups_tell, button_ups_tell.
Qed.

Lemma Dispatch_reports sch req sess evs out sess' :
  Op req ≠ OpRelease →
  exec (Dispatch sch req sess false) evs (out, sess') → reports out evs.
Proof.
  intros Hop H. unfold Dispatch in H. cbn [negb] in H.
  repeat (case_bool_decide; [|]); try done; run_inv; unfold reports;
    cbn [first_error ev_error snd Ev]; try apply mapBackendError_reports.
  all: repeat (case_match; simplify_eq/=); try done.
  all: try by left.
  - bools. subst. right. split_and!; [by left|done|right; by eexists].
  - right. split_and!; [by right|done|by left].
Qed.

Lemma HandleLine_reports sch line s evs out sess' :
  exec (HandleLine sch line (Some s) false) evs (out, sess') → reports out evs.
Proof.
  intros [(-> & E & _)|[H|(r & _ & Hop & H)]]%HandleLine_inv.
  - simplify_eq. unfold reports. cbn [first_error foldl].
    destruct (Decode_cases line) as [(r & -> & _)|[->| ->]]; cbn; [by left|right..];
      (split_and!; [by auto|done|by left]).
  - by eapply Release_reports.
  - by eapply Dispatch_reports.
Qed.

Lemma Dispatch_window sch req sess evs o :
  Op req ≠ OpRelease → exec (Dispatch sch req sess false) evs o →
  ∀ evs1 e evs2 ref, evs = evs1 ++ e :: evs2 → mutated_window e = Some ref →
  evs1 = [ERevalidate ref None] ∧ ref = Window req.
Proof.
  intros Hop H. unfold Dispatch in H. cbn [negb] in H.
  repeat (case_bool_decide; [|]); try done; run_inv;
    intros [|? [|? [|? [|]]]] ev evs2 ref E Hm; simplify_eq/=; try done.
Qed.

Lemma HandleLine_window sch line s evs o :
  exec (HandleLine sch line (Some s) false) evs o →
  ∀ evs1 e evs2 ref, evs = evs1 ++ e :: evs2 → mutated_window e = Some ref →
  evs1 = [ERevalidate ref None] ∧ ∃ r, denotes line r ∧ Window r = ref.
Proof.
  intros [(-> & _)|[H|(r & Hd & Hop & H)]]%HandleLine_inv evs1 e evs2 ref E Hm.
  - by destruct evs1.
  - subst. apply Release_no_window, Forall_app in H as [_ [H _]%list.Forall_cons]. congruence.
  - destruct (Dispatch_window _ _ _ _ _ Hop H evs1 e evs2 ref) as [-> ->]; eauto.
Qed.

(** An example: a fullscreen request the backend revalidates and then fails. *)
Definition example_ref : WindowRef :=
  {| RDisplayGen := 1; RObserveGen := 7; RXID := 4194307; ExpectedClass := "Example";
     ExpectedPID := 0 |}.
Definition example_line : string := render (window_request OpFullscreen example_ref true).
Definition example_events : list event :=
  [ERevalidate example_ref None; ESetFullscreen example_ref true (Some ErrUnavailable)].

Lemma example_exec :
  exec (HandleLine tree_schedule example_line (Some NewSession) false) example_events
    (mapBackendError (Some ErrUnavailable), Some NewSession).
Proof.
  unfold HandleLine.
  replace (Decode _) with (window_request OpFullscreen example_ref true, submitted)
    by (vm_compute; reflexivity).
  apply (exec_call (Revalidate example_ref) _ None),
    (exec_call (SetFullscreen example_ref true) _ (Some ErrUnavailable)), exec_ret.
Qed.

(** ** The theorems *)

(** C3: the session is exactly the record of the submitted transitions: after a
    line has been handled, whatever the backend answered, a key or button is
    recorded as held if its last transition that the backend accepted during the
    line was a press, it is not in the session if that was a release, and its
    entry is the old one if the backend accepted no transition of it. *)
Theorem session_follows_events sch line s evs out sess' :
  exec (HandleLine sch line (Some s) false) evs (out, sess') →
  ∃ s', sess' = Some s' ∧
    (∀ kc, keys s' !! kc = held_after (keys s !! kc) (last_key kc evs)) ∧
    (∀ b, buttons s' !! b = held_after (buttons s !! b) (last_button b evs)).
Proof.
  intros ->%HandleLine_session. eexists. split; [done|].
  split; intros n; [apply track_keys|apply track_buttons].
Qed.

(** A session that holds button 3, and a key that is pressed. *)
Lemma session_follows_events_witness :
  let s := {| keys := ∅; buttons := {[3 := true]} |} in
  ∃ s', Some (noteKey 67 true s) = Some s' ∧
    (∀ kc, keys s' !! kc = if decide (kc = 67) then Some true else None) ∧
    (∀ b, buttons s' !! b = if decide (b = 3) then Some true else None).
Proof.
  intros s.
  destruct (session_follows_events tree_schedule (render (key_request "F1" true)) s
    [EKeycodeFor "F1" 67; ESendKey 67 true None] submitted (Some (noteKey 67 true s)))
    as (s' & E & Hk & Hb).
  - unfold HandleLine.
    replace (Decode _) with (key_request "F1" true, submitted) by (vm_compute; reflexivity).
    apply (exec_call (KeycodeFor "F1") _ 67), (exec_call (SendKey 67 true) _ None), exec_ret.
  - exists s'. split; [done|]. split.
    + intros kc. rewrite Hk. cbn. repeat case_decide; subst; try done.
    + intros b. rewrite Hb. cbn. case_decide; subst; by simplify_map_eq.
Defined.

(** C4: a window is changed only after it was checked: in every execution of a
    line, a call that activates a window or changes its state is preceded by
    exactly one call, the successful revalidation of that same reference, and
    the reference is the one the line denotes. *)
Theorem windows_revalidated_first sch line s evs o :
  exec (HandleLine sch line (Some s) false) evs o →
  ∀ evs1 e evs2 ref, evs = evs1 ++ e :: evs2 → mutated_window e = Some ref →
  evs1 = [ERevalidate ref None] ∧ ∃ r, denotes line r ∧ Window r = ref.
Proof. apply HandleLine_window. Qed.

Lemma windows_revalidated_first_witness :
  [ERevalidate example_ref None] = [ERevalidate example_ref None] ∧
  ∃ r, denotes example_line r ∧ Window r = example_ref.
Proof.
  exact (windows_revalidated_first _ _ _ _ _ example_exec
    [ERevalidate example_ref None] (ESetFullscreen example_ref true (Some ErrUnavailable)) []
    example_ref eq_refl eq_refl).
Defined.

(** C7: the reply tells the truth about the calls: if a call failed, the code is
    that of the first failure (Conflict for a reference mismatch, Unavailable
    otherwise) and nothing else is told; if no call failed, the code is Submitted
    and the windows, the screen size and the active windows of the reply are what
    the backend answered, or the code is InvalidRequest or NotSubmitted, nothing
    is told and nothing was submitted: at most a key name was looked up and not
    found. *)
Theorem reply_reports_calls sch line s evs out sess' :
  exec (HandleLine sch line (Some s) false) evs (out, sess') → reports out evs.
Proof. apply HandleLine_reports. Qed.

Lemma reply_reports_calls_witness :
  Code (mapBackendError (Some ErrUnavailable)) = "Unavailable".
Proof. exact (proj1 (reply_reports_calls _ _ _ _ _ _ example_exec)). Defined.

(** C14: nothing is retried: no execution of a line makes the same call twice,
    releases included, whatever order the hold maps are visited in. *)
Theorem no_call_repeated sch line s evs o :
  exec (HandleLine sch line (Some s) false) evs o → NoDup (command <$> evs).
Proof.
  intros [(-> & _)|[H|(r & _ & Hop & H)]]%HandleLine_inv; [constructor|..].
  - by eapply Release_NoDup.
  - by eapply Dispatch_NoDup.
Qed.

Lemma no_call_repeated_witness : NoDup (command <$> example_events).
Proof. exact (no_call_repeated _ _ _ _ _ example_exec). Defined.

(** C12: an invalid or unknown line never reaches the backend: with any backend
    in any state, a line that denotes no request is answered with the outcome
    of its decoding; backend and session are left untouched. *)
Theorem rejected_line_untouched {W} `{Backend W} sch line sess nilb (w : W) :
  ¬ (∃ r, denotes line r) →
  run (HandleLine sch line sess nilb) w = Val (snd (Decode line), sess) w ∧
  (snd (Decode line) = notSubmitted ∨ snd (Decode line) = invalidRequest).
Proof.
  intros Hn. destruct (HandleLine_cases sch line sess nilb)
    as [(r & Hd & _)|(_ & o & Ho & E & ->)]; [naive_solver|].
  rewrite E. by split.
Qed.

(** A button the protocol does not have, with a backend that panics. *)
Lemma rejected_line_untouched_witness :
  let panics : Backend unit := λ R c w, Panicked "called" w in
  let line := render (button_request 9 true) in
  run (H := panics) (HandleLine tree_schedule line (Some NewSession) false) () =
    Val (snd (Decode line), Some NewSession) () ∧
  (snd (Decode line) = notSubmitted ∨ snd (Decode line) = invalidRequest).
Proof.
  apply rejected_line_untouched. intros [r Hr%Decode_submitted]. vm_compute in Hr. discriminate Hr.
Defined.

(** ** What a release leaves held *)

Lemma and_not_in_nil (P : Prop) (e : event) : P ↔ P ∧ e ∉ [].
Proof. split; [|by intros [? _]]. intros ?. split; [done|apply not_elem_of_nil]. Qed.

Lemma key_ups_down kc kcs errs s :
  KeyDown kc (foldl track s (key_ups kcs errs)) = true ↔
  KeyDown kc s = true ∧ ESendKey kc false None ∉ key_ups kcs errs.
Proof.
  revert errs s. induction kcs as [|k kcs IH]; intros [|err errs] s; try apply and_not_in_nil.
  unfold key_ups in *. cbn [zip_with foldl]. rewrite IH, track_key, not_elem_of_cons.
  destruct err; [naive_solver|]. case_decide; subst; naive_solver.
Qed.

Lemma button_ups_down b bs errs s :
  ButtonDown b (foldl track s (button_ups bs errs)) = true ↔
  ButtonDown b s = true ∧ ESendButton b false None ∉ button_ups bs errs.
Proof.
  revert errs s. induction bs as [|k bs IH]; intros [|err errs] s; try apply and_not_in_nil.
  unfold button_ups in *. cbn [zip_with foldl]. rewrite IH, track_button, not_elem_of_cons.
  destruct err; [naive_solver|]. case_decide; subst; naive_solver.
Qed.

(** Releasing keys leaves the buttons alone, and the other way round. *)
Lemma key_ups_button b kcs errs s :
  ButtonDown b (foldl track s (key_ups kcs errs)) = ButtonDown b s.
Proof.
  revert errs s. induction kcs as [|k kcs IH]; intros [|err errs] s; try done.
  unfold key_ups in *. cbn [zip_with foldl]. rewrite IH. by rewrite track_button.
Qed.

Lemma button_ups_key kc bs errs s :
  KeyDown kc (foldl track s (button_ups bs errs)) = KeyDown kc s.
Proof.
  revert errs s. induction bs as [|k bs IH]; intros [|err errs] s; try done.
  unfold button_ups in *. cbn [zip_with foldl]. rewrite IH. by rewrite track_key.
Qed.

Lemma button_ups_no_key kc press err bs errs : ESendKey kc press err ∉ button_ups bs errs.
Proof.
  intros H. apply elem_of_lookup_zip_with in H as (? & ? & ? & H & _). done.
Qed.
Lemma key_ups_no_button b press err kcs errs : ESendButton b press err ∉ key_ups kcs errs.
Proof.
  intros H. apply elem_of_lookup_zip_with in H as (? & ? & ? & H & _). done.
Qed.

Lemma Release_down sch s evs out sess' :
  exec (Release sch (Some s) false) evs (out, sess') →
  ∃ s', sess' = Some s' ∧
    (∀ kc, KeyDown kc s' = true ↔ KeyDown kc s = true ∧ ESendKey kc false None ∉ evs) ∧
    (∀ b, ButtonDown b s' = true ↔ ButtonDown b s = true ∧ ESendButton b false None ∉ evs).
Proof.
  intros (e1 & e2 & _ & _ & -> & -> & _)%Release_exec. eexists. split; [done|].
  rewrite foldl_app. split; intros n.
  - rewrite button_ups_key, key_ups_down, not_elem_of_app.
    pose proof (button_ups_no_key n false None (held_in (range_buttons sch) (buttons s)) e2).
    naive_solver.
  - rewrite button_ups_down, key_ups_button, not_elem_of_app.
    pose proof (key_ups_no_button n false None (held_in (range_keys sch) (keys s)) e1).
    naive_solver.
Qed.

(** C13: a release sends exactly one up for every key and button held, keys
    first, and nothing else, in whatever order the maps are visited; and what
    is still held afterwards is exactly what could not be released. *)
Theorem release_exact sch s evs out sess' :
  exec (Release sch (Some s) false) evs (out, sess') →
  (∃ kcs bs, NoDup kcs ∧ NoDup bs ∧
    (∀ kc, kc ∈ kcs ↔ KeyDown kc s = true) ∧
    (∀ b, b ∈ bs ↔ ButtonDown b s = true) ∧
    command <$> evs = ((λ kc, ESendKey kc false None) <$> kcs) ++
                      ((λ b, ESendButton b false None) <$> bs)) ∧
  ∃ s', sess' = Some s' ∧
    (∀ kc, KeyDown kc s' = true ↔ KeyDown kc s = true ∧ ESendKey kc false None ∉ evs) ∧
    (∀ b, ButtonDown b s' = true ↔ ButtonDown b s = true ∧ ESendButton b false None ∉ evs).
Proof.
  intros H. split; [|by eapply Release_down].
  exists (held_in (range_keys sch) (keys s)), (held_in (range_buttons sch) (buttons s)).
  split_and!; [apply held_in_NoDup..| | |by eapply Release_commands].
  - intros kc. rewrite held_in_spec. unfold KeyDown. by destruct (keys s !! kc) as [[]|].
  - intros b. rewrite held_in_spec. unfold ButtonDown. by destruct (buttons s !! b) as [[]|].
Qed.

(** A release of two holds of which the second fails. *)
Lemma release_exact_witness :
  ∃ s', Some (noteButton 1 true NewSession) = Some s' ∧
    (∀ kc, KeyDown kc s' = true ↔
       KeyDown kc (noteButton 1 true (noteKey 50 true NewSession)) = true ∧
       ESendKey kc false None ∉ [ESendKey 50 false None; ESendButton 1 false (Some ErrUnavailable)]) ∧
    (∀ b, ButtonDown b s' = true ↔
       ButtonDown b (noteButton 1 true (noteKey 50 true NewSession)) = true ∧
       ESendButton b false None ∉
         [ESendKey 50 false None; ESendButton 1 false (Some ErrUnavailable)]).
Proof.
  refine (proj2 (release_exact tree_schedule _ _ (mapBackendError (Some ErrUnavailable)) _ _)).
  apply (exec_call (SendKey 50 false) _ None),
    (exec_call (SendButton 1 false) _ (Some ErrUnavailable)), exec_ret.
Defined.
