(* ===== verification/Wire.v ===== *)
(** * Replies on the wire (internal/vnext/outcome.go, [WireJSON]) *)

From S2P Require Import Prelude GoStrings Utf8 Json JsonText VNext RequestSpec.
Local Open Scope Z_scope.

(** A member written unless its value is the zero value ([omitempty]). *)
Definition omit_num (k : string) (z : Z) : list (string * list ascii) :=
  if z =? 0 then [] else [(k, json.number z)].
Definition omit_str (k s : string) : list (string * list ascii) :=
  if bool_decide (s = "") then [] else [(k, json.quote s)].

(** A window as [json.Marshal] writes it, with the tags of [WindowInfo]. *)
Definition window_json (w : WindowInfo) : list ascii :=
  json.object
    ([("xid", json.number (XID w))] ++ omit_str "class" (Class w) ++
     omit_num "pid" (PID w) ++ omit_str "name" (Name w) ++
     [("x", json.number (X w)); ("y", json.number (Y w));
      ("width", json.number (Width w)); ("height", json.number (Height w))] ++
     (match State w with [] => [] | l => [("state", json.array (map json.quote l))] end) ++
     [("displayGen", json.number (DisplayGen w)); ("observeGen", json.number (ObserveGen w))]).

(** The reply: the error of the outcome is not part of it. *)
Definition WireJSON (o : Outcome) : list ascii :=
  json.object
    ([("code", json.quote (Code o))] ++
     (match Windows o with [] => [] | l => [("windows", json.array (map window_json l))] end) ++
     omit_num "screenWidth" (ScreenWidth o) ++ omit_num "screenHeight" (ScreenHeight o) ++
     omit_num "requestedActive" (RequestedActive o) ++ omit_num "observedActive" (ObservedActive o)).

(** ** Printable text *)
Definition printable_members (ms : list (string * list ascii)) : Prop :=
  Forall (λ kv, printable kv.2) ms.

Lemma omit_num_printable k z : printable_members (omit_num k z).
Proof. unfold omit_num. case_match; constructor; [apply number_printable|constructor]. Qed.
Lemma omit_str_printable k s : printable_members (omit_str k s).
Proof. unfold omit_str. case_match; constructor; [apply quote_printable|constructor]. Qed.
Lemma num_printable k z ms :
  printable_members ms → printable_members ((k, json.number z) :: ms).
Proof. constructor; [apply number_printable|done]. Qed.
Lemma nil_printable : printable_members [].
Proof. constructor. Qed.

Lemma window_json_printable w : printable (window_json w).
Proof.
  unfold window_json. apply object_printable. cbn [app].
  apply num_printable, Forall_app_2; [apply omit_str_printable|].
  apply Forall_app_2; [apply omit_num_printable|].
  apply Forall_app_2; [apply omit_str_printable|].
  do 4 apply num_printable. apply Forall_app_2; [|by do 2 apply num_printable; constructor].
  case_match; constructor; [|constructor]. apply array_printable, Forall_map.
  apply Forall_true. intros. apply quote_printable.
Qed.

Lemma WireJSON_printable o : printable (WireJSON o).
Proof.
  unfold WireJSON. apply object_printable. constructor; [apply quote_printable|].
  apply Forall_app_2.
  - case_match; constructor; [|constructor]. apply array_printable, Forall_map.
    apply Forall_true. intros. apply window_json_printable.
  - repeat (apply Forall_app_2; [apply omit_num_printable|]). apply omit_num_printable.
Qed.

(** ** Objects with optional members *)

(** The members that are there, in order. *)
Definition present (kvs : list (string * option (list ascii))) : list (string * list ascii) :=
  omap (λ kv, pair kv.1 <$> kv.2) kvs.

Lemma present_cons k v kvs :
  present ((k, v) :: kvs) = match v with Some raw => [(k, raw)] | None => [] end ++ present kvs.
Proof. by destruct v. Qed.

Lemma present_keys kvs k : k ∈ (present kvs).*1 → k ∈ kvs.*1.
Proof.
  induction kvs as [|[k' [raw|]] kvs IH]; cbn; [done| |]; rewrite ?elem_of_cons; naive_solver.
Qed.

Lemma present_NoDup kvs : NoDup kvs.*1 → NoDup (present kvs).*1.
Proof.
  induction kvs as [|[k [raw|]] kvs IH]; cbn; [done| |]; intros [Hk Hn]%list.NoDup_cons; [|by apply IH].
  apply list.NoDup_cons. split; [|by apply IH]. by intros ?%present_keys.
Qed.

(** What is found under each key. *)
Lemma present_lookup kvs k v :
  NoDup kvs.*1 → (k, v) ∈ kvs → (list_to_map (present kvs) : gmap string (list ascii)) !! k = v.
Proof.
  intros Hn Hin. destruct v as [raw|].
  - apply elem_of_list_to_map_1; [by apply present_NoDup|].
    clear Hn. induction kvs as [|[k' v'] kvs IH]; [by apply elem_of_nil in Hin|].
    rewrite present_cons. apply elem_of_cons in Hin as [[= <- <-]|Hin]; [left|].
    apply elem_of_app. right. by apply IH.
  - apply not_elem_of_list_to_map_1.
    induction kvs as [|[k' v'] kvs IH]; [by apply not_elem_of_nil|].
    rewrite present_cons, fmap_app, not_elem_of_app.
    apply list.NoDup_cons in Hn as [Hk Hn].
    apply elem_of_cons in Hin as [[= <- <-]|Hin].
    + split; [by apply not_elem_of_nil|]. by intros ?%present_keys.
    + split; [|by apply IH]. destruct v'; [|by apply not_elem_of_nil].
      intros [= ->]%list_elem_of_singleton. apply Hk. apply list_elem_of_fmap. by exists (k', None).
Qed.

Lemma present_ok d kvs :
  Forall (λ kv, ascii_text kv.1 ∧ ∀ raw, kv.2 = Some raw → scans d raw) kvs →
  Forall (raw_ok d) (present kvs).
Proof.
  induction 1 as [|[k [raw|]] kvs [Hk Hv] _ IH]; [constructor| |done].
  constructor; [|done]. split; [done|]. by apply Hv.
Qed.

(** A number that is left out when it is zero, a text when it is empty, a list
    when it is. *)
Definition opt_num (z : Z) : option (list ascii) := if z =? 0 then None else Some (json.number z).
Definition opt_text (s : string) : option (list ascii) :=
  if bool_decide (s = "") then None else Some (json.quote s).
Definition opt_list {A} (f : A → list ascii) (l : list A) : option (list ascii) :=
  match l with [] => None | _ => Some (json.array (map f l)) end.

Definition window_members (w : WindowInfo) : list (string * option (list ascii)) :=
  [("xid", Some (json.number (XID w))); ("class", opt_text (Class w)); ("pid", opt_num (PID w));
   ("name", opt_text (Name w)); ("x", Some (json.number (X w))); ("y", Some (json.number (Y w)));
   ("width", Some (json.number (Width w))); ("height", Some (json.number (Height w)));
   ("state", opt_list json.quote (State w));
   ("displayGen", Some (json.number (DisplayGen w)));
   ("observeGen", Some (json.number (ObserveGen w)))].

Definition reply_members (o : Outcome) : list (string * option (list ascii)) :=
  [("code", Some (json.quote (Code o))); ("windows", opt_list window_json (Windows o));
   ("screenWidth", opt_num (ScreenWidth o)); ("screenHeight", opt_num (ScreenHeight o));
   ("requestedActive", opt_num (RequestedActive o));
   ("observedActive", opt_num (ObservedActive o))].

Lemma window_json_members w : window_json w = json.object (present (window_members w)).
Proof.
  unfold window_json, window_members, omit_num, omit_str, opt_num, opt_text, opt_list.
  f_equal. rewrite !present_cons. by repeat case_match.
Qed.

Lemma WireJSON_members o : WireJSON o = json.object (present (reply_members o)).
Proof.
  unfold WireJSON, reply_members, omit_num, opt_num, opt_list.
  f_equal. rewrite !present_cons. by repeat case_match.
Qed.

(** *** Their texts are values *)
Lemma number_scans d z : scans d (json.number z).
Proof. eapply scans_weaken; [|apply scans_number]. lia. Qed.
Lemma quote_scans d s : scans d (json.quote s).
Proof. eapply scans_weaken; [|apply scans_quote]. lia. Qed.
Lemma opt_num_scans d z raw : opt_num z = Some raw → scans d raw.
Proof. unfold opt_num. case_match; [done|]. intros [= <-]. apply number_scans. Qed.
Lemma opt_text_scans d s raw : opt_text s = Some raw → scans d raw.
Proof. unfold opt_text. case_match; [done|]. intros [= <-]. apply quote_scans. Qed.
Lemma opt_list_scans {A} d (f : A → list ascii) l raw :
  (∀ a, scans d (f a)) → (∀ a, starts_value (f a)) → opt_list f l = Some raw → scans (S d) raw.
Proof.
  intros Hf Hs. unfold opt_list. destruct l as [|a l]; [done|]. intros [= <-].
  change (f a :: map f l) with (map f (a :: l)).
  apply scans_array; apply Forall_map, Forall_true; done.
Qed.

Create HintDb wire discriminated.
#[local] Hint Resolve opt_num_scans opt_text_scans number_scans quote_scans scans_quote starts_quote : wire.

Lemma window_members_ok w : Forall (raw_ok 1) (present (window_members w)).
Proof.
  apply present_ok. unfold window_members.
  repeat (constructor; [split; [by apply ascii_text_dec|]; cbn [snd];
    intros raw; first [intros [= <-]; by eauto with wire|by eauto with wire|
      apply (opt_list_scans 0); by eauto with wire]|]).
  constructor.
Qed.

Lemma window_scans w : scans 2 (window_json w).
Proof.
  rewrite window_json_members. apply scans_object. eapply Forall_impl; [|apply window_members_ok].
  by intros m [_ ?].
Qed.

Lemma window_starts w : starts_value (window_json w).
Proof. apply starts_object. Qed.

#[local] Hint Resolve window_scans window_starts : wire.

Lemma reply_members_ok o : Forall (raw_ok 3) (present (reply_members o)).
Proof.
  apply present_ok. unfold reply_members.
  repeat (constructor; [split; [by apply ascii_text_dec|]; cbn [snd];
    intros raw; first [intros [= <-]; by eauto with wire|by eauto with wire|
      apply (opt_list_scans 2); by eauto with wire]|]).
  constructor.
Qed.

(** ** Reading a reply

    What a client finds under a key: a number, a text, or nothing for a number
    that is zero and for an empty text or list.  A byte of a text that belongs to
    no code point is found as the replacement character. *)
Definition is_number (v : option (list ascii)) (z : Z) : Prop :=
  ∃ raw, v = Some raw ∧ json.classify raw = json.Number (strconv.Itoa z).
Definition is_text (v : option (list ascii)) (s : string) : Prop :=
  ∃ raw, v = Some raw ∧ json.classify raw = json.Str (valid_text s).
Definition is_array {A} (P : list ascii → A → Prop) (v : option (list ascii)) (l : list A) : Prop :=
  ∃ raw els, v = Some raw ∧ array_elements raw = Some els ∧ Forall2 P els l.

Definition shows_number (v : option (list ascii)) (z : Z) : Prop :=
  if decide (z = 0) then v = None else is_number v z.
Definition shows_text (v : option (list ascii)) (s : string) : Prop :=
  if decide (s = "") then v = None else is_text v s.
Definition shows_list {A} (P : list ascii → A → Prop) (v : option (list ascii)) (l : list A) : Prop :=
  match l with [] => v = None | _ => is_array P v l end.

(** The text is one object with the keys of a window, each at most once, and
    under them the values of [w]. *)
Definition shows_window (t : list ascii) (w : WindowInfo) : Prop :=
  ∃ ms, object_members t = Some ms ∧ NoDup ms.*1 ∧
    ms.*1 ⊆ ["xid"; "class"; "pid"; "name"; "x"; "y"; "width"; "height"; "state"; "displayGen";
             "observeGen"] ∧
    let m := list_to_map ms : gmap string (list ascii) in
    is_number (m !! "xid") (XID w) ∧ shows_text (m !! "class") (Class w) ∧
    shows_number (m !! "pid") (PID w) ∧ shows_text (m !! "name") (Name w) ∧
    is_number (m !! "x") (X w) ∧ is_number (m !! "y") (Y w) ∧
    is_number (m !! "width") (Width w) ∧ is_number (m !! "height") (Height w) ∧
    shows_list (λ e s, is_text (Some e) s) (m !! "state") (State w) ∧
    is_number (m !! "displayGen") (DisplayGen w) ∧ is_number (m !! "observeGen") (ObserveGen w).

(** The same for a reply and its outcome.  The error is under no key. *)
Definition shows_reply (t : list ascii) (o : Outcome) : Prop :=
  ∃ ms, object_members t = Some ms ∧ NoDup ms.*1 ∧
    ms.*1 ⊆ ["code"; "windows"; "screenWidth"; "screenHeight"; "requestedActive";
             "observedActive"] ∧
    let m := list_to_map ms : gmap string (list ascii) in
    is_text (m !! "code") (Code o) ∧ shows_list shows_window (m !! "windows") (Windows o) ∧
    shows_number (m !! "screenWidth") (ScreenWidth o) ∧
    shows_number (m !! "screenHeight") (ScreenHeight o) ∧
    shows_number (m !! "requestedActive") (RequestedActive o) ∧
    shows_number (m !! "observedActive") (ObservedActive o).

Lemma number_is_number z : is_number (Some (json.number z)) z.
Proof. eexists. split; [done|apply classify_number]. Qed.
Lemma quote_is_text s : is_text (Some (json.quote s)) s.
Proof. eexists. split; [done|]. by rewrite classify_quoted, unquote_quote_valid. Qed.

Lemma opt_num_shows z : shows_number (opt_num z) z.
Proof.
  unfold shows_number, opt_num. case_decide; [by subst|].
  rewrite (proj2 (Z.eqb_neq _ _)) by done. apply number_is_number.
Qed.
Lemma opt_text_shows s : shows_text (opt_text s) s.
Proof.
  unfold shows_text, opt_text. case_decide; [by subst|].
  rewrite bool_decide_eq_false_2 by done. apply quote_is_text.
Qed.
Lemma opt_list_shows {A} d (P : list ascii → A → Prop) (f : A → list ascii) l :
  (S d ≤ json.maxNestingDepth)%nat → (∀ a, scans d (f a)) → (∀ a, starts_value (f a)) →
  (∀ a, P (f a) a) → shows_list P (opt_list f l) l.
Proof.
  intros Hd Hf Hs HP. destruct l as [|a l]; [done|]. unfold opt_list, shows_list.
  eexists _, _. split; [done|]. change (f a :: map f l) with (map f (a :: l)). split.
  - apply (array_elements_array d); [done|apply Forall_map, Forall_true; done..].
  - generalize (a :: l). clear -HP. intros l. induction l; constructor; auto.
Qed.

(** One member of an object whose keys are distinct. *)
Lemma present_shows {A} (P : option (list ascii) → A → Prop) kvs k v a :
  NoDup kvs.*1 → (k, v) ∈ kvs → P v a →
  P ((list_to_map (present kvs) : gmap string (list ascii)) !! k) a.
Proof. intros Hn Hin. by rewrite (present_lookup _ _ _ Hn Hin). Qed.

#[local] Hint Resolve number_is_number quote_is_text opt_num_shows opt_text_shows : wire.

Ltac shown_under Hn :=
  eapply (present_shows _ _ _ _ _ Hn);
  [repeat first [apply list_elem_of_here|apply list_elem_of_further]|].

Lemma window_shown w : shows_window (window_json w) w.
Proof.
  exists (present (window_members w)). rewrite window_json_members.
  assert (NoDup (window_members w).*1) as Hn by (apply (bool_decide_unpack _); vm_compute; exact I).
  split; [apply (object_members_object 1); [vm_compute; lia|apply window_members_ok]|].
  split; [by apply present_NoDup|]. split; [intros k; apply present_keys|].
  cbv zeta. split_and!; shown_under Hn; eauto with wire.
  apply (opt_list_shows 0); eauto with wire. vm_compute; lia.
Qed.

Lemma reply_shown o : shows_reply (WireJSON o) o.
Proof.
  exists (present (reply_members o)). rewrite WireJSON_members.
  assert (NoDup (reply_members o).*1) as Hn by (apply (bool_decide_unpack _); vm_compute; exact I).
  split; [apply (object_members_object 3); [vm_compute; lia|apply reply_members_ok]|].
  split; [by apply present_NoDup|]. split; [intros k; apply present_keys|].
  cbv zeta. split_and!; shown_under Hn; eauto with wire.
  apply (opt_list_shows 2); eauto using window_shown with wire. vm_compute; lia.
Qed.

(** No byte of a reply is a control character, so neither is any a newline. *)
Lemma WireJSON_no_lf o : "010"%char ∉ WireJSON o.
Proof.
  intros Hin. pose proof (WireJSON_printable o) as Hp. unfold printable in Hp.
  by apply (proj1 (list.Forall_forall _ _) Hp) in Hin.
Qed.

(** Texts with a quote mark for each double one. *)
Definition quote_marks (s : string) : list ascii :=
  map (λ c, if bool_decide (c = "'"%char) then json.dquote else c) (bytes s).

(** ** The theorems *)

(** C20: a client reads from the reply exactly the outcome, and never the
    error.  The text is one line and one JSON object; its keys are distinct and
    among the six of the contract, none of which is for the error; under them are
    the code, the four numbers (a zero number is left out) and the list of the
    windows (left out when it is empty), in order.  Each window is an object whose
    keys are distinct and among the eleven of a window, and under them are the
    window's values (class, pid, name and state are left out when they are empty
    or zero).  Texts are read back exactly, up to the bytes that are no UTF-8,
    each of which is read as U+FFFD. *)
Theorem reply_roundtrip o :
  shows_reply (WireJSON o) o ∧ Forall (λ c, 0x20 ≤ b2z c) (WireJSON o).
Proof. split; [apply reply_shown|apply WireJSON_printable]. Qed.

(** Two replies: that of a call that failed, whose outcome carries the error, and
    one that lists a window. *)
Example reply_unavailable :
  let out := mapBackendError (Some ErrUnavailable) in
  OErr out = Some ErrUnavailable ∧ WireJSON out = quote_marks "{'code':'Unavailable'}".
Proof. split; [done|vm_compute; reflexivity]. Qed.

Example reply_window :
  let win := {| XID := 77; Class := "term"; PID := 0; Name := ""; X := -3; Y := 4; Width := 100;
    Height := 50; State := ["hidden"]; DisplayGen := 2; ObserveGen := 9 |} in
  WireJSON {| Code := "Submitted"; OErr := None; Windows := [win]; ScreenWidth := 1280;
    ScreenHeight := 720; RequestedActive := 0; ObservedActive := 0 |} =
  quote_marks ("{'code':'Submitted','windows':[{'xid':77,'class':'term','x':-3,'y':4," +:+
    "'width':100,'height':50,'state':['hidden'],'displayGen':2,'observeGen':9}]," +:+
    "'screenWidth':1280,'screenHeight':720}").
Proof. vm_compute. reflexivity. Qed.
