(* ===== verification/Fake.v ===== *)
(** * The shipped test backends (internal/vnext/fake.go, panic_backend.go)

    [Fake] records the calls it gets; [PanicBackend] panics on any call.  Both
    are instances of [Backend].  The mutex of [Fake] guards single accesses and
    its methods are modelled one after another. *)

From S2P Require Import Prelude GoStrings Json VNext Request.
From S2P Require Import RequestSpec Backend Session Dispatch DispatchSpec.
Local Open Scope Z_scope.

Record Fake := {
  f_keys : option (gmap string Z);   (* nil or a map *)
  Calls : list string;
  Managed : list WindowInfo;
  Display : Z;
  Observe : Z;
  QueryTree : Z;
  Supported : option (list string);  (* nil: everything is supported *)
  ScreenW : Z;
  ScreenH : Z;
  active : Z;
}.

Definition NewFake : Fake :=
  {| f_keys := Some (<["F1":=67]> (<["Shift_L":=50]> ∅)); Calls := []; Managed := [];
     Display := 1; Observe := 1; QueryTree := 0; Supported := None;
     ScreenW := 1280; ScreenH := 720; active := 0 |}.

Definition f_ScreenGeometry (f : Fake) : Z * Z * option error :=
  if (ScreenW f <=? 0) || (ScreenH f <=? 0) then (0, 0, Some ErrUnavailable)
  else (ScreenW f, ScreenH f, None).

Definition record (s : string) (f : Fake) : Fake :=
  {| f_keys := f_keys f; Calls := Calls f ++ [s]; Managed := Managed f;
     Display := Display f; Observe := Observe f; QueryTree := QueryTree f;
     Supported := Supported f; ScreenW := ScreenW f; ScreenH := ScreenH f;
     active := active f |}.

Definition set_active (xid : Z) (f : Fake) : Fake :=
  {| f_keys := f_keys f; Calls := Calls f; Managed := Managed f;
     Display := Display f; Observe := Observe f; QueryTree := QueryTree f;
     Supported := Supported f; ScreenW := ScreenW f; ScreenH := ScreenH f;
     active := xid |}.

Definition Snapshot (f : Fake) : list string := Calls f.

Definition WalkQueryTree (f : Fake) : Fake :=
  {| f_keys := f_keys f; Calls := Calls f; Managed := Managed f;
     Display := Display f; Observe := Observe f; QueryTree := swrap 64 (QueryTree f + 1);
     Supported := Supported f; ScreenW := ScreenW f; ScreenH := ScreenH f;
     active := active f |}.

Definition atomOK (atom : string) (f : Fake) : bool :=
  match Supported f with
  | None => true
  | Some l => existsb (λ a, bool_decide (a = atom)) l
  end.

Definition f_KeycodeFor (name : string) (f : Fake) : Z :=
  match f_keys f with None => 0 | Some m => default 0 (m !! name) end.

(** The texts recorded, as [fmt.Sprintf] writes them. *)
Definition warp_text (x y : Z) : string :=
  "warp:" +:+ strconv.Itoa x +:+ "," +:+ strconv.Itoa y.
Definition key_text (keycode : Z) (press : bool) : string :=
  let dir := if press then "down" else "up" in
  "key:" +:+ strconv.Itoa keycode +:+ ":" +:+ dir.
Definition button_text (button : Z) (press : bool) : string :=
  let dir := if press then "down" else "up" in
  "button:" +:+ strconv.Itoa button +:+ ":" +:+ dir.
Definition activate_text (xid : Z) : string :=
  "clientmessage:" +:+ NetActiveWindowAtom +:+ ":source=" +:+ strconv.Itoa NetActiveWindowSource +:+
  ":mask=" +:+ strconv.Itoa ActivateEventMask +:+ ":xid=" +:+ strconv.Itoa xid.
Definition focus_text (xid : Z) : string :=
  "setinputfocus:revert=" +:+ strconv.Itoa RevertToParent +:+ ":xid=" +:+ strconv.Itoa xid.
Definition fullscreen_text (xid : Z) (add : bool) : string :=
  let action := if add then "add" else "remove" in
  "clientmessage:" +:+ NetWMStateAtom +:+ ":" +:+ NetWMStateFullscreenAtom +:+ ":" +:+ action +:+
  ":mask=" +:+ strconv.Itoa ActivateEventMask +:+ ":xid=" +:+ strconv.Itoa xid.

Definition f_WarpMouse (x y : Z) (f : Fake) : option error * Fake :=
  (None, record (warp_text x y) f).
Definition f_SendKey (keycode : Z) (press : bool) (f : Fake) : option error * Fake :=
  (None, record (key_text keycode press) f).
Definition f_SendButton (button : Z) (press : bool) (f : Fake) : option error * Fake :=
  (None, record (button_text button press) f).

(** A generation that is not set is filled in. *)
Definition fill_gens (f : Fake) (w : WindowInfo) : WindowInfo :=
  {| XID := XID w; Class := Class w; PID := PID w; Name := Name w; X := X w; Y := Y w;
     Width := Width w; Height := Height w; State := State w;
     DisplayGen := if DisplayGen w =? 0 then Display f else DisplayGen w;
     ObserveGen := if ObserveGen w =? 0 then Observe f else ObserveGen w |}.

Definition f_ManagedClients (f : Fake) : (list WindowInfo * option error) * Fake :=
  if negb (atomOK NetClientListAtom f) then (([], Some ErrUnavailable), f)
  else
    let f := record ("inspect:" +:+ NetClientListAtom) f in
    ((map (fill_gens f) (Managed f), None), f).

(** The loop of [Revalidate] over the managed windows. *)
Fixpoint find_managed (ref : WindowRef) (ws : list WindowInfo) : option error :=
  match ws with
  | [] => Some ErrRefMismatch
  | w :: ws' =>
    if negb (XID w =? RXID ref) then find_managed ref ws'
    else if negb (bool_decide (ExpectedClass ref = "")) &&
            negb (bool_decide (Class w = ExpectedClass ref)) then Some ErrRefMismatch
    else if negb (ExpectedPID ref =? 0) && negb (PID w =? ExpectedPID ref) then Some ErrRefMismatch
    else None
  end.

Definition f_Revalidate (ref : WindowRef) (f : Fake) : option error :=
  if negb (atomOK NetClientListAtom f) then Some ErrUnavailable
  else if RXID ref =? 0 then Some ErrRefMismatch
  else if negb (RDisplayGen ref =? Display f) || negb (RObserveGen ref =? Observe f)
  then Some ErrRefMismatch
  else find_managed ref (Managed f).

Definition f_ActivateAlwaysBoth (ref : WindowRef) (f : Fake) : option error * Fake :=
  if negb (atomOK NetActiveWindowAtom f) then (Some ErrUnavailable, f)
  else
    let f := record (activate_text (RXID ref)) f in
    let f := record (focus_text (RXID ref)) f in
    (None, set_active (RXID ref) f).

Definition f_ActiveWindow (f : Fake) : Z * option error := (active f, None).

Definition f_SetFullscreen (ref : WindowRef) (add : bool) (f : Fake) : option error * Fake :=
  if negb (atomOK NetWMStateAtom f) || negb (atomOK NetWMStateFullscreenAtom f)
  then (Some ErrUnavailable, f)
  else (None, record (fullscreen_text (RXID ref) add) f).

Definition returns {A} (p : A * Fake) : res Fake A := Val p.1 p.2.

#[global] Instance Fake_backend : Backend Fake := λ R c f,
  match c in call R return res Fake R with
  | KeycodeFor name => Val (f_KeycodeFor name f) f
  | WarpMouse x y => returns (f_WarpMouse x y f)
  | SendKey kc press => returns (f_SendKey kc press f)
  | SendButton b press => returns (f_SendButton b press f)
  | ScreenGeometry => Val (f_ScreenGeometry f) f
  | ManagedClients => returns (f_ManagedClients f)
  | Revalidate ref => Val (f_Revalidate ref f) f
  | ActivateAlwaysBoth ref => returns (f_ActivateAlwaysBoth ref f)
  | SetFullscreen ref add => returns (f_SetFullscreen ref add f)
  | ActiveWindow => Val (f_ActiveWindow f) f
  end.

(** ** panic_backend.go *)
Record PanicBackend : Set := mkPanicBackend { }.
Definition PanicBackend0 : PanicBackend := mkPanicBackend.

Definition panic_message {R : Set} (c : call R) : string :=
  match c with
  | KeycodeFor _ => "vnext: backend KeycodeFor"
  | WarpMouse _ _ => "vnext: backend WarpMouse"
  | SendKey _ _ => "vnext: backend SendKey"
  | SendButton _ _ => "vnext: backend SendButton"
  | ScreenGeometry => "vnext: backend ScreenGeometry"
  | ManagedClients => "vnext: backend ManagedClients"
  | Revalidate _ => "vnext: backend Revalidate"
  | ActivateAlwaysBoth _ => "vnext: backend ActivateAlwaysBoth"
  | SetFullscreen _ _ => "vnext: backend SetFullscreen"
  | ActiveWindow => "vnext: backend ActiveWindow"
  end.

#[global] Instance Panic_backend : Backend PanicBackend := λ R c b,
  Panicked (panic_message c) b.

(** ** What the fake records *)

(** The entries a call adds to [Calls], given its answer. *)
Definition recorded (e : event) : list string :=
  match e with
  | EWarpMouse x y _ => [warp_text x y]
  | ESendKey kc press _ => [key_text kc press]
  | ESendButton b press _ => [button_text b press]
  | EManagedClients (_, None) => ["inspect:" +:+ NetClientListAtom]
  | EActivate ref None => [activate_text (RXID ref); focus_text (RXID ref)]
  | ESetFullscreen ref add None => [fullscreen_text (RXID ref) add]
  | _ => []
  end.

Lemma Fake_handle {R : Set} (c : call R) (f : Fake) :
  ∃ r f', handle c f = Val r f' ∧ Calls f' = Calls f ++ recorded (Ev c r).
Proof.
  destruct c; cbn -[warp_text key_text button_text activate_text focus_text fullscreen_text].
  all: unfold returns, f_ManagedClients, f_ActivateAlwaysBoth, f_SetFullscreen;
    repeat case_match; cbn -[warp_text key_text button_text activate_text focus_text fullscreen_text];
    eexists _, _; split; try done; cbn; rewrite ?app_nil_r, <-?app_assoc; done.
Qed.

Lemma Fake_run {A} (p : prog A) (f : Fake) :
  ∃ a f' evs, run p f = Val a f' ∧ exec p evs a ∧ Calls f' = Calls f ++ (evs ≫= recorded).
Proof.
  revert f. induction p as [a|R c k IH]; intros f.
  - exists a, f, []. split_and!; [done|constructor|by rewrite app_nil_r].
  - destruct (Fake_handle c f) as (r & f1 & E & Ec). cbn. rewrite E.
    destruct (IH r f1) as (a & f' & evs & Hr & He & Hc).
    exists a, f', (Ev c r :: evs). split_and!; [done|by constructor|].
    rewrite Hc, Ec. cbn. by rewrite <-app_assoc.
Qed.

(** A window fits the expectations of a reference. *)
Definition fits (ref : WindowRef) (w : WindowInfo) : Prop :=
  (ExpectedClass ref = "" ∨ Class w = ExpectedClass ref) ∧
  (ExpectedPID ref = 0 ∨ PID w = ExpectedPID ref).

Lemma neither_decide (P Q : Prop) `{Decision P, Decision Q} :
  negb (bool_decide P) && negb (bool_decide Q) = false ↔ P ∨ Q.
Proof. do 2 case_bool_decide; naive_solver. Qed.

Lemma neither_eqb a b c d : negb (a =? b) && negb (c =? d) = false ↔ a = b ∨ c = d.
Proof. destruct (a =? b) eqn:?, (c =? d) eqn:?; bools; cbn; naive_solver. Qed.

Lemma find_managed_cons ref w ws :
  find_managed ref (w :: ws) = None ↔
  (XID w = RXID ref ∧ fits ref w) ∨ (XID w ≠ RXID ref ∧ find_managed ref ws = None).
Proof.
  cbn [find_managed]. unfold fits.
  pose proof (neither_decide (ExpectedClass ref = "") (Class w = ExpectedClass ref)) as Hc.
  pose proof (neither_eqb (ExpectedPID ref) 0 (PID w) (ExpectedPID ref)) as Hp.
  destruct (XID w =? RXID ref) eqn:Ex; bools; cbn [negb]; [|naive_solver].
  destruct (_ && _); [naive_solver|]. destruct (_ && _); naive_solver.
Qed.

Lemma find_managed_spec ref ws :
  find_managed ref ws = None ↔
  ∃ ws1 w ws2, ws = ws1 ++ w :: ws2 ∧ XID w = RXID ref ∧ fits ref w ∧
               Forall (λ v, XID v ≠ RXID ref) ws1.
Proof.
  induction ws as [|w ws IH].
  { split; [done|]. intros (ws1 & w & ws2 & E & _). by destruct ws1. }
  rewrite find_managed_cons, IH. split.
  - intros [[Hx Hf]|(Hx & ws1 & w' & ws2 & -> & ? & ? & ?)].
    + by exists [], w, ws.
    + exists (w :: ws1), w', ws2. auto.
  - intros (ws1 & w' & ws2 & E & Hx & Hf & Hall). destruct ws1 as [|v ws1]; simplify_eq/=; [auto|].
    apply Forall_cons_1 in Hall as [??]. right. eauto 8.
Qed.

Lemma find_managed_mismatch ref ws :
  find_managed ref ws = None ∨ find_managed ref ws = Some ErrRefMismatch.
Proof. induction ws; cbn; repeat case_match; auto. Qed.

(** The reference a client makes from a window it was shown. *)
Definition ref_of (w : WindowInfo) : WindowRef :=
  {| RDisplayGen := DisplayGen w; RObserveGen := ObserveGen w; RXID := XID w;
     ExpectedClass := Class w; ExpectedPID := PID w |}.

Lemma find_managed_ref f ws w :
  NoDup (XID <$> ws) → w ∈ ws → find_managed (ref_of (fill_gens f w)) ws = None.
Proof.
  intros Hn Hw. apply find_managed_spec. apply list_elem_of_split in Hw as (ws1 & ws2 & ->).
  exists ws1, w, ws2. split_and!; try done; [by split; right|].
  rewrite fmap_app in Hn. apply list.NoDup_app in Hn as (_ & Hd & _).
  apply Stdlib.Lists.List.Forall_forall. intros v Hv E. apply (Hd (XID v)).
  - by apply list_elem_of_fmap_2, list_elem_of_In.
  - cbn in E. rewrite E. cbn. set_solver.
Qed.

(** ** The panic backend *)
(** A program that makes a call in one of its executions starts with a call. *)
Definition calls_backend {A} (p : prog A) : Prop :=
  match p with Ret _ => False | Call _ _ => True end.

Lemma Dispatch_calls sch r s :
  valid_request r → Op r ≠ OpRelease → calls_backend (Dispatch sch r (Some s) false).
Proof. by destruct 1. Qed.

Lemma Release_calls sch s :
  calls_backend (Release sch (Some s) false) ↔
  (∃ kc, KeyDown kc s = true) ∨ (∃ b, ButtonDown b s = true).
Proof.
  assert (∀ (m : gmap Z bool) kc, default false (m !! kc) = true ↔ m !! kc = Some true) as Hd
    by (intros m kc; by destruct (m !! kc) as [[]|]).
  unfold Release, KeyDown, ButtonDown. setoid_rewrite Hd.
  setoid_rewrite <-(held_in_spec (range_keys sch) (keys s)).
  setoid_rewrite <-(held_in_spec (range_buttons sch) (buttons s)).
  destruct (held_in (range_keys sch) (keys s)) as [|kc kcs]; cbn.
  - destruct (held_in (range_buttons sch) (buttons s)) as [|b bs]; cbn; [set_solver|].
    split; [|done]. intros _. right. exists b. set_solver.
  - split; [|done]. intros _. left. exists kc. set_solver.
Qed.

(** ** The theorems *)

(** The recording backend is a faithful oracle: any program over the
    backend interface, run against the fake, terminates without a panic, the
    run is one of the program's executions, and what the fake recorded is that
    execution, call by call in order. *)
Theorem fake_records_execution {A} (p : prog A) (f : Fake) :
  ∃ a f' evs, run p f = Val a f' ∧ exec p evs a ∧
    Snapshot f' = Snapshot f ++ (evs ≫= recorded).
Proof. apply Fake_run. Qed.

(** The fake revalidates a reference exactly when the window list is
    supported, the identifier is not zero, both generations are current and the
    first managed window with that identifier has the expected class and
    process; every other reference is a mismatch (Conflict), and an unsupported
    list is Unavailable. *)
Theorem fake_revalidate_exact ref f :
  (f_Revalidate ref f = None ↔
    atomOK NetClientListAtom f = true ∧ RXID ref ≠ 0 ∧
    RDisplayGen ref = Display f ∧ RObserveGen ref = Observe f ∧
    ∃ ws1 w ws2, Managed f = ws1 ++ w :: ws2 ∧ XID w = RXID ref ∧ fits ref w ∧
                 Forall (λ v, XID v ≠ RXID ref) ws1) ∧
  (f_Revalidate ref f = Some ErrUnavailable ↔ atomOK NetClientListAtom f = false) ∧
  (f_Revalidate ref f = None ∨ f_Revalidate ref f = Some ErrUnavailable ∨
   f_Revalidate ref f = Some ErrRefMismatch).
Proof.
  unfold f_Revalidate. rewrite <-find_managed_spec.
  pose proof (find_managed_mismatch ref (Managed f)) as Hm.
  destruct (atomOK NetClientListAtom f); cbn [negb]; [|naive_solver].
  destruct (RXID ref =? 0) eqn:?; bools; [naive_solver|].
  destruct (RDisplayGen ref =? Display f) eqn:?, (RObserveGen ref =? Observe f) eqn:?;
    bools; cbn [negb orb]; naive_solver.
Qed.

(** What inspect shows can be acted on: a reference made from any window the
    fake lists revalidates, as long as identifiers are distinct and not zero
    and no window carries a stale generation. *)
Theorem fake_inspect_then_revalidate f f' ws w :
  f_ManagedClients f = ((ws, None), f') → w ∈ ws →
  NoDup (XID <$> Managed f) → XID w ≠ 0 →
  DisplayGen w = Display f → ObserveGen w = Observe f →
  f_Revalidate (ref_of w) f' = None.
Proof.
  unfold f_ManagedClients. destruct (atomOK NetClientListAtom f) eqn:Ha; cbn [negb]; [|done].
  intros E Hw Hn Hx Hd Ho. simplify_eq.
  apply list_elem_of_fmap in Hw as (v & -> & Hv).
  unfold f_Revalidate. replace (atomOK _ _) with true by (symmetry; exact Ha). cbn [negb].
  cbn [record Managed Display Observe] in *. cbn [ref_of RXID RDisplayGen RObserveGen] in *.
  apply Z.eqb_neq in Hx. rewrite Hx, Hd, Ho, !Z.eqb_refl. cbn [negb orb].
  by apply find_managed_ref.
Qed.

Definition example_window : WindowInfo :=
  {| XID := 4194307; Class := "Example"; PID := 1234; Name := "one"; X := 0; Y := 0;
     Width := 640; Height := 480; State := []; DisplayGen := 0; ObserveGen := 0 |}.
Definition example_fake : Fake :=
  {| f_keys := None; Calls := []; Managed := [example_window]; Display := 1; Observe := 1;
     QueryTree := 0; Supported := None; ScreenW := 1280; ScreenH := 720; active := 0 |}.

Lemma fake_inspect_then_revalidate_witness :
  f_Revalidate (ref_of (fill_gens example_fake example_window))
    (snd (f_ManagedClients example_fake)) = None.
Proof.
  apply (fake_inspect_then_revalidate example_fake _ [fill_gens example_fake example_window]).
  - reflexivity.
  - apply list_elem_of_singleton. reflexivity.
  - apply NoDup_singleton.
  - vm_compute. congruence.
  - reflexivity.
  - reflexivity.
Defined.

(** The panic backend detects every line that reaches a backend and no
    other: handling a line panics exactly when the line denotes a request that
    is not a release, or is a release of a session that holds something. *)
Theorem panic_backend_detects sch line s b :
  (∃ m, run (HandleLine sch line (Some s) false) (b : PanicBackend) = Panicked m b) ↔
  ∃ r, denotes line r ∧
    (Op r = OpRelease → (∃ kc, KeyDown kc s = true) ∨ (∃ bt, ButtonDown bt s = true)).
Proof.
  assert (∀ p : prog (Outcome * option Session),
    (∃ m, run p b = Panicked m b) ↔ calls_backend p) as Hp
    by (intros []; cbn; naive_solver).
  rewrite Hp. destruct (HandleLine_cases sch line (Some s) false)
    as [(r & Hd & Hv & ->)|(Hn & o & _ & _ & ->)]; [|naive_solver].
  assert (∀ r', denotes line r' → r' = r) as Hu
    by (intros r' H; apply Decode_submitted in H, Hd; congruence).
  destruct (decide (Op r = OpRelease)) as [Hr|Hr].
  - rewrite (Dispatch_release _ _ _ Hr), Release_calls. split; [naive_solver|].
    intros (r' & H & Hh). rewrite (Hu _ H) in Hh. auto.
  - split; [naive_solver|]. intros _. by apply Dispatch_calls.
Qed.
