(* ===== verification/Admission.v ===== *)
(** * Admission: transports and allowlists (internal/vnext/admission.go)

    Which transport the daemon may open and which users it admits, as functions
    of the command-line flags. *)

From S2P Require Import Prelude GoStrings.
Local Open Scope Z_scope.
Import strings.

Inductive Mode := ModeNone | ModeV2 | ModeVNext.

#[global] Instance Mode_eq_dec : EqDecision Mode.
Proof. solve_decision. Defined.

(** The string literal made of a NUL, a line feed and a carriage return. *)
Definition nul_lf_cr : list ascii := ["000"; "010"; "013"]%char.

Definition ParseUnixListen (spec : string) : string * option error :=
  let spec := TrimSpace spec in
  if negb (HasPrefix spec "unix:") then ("", Some ErrNotUnix) else
  let path := TrimPrefix spec "unix:" in
  if bool_decide (path = "") || ContainsAny path nul_lf_cr then ("", Some ErrNotUnix) else
  if Contains path "://" || HasPrefix path "//" then ("", Some ErrNotUnix) else
  if HasPrefix path "tcp" || Contains path "0.0.0.0" || bool_decide (path = "*")
  then ("", Some ErrNotUnix) else
  if negb (HasPrefix path "/") then ("", Some ErrNotUnix) else
  if negb (bool_decide (filepath.Clean path = path)) then ("", Some ErrNotUnix) else
  (path, None).

Definition SelectMode (v2TCP vnextSpec : string) : Mode * string * option error :=
  let v2TCP := TrimSpace v2TCP in
  let vnextSpec := TrimSpace vnextSpec in
  if negb (bool_decide (v2TCP = "")) && negb (bool_decide (vnextSpec = ""))
  then (ModeNone, "", Some ErrDualBind) else
  if negb (bool_decide (vnextSpec = "")) then
    match ParseUnixListen vnextSpec with
    | (_, Some err) => (ModeNone, "", Some err)
    | (addr, None) => (ModeVNext, addr, None)
    end
  else (ModeV2, v2TCP, None).

Definition AdmitFlags (tcpAddr wsAddr vnextSpec : string) : Mode * string * option error :=
  let tcpAddr := if negb (bool_decide (TrimSpace wsAddr = "")) then wsAddr else tcpAddr in
  SelectMode tcpAddr vnextSpec.

Definition processID (id : Z) : result Z :=
  if (id <? 0) || (MaxUint32 <? to_uint id) then Err ErrBadAllowlist else Ok (to_uint32 id).

(** The loop both allowlist parsers run over the comma-separated entries: [self]
    is the keyword that stands for the process's own [id] ("euid" or "egid"). *)
Fixpoint parse_ids (self : string) (id : Z) (parts : list string) (out : list Z)
    : result (list Z) :=
  match parts with
  | [] => Ok out
  | p :: parts' =>
    let p := TrimSpace p in
    if bool_decide (p = "") then parse_ids self id parts' out
    else if bool_decide (p = self) then
      match processID id with
      | Err e => Err e
      | Ok u => parse_ids self id parts' (out ++ [u])
      end
    else
      match strconv.ParseUint p 32 with
      | (_, Some _) => Err ErrBadAllowlist
      | (u, None) => parse_ids self id parts' (out ++ [to_uint32 u])
      end
  end.

(** [geteuid] and [getegid] are the answers of the operating system. *)
Definition ParseAllowlist (geteuid : Z) (spec : string) : result (list Z) :=
  let spec := TrimSpace spec in
  if bool_decide (spec = "") then Err ErrEmptyAllowlist else
  out ← parse_ids "euid" geteuid (Split spec ",") [];
  match out with [] => Err ErrEmptyAllowlist | _ => Ok out end.

Definition ParseGIDAllowlist (getegid : Z) (spec : string) : result (list Z) :=
  let spec := TrimSpace spec in
  if bool_decide (spec = "") then Ok [] else
  out ← parse_ids "egid" getegid (Split spec ",") [];
  match out with [] => Err ErrBadAllowlist | _ => Ok out end.

(** ** What the parsers accept *)

(** A path the daemon may listen on: absolute and canonical, with nothing that
    looks like a network address and no NUL or line break. *)
Definition listen_path (path : string) : Prop :=
  HasPrefix path "/" = true ∧ HasPrefix path "//" = false ∧ filepath.Clean path = path ∧
  ContainsAny path nul_lf_cr = false ∧ Contains path "://" = false ∧
  Contains path "0.0.0.0" = false.

Lemma slash_hd path : HasPrefix path "/" = true → ∃ t, path = String "/" t.
Proof. intros [t ->]%HasPrefix_spec. by exists t. Qed.

Lemma ParseUnixListen_exact spec path :
  ParseUnixListen spec = (path, None) ↔ TrimSpace spec = "unix:" +:+ path ∧ listen_path path.
Proof.
  unfold ParseUnixListen, listen_path. split.
  - destruct (HasPrefix (TrimSpace spec) "unix:") eqn:Hu; cbn [negb]; [|done].
    apply HasPrefix_spec in Hu as [t ->]. rewrite TrimPrefix_app.
    repeat (case_match; [done|]). intros; simplify_eq.
    by repeat match goal with
    | H : _ || _ = false |- _ => apply orb_false_iff in H as [? ?]
    | H : negb _ = false |- _ => apply negb_false_iff in H
    | H : bool_decide _ = true |- _ => apply bool_decide_eq_true_1 in H
    end.
  - intros (-> & Hp & H2 & Hc & Ha & Hs & H0). rewrite HasPrefix_app, TrimPrefix_app. cbn [negb].
    rewrite Ha, Hs, H2, H0, Hp, Hc, (bool_decide_eq_true_2 (path = path)) by done.
    by apply slash_hd in Hp as [t ->].
Qed.

Lemma ParseUnixListen_error spec path err :
  ParseUnixListen spec = (path, Some err) → path = "" ∧ err = ErrNotUnix.
Proof. unfold ParseUnixListen. intros H. repeat case_match; naive_solver. Qed.

Lemma listen_path_names path :
  listen_path path → ∃ names, Forall filepath.real_name names ∧ path = "/" +:+ filepath.join_slash names.
Proof.
  intros (Hp & _ & Hc & _). apply filepath.Clean_rooted in Hp as (names & Hn & E).
  exists names. split; [done|]. congruence.
Qed.

Lemma blank_trim s : TrimSpace (TrimSpace s) = "" ↔ TrimSpace s = "".
Proof. by rewrite TrimSpace_idemp. Qed.

(** ** Allowlists *)

(** The entries of an allowlist: what lies between the commas, trimmed, blank
    entries left out. *)
Definition entries (spec : string) : list string :=
  filter (λ p, p ≠ "") (TrimSpace <$> Split (TrimSpace spec) ",").

(** The identifier an entry stands for. *)
Definition entry_id (self : string) (id : Z) (p : string) (u : Z) : Prop :=
  (p = self ∧ 0 ≤ id ≤ MaxUint32 ∧ u = id) ∨
  (p ≠ self ∧ strconv.ParseUint p 32 = (u, None)).

Lemma processID_spec id u :
  is_sint 64 id → processID id = Ok u ↔ 0 ≤ id ≤ MaxUint32 ∧ u = id.
Proof.
  unfold is_sint, processID. intros Hid. destruct (id <? 0) eqn:E; bools; cbn [orb].
  - split; [done|lia].
  - rewrite uwrap_small by (unfold is_uint; lia).
    destruct (MaxUint32 <? id) eqn:E'; bools; cbn [orb].
    + split; [done|lia].
    + assert (MaxUint32 = 2 ^ 32 - 1) by done.
      rewrite uwrap_small by (unfold is_uint; lia). split; [|naive_solver].
      intros; simplify_eq. lia.
Qed.

Lemma entry_id_range self id p u : entry_id self id p u → is_uint 32 u.
Proof.
  intros [(_ & Hid & ->)|[_ H]].
  - unfold is_uint. assert (MaxUint32 = 2 ^ 32 - 1) by done. lia.
  - by eapply strconv.ParseUint_range in H.
Qed.

(** One entry of the loop. *)
Definition parse_id (self : string) (id : Z) (p : string) : result Z :=
  if bool_decide (p = self) then processID id
  else match strconv.ParseUint p 32 with
       | (_, Some _) => Err ErrBadAllowlist
       | (u, None) => Ok (to_uint32 u)
       end.

Lemma parse_id_exact self id p u :
  is_sint 64 id → parse_id self id p = Ok u ↔ entry_id self id p u.
Proof.
  intros Hid. unfold parse_id, entry_id. case_bool_decide as Hp.
  - rewrite processID_spec by done. naive_solver.
  - destruct (strconv.ParseUint p 32) as [v [e|]] eqn:E; [naive_solver|].
    rewrite uwrap_small by (by eapply strconv.ParseUint_range in E). naive_solver.
Qed.

Lemma parse_id_error self id p e : parse_id self id p = Err e → e = ErrBadAllowlist.
Proof. unfold parse_id, processID. repeat case_match; naive_solver. Qed.

Lemma parse_ids_cons self id p parts out :
  parse_ids self id (p :: parts) out =
  if bool_decide (TrimSpace p = "") then parse_ids self id parts out
  else u ← parse_id self id (TrimSpace p); parse_ids self id parts (out ++ [u]).
Proof. cbn [parse_ids]. unfold parse_id. by repeat case_match. Qed.

Lemma parse_ids_exact self id parts out l :
  is_sint 64 id →
  parse_ids self id parts out = Ok l ↔
  ∃ l', l = out ++ l' ∧
        Forall2 (entry_id self id) (filter (λ p, p ≠ "") (TrimSpace <$> parts)) l'.
Proof.
  intros Hid. revert out. induction parts as [|p parts IH]; intros out.
  { split; [intros [= ->]; exists []; by rewrite app_nil_r|].
    intros (l' & -> & H%Forall2_nil_inv_l). by rewrite H, app_nil_r. }
  rewrite parse_ids_cons, fmap_cons, filter_cons.
  case_bool_decide as Hp; [by rewrite decide_False, IH by naive_solver|].
  rewrite decide_True, result_bind_Ok by done. split.
  - intros (u & Hu & (l' & -> & Hl)%IH). exists (u :: l'). rewrite <-app_assoc. split; [done|].
    constructor; [by apply parse_id_exact|done].
  - intros (l' & -> & (u & k & Hu & Hk & ->)%Forall2_cons_inv_l). exists u.
    rewrite parse_id_exact, IH by done. split; [done|]. exists k. by rewrite <-app_assoc.
Qed.

Lemma parse_ids_error self id parts out e :
  parse_ids self id parts out = Err e → e = ErrBadAllowlist.
Proof.
  revert out. induction parts as [|p parts IH]; intros out; [done|].
  rewrite parse_ids_cons. case_bool_decide; [apply IH|].
  destruct (parse_id self id (TrimSpace p)) as [u|e'] eqn:E; cbn; [apply IH|].
  intros; simplify_eq. by eapply parse_id_error.
Qed.

Lemma Split_nil sep : Split "" sep = [""].
Proof. done. Qed.

Lemma entries_blank spec : TrimSpace spec = "" → entries spec = [].
Proof. intros E. unfold entries. rewrite E. vm_compute. done. Qed.

Lemma ParseAllowlist_exact euid spec l :
  is_sint 64 euid →
  ParseAllowlist euid spec = Ok l ↔ l ≠ [] ∧ Forall2 (entry_id "euid" euid) (entries spec) l.
Proof.
  intros Hid. unfold ParseAllowlist. case_bool_decide as Hs.
  { rewrite entries_blank by done. split; [done|]. intros [? ?%Forall2_nil_inv_l]. done. }
  rewrite result_bind_Ok. setoid_rewrite parse_ids_exact; [|done]. cbn [app]. split.
  - intros (out & (l' & -> & H) & E). destruct l'; naive_solver.
  - intros [Hl H]. exists l. split; [by exists l|]. by destruct l.
Qed.

Lemma ParseGIDAllowlist_exact egid spec l :
  is_sint 64 egid →
  ParseGIDAllowlist egid spec = Ok l ↔
  (TrimSpace spec = "" ∧ l = []) ∨
  (l ≠ [] ∧ Forall2 (entry_id "egid" egid) (entries spec) l).
Proof.
  intros Hid. unfold ParseGIDAllowlist. case_bool_decide as Hs.
  { rewrite entries_blank by done. split; [naive_solver|].
    intros [[_ ->]|[? ?%Forall2_nil_inv_l]]; done. }
  rewrite result_bind_Ok. setoid_rewrite parse_ids_exact; [|done]. cbn [app]. split.
  - intros (out & (l' & -> & H) & E). right. destruct l'; naive_solver.
  - intros [[? _]|[Hl H]]; [done|]. exists l. split; [by exists l|]. by destruct l.
Qed.

(** ** Writing an allowlist *)
Lemma Itoa_uint n : 0 ≤ n → ∃ c l, bytes (strconv.Itoa n) = c :: l ∧
  Forall (λ d, is_Some (strconv.digit d)) (c :: l).
Proof.
  intros Hn. unfold strconv.Itoa. rewrite (proj2 (Z.ltb_ge n 0)) by lia. rewrite bytes_str.
  destruct (strconv.digits_cons n) as (c & l & E). exists c, l. split; [done|].
  rewrite <-E. by apply strconv.digits_forall.
Qed.

(** A list of identifiers as an administrator writes it. *)
Definition print_ids (l : list Z) : string := Join (strconv.Itoa <$> l) ",".

Lemma print_ids_cons x y l :
  print_ids (x :: y :: l) = strconv.Itoa x +:+ String "," (print_ids (y :: l)).
Proof. done. Qed.

Definition digit_ends (s : string) : Prop :=
  ∃ c l k d, bytes s = c :: l ∧ bytes s = k ++ [d] ∧
             is_Some (strconv.digit c) ∧ is_Some (strconv.digit d).

Lemma digit_ends_Itoa n : 0 ≤ n → digit_ends (strconv.Itoa n).
Proof.
  intros (c & l & E & H)%Itoa_uint. destruct (exists_last (l := c :: l)) as (k & d & E'); [done|].
  exists c, l, k, d. pose proof H as [Hc _]%Forall_cons_1. rewrite E' in H.
  apply Forall_app in H as [_ [Hd _]%Forall_cons_1]. split_and!; congruence || done.
Qed.

Lemma digit_ends_print l : l ≠ [] → Forall (is_uint 32) l → digit_ends (print_ids l).
Proof.
  intros Hl H. induction H as [|x l Hx H IH]; [done|]. unfold is_uint in Hx.
  destruct (digit_ends_Itoa x) as (c & t & k & d & E1 & E2 & Hc & Hd); [lia|].
  destruct l as [|y l]; [by exists c, t, k, d|].
  destruct IH as (c' & t' & k' & d' & E3 & E4 & Hc' & Hd'); [done|].
  unfold digit_ends. rewrite print_ids_cons, bytes_app.
  change (bytes (String ?a ?b)) with (a :: bytes b).
  exists c, (t ++ ","%char :: bytes (print_ids (y :: l))),
    (bytes (strconv.Itoa x) ++ ","%char :: k'), d'.
  split_and!; [by rewrite E1|by rewrite E4, <-app_assoc|done|done].
Qed.

Lemma digit_not_space d :
  is_Some (strconv.digit d) → b2z d < utf8.RuneSelf ∧ IsSpace (b2z d) = false.
Proof.
  intros [z [? ->]%strconv.digit_inv]. unfold utf8.RuneSelf.
  split; [lia|]. assert (z ∈ [0;1;2;3;4;5;6;7;8;9]) as Hz by (rewrite !elem_of_cons; lia).
  repeat (apply elem_of_cons in Hz as [->|Hz]; [done|]). by apply elem_of_nil in Hz.
Qed.

Lemma digit_ends_trim s : digit_ends s → TrimSpace s = s.
Proof.
  intros (c & l & k & d & E1 & E2 & Hc%digit_not_space & Hd%digit_not_space).
  apply (TrimSpace_id s c l k d); naive_solver.
Qed.

Lemma print_ids_entries l :
  l ≠ [] → Forall (is_uint 32) l → entries (print_ids l) = strconv.Itoa <$> l.
Proof.
  intros Hl H. unfold entries. rewrite digit_ends_trim by (by apply digit_ends_print).
  unfold print_ids. rewrite Split_Join.
  - induction H as [|x l Hx _ IH]; [done|]. unfold is_uint in Hx. rewrite !fmap_cons, filter_cons.
    rewrite digit_ends_trim by (apply digit_ends_Itoa; lia).
    rewrite decide_True.
    + f_equal. destruct l; [done|by apply IH].
    + destruct (digit_ends_Itoa x) as (c & t & _ & _ & E & _); [lia|]. intros E'.
      by rewrite E' in E.
  - by destruct l.
  - apply Forall_fmap. eapply Forall_impl; [|exact H]. intros x Hx Hin. unfold is_uint in Hx.
    destruct (Itoa_uint x) as (c & t & E & Hd); [lia|]. cbn in Hin. rewrite E in Hin.
    rewrite Stdlib.Lists.List.Forall_forall in Hd. apply list_elem_of_In, Hd in Hin.
    by destruct Hin.
Qed.

Lemma entries_self self id l :
  strconv.ParseUint self 32 = (0, Some strconv_ErrSyntax) →
  Forall (is_uint 32) l → Forall2 (entry_id self id) (strconv.Itoa <$> l) l.
Proof.
  intros Hs. induction 1 as [|x l Hx _ IH]; [constructor|]. rewrite fmap_cons.
  constructor; [|done]. right. rewrite strconv.ParseUint_Itoa by done. split; [|done].
  intros <-. by rewrite strconv.ParseUint_Itoa in Hs.
Qed.

(** ** The theorems *)

(** C24: at most one transport is admitted, and always the one the flags name.
    The private socket is opened exactly when neither -tcp nor -ws is set and
    -vnext is unix: followed by a canonical absolute path; the legacy transport
    exactly when -vnext is blank, with -ws taking the place of -tcp; setting
    both is refused as a dual bind, and a refusal names no address. *)
Theorem admit_flags_exact tcp ws vnext :
  let legacy := if decide (TrimSpace ws = "") then TrimSpace tcp else TrimSpace ws in
  (∀ path, AdmitFlags tcp ws vnext = (ModeVNext, path, None) ↔
     legacy = "" ∧ TrimSpace vnext = "unix:" +:+ path ∧ listen_path path) ∧
  (∀ addr, AdmitFlags tcp ws vnext = (ModeV2, addr, None) ↔
     TrimSpace vnext = "" ∧ addr = legacy) ∧
  (AdmitFlags tcp ws vnext = (ModeNone, "", Some ErrDualBind) ↔
     legacy ≠ "" ∧ TrimSpace vnext ≠ "") ∧
  (∃ r, AdmitFlags tcp ws vnext = r ∧
     match r with
     | (ModeNone, addr, e) => addr = "" ∧ (e = Some ErrDualBind ∨ e = Some ErrNotUnix)
     | (_, _, e) => e = None
     end).
Proof.
  cbv zeta. unfold AdmitFlags, SelectMode.
  assert (TrimSpace (if negb (bool_decide (TrimSpace ws = "")) then ws else tcp) =
    if decide (TrimSpace ws = "") then TrimSpace tcp else TrimSpace ws) as ->
    by (by case_bool_decide; case_decide).
  generalize (if decide (TrimSpace ws = "") then TrimSpace tcp else TrimSpace ws). intros legacy.
  pose proof (ParseUnixListen_exact (TrimSpace vnext)) as Hp. rewrite TrimSpace_idemp in Hp.
  pose proof (ParseUnixListen_error (TrimSpace vnext)) as He.
  destruct (decide (TrimSpace vnext = "")) as [Hv|Hv].
  { rewrite Hv. cbn [bool_decide]. replace (bool_decide ("" = "")) with true by done.
    cbn [negb]. rewrite andb_false_r.
    split_and!; [naive_solver..|]. by eexists. }
  rewrite (bool_decide_eq_false_2 (TrimSpace vnext = "")) by done. cbn [negb].
  rewrite andb_true_r. case_bool_decide as Hl; cbn [negb].
  - destruct (ParseUnixListen (TrimSpace vnext)) as [path [e|]].
    + destruct (He path e) as [-> ->]; [done|].
      split_and!; [|naive_solver..|eexists; split; [done|]; naive_solver].
      intros p. split; [done|]. intros [_ H%Hp]. done.
    + split_and!; [|naive_solver..|by eexists]. intros p. rewrite <-Hp. naive_solver.
  - split_and!; [naive_solver..|]. eexists. split; [done|]. naive_solver.
Qed.

(** A socket path the daemon accepts has no way out of its directory: it is
    a slash followed by real file names separated by single slashes, none of
    them empty, a dot or a double dot. *)
Theorem listen_path_canonical spec path :
  ParseUnixListen spec = (path, None) →
  ∃ names, Forall filepath.real_name names ∧ path = "/" +:+ filepath.join_slash names.
Proof. intros [_ H]%ParseUnixListen_exact. by apply listen_path_names. Qed.

Lemma listen_path_canonical_witness :
  ∃ names, Forall filepath.real_name names ∧
           "/run/x11/input.sock" = "/" +:+ filepath.join_slash names.
Proof.
  apply (listen_path_canonical " unix:/run/x11/input.sock"). vm_compute. reflexivity.
Defined.

(** C25: the user allowlist fails closed and is read exactly: it is accepted with
    the identifiers [l] if and only if [l] is not empty and is, entry by entry,
    what the comma-separated entries stand for (the process's own user for
    euid, a decimal 32-bit number otherwise); a blank list and a list of blank
    entries are refused. *)
Theorem allowlist_exact euid spec l :
  is_sint 64 euid →
  (ParseAllowlist euid spec = Ok l ↔
     l ≠ [] ∧ Forall2 (entry_id "euid" euid) (entries spec) l) ∧
  (ParseAllowlist euid spec = Ok l → Forall (is_uint 32) l) ∧
  (∀ e, ParseAllowlist euid spec = Err e → e = ErrEmptyAllowlist ∨ e = ErrBadAllowlist).
Proof.
  intros Hid. split_and!.
  - by apply ParseAllowlist_exact.
  - intros [_ H]%ParseAllowlist_exact; [|done]. clear -H.
    induction H; constructor; eauto using entry_id_range.
  - unfold ParseAllowlist. intros e. case_bool_decide; [naive_solver|].
    destruct (parse_ids _ _ _ _) as [[|]|e'] eqn:E; cbn; [naive_solver..|].
    apply parse_ids_error in E. naive_solver.
Qed.

Lemma allowlist_exact_witness :
  Forall (is_uint 32) [1000; 42].
Proof.
  apply (allowlist_exact 1000 " euid, 42 ,," [1000; 42]).
  - vm_compute. split; congruence.
  - vm_compute. reflexivity.
Defined.

(** Both allowlists are read back as they are written: a non-empty list of
    32-bit identifiers printed with commas parses to itself, for users and for
    groups, whatever the identity of the process. *)
Theorem allowlist_roundtrip id l :
  is_sint 64 id → l ≠ [] → Forall (is_uint 32) l →
  ParseAllowlist id (print_ids l) = Ok l ∧ ParseGIDAllowlist id (print_ids l) = Ok l.
Proof.
  intros Hid Hl H. rewrite ParseAllowlist_exact, ParseGIDAllowlist_exact by done.
  rewrite print_ids_entries by done.
  split; [|right]; (split; [done|by apply entries_self]).
Qed.

Lemma allowlist_roundtrip_witness :
  ParseAllowlist 0 (print_ids [1000; 4294967295]) = Ok [1000; 4294967295] ∧
  ParseGIDAllowlist 0 (print_ids [1000; 4294967295]) = Ok [1000; 4294967295].
Proof.
  apply allowlist_roundtrip.
  - vm_compute. split; congruence.
  - congruence.
  - apply (bool_decide_unpack _). vm_compute. exact I.
Defined.
