(* ===== verification/V2Line.v ===== *)
(** * The legacy line protocol (internal/v2line/dispatch.go, redact.go)

    [Dispatch] as a function from a line to the actions it takes, in order: the
    calls of the actuator, the sleeps and the log messages.  The keycodes the
    actuator answers are an argument; a line looks up at most one. *)

From S2P Require Import Prelude GoStrings.
Local Open Scope Z_scope.
Import strings.

Definition minKeyHoldMillis : Z := 20.
Definition maxKeyHoldMillis : Z := 500.
Definition modclickDefault : Z := 45.

(** [time.Duration] counts nanoseconds. *)
Definition Millisecond : Z := 1000000.

Inductive action :=
  | AKeycodeFor (name : string)
  | ASendKey (keycode : Z) (press : bool)
  | AMoveMouse (x y : Z)
  | ASendButton (button : Z) (press : bool)
  | AReleaseAll
  | ASleep (d : Z)
  | ALog (msg : string).

#[global] Instance action_eq_dec : EqDecision action.
Proof. solve_decision. Defined.

Definition ParseKeyHold (parts : list string) : Z * bool :=
  match parts with
  | [p0; _; p2] =>
    if negb (bool_decide (p0 = "key")) then (0, false) else
    let '(holdMillis, err) := strconv.Atoi p2 in
    if bool_decide (is_Some err) || negb (bool_decide (strconv.Itoa holdMillis = p2)) ||
       (holdMillis <? minKeyHoldMillis) || (maxKeyHoldMillis <? holdMillis)
    then (0, false)
    else (swrap 64 (holdMillis * Millisecond), true)
  | _ => (0, false)
  end.

Definition LF : string := String "010" "".

(** The two log messages; the first is a format with the two bounds. *)
Definition key_usage : string :=
  "xtest-server: invalid key command; expected key <keysym> <hold-ms " +:+
  strconv.Itoa minKeyHoldMillis +:+ ".." +:+ strconv.Itoa maxKeyHoldMillis +:+ ">" +:+ LF.
Definition unknown_keysym : string := "xtest-server: unknown keysym (key dropped)" +:+ LF.

Section dispatch.
(** The answers of [Actuator.KeycodeFor]. *)
Context (keycodeFor : string → Z).

(** [keycodeOrLog], with what it does before it returns. *)
Definition keycodeOrLog (name : string) : Z * list action :=
  let kc := keycodeFor name in
  (kc, AKeycodeFor name :: if kc =? 0 then [ALog unknown_keysym] else []).

(** The pattern [if kc := keycodeOrLog(...); kc != 0 { ... }]. *)
Definition with_keycode (name : string) (body : Z → list action) : list action :=
  let '(kc, acts) := keycodeOrLog name in
  acts ++ if negb (kc =? 0) then body kc else [].

(** The switch on the first field. *)
Definition dispatch_parts (parts : list string) : list action :=
  match parts with
  | [] => []
  | op :: args =>
    if bool_decide (op = "keydown") then
      match args with
      | [] => []
      | name :: _ => with_keycode name (λ kc, [ASendKey kc true])
      end
    else if bool_decide (op = "keyup") then
      match args with
      | [] => []
      | name :: _ => with_keycode name (λ kc, [ASendKey kc false])
      end
    else if bool_decide (op = "key") then
      let '(hold, ok) := ParseKeyHold parts in
      if negb ok then [ALog key_usage] else
      with_keycode (nth 1 parts "") (λ kc, [ASendKey kc true; ASleep hold; ASendKey kc false])
    else if bool_decide (op = "mousemove") then
      match args with
      | px :: py :: _ => [AMoveMouse (fst (strconv.Atoi px)) (fst (strconv.Atoi py))]
      | _ => []
      end
    else if bool_decide (op = "mousedown") then
      match args with
      | [] => []
      | pb :: _ => [ASendButton (to_uint (fst (strconv.Atoi pb))) true]
      end
    else if bool_decide (op = "mouseup") then
      match args with
      | [] => []
      | pb :: _ => [ASendButton (to_uint (fst (strconv.Atoi pb))) false]
      end
    else if bool_decide (op = "click") then
      match args with
      | [] => []
      | pb :: _ =>
        let b := to_uint (fst (strconv.Atoi pb)) in
        [ASendButton b true; ASendButton b false]
      end
    else if bool_decide (op = "modclick") then
      match args with
      | name :: pb :: px :: py :: ph :: _ =>
        with_keycode name (λ kc,
          match strconv.Atoi pb with
          | (_, Some _) => []
          | (b, None) =>
            match strconv.Atoi px with
            | (_, Some _) => []
            | (x, None) =>
              match strconv.Atoi py with
              | (_, Some _) => []
              | (y, None) =>
                let '(h, err) := strconv.Atoi ph in
                let holdMillis :=
                  if bool_decide (is_Some err) || (h <? minKeyHoldMillis) || (maxKeyHoldMillis <? h)
                  then modclickDefault else h in
                let hold := swrap 64 (holdMillis * Millisecond) in
                [ASendKey kc true; AMoveMouse x y; ASleep hold;
                 ASendButton (to_uint b) true; ASleep hold;
                 ASendButton (to_uint b) false; ASendKey kc false]
              end
            end
          end)
      | _ => []
      end
    else if bool_decide (op = "releaseall") then [AReleaseAll]
    else []
  end.

(** [Dispatch]; [nila] and [nillog] say whether the arguments are nil: a nil
    logger is replaced by one that does nothing. *)
Definition is_log (a : action) : bool := match a with ALog _ => true | _ => false end.

Definition Dispatch (cmd : string) (nila nillog : bool) : list action :=
  if nila then [] else
  let cmd := TrimSpace cmd in
  if bool_decide (cmd = "") then [] else
  let acts := dispatch_parts (Fields cmd) in
  if nillog then filter (λ a, is_log a = false) acts else acts.
End dispatch.

(** ** redact.go *)
Definition knownOps : list string :=
  ["keydown"; "keyup"; "key"; "mousemove"; "mousedown"; "mouseup"; "click"; "modclick";
   "releaseall"].

Definition RedactLine (cmd : string) : string :=
  match Fields (TrimSpace cmd) with
  | [] => "<empty>"
  | op :: args =>
    if negb (bool_decide (op ∈ knownOps)) then "<redacted>" else
    match args with
    | [] => op
    | _ => op +:+ " <redacted>"
    end
  end.

(** ** Splitting a line into fields *)

(** A field as a client writes it: printable ASCII, no blanks, not empty. *)
Definition token (s : string) : Prop :=
  s ≠ "" ∧ Forall (λ c, 0x21 ≤ b2z c < utf8.RuneSelf) (bytes s).

Lemma token_byte c : 0x21 ≤ b2z c < utf8.RuneSelf → IsSpace (b2z c) = false.
Proof. unfold utf8.RuneSelf. destruct c as [[] [] [] [] [] [] [] []]; vm_compute; naive_solver. Qed.

Lemma fields_token cur b l :
  Forall (λ c, 0x21 ≤ b2z c < utf8.RuneSelf) b →
  fields_from cur (map (λ c, (b2z c, [c])) b ++ l) = fields_from (reverse b ++ cur) l.
Proof.
  intros H. revert cur. induction H as [|c b Hc _ IH]; intros cur; [done|].
  cbn [map app fields_from]. rewrite token_byte by done. change (reverse [c]) with [c].
  rewrite IH. cbn [app]. by rewrite reverse_cons, <-app_assoc.
Qed.

Definition ascii_bytes (s : string) : Prop := Forall (λ c, b2z c < utf8.RuneSelf) (bytes s).

Lemma token_ascii s : token s → ascii_bytes s.
Proof. intros [_ H]. eapply Forall_impl; [|exact H]. intros c [_ ?]. done. Qed.

Lemma Join_ascii ws : Forall token ws → ascii_bytes (Join ws " ").
Proof.
  unfold ascii_bytes. induction 1 as [|w ws Hw H IH]; [constructor|].
  destruct ws; [by apply token_ascii|]. cbn [Join]. rewrite bytes_app.
  apply Forall_app_2; [by apply token_ascii|]. constructor; [done|exact IH].
Qed.

Lemma Fields_Join ws : Forall token ws → Fields (Join ws " ") = ws.
Proof.
  intros H. unfold Fields, utf8.runes. rewrite utf8.runes_from_ascii by (by apply Join_ascii).
  induction H as [|w ws [Hw Hb] H IH]; [done|].
  assert (∀ t, match reverse (bytes w) with [] => t | _ => str (reverse (reverse (bytes w))) :: t end
    = w :: t) as Hf.
  { intros t. rewrite reverse_involutive, str_bytes.
    destruct (reverse (bytes w)) eqn:E; [|done]. apply (f_equal reverse) in E.
    rewrite reverse_involutive in E. by apply bytes_nil in E. }
  destruct ws as [|v ws]; cbn [Join].
  - rewrite <-(app_nil_r (map _ _)), fields_token by done. rewrite app_nil_r. apply Hf.
  - rewrite bytes_app, map_app, fields_token by done. rewrite app_nil_r.
    change (bytes (String " " ?t)) with (" "%char :: bytes t). cbn [map fields_from].
    change (IsSpace (b2z " ")) with true. cbn [Join] in *. rewrite IH. apply Hf.
Qed.

Lemma Join_ends ws :
  ws ≠ [] → Forall token ws →
  ∃ c l k d, bytes (Join ws " ") = c :: l ∧ bytes (Join ws " ") = k ++ [d] ∧
    0x21 ≤ b2z c < utf8.RuneSelf ∧ 0x21 ≤ b2z d < utf8.RuneSelf.
Proof.
  intros Hn H. induction H as [|w ws [Hw Hb] H IH]; [done|].
  destruct (bytes w) as [|c l] eqn:E; [by apply bytes_nil in E|].
  destruct (exists_last (l := c :: l)) as (k & d & E'); [done|].
  pose proof Hb as [Hc _]%Forall_cons_1. rewrite E' in Hb.
  apply Forall_app in Hb as [_ [Hd _]%Forall_cons_1].
  destruct ws as [|v ws]; cbn [Join].
  - exists c, l, k, d. split_and!; try done; lia || congruence.
  - destruct IH as (c' & l' & k' & d' & E3 & E4 & _ & Hd'); [done|].
    rewrite bytes_app, E. change (bytes (String " " ?t)) with (" "%char :: bytes t).
    cbn [Join] in E4. rewrite E4. eexists c, _, ((c :: l) ++ " "%char :: k'), d'.
    split_and!; [done|by rewrite <-app_assoc|lia..].
Qed.

Lemma TrimSpace_Join ws : Forall token ws → TrimSpace (Join ws " ") = Join ws " ".
Proof.
  intros H. destruct ws as [|w ws]; [done|].
  destruct (Join_ends (w :: ws)) as (c & l & k & d & E1 & E2 & Hc & Hd); [done..|].
  apply (TrimSpace_id _ c l k d); try done; try lia; by apply token_byte.
Qed.

(** A line made of fields is dispatched on these fields. *)
Lemma Dispatch_Join kcf ws :
  ws ≠ [] → Forall token ws → Dispatch kcf (Join ws " ") false false = dispatch_parts kcf ws.
Proof.
  intros Hn H. unfold Dispatch. rewrite TrimSpace_Join, Fields_Join by done.
  case_bool_decide as E; [|done].
  destruct (Join_ends ws) as (c & l & _ & _ & E' & _); [done..|]. by rewrite E in E'.
Qed.

(** ** The commands of the protocol *)
Inductive v2cmd :=
  | Keydown (name : string) | Keyup (name : string) | KeyTap (name : string) (ms : Z)
  | Mousemove (x y : Z) | Mousedown (b : Z) | Mouseup (b : Z) | Click (b : Z)
  | Modclick (name : string) (b x y ms : Z) | Releaseall.

Definition words (c : v2cmd) : list string :=
  match c with
  | Keydown name => ["keydown"; name]
  | Keyup name => ["keyup"; name]
  | KeyTap name ms => ["key"; name; strconv.Itoa ms]
  | Mousemove x y => ["mousemove"; strconv.Itoa x; strconv.Itoa y]
  | Mousedown b => ["mousedown"; strconv.Itoa b]
  | Mouseup b => ["mouseup"; strconv.Itoa b]
  | Click b => ["click"; strconv.Itoa b]
  | Modclick name b x y ms =>
    ["modclick"; name; strconv.Itoa b; strconv.Itoa x; strconv.Itoa y; strconv.Itoa ms]
  | Releaseall => ["releaseall"]
  end.

Definition line_of (c : v2cmd) : string := Join (words c) " ".

(** A command with the values the protocol allows. *)
Definition valid_cmd (c : v2cmd) : Prop :=
  match c with
  | Keydown name | Keyup name => token name
  | KeyTap name ms => token name ∧ minKeyHoldMillis ≤ ms ≤ maxKeyHoldMillis
  | Mousemove x y => is_sint 64 x ∧ is_sint 64 y
  | Mousedown b | Mouseup b | Click b => 0 ≤ b ≤ MaxInt
  | Modclick name b x y ms =>
    token name ∧ 0 ≤ b ≤ MaxInt ∧ is_sint 64 x ∧ is_sint 64 y ∧
    minKeyHoldMillis ≤ ms ≤ maxKeyHoldMillis
  | Releaseall => True
  end.

#[global] Instance token_dec s : Decision (token s).
Proof. unfold token. apply _. Defined.
#[global] Instance valid_cmd_dec c : Decision (valid_cmd c).
Proof. destruct c; cbn [valid_cmd]; apply _. Defined.

(** What a command is to do. *)
Definition keyed (kcf : string → Z) (name : string) (body : Z → list action) : list action :=
  AKeycodeFor name ::
  if decide (kcf name = 0) then [ALog unknown_keysym] else body (kcf name).

Definition performs (kcf : string → Z) (c : v2cmd) : list action :=
  match c with
  | Keydown name => keyed kcf name (λ kc, [ASendKey kc true])
  | Keyup name => keyed kcf name (λ kc, [ASendKey kc false])
  | KeyTap name ms =>
    keyed kcf name (λ kc, [ASendKey kc true; ASleep (ms * Millisecond); ASendKey kc false])
  | Mousemove x y => [AMoveMouse x y]
  | Mousedown b => [ASendButton b true]
  | Mouseup b => [ASendButton b false]
  | Click b => [ASendButton b true; ASendButton b false]
  | Modclick name b x y ms =>
    keyed kcf name (λ kc,
      [ASendKey kc true; AMoveMouse x y; ASleep (ms * Millisecond); ASendButton b true;
       ASleep (ms * Millisecond); ASendButton b false; ASendKey kc false])
  | Releaseall => [AReleaseAll]
  end.

Lemma digit_token c : is_Some (strconv.digit c) → 0x21 ≤ b2z c < utf8.RuneSelf.
Proof. intros [d [? ->]%strconv.digit_inv]. unfold utf8.RuneSelf. lia. Qed.

Lemma digits_token n :
  0 ≤ n → Forall (λ c, 0x21 ≤ b2z c < utf8.RuneSelf) (strconv.digits n).
Proof.
  intros Hn. eapply Forall_impl; [|by apply strconv.digits_forall]. intros c. apply digit_token.
Qed.

Lemma Itoa_token z : token (strconv.Itoa z).
Proof.
  unfold token, strconv.Itoa. case_match eqn:E; bools.
  - split; [done|]. change (bytes (String "-" ?t)) with ("-"%char :: bytes t). rewrite bytes_str.
    constructor; [done|apply digits_token; lia].
  - rewrite bytes_str. split; [|apply digits_token; lia].
    destruct (strconv.digits_cons z) as (c & l & ->). done.
Qed.

Lemma words_token c : valid_cmd c → Forall token (words c).
Proof.
  assert (∀ s, s ≠ "" → forallb (λ c, (0x21 <=? b2z c) && (b2z c <? utf8.RuneSelf)) (bytes s) = true →
    token s) as Hlit.
  { intros s Hs H. split; [done|]. apply Stdlib.Lists.List.Forall_forall. intros d Hd.
    rewrite forallb_forall in H. apply H in Hd. bools. lia. }
  destruct c; cbn [words valid_cmd]; intros H;
    repeat match goal with |- Forall token _ => constructor end;
    first [apply Itoa_token|by apply Hlit|naive_solver].
Qed.

Lemma Atoi_Itoa z : is_sint 64 z → strconv.Atoi (strconv.Itoa z) = (z, None).
Proof. apply strconv.ParseInt_Itoa. Qed.

Lemma to_uint_small b : 0 ≤ b ≤ MaxInt → to_uint b = b.
Proof. intros H. apply uwrap_small. unfold is_uint. assert (MaxInt = 2 ^ 63 - 1) by done. lia. Qed.

Lemma sint_button b : 0 ≤ b ≤ MaxInt → is_sint 64 b.
Proof. intros H. unfold is_sint. assert (MaxInt = 2 ^ 63 - 1) by done. lia. Qed.

Lemma hold_range ms :
  minKeyHoldMillis ≤ ms ≤ maxKeyHoldMillis →
  is_sint 64 ms ∧ swrap 64 (ms * Millisecond) = ms * Millisecond ∧
  (ms <? minKeyHoldMillis) = false ∧ (maxKeyHoldMillis <? ms) = false.
Proof.
  unfold minKeyHoldMillis, maxKeyHoldMillis, Millisecond. intros H.
  split_and!; [unfold is_sint; lia| |apply Z.ltb_ge; lia..].
  apply swrap_small; [lia|]. unfold is_sint. lia.
Qed.

Lemma ParseKeyHold_Itoa name ms :
  minKeyHoldMillis ≤ ms ≤ maxKeyHoldMillis →
  ParseKeyHold ["key"; name; strconv.Itoa ms] = (ms * Millisecond, true).
Proof.
  intros H. destruct (hold_range ms H) as (Hs & Hw & H1 & H2). unfold ParseKeyHold.
  rewrite Atoi_Itoa, H1, H2, Hw, (bool_decide_eq_true_2 (strconv.Itoa ms = _)) by done. done.
Qed.

Lemma with_keycode_keyed kcf name body : with_keycode kcf name body = keyed kcf name body.
Proof.
  unfold with_keycode, keycodeOrLog, keyed. case_decide as E.
  - by rewrite E.
  - apply Z.eqb_neq in E. by rewrite E.
Qed.

(** Decide the comparisons of two literals. *)
Ltac literals :=
  repeat match goal with
  | |- context [bool_decide (@eq string ?a ?b)] =>
    first [change (bool_decide (@eq string a b)) with true
          |change (bool_decide (@eq string a b)) with false]
  end.

Lemma dispatch_words kcf c : valid_cmd c → dispatch_parts kcf (words c) = performs kcf c.
Proof.
  destruct c; cbn [valid_cmd words performs]; intros H;
    unfold dispatch_parts; literals; cbv iota; rewrite <-?with_keycode_keyed; try done.
  - destruct H as [_ H]. rewrite ParseKeyHold_Itoa by done. done.
  - destruct H as [Hx Hy]. rewrite !Atoi_Itoa by done. done.
  - rewrite Atoi_Itoa by (by apply sint_button). cbn [fst]. by rewrite to_uint_small.
  - rewrite Atoi_Itoa by (by apply sint_button). cbn [fst]. by rewrite to_uint_small.
  - rewrite Atoi_Itoa by (by apply sint_button). cbn [fst]. by rewrite to_uint_small.
  - destruct H as (_ & Hb & Hx & Hy & Hm). destruct (hold_range ms Hm) as (Hs & Hw & H1 & H2).
    rewrite !Atoi_Itoa by (done || by apply sint_button).
    cbv beta iota zeta. rewrite H1, H2, (bool_decide_eq_false_2 (is_Some None)) by apply is_Some_None.
    cbn [orb]. rewrite Hw, to_uint_small by done. done.
Qed.

(** ** What a line can do at all *)

(** The keys ([inl]) and buttons ([inr]) that are down. *)
Definition press_step (down : gset (Z + Z)) (a : action) : gset (Z + Z) :=
  match a with
  | ASendKey kc true => {[inl kc]} ∪ down
  | ASendKey kc false => down ∖ {[inl kc]}
  | ASendButton b true => {[inr b]} ∪ down
  | ASendButton b false => down ∖ {[inr b]}
  | _ => down
  end.

(** The time a line sleeps. *)
Definition slept (acts : list action) : Z :=
  foldr (λ a t, match a with ASleep d => d + t | _ => t end) 0 acts.

Lemma ParseKeyHold_inv parts d :
  ParseKeyHold parts = (d, true) →
  ∃ name ms, parts = ["key"; name; strconv.Itoa ms] ∧
    minKeyHoldMillis ≤ ms ≤ maxKeyHoldMillis ∧ d = ms * Millisecond.
Proof.
  destruct parts as [|p0 [|name [|p2 [|]]]]; cbn [ParseKeyHold]; try done.
  case_bool_decide as E0; cbn [negb]; [subst|done].
  destruct (strconv.Atoi p2) as [ms e]. case_match eqn:E; [done|].
  intros; simplify_eq. bools. subst. exists name, ms.
  assert (minKeyHoldMillis ≤ ms ≤ maxKeyHoldMillis) as Hm by lia.
  destruct (hold_range ms Hm) as (_ & Hw & _). by rewrite Hw.
Qed.

Lemma ParseKeyHold_false parts d : ParseKeyHold parts = (d, false) → d = 0.
Proof. unfold ParseKeyHold. intros. repeat case_match; naive_solver. Qed.

(** The whole list of what a line of fields can do. *)
Definition bounded_hold (d : Z) : Prop :=
  minKeyHoldMillis * Millisecond ≤ d ≤ maxKeyHoldMillis * Millisecond.

Inductive shape : string → list action → Prop :=
  | shape_nothing op : shape op []
  | shape_usage op : shape op [ALog key_usage]
  | shape_lookup op name : shape op [AKeycodeFor name]
  | shape_unknown op name : shape op [AKeycodeFor name; ALog unknown_keysym]
  | shape_down name kc : shape "keydown" [AKeycodeFor name; ASendKey kc true]
  | shape_up op name kc : shape op [AKeycodeFor name; ASendKey kc false]
  | shape_tap op name kc d :
    bounded_hold d →
    shape op [AKeycodeFor name; ASendKey kc true; ASleep d; ASendKey kc false]
  | shape_move op x y : shape op [AMoveMouse x y]
  | shape_press b : shape "mousedown" [ASendButton b true]
  | shape_release op b : shape op [ASendButton b false]
  | shape_click op b : shape op [ASendButton b true; ASendButton b false]
  | shape_modclick op name kc b x y d :
    bounded_hold d →
    shape op [AKeycodeFor name; ASendKey kc true; AMoveMouse x y; ASleep d;
              ASendButton b true; ASleep d; ASendButton b false; ASendKey kc false]
  | shape_all op : shape op [AReleaseAll].

Lemma modclick_hold h err :
  bounded_hold (swrap 64 ((if bool_decide (is_Some (err : option error)) || (h <? minKeyHoldMillis) ||
    (maxKeyHoldMillis <? h) then modclickDefault else h) * Millisecond)).
Proof.
  unfold bounded_hold. case_match eqn:E.
  - vm_compute. split; congruence.
  - bools. destruct (hold_range h) as (_ & -> & _); [lia|]. unfold Millisecond. lia.
Qed.

Lemma keyed_shape op kcf name body :
  shape op [AKeycodeFor name; ALog unknown_keysym] →
  (∀ kc, shape op (AKeycodeFor name :: body kc)) →
  shape op (with_keycode kcf name body).
Proof. intros H1 H2. rewrite with_keycode_keyed. unfold keyed. by case_decide. Qed.

Lemma dispatch_shape kcf parts :
  match parts with
  | [] => dispatch_parts kcf parts = []
  | op :: _ => shape op (dispatch_parts kcf parts) ∧
               (op ∉ knownOps → dispatch_parts kcf parts = [])
  end.
Proof.
  destruct parts as [|op args]; [done|]. split.
  - unfold dispatch_parts.
    repeat (case_bool_decide; [subst|]); try (repeat case_match; constructor; fail).
    + destruct args; [constructor|]. apply keyed_shape; [|intros]; constructor.
    + destruct args; [constructor|]. apply keyed_shape; [|intros]; constructor.
    + destruct (ParseKeyHold ("key" :: args)) as [hold []] eqn:E; cbn [negb]; [|constructor].
      apply ParseKeyHold_inv in E as (name & ms & E & Hm & ->).
      apply keyed_shape; [|intros]; constructor. unfold bounded_hold, Millisecond. lia.
    + destruct args as [|name [|pb [|px [|py [|ph args]]]]]; try constructor.
      apply keyed_shape; [constructor|intros kc].
      destruct (strconv.Atoi pb) as [b []]; [constructor|].
      destruct (strconv.Atoi px) as [x []]; [constructor|].
      destruct (strconv.Atoi py) as [y []]; [constructor|].
      destruct (strconv.Atoi ph) as [h err]. constructor. apply modclick_hold.
  - intros Hop. unfold dispatch_parts.
    repeat (rewrite bool_decide_eq_false_2 by (intros ->; apply Hop; set_solver)). done.
Qed.

(** The operation a line names, if it names one. *)
Definition op_of (cmd : string) : option string := head (Fields (TrimSpace cmd)).

Lemma press_no_log h acts :
  foldl press_step h (filter (λ a, is_log a = false) acts) = foldl press_step h acts.
Proof.
  revert h. induction acts as [|a acts IH]; intros h; [done|]. rewrite filter_cons.
  case_decide; cbn [foldl]; [done|]. by destruct a.
Qed.

Lemma slept_no_log acts : slept (filter (λ a, is_log a = false) acts) = slept acts.
Proof.
  unfold slept. induction acts as [|a acts IH]; [done|]. rewrite filter_cons.
  case_decide; cbn [foldr]; [by rewrite IH|]. by destruct a.
Qed.

(** Every dispatch is nothing at all or one of the shapes, perhaps without its
    log messages. *)
Lemma Dispatch_cases kcf cmd nila nillog :
  Dispatch kcf cmd nila nillog = [] ∨
  ∃ op acts, op_of cmd = Some op ∧ shape op acts ∧ (op ∉ knownOps → acts = []) ∧
    Dispatch kcf cmd nila nillog =
      if nillog then filter (λ a, is_log a = false) acts else acts.
Proof.
  unfold Dispatch, op_of. destruct nila; [by left|]. case_bool_decide; [by left|].
  pose proof (dispatch_shape kcf (Fields (TrimSpace cmd))) as Hd.
  destruct (Fields (TrimSpace cmd)) as [|op args].
  - left. rewrite Hd. by destruct nillog.
  - right. exists op, (dispatch_parts kcf (op :: args)). naive_solver.
Qed.

Lemma Dispatch_press kcf cmd nila nillog h :
  foldl press_step h (Dispatch kcf cmd nila nillog) = h ∨
  ∃ op acts, op_of cmd = Some op ∧ shape op acts ∧
    foldl press_step h (Dispatch kcf cmd nila nillog) = foldl press_step h acts.
Proof.
  destruct (Dispatch_cases kcf cmd nila nillog) as [->|(op & acts & Ho & Hs & _ & ->)]; [by left|].
  right. exists op, acts. split_and!; try done. destruct nillog; [apply press_no_log|done].
Qed.

(** ** The theorems *)

(** C32: every command of the protocol, written as the protocol reference writes
    it, is read back and carried out: the actuator gets exactly the calls of
    that command, in order, with the sleeps between them, and an unknown key
    name leads to a lookup and a log message only. *)
Theorem v2_command_roundtrip kcf c :
  valid_cmd c → Dispatch kcf (line_of c) false false = performs kcf c.
Proof.
  intros H. unfold line_of. rewrite Dispatch_Join; [by apply dispatch_words|by destruct c|].
  by apply words_token.
Qed.

Lemma v2_command_roundtrip_witness :
  Dispatch (λ _, 50) (line_of (Modclick "Shift_L" 3 (-5) 640 45)) false false =
  performs (λ _, 50) (Modclick "Shift_L" 3 (-5) 640 45).
Proof.
  apply v2_command_roundtrip. apply (bool_decide_unpack _). vm_compute. exact I.
Defined.

(** The hold of a key command is accepted exactly in canonical decimal from
    20 to 500 milliseconds, on a command of exactly three fields; anything
    else (a sign, a leading zero, an extra field, a value out of range) yields
    no duration. *)
Theorem key_hold_exact parts d :
  (ParseKeyHold parts = (d, true) ↔
   ∃ name ms, parts = ["key"; name; strconv.Itoa ms] ∧
     minKeyHoldMillis ≤ ms ≤ maxKeyHoldMillis ∧ d = ms * Millisecond) ∧
  (ParseKeyHold parts = (d, false) → d = 0).
Proof.
  split; [|apply ParseKeyHold_false]. split; [apply ParseKeyHold_inv|].
  intros (name & ms & -> & Hm & ->). by apply ParseKeyHold_Itoa.
Qed.

Lemma key_hold_exact_witness : ParseKeyHold ["key"; "F1"; "020"] = (0, false) → 0 = 0.
Proof. apply (proj2 (key_hold_exact ["key"; "F1"; "020"] 0)). Defined.

(** C33: only keydown and mousedown leave anything pressed: after any other line,
    whatever its text and whatever keycodes the actuator answers, nothing is
    down that was not down before.  In particular the composite commands key,
    click and modclick release all they press, on every path. *)
Theorem v2_only_downs_hold kcf cmd nila nillog down :
  op_of cmd ≠ Some "keydown" → op_of cmd ≠ Some "mousedown" →
  foldl press_step down (Dispatch kcf cmd nila nillog) ⊆ down.
Proof.
  intros H1 H2. destruct (Dispatch_press kcf cmd nila nillog down)
    as [->|(op & acts & Ho & Hs & ->)]; [done|].
  destruct Hs; cbn [foldl press_step]; try done; set_solver.
Qed.

Lemma v2_only_downs_hold_witness :
  foldl press_step {[inr 1]} (Dispatch (λ _, 50) "click 3" false false) ⊆ {[inr 1]}.
Proof. apply v2_only_downs_hold; vm_compute; congruence. Defined.

(** A line holds the display for at most one second: it sleeps at most
    twice, each time for 20 to 500 milliseconds, whatever number it carries. *)
Theorem v2_sleep_bounded kcf cmd nila nillog :
  0 ≤ slept (Dispatch kcf cmd nila nillog) ≤ 2 * (maxKeyHoldMillis * Millisecond) ∧
  (∀ d, ASleep d ∈ Dispatch kcf cmd nila nillog → bounded_hold d).
Proof.
  destruct (Dispatch_cases kcf cmd nila nillog) as [->|(op & acts & _ & Hs & _ & ->)].
  { split; [vm_compute; split; congruence|]. intros d H. by apply elem_of_nil in H. }
  assert (0 ≤ slept acts ≤ 2 * (maxKeyHoldMillis * Millisecond) ∧
          (∀ d, ASleep d ∈ acts → bounded_hold d)) as [Ht Hd].
  { destruct Hs; unfold slept; cbn [foldr];
      (split; [unfold bounded_hold, minKeyHoldMillis, maxKeyHoldMillis, Millisecond in *; lia|]);
      intros d' Hin; repeat (apply elem_of_cons in Hin as [E|Hin]; [simplify_eq; done|]);
      by apply elem_of_nil in Hin. }
  destruct nillog; [|done]. rewrite slept_no_log. split; [done|].
  intros d [_ H]%list_elem_of_filter. by apply Hd.
Qed.

(** An unknown operation does nothing at all: no call, no sleep, no log
    message. *)
Theorem v2_unknown_noop kcf cmd nila nillog :
  (∀ op, op_of cmd = Some op → op ∉ knownOps) → Dispatch kcf cmd nila nillog = [].
Proof.
  intros H. destruct (Dispatch_cases kcf cmd nila nillog) as [->|(op & acts & Ho & _ & Hn & ->)];
    [done|]. rewrite (Hn (H op Ho)). by destruct nillog.
Qed.

Lemma v2_unknown_noop_witness : Dispatch (λ _, 50) "type hunter2" false false = [].
Proof.
  apply v2_unknown_noop. intros op E. vm_compute in E. injection E as <-.
  apply (bool_decide_unpack _). vm_compute. exact I.
Defined.

(** C34: nothing that was typed can be read from the logs: whatever the line,
    each log message is one of two fixed texts, and the token that stands for
    the line in the log is one of twenty fixed texts. *)
Theorem v2_logs_reveal_nothing kcf cmd nila nillog :
  (∀ msg, ALog msg ∈ Dispatch kcf cmd nila nillog → msg = key_usage ∨ msg = unknown_keysym) ∧
  RedactLine cmd ∈ ["<empty>"; "<redacted>"] ++ knownOps ++ ((λ op, op +:+ " <redacted>") <$> knownOps).
Proof.
  split.
  - intros msg Hin. destruct (Dispatch_cases kcf cmd nila nillog) as [E|(op & acts & _ & Hs & _ & E)];
      rewrite E in Hin; [by apply elem_of_nil in Hin|].
    assert (ALog msg ∈ acts) as Ha.
    { destruct nillog; [|done]. by apply list_elem_of_filter in Hin as [_ ?]. }
    destruct Hs; repeat (apply elem_of_cons in Ha as [Ea|Ha]; [simplify_eq; auto|]);
      by apply elem_of_nil in Ha.
  - unfold RedactLine. destruct (Fields (TrimSpace cmd)) as [|op args]; [set_solver|].
    case_bool_decide as Hop; cbn [negb]; [|set_solver].
    destruct args; rewrite !elem_of_app; [by right; left|].
    right; right. apply list_elem_of_fmap. by exists op.
Qed.
