(* ===== verification/Xlib.v ===== *)
(** * The interface of Xlib and the state of the process that uses it

    Xlib and the X server are not part of the program: they are the type class
    [Xlib], whose methods are the library calls the program makes, over the
    type [D] of everything the server may remember.  A request without an
    answer is an [xreq] and is also recorded in the order it was submitted, so
    that theorems can say what the server was asked to do. *)

From S2P Require Import Prelude.
Local Open Scope Z_scope.

(** The data of a 32-bit client message ([XClientMessageEvent]). *)
Record client_message := {
  cm_window : Z;
  cm_message_type : Z;
  cm_format : Z;
  cm_l : list Z;
}.

#[global] Instance client_message_eq_dec : EqDecision client_message.
Proof. solve_decision. Defined.

Inductive xreq :=
  | XTestFakeKeyEvent (keycode : Z) (is_press : bool)
  | XTestFakeButtonEvent (button : Z) (is_press : bool)
  | XTestFakeMotionEvent (x y : Z)
  | XWarpPointer (x y : Z)
  | XSendEvent (mask : Z) (ev : client_message)   (* to the root window *)
  | XSetInputFocus (w revert_to : Z)
  | XAutoRepeatOff
  | XSync
  | XCloseDisplay.

#[global] Instance xreq_eq_dec : EqDecision xreq.
Proof. solve_decision. Defined.

(** What [XGetWindowProperty] gives back: its status, the actual type and
    format, the number of items and the items ([None]: the data pointer is
    NULL).  Items of format 32 are longs, items of format 8 bytes. *)
Record property := {
  p_status : Z;
  p_type : Z;
  p_format : Z;
  p_nitems : Z;
  p_data : option (list Z);
}.

Definition Success : Z := 0.
Definition NoSymbol : Z := 0.
Definition CurrentTime : Z := 0.
Definition XA_ATOM : Z := 4.
Definition XA_CARDINAL : Z := 6.
Definition XA_WINDOW : Z := 33.
Definition XK_Num_Lock : Z := 0xff7f.
Definition XK_Scroll_Lock : Z := 0xff14.
Definition XK_Caps_Lock : Z := 0xffe5.

Class Xlib (D : Type) := {
  submit : xreq → D → bool * D;          (* the status of the request *)
  XInitThreads : D → bool * D;
  XOpenDisplay : D → bool * D;           (* not NULL *)
  XQueryExtension : string → D → bool * D;
  DisplayWidth : D → Z;
  DisplayHeight : D → Z;
  DefaultRootWindow : D → Z;
  XQueryKeymap : D → list Z * D;         (* 32 bytes *)
  XStringToKeysym : string → Z;
  XKeysymToKeycode : Z → D → Z;
  XInternAtom : string → D → Z * D;
  XGetWindowProperty : Z → Z → Z → Z → D → property * D;  (* window, property, length, type *)
  XGetGeometry : Z → D → option (Z * Z) * D;              (* width, height *)
  XTranslateCoordinates : Z → D → (Z * Z) * D;            (* of the origin, to the root *)
  XGetClassHint : Z → D → option (option string) * D;     (* res_class *)
  XFetchName : Z → D → option string * D;
  XQueryPointer : D → option (Z * Z) * D;
}.

(** The static variables of the program (x11.go, lines 19, 35 and 144-146),
    with the server behind the display and the requests submitted so far. *)
Record xproc (D : Type) := {
  dpy : bool;
  screen_w : Z;
  screen_h : Z;
  a_net_supported : Z;
  a_net_client_list : Z;
  a_net_active : Z;
  a_net_wm_state : Z;
  a_net_wm_state_fs : Z;
  a_net_wm_pid : Z;
  a_net_wm_name : Z;
  a_utf8 : Z;
  dest_atoms_ready : bool;
  server : D;
  requests : list xreq;
}.
Arguments dpy {D} _.
Arguments screen_w {D} _.
Arguments screen_h {D} _.
Arguments a_net_supported {D} _.
Arguments a_net_client_list {D} _.
Arguments a_net_active {D} _.
Arguments a_net_wm_state {D} _.
Arguments a_net_wm_state_fs {D} _.
Arguments a_net_wm_pid {D} _.
Arguments a_net_wm_name {D} _.
Arguments a_utf8 {D} _.
Arguments dest_atoms_ready {D} _.
Arguments server {D} _.
Arguments requests {D} _.

(** The state when the process starts. *)
Definition xproc0 {D} (d : D) : xproc D :=
  {| dpy := false; screen_w := 1280; screen_h := 720;
     a_net_supported := 0; a_net_client_list := 0; a_net_active := 0; a_net_wm_state := 0;
     a_net_wm_state_fs := 0; a_net_wm_pid := 0; a_net_wm_name := 0; a_utf8 := 0;
     dest_atoms_ready := false; server := d; requests := [] |}.

(** ** C code as state transformers *)
Definition XM (D A : Type) : Type := xproc D → A * xproc D.

#[global] Instance X_ret D : MRet (XM D) := λ A a s, (a, s).
#[global] Instance X_bind D : MBind (XM D) := λ A B f m s, let '(a, s') := m s in f a s'.

Definition gets {D A} (f : xproc D → A) : XM D A := λ s, (f s, s).

Definition with_server {D} (d : D) (s : xproc D) : xproc D :=
  {| dpy := dpy s; screen_w := screen_w s; screen_h := screen_h s;
     a_net_supported := a_net_supported s; a_net_client_list := a_net_client_list s;
     a_net_active := a_net_active s; a_net_wm_state := a_net_wm_state s;
     a_net_wm_state_fs := a_net_wm_state_fs s; a_net_wm_pid := a_net_wm_pid s;
     a_net_wm_name := a_net_wm_name s; a_utf8 := a_utf8 s;
     dest_atoms_ready := dest_atoms_ready s; server := d; requests := requests s |}.

(** A call that has an answer. *)
Definition query {D A} (q : D → A * D) : XM D A := λ s,
  let '(a, d) := q (server s) in (a, with_server d s).

(** A request: its status, recorded. *)
Definition request {D} `{Xlib D} (r : xreq) : XM D bool := λ s,
  let '(ok, d) := submit r (server s) in
  (ok, {| dpy := dpy s; screen_w := screen_w s; screen_h := screen_h s;
     a_net_supported := a_net_supported s; a_net_client_list := a_net_client_list s;
     a_net_active := a_net_active s; a_net_wm_state := a_net_wm_state s;
     a_net_wm_state_fs := a_net_wm_state_fs s; a_net_wm_pid := a_net_wm_pid s;
     a_net_wm_name := a_net_wm_name s; a_utf8 := a_utf8 s;
     dest_atoms_ready := dest_atoms_ready s; server := d; requests := requests s ++ [r] |}).

(** Assigning the display, the screen size and the atoms. *)
Definition set_dpy {D} (b : bool) : XM D unit := λ s,
  (tt, {| dpy := b; screen_w := screen_w s; screen_h := screen_h s;
     a_net_supported := a_net_supported s; a_net_client_list := a_net_client_list s;
     a_net_active := a_net_active s; a_net_wm_state := a_net_wm_state s;
     a_net_wm_state_fs := a_net_wm_state_fs s; a_net_wm_pid := a_net_wm_pid s;
     a_net_wm_name := a_net_wm_name s; a_utf8 := a_utf8 s;
     dest_atoms_ready := dest_atoms_ready s; server := server s; requests := requests s |}).

Definition set_screen {D} (w h : Z) : XM D unit := λ s,
  (tt, {| dpy := dpy s; screen_w := w; screen_h := h;
     a_net_supported := a_net_supported s; a_net_client_list := a_net_client_list s;
     a_net_active := a_net_active s; a_net_wm_state := a_net_wm_state s;
     a_net_wm_state_fs := a_net_wm_state_fs s; a_net_wm_pid := a_net_wm_pid s;
     a_net_wm_name := a_net_wm_name s; a_utf8 := a_utf8 s;
     dest_atoms_ready := dest_atoms_ready s; server := server s; requests := requests s |}).

Definition set_atoms {D} (sup list act st fs pid name utf : Z) : XM D unit := λ s,
  (tt, {| dpy := dpy s; screen_w := screen_w s; screen_h := screen_h s;
     a_net_supported := sup; a_net_client_list := list; a_net_active := act;
     a_net_wm_state := st; a_net_wm_state_fs := fs; a_net_wm_pid := pid;
     a_net_wm_name := name; a_utf8 := utf;
     dest_atoms_ready := true; server := server s; requests := requests s |}).

Definition unready {D} : XM D unit := λ s,
  (tt, {| dpy := dpy s; screen_w := screen_w s; screen_h := screen_h s;
     a_net_supported := a_net_supported s; a_net_client_list := a_net_client_list s;
     a_net_active := a_net_active s; a_net_wm_state := a_net_wm_state s;
     a_net_wm_state_fs := a_net_wm_state_fs s; a_net_wm_pid := a_net_wm_pid s;
     a_net_wm_name := a_net_wm_name s; a_utf8 := a_utf8 s;
     dest_atoms_ready := false; server := server s; requests := requests s |}).

(** ** C strings *)

(** A Go string as C sees it ([C.CString]), and back ([C.GoString]): up to the
    first NUL. *)
Fixpoint to_nul (l : list ascii) : list ascii :=
  match l with
  | [] => []
  | c :: l' => if bool_decide (c = "000"%char) then [] else c :: to_nul l'
  end.
Definition cstring (s : string) : string := str (to_nul (bytes s)).
