(* ===== verification/X11.v ===== *)
(** * The X11 layer (cmd/xtest-server/x11.go)

    The C functions of the cgo preamble and the Go functions that call them.  A
    C function is a state transformer over the static variables ([XM D]); a NULL
    display is [dpy = false].  Waiting ([usleep]) and the messages on standard
    error are left out. *)

From S2P Require Import Prelude GoStrings VNext Xlib.
Local Open Scope Z_scope.

(** ** Numbers in C strings *)
Definition hex_digit (c : ascii) : option Z :=
  let z := b2z c in
  if (48 <=? z) && (z <=? 57) then Some (z - 48)
  else if (97 <=? z) && (z <=? 102) then Some (z - 87)
  else if (65 <=? z) && (z <=? 70) then Some (z - 55)
  else None.

Fixpoint hex_digits (n : Z) (l : list ascii) : Z :=
  match l with
  | [] => n
  | c :: l' => match hex_digit c with None => n | Some d => hex_digits (16 * n + d) l' end
  end.

(** C's [isspace]. *)
Definition c_space (c : ascii) : bool :=
  (b2z c =? 32) || ((9 <=? b2z c) && (b2z c <=? 13)).

(** The conversion [%lx]: white space, an optional sign, an optional second
    prefix and the digits; no digit at all is a failed conversion. *)
Definition scan_lx (l : list ascii) : option Z :=
  let l := drop_while c_space l in
  let '(neg, l) := match l with
                   | "-"%char :: l' => (true, l')
                   | "+"%char :: l' => (false, l')
                   | _ => (false, l)
                   end in
  let value := match l with
               | "0"%char :: x :: l' =>
                 if bool_decide (x = "x"%char ∨ x = "X"%char) then Some (hex_digits 0 l')
                 else Some (hex_digits 0 l)
               | c :: _ => if bool_decide (is_Some (hex_digit c)) then Some (hex_digits 0 l) else None
               | [] => None
               end in
  match value with
  | None => None
  | Some v =>
    if MaxUint64 <? v then Some MaxUint64
    else Some (if neg then uwrap 64 (- v) else v)
  end.

(** [sscanf(s, "0x%lx", &hex) == 1] *)
Definition sscanf_0x (s : string) : option Z :=
  match bytes s with
  | "0"%char :: "x"%char :: l => scan_lx l
  | _ => None
  end.

(** ** The handlers of X errors

    Neither touches the state of the program: after a protocol error it goes on,
    after the loss of the connection it ends with status 1.  [text] is what
    [XGetErrorText] writes into the buffer. *)
Definition x_io_error_handler : string * Z :=
  ("xtest-server: fatal X I/O error" +:+ String "010" "", 1).

Definition x_error_handler (text : Z → string) (error_code request_code minor_code : Z) : string * Z :=
  ("xtest-server: X error: " +:+ text error_code +:+ " (request " +:+ strconv.Itoa request_code +:+
   "." +:+ strconv.Itoa minor_code +:+ ")" +:+ String "010" "", 0).

(** ** The credentials of the peer of a socket

    [getsockopt] is the answer of the kernel to [SO_PEERCRED] on a descriptor,
    [None] if the call fails; the result is the status and the two
    identifiers. *)
Definition peer_ucred (getsockopt : Z → option (Z * Z)) (fd : Z) : Z * Z * Z :=
  match getsockopt fd with
  | None => (-1, 0, 0)
  | Some (uid, gid) => (0, uid, gid)
  end.

Definition peerUID (getsockopt : Z → option (Z * Z)) (fd : Z) : Z * Z * bool :=
  let '(rc, u, g) := peer_ucred getsockopt (to_cint fd) in
  if negb (rc =? 0) then (0, 0, false) else (u, g, true).

Section x11.
Context {D : Type} `{Xlib D}.

(** [if (!dpy) return err;] *)
Definition unless_dpy {A} (err : A) (m : XM D A) : XM D A :=
  b ← gets dpy;
  if (b : bool) then m else mret err.

Definition sync : XM D unit := _ ← request XSync; mret tt.

Definition display_width : XM D Z := gets screen_w.
Definition display_height : XM D Z := gets screen_h.

Definition clear_modifier_lock (kc : Z) : XM D unit :=
  if kc =? 0 then mret tt else
  _ ← request (XTestFakeKeyEvent kc true);
  _ ← request (XTestFakeKeyEvent kc false);
  _ ← request (XTestFakeKeyEvent kc true);
  _ ← request (XTestFakeKeyEvent kc false);
  mret tt.

(** The loop that opens the display: [n] attempts. *)
Fixpoint open_display (n : nat) : XM D unit :=
  match n with
  | O => mret tt
  | S n' =>
    b ← gets dpy;
    if (b : bool) then mret tt else
    ok ← query XOpenDisplay;
    _ ← set_dpy ok;
    open_display n'
  end.

Definition keysym_keycode (ks : Z) : XM D Z :=
  gets (λ s, uwrap 8 (XKeysymToKeycode ks (server s))).

Definition init_display : XM D Z :=
  threads ← query XInitThreads;
  if negb threads then mret (-1) else
  _ ← open_display 15;
  b ← gets dpy;
  if negb b then mret (-1) else
  xwayland ← query (XQueryExtension "XWAYLAND");
  if (xwayland : bool) then
    _ ← request XCloseDisplay;
    _ ← set_dpy false;
    mret (-2)
  else
  w ← gets (λ s, swrap 32 (DisplayWidth (server s)));
  h ← gets (λ s, swrap 32 (DisplayHeight (server s)));
  _ ← set_screen w h;
  _ ← request XAutoRepeatOff;
  caps ← keysym_keycode XK_Caps_Lock;
  _ ← clear_modifier_lock caps;
  num ← keysym_keycode XK_Num_Lock;
  _ ← clear_modifier_lock num;
  scroll ← keysym_keycode XK_Scroll_Lock;
  _ ← clear_modifier_lock scroll;
  _ ← sync;
  mret 0.

(** [keys[kc >> 3] & (1 << (kc & 7))]; the bytes are C chars. *)
Definition key_bit (keys : list Z) (kc : Z) : bool :=
  negb (Z.land (swrap 8 (nth (Z.to_nat (Z.shiftr kc 3)) keys 0)) (Z.shiftl 1 (Z.land kc 7)) =? 0).

Fixpoint release_pressed (keys : list Z) (kcs : list Z) : XM D unit :=
  match kcs with
  | [] => mret tt
  | kc :: kcs' =>
    if key_bit keys kc then
      _ ← request (XTestFakeKeyEvent kc false);
      release_pressed keys kcs'
    else release_pressed keys kcs'
  end.

Definition release_all : XM D Z :=
  unless_dpy (-1) (
    keys ← query XQueryKeymap;
    _ ← release_pressed keys (seqZ 0 256);
    _ ← request (XTestFakeButtonEvent 1 false);
    _ ← request (XTestFakeButtonEvent 2 false);
    _ ← request (XTestFakeButtonEvent 3 false);
    _ ← sync;
    mret 0).

Definition send_key (keycode : Z) (is_press : bool) : XM D Z :=
  unless_dpy (-1) (
    _ ← request (XTestFakeKeyEvent keycode is_press);
    _ ← sync;
    mret 0).

(** The clamping that [move_mouse] and [move_mouse_fake] share, for one axis. *)
Definition clamp (v size : Z) : Z :=
  let v := if v <? 0 then 0 else v in
  if size <=? v then swrap 32 (size - 1) else v.

Definition move_mouse (x y : Z) : XM D Z :=
  unless_dpy (-1) (
    w ← gets screen_w;
    h ← gets screen_h;
    _ ← request (XWarpPointer (clamp x w) (clamp y h));
    _ ← sync;
    mret 0).

Definition move_mouse_fake (x y : Z) : XM D Z :=
  unless_dpy (-1) (
    w ← gets screen_w;
    h ← gets screen_h;
    _ ← request (XTestFakeMotionEvent (clamp x w) (clamp y h));
    _ ← sync;
    mret 0).

Definition send_button (button : Z) (is_press : bool) : XM D Z :=
  unless_dpy (-1) (
    _ ← request (XTestFakeButtonEvent button is_press);
    _ ← sync;
    mret 0).

Definition keysym_of (keysym_str : string) : Z :=
  let ks := XStringToKeysym keysym_str in
  if ks =? NoSymbol then
    match sscanf_0x keysym_str with
    | Some hex => hex
    | None => ks
    end
  else ks.

Definition keysym_to_keycode (keysym_str : string) : XM D Z :=
  unless_dpy 0 (
    let ks := keysym_of keysym_str in
    if ks =? NoSymbol then mret 0 else keysym_keycode ks).

Definition intern_dest_atoms : XM D Z :=
  unless_dpy (-1) (
    sup ← query (XInternAtom "_NET_SUPPORTED");
    list ← query (XInternAtom "_NET_CLIENT_LIST");
    act ← query (XInternAtom "_NET_ACTIVE_WINDOW");
    st ← query (XInternAtom "_NET_WM_STATE");
    fs ← query (XInternAtom "_NET_WM_STATE_FULLSCREEN");
    pid ← query (XInternAtom "_NET_WM_PID");
    name ← query (XInternAtom "_NET_WM_NAME");
    utf ← query (XInternAtom "UTF8_STRING");
    _ ← set_atoms sup list act st fs pid name utf;
    mret 0).

(** The items of a property that has the wanted type and format 32, at most
    [maxn] of them; [None] stands for the result -1. *)
Definition items32 (p : property) (want_type maxn : Z) : option (list Z) :=
  match p_data p with
  | None => None
  | Some data =>
    if negb (p_status p =? Success) then None
    else if negb (p_type p =? want_type) || negb (p_format p =? 32) then None
    else Some (take (Z.to_nat (Z.min (p_nitems p) maxn)) data)
  end.

Definition get_atom_list (w prop want_type maxn : Z) : XM D (option (list Z)) :=
  unless_dpy None (
    p ← query (XGetWindowProperty w prop maxn want_type);
    mret (items32 p want_type maxn)).

(** [if (!dpy || !dest_atoms_ready ...) return err;] *)
Definition unless_ready {A} (err : A) (m : XM D A) : XM D A :=
  unless_dpy err (
    ready ← gets dest_atoms_ready;
    if (ready : bool) then m else mret err).

Definition net_supported_has (name : string) : XM D Z :=
  unless_ready (-1) (
    want ← query (XInternAtom name);
    root ← gets (λ s, DefaultRootWindow (server s));
    sup ← gets a_net_supported;
    atoms ← get_atom_list root sup XA_ATOM 256;
    match atoms with
    | None => mret 0
    | Some l => mret (if bool_decide (want ∈ l) then 1 else 0)
    end).

(** The window identifiers are stored as [unsigned int]. *)
Definition refresh_client_list (maxn : Z) : XM D (option (list Z)) :=
  unless_ready None (
    if maxn <=? 0 then mret None else
    root ← gets (λ s, DefaultRootWindow (server s));
    prop ← gets a_net_client_list;
    p ← query (XGetWindowProperty root prop maxn XA_WINDOW);
    mret (map to_cuint <$> items32 p XA_WINDOW maxn)).

Definition window_geometry (xid : Z) : XM D (option (Z * Z * Z * Z)) :=
  unless_dpy None (
    if xid =? 0 then mret None else
    g ← query (XGetGeometry xid);
    match g with
    | None => mret None
    | Some (wr, hr) =>
      '(rx, ry) ← query (XTranslateCoordinates xid);
      mret (Some (to_cint rx, to_cint ry, to_cint wr, to_cint hr))
    end).

(** The first item of a property that holds at least one. *)
Definition first32 (p : property) (want_type : Z) : Z :=
  match p_data p with
  | None => 0
  | Some data =>
    if negb (p_status p =? Success) then 0
    else if (p_type p =? want_type) && (p_format p =? 32) && (1 <=? p_nitems p)
    then to_cuint (nth 0 data 0) else 0
  end.

Definition window_pid (xid : Z) : XM D Z :=
  unless_ready 0 (
    if xid =? 0 then mret 0 else
    prop ← gets a_net_wm_pid;
    p ← query (XGetWindowProperty xid prop 1 XA_CARDINAL);
    mret (first32 p XA_CARDINAL)).

(** What a buffer of [buflen] chars holds after [strncpy] and termination. *)
Definition strncpy (buflen : Z) (s : string) : string :=
  str (take (Z.to_nat (buflen - 1)) (bytes (cstring s))).

(** [window_class] and [window_name] give the contents of the buffer, which the
    caller passes in empty. *)
Definition window_class (xid buflen : Z) : XM D string :=
  unless_dpy "" (
    if (xid =? 0) || (buflen <? 2) then mret "" else
    hint ← query (XGetClassHint xid);
    match hint with
    | None => mret ""
    | Some res_class => mret (strncpy buflen (default "" res_class))
    end).

Definition window_name (xid buflen : Z) : XM D string :=
  unless_dpy "" (
    if (xid =? 0) || (buflen <? 2) then mret "" else
    ready ← gets dest_atoms_ready;
    name_atom ← (if (ready : bool) then gets a_net_wm_name else query (XInternAtom "_NET_WM_NAME"));
    utf8 ← (if (ready : bool) then gets a_utf8 else query (XInternAtom "UTF8_STRING"));
    p ← query (XGetWindowProperty xid name_atom 64 utf8);
    match p_data p with
    | Some data =>
      if (p_status p =? Success) && (p_type p =? utf8) && (p_format p =? 8) && (0 <? p_nitems p)
      then mret (cstring (str (map z2b (take (Z.to_nat (Z.min (p_nitems p) (buflen - 1))) data))))
      else nm ← query (XFetchName xid); mret (strncpy buflen (default "" nm))
    | None => nm ← query (XFetchName xid); mret (strncpy buflen (default "" nm))
    end).

Definition window_has_fullscreen (xid : Z) : XM D bool :=
  unless_ready false (
    if xid =? 0 then mret false else
    st ← gets a_net_wm_state;
    atoms ← get_atom_list xid st XA_ATOM 32;
    fs ← gets a_net_wm_state_fs;
    match atoms with
    | None => mret false
    | Some l => mret (bool_decide (fs ∈ l))
    end).

Definition get_active_xid : XM D Z :=
  unless_ready 0 (
    root ← gets (λ s, DefaultRootWindow (server s));
    prop ← gets a_net_active;
    p ← query (XGetWindowProperty root prop 1 XA_WINDOW);
    mret (first32 p XA_WINDOW)).

Definition send_net_active (xid : Z) : XM D Z :=
  unless_ready (-1) (
    if xid =? 0 then mret (-1) else
    a ← gets a_net_active;
    cur ← get_active_xid;
    ok ← request (XSendEvent (Z.lor SubstructureRedirectMask SubstructureNotifyMask)
      {| cm_window := xid; cm_message_type := a; cm_format := 32;
         cm_l := [2; CurrentTime; cur; 0; 0] |});
    _ ← sync;
    mret (if (ok : bool) then 0 else -1)).

Definition send_net_wm_state_fs (xid : Z) (add : bool) : XM D Z :=
  unless_ready (-1) (
    if xid =? 0 then mret (-1) else
    st ← gets a_net_wm_state;
    fs ← gets a_net_wm_state_fs;
    ok ← request (XSendEvent (Z.lor SubstructureRedirectMask SubstructureNotifyMask)
      {| cm_window := xid; cm_message_type := st; cm_format := 32;
         cm_l := [if add then 1 else 0; fs; 0; 2; 0] |});
    _ ← sync;
    mret (if (ok : bool) then 0 else -1)).

Definition set_input_focus (xid : Z) : XM D Z :=
  unless_dpy (-1) (
    if xid =? 0 then mret (-1) else
    _ ← request (XSetInputFocus xid RevertToParent);
    _ ← sync;
    mret 0).

Definition query_pointer : XM D (option (Z * Z)) :=
  unless_dpy None (query XQueryPointer).

Definition close_display : XM D unit :=
  b ← gets dpy;
  if negb b then mret tt else
  _ ← request XCloseDisplay;
  _ ← set_dpy false;
  unready.

(** ** The Go side *)
Definition initDisplay : XM D Z := init_display.
Definition closeDisplay : XM D unit := close_display.
Definition releaseAll : XM D Z := release_all.
Definition sendKey (keycode : Z) (press : bool) : XM D Z := send_key (to_cuint keycode) press.
Definition moveMouse (x y : Z) : XM D Z := move_mouse (to_cint x) (to_cint y).
Definition moveMouseFake (x y : Z) : XM D Z := move_mouse_fake (to_cint x) (to_cint y).
Definition sendButton (button : Z) (press : bool) : XM D Z := send_button (to_cuint button) press.
Definition keysymToKeycode (name : string) : XM D Z := keysym_to_keycode (cstring name).
Definition internDestAtoms : XM D Z := intern_dest_atoms.
Definition netSupportedHas (name : string) : XM D Z := net_supported_has (cstring name).

(** The list and 0, or an empty list and -1. *)
Definition refreshClientList : XM D (list Z * Z) :=
  l ← refresh_client_list 256;
  match l with
  | None => mret ([], -1)
  | Some xids => mret (xids, 0)
  end.

Definition windowGeometry (xid : Z) : XM D (Z * Z * Z * Z * Z) :=
  g ← window_geometry xid;
  match g with
  | None => mret (0, 0, 0, 0, -1)
  | Some (x, y, w, h) => mret (x, y, w, h, 0)
  end.

Definition displayGeometry : XM D (Z * Z) :=
  w ← display_width;
  h ← display_height;
  mret (w, h).

Definition windowPID (xid : Z) : XM D Z := window_pid xid.
Definition windowClass (xid : Z) : XM D string := window_class xid 256.
Definition windowName (xid : Z) : XM D string := window_name xid 256.
Definition windowHasFullscreen (xid : Z) : XM D bool := window_has_fullscreen xid.
Definition sendNetActive (xid : Z) : XM D Z := send_net_active xid.
Definition sendNetWMStateFS (xid : Z) (add : bool) : XM D Z := send_net_wm_state_fs xid add.
Definition setInputFocus (xid : Z) : XM D Z := set_input_focus xid.
Definition getActiveXID : XM D Z := get_active_xid.

Definition queryPointer : XM D (Z * Z * Z) :=
  p ← query_pointer;
  match p with
  | None => mret (0, 0, -1)
  | Some (x, y) => mret (x, y, 0)
  end.
End x11.
