(* ===== verification/X11Spec.v ===== *)
(** * What the X11 layer asks of the server *)

From Stdlib Require Import Sorted.
From S2P Require Import Prelude GoStrings VNext Xlib X11.
Local Open Scope Z_scope.

(** ** Requests of a call *)

(** The state after the requests [rs], with the server in state [d]. *)
Definition emit {D} (s : xproc D) (rs : list xreq) (d : D) : xproc D :=
  {| dpy := dpy s; screen_w := screen_w s; screen_h := screen_h s;
     a_net_supported := a_net_supported s; a_net_client_list := a_net_client_list s;
     a_net_active := a_net_active s; a_net_wm_state := a_net_wm_state s;
     a_net_wm_state_fs := a_net_wm_state_fs s; a_net_wm_pid := a_net_wm_pid s;
     a_net_wm_name := a_net_wm_name s; a_utf8 := a_utf8 s;
     dest_atoms_ready := dest_atoms_ready s; server := d; requests := requests s ++ rs |}.

(** [does m s rs a]: from [s], the call [m] submits exactly the requests [rs],
    in this order, changes no variable of the program and returns [a]. *)
Definition does {D A} (m : XM D A) (s : xproc D) (rs : list xreq) (a : A) : Prop :=
  ∃ d, m s = (a, emit s rs d).

(** A call that submits nothing and leaves the program's variables alone. *)
Definition same_vars {D} (s s' : xproc D) : Prop := with_server (server s') s = s'.

Definition silent {D A} (m : XM D A) : Prop := ∀ s, same_vars s (snd (m s)).

#[global] Instance same_vars_preorder {D} : PreOrder (@same_vars D).
Proof.
  split.
  - by intros [].
  - unfold same_vars. intros a b c E1 E2. rewrite <-E2 at 2. by rewrite <-E1.
Qed.

Lemma same_vars_requests {D} (s s' : xproc D) : same_vars s s' → requests s' = requests s.
Proof. by intros <-. Qed.
Lemma same_vars_dpy {D} (s s' : xproc D) : same_vars s s' → dpy s' = dpy s.
Proof. by intros <-. Qed.
Lemma same_vars_ready {D} (s s' : xproc D) :
  same_vars s s' → dest_atoms_ready s' = dest_atoms_ready s.
Proof. by intros <-. Qed.

Section silent.
Context {D : Type} `{Xlib D}.

Lemma silent_ret {A} (a : A) : silent (mret a : XM D A).
Proof. intros s. done. Qed.
Lemma silent_gets {A} (f : xproc D → A) : silent (gets f).
Proof. intros s. done. Qed.
Lemma silent_query {A} (q : D → A * D) : silent (query q).
Proof. intros s. unfold query. by destruct (q (server s)). Qed.
Lemma silent_bind {A B} (m : XM D A) (f : A → XM D B) :
  silent m → (∀ a, silent (f a)) → silent (m ≫= f).
Proof.
  intros Hm Hf s. unfold mbind, X_bind. destruct (m s) as [a s1] eqn:E.
  transitivity s1; [|apply Hf]. specialize (Hm s). by rewrite E in Hm.
Qed.
Lemma silent_if {A} (b : bool) (m n : XM D A) : silent m → silent n → silent (if b then m else n).
Proof. by destruct b. Qed.
Lemma silent_unless_dpy {A} (e : A) (m : XM D A) : silent m → silent (unless_dpy e m).
Proof. intros Hm. apply silent_bind; [apply silent_gets|]. intros []; [done|apply silent_ret]. Qed.
Lemma silent_unless_ready {A} (e : A) (m : XM D A) : silent m → silent (unless_ready e m).
Proof.
  intros Hm. apply silent_unless_dpy, silent_bind; [apply silent_gets|].
  intros []; [done|apply silent_ret].
Qed.
End silent.

(** Prove a call silent by following its code. *)
Ltac silence :=
  intros;
  repeat first
    [ done
    | apply silent_ret | apply silent_gets | apply silent_query
    | apply silent_unless_dpy | apply silent_unless_ready
    | apply silent_bind; [|intros]
    | match goal with |- silent (match ?x with _ => _ end) => destruct x end
    | match goal with |- silent (if ?x then _ else _) => destruct x end ].

Section lookups.
Context {D : Type} `{Xlib D}.

Lemma get_atom_list_silent w p t n : silent (get_atom_list (D := D) w p t n).
Proof. unfold get_atom_list. silence. Qed.
Lemma net_supported_has_silent name : silent (net_supported_has (D := D) name).
Proof. unfold net_supported_has, get_atom_list. silence. Qed.
Lemma refresh_client_list_silent n : silent (refresh_client_list (D := D) n).
Proof. unfold refresh_client_list. silence. Qed.
Lemma window_geometry_silent xid : silent (window_geometry (D := D) xid).
Proof. unfold window_geometry. silence. Qed.
Lemma window_pid_silent xid : silent (window_pid (D := D) xid).
Proof. unfold window_pid. silence. Qed.
Lemma window_class_silent xid n : silent (window_class (D := D) xid n).
Proof. unfold window_class. silence. Qed.
Lemma window_name_silent xid n : silent (window_name (D := D) xid n).
Proof. unfold window_name. silence. Qed.
Lemma window_has_fullscreen_silent xid : silent (window_has_fullscreen (D := D) xid).
Proof. unfold window_has_fullscreen, get_atom_list. silence. Qed.
Lemma get_active_xid_silent : silent (get_active_xid (D := D)).
Proof. unfold get_active_xid. silence. Qed.
Lemma query_pointer_silent : silent (query_pointer (D := D)).
Proof. unfold query_pointer. silence. Qed.
Lemma keysym_to_keycode_silent name : silent (keysym_to_keycode (D := D) name).
Proof. unfold keysym_to_keycode, keysym_keycode. silence. Qed.
End lookups.

(** ** Composing calls *)
Section does.
Context {D : Type} `{Xlib D}.
Implicit Types s : xproc D.

Lemma emit_nil s d : emit s [] d = with_server d s.
Proof. unfold emit. by rewrite app_nil_r. Qed.

Lemma emit_emit s rs d rs' d' : emit (emit s rs d) rs' d' = emit s (rs ++ rs') d'.
Proof. unfold emit. cbn. by rewrite <-app_assoc. Qed.

Lemma emit_same s : emit s [] (server s) = s.
Proof. rewrite emit_nil. by destruct s. Qed.

Lemma does_silent {A} (m : XM D A) s : silent m → does m s [] (fst (m s)).
Proof.
  intros Hm. exists (server (snd (m s))). rewrite emit_nil, (Hm s). by destruct (m s).
Qed.

Lemma does_ret {A} (a : A) s : does (mret a : XM D A) s [] a.
Proof. exists (server s). by rewrite emit_same. Qed.

Lemma does_gets {A} (f : xproc D → A) s : does (gets f) s [] (f s).
Proof. exists (server s). by rewrite emit_same. Qed.

Lemma does_request r s : does (request r) s [r] (fst (submit r (server s))).
Proof. unfold does, request. destruct (submit r (server s)) as [ok d]. by exists d. Qed.

Lemma does_bind {A B} (m : XM D A) (f : A → XM D B) s rs1 rs2 a b :
  does m s rs1 a → (∀ d, does (f a) (emit s rs1 d) rs2 b) → does (m ≫= f) s (rs1 ++ rs2) b.
Proof.
  intros [d E] Hf. destruct (Hf d) as [d' E']. exists d'.
  unfold mbind, X_bind. by rewrite E, E', emit_emit.
Qed.

(** A request whose status is not looked at, in front of the rest. *)
Lemma does_then {B} r (m : XM D B) s rs b :
  (∀ d, does m (emit s [r] d) rs b) → does (_ ← request r; m) s (r :: rs) b.
Proof. intros Hm. apply (does_bind _ _ _ [r] rs _ _ (does_request r s) Hm). Qed.

Lemma does_sync {B} (m : XM D B) s rs b :
  (∀ d, does m (emit s [XSync] d) rs b) → does (_ ← sync; m) s (XSync :: rs) b.
Proof.
  intros Hm. apply (does_bind _ _ _ [XSync] rs tt _); [|done].
  unfold sync. apply does_then. intros d. apply does_ret.
Qed.

Lemma does_unless_dpy {A} (e : A) (m : XM D A) s rs a :
  dpy s = true → does m s rs a → does (unless_dpy e m) s rs a.
Proof.
  intros Hd [d E]. exists d. unfold unless_dpy, mbind, X_bind, gets. by rewrite Hd.
Qed.

Lemma no_dpy {A} (e : A) (m : XM D A) s : dpy s = false → unless_dpy e m s = (e, s).
Proof. intros Hd. unfold unless_dpy, mbind, X_bind, gets. by rewrite Hd. Qed.
End does.

(** ** The calls *)
Section calls.
Context {D : Type} `{Xlib D}.
Implicit Types s : xproc D.

(** The nearest coordinate on the screen; the last one is computed as a C int. *)
Lemma clamp_nearest v size :
  is_sint 32 v → clamp v size = swrap 32 (Z.min (Z.max 0 v) (size - 1)).
Proof.
  intros Hv. unfold clamp. destruct (v <? 0) eqn:E1; bools.
  - rewrite Z.max_l by lia. destruct (size <=? 0) eqn:E2; bools.
    + by rewrite Z.min_r by lia.
    + by rewrite Z.min_l by lia.
  - rewrite Z.max_r by lia. destruct (size <=? v) eqn:E2; bools.
    + by rewrite Z.min_r by lia.
    + rewrite Z.min_l by lia. symmetry. by apply swrap_small.
Qed.

Lemma clamp_screen v size :
  1 ≤ size ≤ MaxInt32 → is_sint 32 v → clamp v size = Z.max 0 (Z.min v (size - 1)).
Proof.
  intros Hs Hv. rewrite clamp_nearest by done. assert (MaxInt32 = 2 ^ 31 - 1) by done.
  rewrite swrap_small by (unfold is_sint in *; lia). lia.
Qed.

Lemma move_mouse_does x y s :
  dpy s = true →
  does (move_mouse x y) s [XWarpPointer (clamp x (screen_w s)) (clamp y (screen_h s)); XSync] 0.
Proof.
  intros Hd. apply does_unless_dpy; [done|].
  apply (does_bind _ _ _ [] _ (screen_w s)); [apply does_gets|intros d].
  apply (does_bind _ _ _ [] _ (screen_h s)); [exact (does_gets screen_h (emit s [] d))|intros d'].
  apply does_then. intros. apply does_sync. intros. apply does_ret.
Qed.

Lemma move_mouse_fake_does x y s :
  dpy s = true →
  does (move_mouse_fake x y) s
    [XTestFakeMotionEvent (clamp x (screen_w s)) (clamp y (screen_h s)); XSync] 0.
Proof.
  intros Hd. apply does_unless_dpy; [done|].
  apply (does_bind _ _ _ [] _ (screen_w s)); [apply does_gets|intros d].
  apply (does_bind _ _ _ [] _ (screen_h s)); [exact (does_gets screen_h (emit s [] d))|intros d'].
  apply does_then. intros. apply does_sync. intros. apply does_ret.
Qed.

Lemma send_key_does kc press s :
  dpy s = true → does (send_key kc press) s [XTestFakeKeyEvent kc press; XSync] 0.
Proof.
  intros Hd. apply does_unless_dpy; [done|].
  apply does_then. intros. apply does_sync. intros. apply does_ret.
Qed.

Lemma send_button_does b press s :
  dpy s = true → does (send_button b press) s [XTestFakeButtonEvent b press; XSync] 0.
Proof.
  intros Hd. apply does_unless_dpy; [done|].
  apply does_then. intros. apply does_sync. intros. apply does_ret.
Qed.

Lemma release_pressed_does keys kcs s :
  does (release_pressed keys kcs) s
    ((λ kc, XTestFakeKeyEvent kc false) <$> filter (λ kc, key_bit keys kc = true) kcs) tt.
Proof.
  revert s. induction kcs as [|kc kcs IH]; intros s; [apply does_ret|].
  cbn [release_pressed]. rewrite filter_cons.
  destruct (key_bit keys kc); [|by rewrite decide_False].
  rewrite decide_True, fmap_cons by done. apply does_then. intros d. apply IH.
Qed.

(** The keys the server reported as pressed when [release_all] asked. *)
Definition pressed_keys (s : xproc D) : list Z :=
  filter (λ kc, key_bit (fst (XQueryKeymap (server s))) kc = true) (seqZ 0 256).

Lemma release_all_does s :
  dpy s = true →
  does release_all s
    (((λ kc, XTestFakeKeyEvent kc false) <$> pressed_keys s) ++
     [XTestFakeButtonEvent 1 false; XTestFakeButtonEvent 2 false; XTestFakeButtonEvent 3 false;
      XSync]) 0.
Proof.
  intros Hd. apply does_unless_dpy; [done|].
  apply (does_bind _ _ _ [] _ (fst (XQueryKeymap (server s)))).
  { pose proof (does_silent (query XQueryKeymap) s (silent_query _)) as Hq.
    unfold query in Hq at 2. by destruct (XQueryKeymap (server s)). }
  intros d. eapply does_bind; [apply release_pressed_does|]. intros d'.
  do 3 (apply does_then; intros). apply does_sync. intros. apply does_ret.
Qed.

Lemma filter_sorted (P : Z → Prop) `{!∀ x, Decision (P x)} l :
  StronglySorted Z.lt l → StronglySorted Z.lt (filter P l).
Proof.
  induction 1 as [|x l Hs IH Hx]; [constructor|]. rewrite filter_cons. case_decide; [|done].
  constructor; [done|]. apply list.Forall_forall. intros y [_ Hy]%list_elem_of_filter.
  rewrite list.Forall_forall in Hx. auto.
Qed.

Lemma seqZ_sorted m n : StronglySorted Z.lt (seqZ m n).
Proof.
  destruct (Z.le_gt_cases 0 n) as [Hn|Hn]; [|rewrite seqZ_nil by lia; constructor].
  revert m. pattern n. apply natlike_ind; [|clear n Hn; intros n Hn IH m|done].
  - intros m. rewrite seqZ_nil by done. constructor.
  - rewrite seqZ_cons by lia. constructor. 1: { rewrite Z.pred_succ. apply IH. }
    apply list.Forall_forall. intros y Hy%elem_of_seqZ. lia.
Qed.

Lemma keycode_range name s : 0 ≤ fst (keysymToKeycode name s) < 256.
Proof.
  unfold keysymToKeycode, keysym_to_keycode, unless_dpy, mbind, X_bind, gets.
  destruct (dpy s); [|cbn; lia]. case_match; [cbn; lia|].
  cbn [fst keysym_keycode gets]. apply (uwrap_range 8). lia.
Qed.
End calls.

(** ** Bits of the key map *)
Lemma swrap_testbit z i : 0 ≤ i < 8 → Z.testbit (swrap 8 z) i = Z.testbit z i.
Proof.
  intros Hi. rewrite <-(Z.mod_pow2_bits_low (swrap 8 z) 8), <-(Z.mod_pow2_bits_low z 8) by lia.
  f_equal. unfold swrap. rewrite <-(Z.mod_add (_ - _) 1) by lia.
  replace ((z + 2 ^ (8 - 1)) mod 2 ^ 8 - 2 ^ (8 - 1) + 1 * 2 ^ 8)
    with ((z + 2 ^ (8 - 1)) mod 2 ^ 8 + 2 ^ (8 - 1)) by lia.
  rewrite Z.add_mod_idemp_l by lia.
  replace (z + 2 ^ (8 - 1) + 2 ^ (8 - 1)) with (z + 1 * 2 ^ 8) by lia.
  by rewrite Z.mod_add.
Qed.

Lemma land_bit v i : 0 ≤ i → negb (Z.land v (Z.shiftl 1 i) =? 0) = Z.testbit v i.
Proof.
  intros Hi. rewrite Z.shiftl_1_l. destruct (Z.testbit v i) eqn:E.
  - apply negb_true_iff, Z.eqb_neq. intros E0.
    apply (f_equal (λ z, Z.testbit z i)) in E0.
    by rewrite Z.land_spec, E, Z.pow2_bits_true, Z.bits_0 in E0.
  - apply negb_false_iff, Z.eqb_eq. apply Z.bits_inj'. intros n Hn.
    rewrite Z.land_spec, Z.bits_0, Z.pow2_bits_eqb by done.
    destruct (Z.eqb_spec i n) as [<-|]; [by rewrite E|apply andb_false_r].
Qed.

(** Bit [kc] of the map: bit [kc mod 8] of byte [kc / 8]. *)
Lemma key_bit_spec keys kc :
  key_bit keys kc = Z.testbit (nth (Z.to_nat (kc / 8)) keys 0) (kc mod 8).
Proof.
  unfold key_bit. rewrite Z.shiftr_div_pow2 by lia. change 7 with (Z.ones 3).
  rewrite Z.land_ones by lia. change (2 ^ 3) with 8.
  pose proof (Z.mod_pos_bound kc 8). rewrite land_bit by lia. apply swrap_testbit. lia.
Qed.

(** ** Lock keys

    The documented behaviour of a lock key (Caps Lock): each press toggles the
    lock, releasing the key changes nothing. *)
Class LockKey (D : Type) `{Xlib D} (kc : Z) (locked : D → bool) := {
  press_toggles d : locked (snd (submit (XTestFakeKeyEvent kc true) d)) = negb (locked d);
  release_keeps d : locked (snd (submit (XTestFakeKeyEvent kc false) d)) = locked d;
}.

Section lock_key.
Context {D : Type} `{Xlib D} (kc : Z) (locked : D → bool) `{!LockKey D kc locked}.
Implicit Types s : xproc D.

Lemma request_press s :
  locked (server (snd (request (XTestFakeKeyEvent kc true) s))) = negb (locked (server s)).
Proof.
  unfold request. pose proof (press_toggles (server s)) as E.
  by destruct (submit _ (server s)).
Qed.

Lemma request_release s :
  locked (server (snd (request (XTestFakeKeyEvent kc false) s))) = locked (server s).
Proof.
  unfold request. pose proof (release_keeps (server s)) as E.
  by destruct (submit _ (server s)).
Qed.
End lock_key.

Lemma then_server {D A B} (m : XM D A) (k : XM D B) s :
  snd ((_ ← m; k) s) = snd (k (snd (m s))).
Proof. unfold mbind, X_bind. by destruct (m s). Qed.

(** A server with nothing but a Caps Lock at keycode 66. *)
Record lock_server := { caps : bool }.

#[global] Instance lock_server_Xlib : Xlib lock_server := {|
  submit r d := match r with
                | XTestFakeKeyEvent kc true => (true, {| caps := xorb (kc =? 66) (caps d) |})
                | _ => (true, d)
                end;
  XInitThreads d := (true, d);
  XOpenDisplay d := (true, d);
  XQueryExtension _ d := (false, d);
  DisplayWidth _ := 1024;
  DisplayHeight _ := 768;
  DefaultRootWindow _ := 1;
  XQueryKeymap d := (repeat 0 8 ++ [12], d);   (* 66 and 67 are pressed *)
  XStringToKeysym _ := NoSymbol;
  XKeysymToKeycode ks _ := if ks =? XK_Caps_Lock then 66 else 0;
  XInternAtom _ d := (1, d);
  XGetWindowProperty _ _ _ _ d :=
    ({| p_status := 1; p_type := 0; p_format := 0; p_nitems := 0; p_data := None |}, d);
  XGetGeometry _ d := (None, d);
  XTranslateCoordinates _ d := ((0, 0), d);
  XGetClassHint _ d := (None, d);
  XFetchName _ d := (None, d);
  XQueryPointer d := (None, d)
|}.

#[global] Instance lock_server_LockKey : LockKey lock_server 66 caps.
Proof. by split. Qed.

(** A state with an open display of the given size. *)
Definition opened {D} (d : D) (w h : Z) : xproc D :=
  {| dpy := true; screen_w := w; screen_h := h;
     a_net_supported := 0; a_net_client_list := 0; a_net_active := 0; a_net_wm_state := 0;
     a_net_wm_state_fs := 0; a_net_wm_pid := 0; a_net_wm_name := 0; a_utf8 := 0;
     dest_atoms_ready := false; server := d; requests := [] |}.

(** ** The theorems *)

(** The pointer never leaves the screen: with an open display of any size,
    moving to any pair of C integers submits exactly one warp, to the nearest
    point of the screen, followed by a sync. *)
Theorem pointer_stays_on_screen {D} `{Xlib D} x y (s : xproc D) :
  dpy s = true → 1 ≤ screen_w s ≤ MaxInt32 → 1 ≤ screen_h s ≤ MaxInt32 →
  is_sint 32 x → is_sint 32 y →
  does (moveMouse x y) s
    [XWarpPointer (Z.max 0 (Z.min x (screen_w s - 1))) (Z.max 0 (Z.min y (screen_h s - 1))); XSync] 0.
Proof.
  intros Hd Hw Hh Hx Hy. rewrite <-!clamp_screen by done.
  unfold moveMouse. rewrite !swrap_small by (done || lia). by apply move_mouse_does.
Qed.

Lemma pointer_stays_on_screen_witness :
  does (moveMouse (-5) 900) (opened {| caps := false |} 1280 720) [XWarpPointer 0 719; XSync] 0.
Proof.
  apply (pointer_stays_on_screen (-5) 900 (opened {| caps := false |} 1280 720));
    vm_compute; intuition congruence.
Defined.

(** C29: the global release is exact.  On an open
    display it sends an up for exactly the keys the server reports as pressed
    (bit kc mod 8 of byte kc / 8 of its key map), in ascending order and each
    once, then for the buttons 1, 2 and 3, then a sync, and succeeds; without a
    display it sends nothing and fails. *)
Theorem release_all_exact {D} `{Xlib D} (s : xproc D) :
  (dpy s = true →
   does releaseAll s
    (((λ kc, XTestFakeKeyEvent kc false) <$> pressed_keys s) ++
     [XTestFakeButtonEvent 1 false; XTestFakeButtonEvent 2 false; XTestFakeButtonEvent 3 false;
      XSync]) 0) ∧
  (dpy s = false → releaseAll s = (-1, s)) ∧
  StronglySorted Z.lt (pressed_keys s) ∧
  ∀ kc, kc ∈ pressed_keys s ↔
    0 ≤ kc < 256 ∧ Z.testbit (nth (Z.to_nat (kc / 8)) (fst (XQueryKeymap (server s))) 0) (kc mod 8) = true.
Proof.
  split_and!.
  - apply release_all_does.
  - intros Hd. unfold releaseAll, release_all, unless_dpy, mbind, X_bind, gets. by rewrite Hd.
  - apply filter_sorted, seqZ_sorted.
  - intros kc. unfold pressed_keys. rewrite list_elem_of_filter, elem_of_seqZ, key_bit_spec.
    naive_solver lia.
Qed.

(** Two keys are pressed. *)
Lemma release_all_exact_witness :
  does releaseAll (opened {| caps := true |} 1280 720)
    [XTestFakeKeyEvent 66 false; XTestFakeKeyEvent 67 false; XTestFakeButtonEvent 1 false;
     XTestFakeButtonEvent 2 false; XTestFakeButtonEvent 3 false; XSync] 0.
Proof.
  pose proof (proj1 (release_all_exact (opened {| caps := true |} 1280 720)) eq_refl) as H.
  replace (pressed_keys _) with [66; 67] in H by (vm_compute; reflexivity). exact H.
Defined.

(** The start-up sequence meant to clear a modifier lock does not clear it:
    with a lock key that toggles on each press, the two presses cancel out, and
    the lock is after the sequence what it was before, on or off. *)
Theorem clear_lock_keeps_lock {D} `{Xlib D} kc locked (s : xproc D) :
  LockKey D kc locked → locked (server (snd (clear_modifier_lock kc s))) = locked (server s).
Proof.
  intros HL. unfold clear_modifier_lock. destruct (kc =? 0); [done|].
  rewrite !then_server. cbn [mret X_ret snd].
  rewrite request_release, request_press, request_release, request_press by done.
  by rewrite negb_involutive.
Qed.

Lemma clear_lock_keeps_lock_witness :
  caps (server (snd (clear_modifier_lock 66 (opened {| caps := true |} 1280 720)))) = true.
Proof.
  apply (clear_lock_keeps_lock 66 caps (opened {| caps := true |} 1280 720)).
  exact lock_server_LockKey.
Defined.

(** Without a display the layer is inert: every operation that reports a
    status reports failure, a lookup finds nothing, and no variable, no request
    and no server state changes. *)
Theorem no_display_inert {D} `{Xlib D} (s : xproc D) :
  dpy s = false →
  (∀ kc press, sendKey kc press s = (-1, s)) ∧ (∀ b press, sendButton b press s = (-1, s)) ∧
  (∀ x y, moveMouse x y s = (-1, s)) ∧ releaseAll s = (-1, s) ∧
  (∀ name, keysymToKeycode name s = (0, s)) ∧ internDestAtoms s = (-1, s) ∧
  (∀ name, netSupportedHas name s = (-1, s)) ∧ refreshClientList s = (([], -1), s) ∧
  (∀ xid, sendNetActive xid s = (-1, s)) ∧ (∀ xid add, sendNetWMStateFS xid add s = (-1, s)) ∧
  (∀ xid, setInputFocus xid s = (-1, s)) ∧ closeDisplay s = (tt, s).
Proof.
  intros Hd. split_and!; intros; try (by apply no_dpy).
  - unfold refreshClientList, mbind, X_bind, refresh_client_list, unless_ready. by rewrite no_dpy.
  - unfold closeDisplay, close_display, mbind, X_bind, gets. by rewrite Hd.
Qed.

Lemma no_display_inert_witness :
  refreshClientList (xproc0 {| caps := false |}) = (([], -1), xproc0 {| caps := false |}).
Proof. apply (no_display_inert (xproc0 {| caps := false |})). reflexivity. Defined.
