(* ===== verification/DestBackend.v ===== *)
(** * The X11 destination backend (cmd/xtest-server/dest.go, lines 22-323)

    [xDestBackend] as an instance of [Backend]: the vnext requests on top of the
    X11 layer.  Every method runs on the owner thread under the process-global
    mutex, one at a time, so that a method is one state transformer. *)

From S2P Require Import Prelude GoStrings VNext Backend Xlib X11.
Local Open Scope Z_scope.

Definition destMaxConns : Z := 10.

(** ** hash/fnv (64-bit FNV-1a) and encoding/binary *)
Definition fnv_offset64 : Z := 14695981039346656037.
Definition fnv_prime64 : Z := 1099511628211.

Definition fnv_step (h : Z) (c : Z) : Z := uwrap 64 (Z.lxor h c * fnv_prime64).
Definition fnv_write (h : Z) (bs : list Z) : Z := foldl fnv_step h bs.

(** [binary.LittleEndian.PutUint32] *)
Definition put_uint32_le (v : Z) : list Z :=
  [uwrap 8 v; uwrap 8 (Z.shiftr v 8); uwrap 8 (Z.shiftr v 16); uwrap 8 (Z.shiftr v 24)].

(** The hash of a client list, as both [ManagedClients] and [Revalidate] compute
    it. *)
Definition list_sum (xids : list Z) : Z :=
  foldl (λ h id, fnv_write h (put_uint32_le id)) fnv_offset64 xids.

(** ** The backend

    Of the fields of the source, [lk] is always the process-global mutex and
    [allow] is stored and never read; the display the owner thread works on is
    added. *)
Record xDestBackend (D : Type) := {
  owner : bool;          (* not nil *)
  displayGen : Z;        (* uint64 *)
  observeGen : Z;        (* uint64 *)
  listHash : Z;          (* uint64 *)
  xp : xproc D;          (* the display the owner thread works on *)
}.
Arguments owner {D} _.
Arguments displayGen {D} _.
Arguments observeGen {D} _.
Arguments listHash {D} _.
Arguments xp {D} _.

Definition with_xp {D} (s : xproc D) (b : xDestBackend D) : xDestBackend D :=
  {| owner := owner b; displayGen := displayGen b; observeGen := observeGen b;
     listHash := listHash b; xp := s |}.
Definition with_list {D} (gen hash : Z) (b : xDestBackend D) : xDestBackend D :=
  {| owner := owner b; displayGen := displayGen b; observeGen := gen;
     listHash := hash; xp := xp b |}.

Section dest.
Context {D : Type} `{Xlib D}.
(** How many times [waitPointer] looks before its 50 ms are over: decided by the
    clock (it sleeps 2 ms each time, so that 25 is an upper bound). *)
Context (polls : nat).

(** A closure run by the owner: it works on the display and on the backend. *)
Definition B (A : Type) : Type := xDestBackend D → A * xDestBackend D.

#[global] Instance B_ret : MRet B := λ A a b, (a, b).
#[global] Instance B_bind : MBind B := λ A A' f m b, let '(a, b') := m b in f a b'.

Definition onX {A} (m : XM D A) : B A := λ b,
  let '(a, s) := m (xp b) in (a, with_xp s b).
Definition getb {A} (f : xDestBackend D → A) : B A := λ b, (f b, b).
Definition set_list (gen hash : Z) : B unit := λ b, (tt, with_list gen hash b).

(** [b.run(fn)] *)
Definition run_owner {A} (fn : B A) (b : xDestBackend D) : res (xDestBackend D) A :=
  if negb (owner b) then Panicked "xtest-server: dest X owner missing" b
  else let '(a, b') := fn b in Val a b'.

(** [destBackend]: the one backend that all connections share, after the atoms
    were interned. *)
Definition destBackend (s : xproc D) : xDestBackend D :=
  {| owner := true; displayGen := 1; observeGen := 1; listHash := 0;
     xp := snd (internDestAtoms s) |}.

Definition xerr (n : Z) : option error := if negb (n =? 0) then Some errXCall else None.

Definition d_KeycodeFor (name : string) : B Z := onX (keysymToKeycode name).

Fixpoint waitPointer (x y : Z) (n : nat) : XM D unit :=
  match n with
  | O => mret tt
  | S n' =>
    '(px, py, err) ← queryPointer;
    if (err =? 0) && (px =? x) && (py =? y) then mret tt else waitPointer x y n'
  end.

Definition d_WarpMouse (x y : Z) (b : xDestBackend D) : res (xDestBackend D) (option error) :=
  if (x <? MinInt32) || (MaxInt32 <? x) || (y <? MinInt32) || (MaxInt32 <? y)
  then Val (Some errCoordOutOfRange) b
  else run_owner (
    rc ← onX (moveMouse x y);
    match xerr rc with
    | Some e => mret (Some e)
    | None => _ ← onX (waitPointer x y polls); mret None
    end) b.

Definition d_SendKey (keycode : Z) (press : bool) : B (option error) :=
  rc ← onX (sendKey keycode press); mret (xerr rc).

Definition d_SendButton (button : Z) (press : bool) : B (option error) :=
  rc ← onX (sendButton button press); mret (xerr rc).

Definition d_ScreenGeometry : B (Z * Z * option error) :=
  '(width, height) ← onX displayGeometry;
  if (width <=? 0) || (height <=? 0) then mret (0, 0, Some ErrUnavailable)
  else mret (width, height, None).

(** [if internDestAtoms() != 0 { return ErrUnavailable }] and the same for the
    atoms that must be supported. *)
Definition when_supported {A} (atoms : list string) (fail : A) (body : B A) : B A :=
  rc ← onX internDestAtoms;
  if negb (rc =? 0) then mret fail else
  foldr (λ atom rest, n ← onX (netSupportedHas atom);
                      if negb (n =? 1) then mret fail else rest) body atoms.

Definition window_info (id : Z) : B WindowInfo :=
  dgen ← getb displayGen;
  ogen ← getb observeGen;
  class ← onX (windowClass id);
  pid ← onX (windowPID id);
  name ← onX (windowName id);
  '(x, y, w, h, ge) ← onX (windowGeometry id);
  fs ← onX (windowHasFullscreen id);
  mret {| XID := id; Class := class; PID := pid; Name := name;
          X := if ge =? 0 then x else 0; Y := if ge =? 0 then y else 0;
          Width := if ge =? 0 then w else 0; Height := if ge =? 0 then h else 0;
          State := if (fs : bool) then [NetWMStateFullscreenAtom] else [];
          DisplayGen := dgen; ObserveGen := ogen |}.

Fixpoint window_infos (xids : list Z) : B (list WindowInfo) :=
  match xids with
  | [] => mret []
  | id :: xids' =>
    info ← window_info id;
    rest ← window_infos xids';
    mret (info :: rest)
  end.

Definition d_ManagedClients : B (list WindowInfo * option error) :=
  when_supported [NetClientListAtom] ([], Some ErrUnavailable) (
    '(xids, rc) ← onX refreshClientList;
    if rc <? 0 then mret ([], Some ErrUnavailable) else
    let sum := list_sum xids in
    hash ← getb listHash;
    gen ← getb observeGen;
    _ ← set_list (if negb (hash =? 0) && negb (sum =? hash) then to_uint (gen + 1) else gen) sum;
    out ← window_infos xids;
    mret (out, None)).

Definition d_Revalidate (ref : WindowRef) : B (option error) :=
  when_supported [NetClientListAtom] (Some ErrUnavailable) (
    '(xids, rc) ← onX refreshClientList;
    if rc <? 0 then mret (Some ErrUnavailable) else
    let sum := list_sum xids in
    hash ← getb listHash;
    gen ← getb observeGen;
    if negb (hash =? 0) && negb (sum =? hash) then
      _ ← set_list (to_uint (gen + 1)) sum;
      mret (Some ErrRefMismatch)
    else
    _ ← set_list gen sum;
    dgen ← getb displayGen;
    if negb (RDisplayGen ref =? dgen) || negb (RObserveGen ref =? gen)
    then mret (Some ErrRefMismatch) else
    if negb (bool_decide (RXID ref ∈ xids)) then mret (Some ErrRefMismatch) else
    class_bad ← (if negb (bool_decide (ExpectedClass ref = "")) then
                   class ← onX (windowClass (RXID ref));
                   mret (negb (bool_decide (class = ExpectedClass ref)))
                 else mret false);
    if (class_bad : bool) then mret (Some ErrRefMismatch) else
    pid_bad ← (if negb (ExpectedPID ref =? 0) then
                 pid ← onX (windowPID (RXID ref));
                 mret (negb (pid =? ExpectedPID ref))
               else mret false);
    if (pid_bad : bool) then mret (Some ErrRefMismatch) else
    mret None).

Definition d_ActivateAlwaysBoth (ref : WindowRef) : B (option error) :=
  when_supported [NetActiveWindowAtom] (Some ErrUnavailable) (
    rc ← onX (sendNetActive (RXID ref));
    if negb (rc =? 0) then mret (Some errXCall) else
    rc ← onX (setInputFocus (RXID ref));
    if negb (rc =? 0) then mret (Some errXCall) else
    mret None).

Definition d_SetFullscreen (ref : WindowRef) (add : bool) : B (option error) :=
  when_supported [NetWMStateAtom; NetWMStateFullscreenAtom] (Some ErrUnavailable) (
    rc ← onX (sendNetWMStateFS (RXID ref) add);
    mret (xerr rc)).

Definition d_ActiveWindow : B (Z * option error) :=
  when_supported [NetActiveWindowAtom] (0, Some ErrUnavailable) (
    xid ← onX getActiveXID;
    mret (xid, None)).

#[global] Instance dest_backend : Backend (xDestBackend D) := λ R c,
  match c in call R return xDestBackend D → res (xDestBackend D) R with
  | KeycodeFor name => run_owner (d_KeycodeFor name)
  | WarpMouse x y => d_WarpMouse x y
  | SendKey kc press => run_owner (d_SendKey kc press)
  | SendButton bt press => run_owner (d_SendButton bt press)
  | ScreenGeometry => run_owner d_ScreenGeometry
  | ManagedClients => run_owner d_ManagedClients
  | Revalidate ref => run_owner (d_Revalidate ref)
  | ActivateAlwaysBoth ref => run_owner (d_ActivateAlwaysBoth ref)
  | SetFullscreen ref add => run_owner (d_SetFullscreen ref add)
  | ActiveWindow => run_owner d_ActiveWindow
  end.
End dest.
Arguments B D A : clear implicits.
