(* ===== verification/Hash.v ===== *)
(** * The hash of the client list

    The 64-bit FNV-1a hash that dest.go computes over the window identifiers of
    the client list.  It can collide, but not when one window of a list is
    replaced by another one ([list_sum_replaced]). *)

From S2P Require Import Prelude DestBackend.
Local Open Scope Z_scope.


(** The inverse of the FNV prime modulo 2^64. *)
Definition fnv_inverse : Z := 14886173955864302971.

Lemma fnv_step_range h c : is_uint 64 (fnv_step h c).
Proof. apply uwrap_range. lia. Qed.

Lemma fnv_mul_inj x y :
  is_uint 64 x → is_uint 64 y → uwrap 64 (x * fnv_prime64) = uwrap 64 (y * fnv_prime64) → x = y.
Proof.
  unfold is_uint, uwrap. intros Hx Hy E.
  assert (∀ z, 0 ≤ z < 2 ^ 64 → (z * fnv_prime64) mod 2 ^ 64 * fnv_inverse mod 2 ^ 64 = z) as Hi.
  { intros z Hz. rewrite Z.mul_mod_idemp_l by lia.
    replace (z * fnv_prime64 * fnv_inverse) with (z * (fnv_prime64 * fnv_inverse)) by lia.
    rewrite <-Z.mul_mod_idemp_r by lia.
    replace ((fnv_prime64 * fnv_inverse) mod 2 ^ 64) with 1 by (vm_compute; reflexivity).
    rewrite Z.mul_1_r. by apply Z.mod_small. }
  by rewrite <-(Hi x Hx), E, (Hi y Hy).
Qed.

Lemma lxor_range h c : is_uint 64 h → is_uint 8 c → is_uint 64 (Z.lxor h c).
Proof.
  unfold is_uint. intros Hh Hc. split; [apply Z.lxor_nonneg; lia|].
  destruct (decide (Z.lxor h c = 0)) as [->|Hn]; [lia|].
  apply Z.log2_lt_pow2; [|].
  { assert (0 ≤ Z.lxor h c) by (apply Z.lxor_nonneg; lia). lia. }
  eapply Z.le_lt_trans; [apply Z.log2_lxor; lia|]. apply Z.max_lub_lt.
  - destruct (decide (h = 0)) as [->|]; [done|]. apply Z.log2_lt_pow2; lia.
  - destruct (decide (c = 0)) as [->|]; [done|]. apply Z.log2_lt_pow2; lia.
Qed.

Lemma fnv_step_inj h h' c :
  is_uint 64 h → is_uint 64 h' → is_uint 8 c → fnv_step h c = fnv_step h' c → h = h'.
Proof.
  intros Hh Hh' Hc E%fnv_mul_inj; [|by apply lxor_range..].
  apply (f_equal (λ z, Z.lxor z c)) in E. by rewrite !Z.lxor_assoc, Z.lxor_nilpotent, !Z.lxor_0_r in E.
Qed.

Lemma fnv_step_byte h c c' :
  is_uint 64 h → is_uint 8 c → is_uint 8 c' → fnv_step h c = fnv_step h c' → c = c'.
Proof.
  intros Hh Hc Hc' E%fnv_mul_inj; [|by apply lxor_range..].
  apply (f_equal (Z.lxor h)) in E. by rewrite <-!Z.lxor_assoc, Z.lxor_nilpotent, !Z.lxor_0_l in E.
Qed.

Lemma fnv_write_range h bs : is_uint 64 h → is_uint 64 (fnv_write h bs).
Proof.
  unfold fnv_write. revert h. induction bs as [|c bs IH]; intros h Hh; [done|].
  apply IH, fnv_step_range.
Qed.

Lemma fnv_write_inj h h' bs :
  is_uint 64 h → is_uint 64 h' → Forall (is_uint 8) bs →
  fnv_write h bs = fnv_write h' bs → h = h'.
Proof.
  intros Hh Hh' Hbs. unfold fnv_write. revert h h' Hh Hh'.
  induction Hbs as [|c bs Hc _ IH]; intros h h' Hh Hh'; [done|].
  intros E%IH; [|apply fnv_step_range..]. by eapply fnv_step_inj.
Qed.

Definition list_bytes (xids : list Z) : list Z := xids ≫= put_uint32_le.

Lemma list_sum_bytes xids : list_sum xids = fnv_write fnv_offset64 (list_bytes xids).
Proof.
  unfold list_sum, list_bytes. generalize fnv_offset64.
  induction xids as [|id xids IH]; intros h; [done|].
  cbn [foldl]. rewrite IH. unfold fnv_write. rewrite bind_cons, foldl_app. done.
Qed.

Lemma list_bytes_range xids : Forall (is_uint 8) (list_bytes xids).
Proof.
  unfold list_bytes. induction xids as [|id xids IH]; [constructor|].
  rewrite bind_cons. apply Forall_app_2; [|done].
  repeat (constructor; [apply (uwrap_range 8); lia|]). constructor.
Qed.

(** ** One identifier *)

(** A byte changes the last eight bits only. *)
Lemma lxor_high h c : is_uint 8 c → Z.lxor h c / 256 = h / 256.
Proof.
  intros Hc. change 256 with (2 ^ 8). rewrite <-!Z.shiftr_div_pow2, Z.shiftr_lxor by lia.
  rewrite (Z.shiftr_div_pow2 c), (Z.div_small c) by (unfold is_uint in Hc; lia).
  apply Z.lxor_0_r.
Qed.

Lemma same_high x y : x / 256 = y / 256 → -256 < x - y < 256.
Proof. intros E. Z.div_mod_to_equations. lia. Qed.

Lemma lxor_inj h c c' : Z.lxor h c = Z.lxor h c' → c = c'.
Proof.
  intros E. apply (f_equal (Z.lxor h)) in E.
  by rewrite <-!Z.lxor_assoc, Z.lxor_nilpotent, !Z.lxor_0_l in E.
Qed.

(** The equation two colliding identifiers would have to satisfy. *)
Lemma no_small_solution d f g e k :
  -256 < d < 256 → -512 < f < 512 → -512 < g < 512 → -256 < e < 256 →
  e = d * fnv_prime64 ^ 3 + f * fnv_prime64 ^ 2 + g * fnv_prime64 - 2 ^ 64 * k →
  d = 0 ∧ f = 0 ∧ g = 0.
Proof.
  intros Hd Hf Hg He E.
  set (A := 567675 * d + 870 * f + g). set (L := 82312875 * d + 189225 * f + 435 * g).
  set (M := 2 ^ 56 * d + 1305 * 2 ^ 16 * d + 2 ^ 16 * f - k).
  assert (e = L + 2 ^ 40 * (A + 2 ^ 24 * M)) as E2.
  { rewrite E. unfold A, L, M, fnv_prime64. lia. }
  assert (A + 2 ^ 24 * M = 0) as E3 by lia.
  assert (189225 * d + 435 * f + g = 0) as E4 by lia.
  assert (M = 0) as EM by lia. lia.
Qed.

(** One step of the hash as an equation over the integers. *)
Lemma fnv_step_eq h c : ∃ q, fnv_step h c = Z.lxor h c * fnv_prime64 - 2 ^ 64 * q.
Proof.
  exists (Z.lxor h c * fnv_prime64 / 2 ^ 64). unfold fnv_step, uwrap.
  generalize (Z.lxor h c * fnv_prime64). intros x. rewrite Z.mod_eq by lia. lia.
Qed.

Lemma Forall_bytes4 (P : Z → Prop) a b c d : Forall P [a; b; c; d] → P a ∧ P b ∧ P c ∧ P d.
Proof. rewrite !list.Forall_cons. naive_solver. Qed.

(** Four bytes are told apart. *)
Lemma fnv_word_inj h a b c d a' b' c' d' :
  is_uint 64 h → Forall (is_uint 8) [a; b; c; d] → Forall (is_uint 8) [a'; b'; c'; d'] →
  fnv_write h [a; b; c; d] = fnv_write h [a'; b'; c'; d'] → [a; b; c; d] = [a'; b'; c'; d'].
Proof.
  intros Hh (Ha & Hb & Hc & Hd)%Forall_bytes4 (Ha' & Hb' & Hc' & Hd')%Forall_bytes4.
  unfold fnv_write. cbn [foldl].
  intros E%fnv_mul_inj; [|apply lxor_range; [apply fnv_step_range|done]..].
  destruct (fnv_step_eq h a) as [q1 E1], (fnv_step_eq h a') as [q1' E1'].
  set (y1 := fnv_step h a) in *. set (y1' := fnv_step h a') in *.
  destruct (fnv_step_eq y1 b) as [q2 E2], (fnv_step_eq y1' b') as [q2' E2'].
  set (y2 := fnv_step y1 b) in *. set (y2' := fnv_step y1' b') in *.
  destruct (fnv_step_eq y2 c) as [q3 E3], (fnv_step_eq y2' c') as [q3' E3'].
  set (y3 := fnv_step y2 c) in *. set (y3' := fnv_step y2' c') in *.
  assert (-256 < Z.lxor h a - Z.lxor h a' < 256) as R1 by (apply same_high; by rewrite !lxor_high).
  assert (-256 < y3 - y3' < 256) as R4.
  { apply same_high. by rewrite <-(lxor_high y3 d), <-(lxor_high y3' d'), E. }
  pose proof (same_high _ _ (lxor_high y1 b Hb)). pose proof (same_high _ _ (lxor_high y1' b' Hb')).
  pose proof (same_high _ _ (lxor_high y2 c Hc)). pose proof (same_high _ _ (lxor_high y2' c' Hc')).
  destruct (no_small_solution (Z.lxor h a - Z.lxor h a')
    ((Z.lxor y1 b - y1) - (Z.lxor y1' b' - y1')) ((Z.lxor y2 c - y2) - (Z.lxor y2' c' - y2'))
    (y3 - y3') ((q1 - q1') * fnv_prime64 ^ 2 + (q2 - q2') * fnv_prime64 + (q3 - q3')))
    as (D1 & D2 & D3); [lia..| |].
  { rewrite E3, E3'.
    replace (Z.lxor y2 c) with ((Z.lxor y2 c - y2) + y2) by lia.
    replace (Z.lxor y2' c') with ((Z.lxor y2' c' - y2') + y2') by lia.
    rewrite E2, E2'.
    replace (Z.lxor y1 b) with ((Z.lxor y1 b - y1) + y1) by lia.
    replace (Z.lxor y1' b') with ((Z.lxor y1' b' - y1') + y1') by lia.
    rewrite E1, E1'. ring. }
  assert (a = a') as -> by (apply (lxor_inj h); lia).
  assert (y1 = y1') as Y1 by done. rewrite <-Y1 in *.
  assert (b = b') as -> by (apply (lxor_inj y1); lia).
  assert (y2 = y2') as Y2 by (unfold y2, y2'; by rewrite Y1). rewrite <-Y2 in *.
  assert (c = c') as -> by (apply (lxor_inj y2); lia).
  assert (y3 = y3') as Y3 by (unfold y3, y3'; by rewrite Y2). rewrite <-Y3 in *.
  by apply lxor_inj in E as ->.
Qed.

(** ** The list *)

(** One window of a list is replaced by another one. *)
Definition replaced (old new : list Z) : Prop :=
  ∃ l1 id id' l2, old = l1 ++ id :: l2 ∧ new = l1 ++ id' :: l2 ∧
    id ≠ id' ∧ is_uint 32 id ∧ is_uint 32 id'.

Lemma put_uint32_inj v v' :
  is_uint 32 v → is_uint 32 v' → put_uint32_le v = put_uint32_le v' → v = v'.
Proof.
  unfold is_uint, put_uint32_le, uwrap. intros Hv Hv' [= E0 E1 E2 E3].
  rewrite !Z.shiftr_div_pow2 in * by lia.
  assert (∀ x, 0 ≤ x < 2 ^ 32 → x = x mod 2 ^ 8 + 2 ^ 8 * ((x / 2 ^ 8) mod 2 ^ 8) +
    2 ^ 16 * ((x / 2 ^ 16) mod 2 ^ 8) + 2 ^ 24 * ((x / 2 ^ 24) mod 2 ^ 8)) as Hx.
  { clear. intros x Hx. change (2 ^ 8) with 256. change (2 ^ 16) with 65536.
    change (2 ^ 24) with 16777216. change (2 ^ 32) with 4294967296 in Hx.
    Z.div_mod_to_equations. lia. }
  by rewrite (Hx v), (Hx v'), E0, E1, E2, E3.
Qed.

Lemma list_sum_replaced old new : replaced old new → list_sum old ≠ list_sum new.
Proof.
  intros (l1 & id & id' & l2 & -> & -> & Hn & Hi & Hi') E. apply Hn.
  rewrite !list_sum_bytes in E. unfold list_bytes in E.
  rewrite !bind_app, !bind_cons in E. unfold fnv_write in E. rewrite !foldl_app in E.
  pose proof (list_bytes_range l2) as H2. unfold list_bytes in H2.
  assert (is_uint 64 (foldl fnv_step fnv_offset64 (l1 ≫= put_uint32_le))) as Hh
    by (apply fnv_write_range; vm_compute; split; congruence).
  apply fnv_write_inj in E; [|by apply fnv_write_range|by apply fnv_write_range|done].
  apply fnv_word_inj in E; [|done| |].
  - by apply put_uint32_inj.
  - repeat (constructor; [apply (uwrap_range 8); lia|]). constructor.
  - repeat (constructor; [apply (uwrap_range 8); lia|]). constructor.
Qed.
