(* ===== verification/DestSpec.v ===== *)
(** * What the destination backend guarantees *)

From S2P Require Import Prelude GoStrings VNext Request RequestSpec Backend Session.
From S2P Require Import Dispatch DispatchSpec Xlib X11 X11Spec DestBackend Hash.
Local Open Scope Z_scope.

(** ** Calls that submit nothing *)

(** [quiet m]: the call submits no request. *)
Definition quiet {D A} (m : XM D A) : Prop := ∀ s, requests (snd (m s)) = requests s.
Definition quietB {D A} (m : B D A) : Prop :=
  ∀ b, requests (xp (snd (m b))) = requests (xp b).

Lemma silent_quiet {D A} (m : XM D A) : silent m → quiet m.
Proof. intros H s. apply same_vars_requests, H. Qed.

Section quiet.
Context {D : Type} `{Xlib D}.

Lemma quiet_bind {A A'} (m : XM D A) (f : A → XM D A') :
  quiet m → (∀ a, quiet (f a)) → quiet (m ≫= f).
Proof.
  intros Hm Hf s. unfold mbind, X_bind. specialize (Hm s). destruct (m s) as [a s1].
  cbn in Hm. by rewrite (Hf a s1), Hm.
Qed.

Lemma quiet_unless_dpy {A} (e : A) (m : XM D A) : quiet m → quiet (unless_dpy e m).
Proof. intros Hm s. unfold unless_dpy, mbind, X_bind, gets. destruct (dpy s); [apply Hm|done]. Qed.

Lemma internDestAtoms_quiet : quiet (internDestAtoms (D := D)).
Proof.
  apply quiet_unless_dpy.
  do 8 (apply quiet_bind; [apply silent_quiet, silent_query|intros]).
  apply quiet_bind; [done|]. by intros.
Qed.

Lemma quietB_ret {A} (a : A) : quietB (mret a : B D A).
Proof. by intros b. Qed.
Lemma quietB_getb {A} (f : xDestBackend D → A) : quietB (getb f).
Proof. by intros b. Qed.
Lemma quietB_set_list gen hash : quietB (set_list (D := D) gen hash).
Proof. by intros b. Qed.
Lemma quietB_onX {A} (m : XM D A) : quiet m → quietB (onX m).
Proof. intros Hm b. unfold onX. specialize (Hm (xp b)). by destruct (m (xp b)). Qed.
Lemma quietB_bind {A A'} (m : B D A) (f : A → B D A') :
  quietB (D := D) m → (∀ a, quietB (f a)) → quietB (m ≫= f).
Proof.
  intros Hm Hf b. unfold mbind, B_bind. specialize (Hm b). destruct (m b) as [a b1].
  cbn in Hm. by rewrite <-Hm, <-(Hf a b1).
Qed.

Lemma netSupportedHas_silent name : silent (netSupportedHas (D := D) name).
Proof. apply net_supported_has_silent. Qed.
Lemma refreshClientList_silent : silent (refreshClientList (D := D)).
Proof. apply silent_bind; [apply refresh_client_list_silent|]. silence. Qed.

Lemma quietB_when_supported {A} atoms (fail : A) (body : B D A) :
  quietB (D := D) body → quietB (when_supported atoms fail body).
Proof.
  intros Hb. apply quietB_bind; [apply quietB_onX, internDestAtoms_quiet|]. intros rc.
  destruct (negb (rc =? 0)); [apply quietB_ret|].
  induction atoms as [|atom atoms IH]; [done|]. cbn [foldr].
  apply quietB_bind; [apply quietB_onX, silent_quiet, netSupportedHas_silent|]. intros n.
  destruct (negb (n =? 1)); [apply quietB_ret|done].
Qed.
End quiet.

(** Prove a closure quiet by following its code. *)
Ltac hush :=
  intros;
  repeat first
    [ done
    | apply quietB_ret | apply quietB_getb | apply quietB_set_list
    | apply quietB_when_supported
    | apply quietB_onX, silent_quiet;
      first [ apply refreshClientList_silent | apply window_class_silent | apply window_pid_silent
            | apply window_name_silent | apply window_has_fullscreen_silent
            | apply get_active_xid_silent | apply keysym_to_keycode_silent
            | silence ]
    | apply quietB_bind; [|intros]
    | match goal with |- quietB (match ?x with _ => _ end) => destruct x end
    | match goal with |- quietB (if ?x then _ else _) => destruct x end ].

Section methods.
Context {D : Type} `{Xlib D}.

Lemma d_Revalidate_quiet ref : quietB (d_Revalidate (D := D) ref).
Proof. unfold d_Revalidate. hush. Qed.

Lemma window_info_quiet id : quietB (window_info (D := D) id).
Proof.
  unfold window_info. hush.
Qed.
End methods.

(** ** The owner is never lost *)
Definition keeps {D A} (m : B D A) : Prop :=
  ∀ b, owner (snd (m b)) = owner b ∧ displayGen (snd (m b)) = displayGen b.

Section keeps.
Context {D : Type} `{Xlib D}.

Lemma keeps_ret {A} (a : A) : keeps (mret a : B D A).
Proof. by intros b. Qed.
Lemma keeps_getb {A} (f : xDestBackend D → A) : keeps (getb f).
Proof. by intros b. Qed.
Lemma keeps_set_list gen hash : keeps (set_list (D := D) gen hash).
Proof. by intros b. Qed.
Lemma keeps_onX {A} (m : XM D A) : keeps (onX m).
Proof. intros b. unfold onX. by destruct (m (xp b)). Qed.
Lemma keeps_bind {A A'} (m : B D A) (f : A → B D A') :
  keeps m → (∀ a, keeps (f a)) → keeps (m ≫= f).
Proof.
  intros Hm Hf b. unfold mbind, B_bind. specialize (Hm b). destruct (m b) as [a b1].
  cbn in Hm. destruct Hm as [<- <-]. apply Hf.
Qed.
Lemma keeps_when_supported {A} atoms (fail : A) (body : B D A) :
  keeps body → keeps (when_supported atoms fail body).
Proof.
  intros Hb. apply keeps_bind; [apply keeps_onX|]. intros rc.
  destruct (negb (rc =? 0)); [apply keeps_ret|].
  induction atoms as [|atom atoms IH]; [done|]. cbn [foldr].
  apply keeps_bind; [apply keeps_onX|]. intros n.
  destruct (negb (n =? 1)); [apply keeps_ret|done].
Qed.
End keeps.

Ltac keep :=
  intros;
  repeat first
    [ done
    | apply keeps_ret | apply keeps_getb | apply keeps_set_list | apply keeps_onX
    | apply keeps_when_supported
    | apply keeps_bind; [|intros]
    | match goal with |- keeps (match ?x with _ => _ end) => destruct x end
    | match goal with |- keeps (if ?x then _ else _) => destruct x end ].

Section total.
Context {D : Type} `{Xlib D} (polls : nat).
#[local] Existing Instance dest_backend.

Lemma window_infos_keeps xids : keeps (window_infos (D := D) xids).
Proof. induction xids; cbn; unfold window_info; keep. Qed.

Lemma run_owner_total {A} (m : B D A) b :
  keeps m → owner b = true → ∃ a b', run_owner m b = Val a b' ∧ owner b' = true.
Proof.
  intros Hm Ho. unfold run_owner. rewrite Ho. cbn. destruct (Hm b) as [Hb _].
  destruct (m b) as [a b']. exists a, b'. split; [done|]. cbn in Hb. by rewrite Hb.
Qed.

Lemma dest_handle_total {R : Set} (c : call R) (b : xDestBackend D) :
  owner b = true →
  ∃ r b', handle (Backend := dest_backend polls) c b = Val r b' ∧ owner b' = true.
Proof.
  intros Ho. destruct c; cbn [handle dest_backend].
  all: try (apply run_owner_total; [|done]).
  - unfold d_KeycodeFor. keep.
  - unfold d_WarpMouse. case_match; [eauto|]. apply run_owner_total; [|done]. keep.
  - unfold d_SendKey. keep.
  - unfold d_SendButton. keep.
  - unfold d_ScreenGeometry. keep.
  - unfold d_ManagedClients. keep. apply window_infos_keeps.
  - unfold d_Revalidate. keep.
  - unfold d_ActivateAlwaysBoth. keep.
  - unfold d_SetFullscreen. keep.
  - unfold d_ActiveWindow. keep.
Qed.
End total.

(** ** Reading the client list *)
Section observe.
Context {D : Type} `{Xlib D}.
Implicit Types b : xDestBackend D.

(** What the window manager's client list was when the backend looked, and the
    state of the display afterwards; [None] if the list is not available. *)
Definition observed b : option (list Z) * xproc D :=
  let '(rc, s1) := internDestAtoms (xp b) in
  if negb (rc =? 0) then (None, s1) else
  let '(n, s2) := netSupportedHas NetClientListAtom s1 in
  if negb (n =? 1) then (None, s2) else
  let '(xids, rc, s3) := refreshClientList s2 in
  if rc <? 0 then (None, s3) else (Some xids, s3).

(** The list differs from the one recorded before. *)
Definition list_changed b (xids : list Z) : bool :=
  negb (listHash b =? 0) && negb (list_sum xids =? listHash b).

Lemma list_changed_spec b xids :
  if list_changed b xids then listHash b ≠ 0 ∧ list_sum xids ≠ listHash b
  else ¬ (listHash b ≠ 0 ∧ list_sum xids ≠ listHash b).
Proof.
  unfold list_changed. destruct (listHash b =? 0) eqn:E1; bools; [naive_solver|].
  destruct (list_sum xids =? listHash b) eqn:E2; bools; naive_solver.
Qed.

(** The generation after a list was observed. *)
Definition next_gen b (xids : list Z) : Z :=
  if list_changed b xids then to_uint (observeGen b + 1) else observeGen b.

(** The window has the class and the process the reference expects, when it is
    asked, the class first. *)
Definition window_fits (ref : WindowRef) (s : xproc D) : Prop :=
  let s' := if decide (ExpectedClass ref = "") then s else snd (windowClass (RXID ref) s) in
  (ExpectedClass ref = "" ∨ fst (windowClass (RXID ref) s) = ExpectedClass ref) ∧
  (ExpectedPID ref = 0 ∨ fst (windowPID (RXID ref) s') = ExpectedPID ref).

(** The checks of [Revalidate] once the list is known to be unchanged. *)
Definition check_ref (ref : WindowRef) (xids : list Z) : B D (option error) :=
  dgen ← getb displayGen;
  gen ← getb observeGen;
  if negb (RDisplayGen ref =? dgen) || negb (RObserveGen ref =? gen)
  then mret (Some ErrRefMismatch) else
  if negb (bool_decide (RXID ref ∈ xids)) then mret (Some ErrRefMismatch) else
  class_bad ← (if negb (bool_decide (ExpectedClass ref = "")) then
                 class ← onX (windowClass (RXID ref));
                 mret (negb (bool_decide (class = ExpectedClass ref)))
               else mret false);
  if (class_bad : bool) then mret (Some ErrRefMismatch) else
  pid_bad ← (if negb (ExpectedPID ref =? 0) then
               pid ← onX (windowPID (RXID ref));
               mret (negb (pid =? ExpectedPID ref))
             else mret false);
  if (pid_bad : bool) then mret (Some ErrRefMismatch) else
  mret None.

Lemma d_Revalidate_unfold ref b :
  d_Revalidate ref b =
  match observed b with
  | (None, s) => (Some ErrUnavailable, with_xp s b)
  | (Some xids, s) =>
    let b1 := with_list (next_gen b xids) (list_sum xids) (with_xp s b) in
    if list_changed b xids then (Some ErrRefMismatch, b1) else check_ref ref xids b1
  end.
Proof.
  unfold d_Revalidate, when_supported, observed, next_gen, list_changed.
  cbn [foldr]. unfold mbind, B_bind, onX, getb, set_list.
  destruct (internDestAtoms (xp b)) as [rc s1]. destruct (negb (rc =? 0)); [done|].
  cbn [xp with_xp]. destruct (netSupportedHas NetClientListAtom s1) as [n s2].
  destruct (negb (n =? 1)); [done|].
  cbn [xp with_xp]. destruct (refreshClientList s2) as [[xids rc'] s3].
  destruct (rc' <? 0); [done|]. cbn [listHash observeGen with_xp].
  by destruct (negb (listHash b =? 0) && negb (list_sum xids =? listHash b)).
Qed.

Lemma check_ref_spec ref xids b :
  (∃ s', snd (check_ref ref xids b) = with_xp s' b) ∧
  (fst (check_ref ref xids b) = None ∨ fst (check_ref ref xids b) = Some ErrRefMismatch) ∧
  (fst (check_ref ref xids b) = None ↔
     RDisplayGen ref = displayGen b ∧ RObserveGen ref = observeGen b ∧
     RXID ref ∈ xids ∧ window_fits ref (xp b)).
Proof.
  unfold check_ref, window_fits, mbind, B_bind, getb, onX, mret, B_ret.
  assert (b = with_xp (xp b) b) as Hb by (by destruct b).
  destruct (RDisplayGen ref =? displayGen b) eqn:E1; bools; cbn [negb orb];
    [|split_and!; [by exists (xp b)|by right|naive_solver]].
  destruct (RObserveGen ref =? observeGen b) eqn:E2; bools; cbn [negb];
    [|split_and!; [by exists (xp b)|by right|naive_solver]].
  case_bool_decide as E3; cbn [negb];
    [|split_and!; [by exists (xp b)|by right|naive_solver]].
  destruct (decide (ExpectedClass ref = "")) as [Ec|Ec];
    [rewrite bool_decide_eq_true_2 by done|rewrite bool_decide_eq_false_2 by done]; cbn [negb].
  - destruct (ExpectedPID ref =? 0) eqn:Ep; bools; cbn [negb].
    + split_and!; [by exists (xp b)|by left|naive_solver].
    + destruct (windowPID (RXID ref) (xp b)) as [pid s']. cbn [fst].
      destruct (pid =? ExpectedPID ref) eqn:Eq; bools; cbn [negb fst snd];
        (split_and!; [by exists s'|naive_solver|naive_solver]).
  - destruct (windowClass (RXID ref) (xp b)) as [class s1]. cbn [fst snd].
    case_bool_decide as E5; cbn [negb];
      [|split_and!; [by exists s1|by right|naive_solver]].
    destruct (ExpectedPID ref =? 0) eqn:Ep; bools; cbn [negb].
    + split_and!; [by exists s1|by left|naive_solver].
    + cbn [xp with_xp]. destruct (windowPID (RXID ref) s1) as [pid s2]. cbn [fst].
      destruct (pid =? ExpectedPID ref) eqn:Eq; bools; cbn [negb fst snd];
        (split_and!; [by exists s2|naive_solver|naive_solver]).
Qed.
End observe.

(** ** Requests of the methods *)
Section requests.
Context {D : Type} `{Xlib D} (polls : nat).
Implicit Types b : xDestBackend D.
Implicit Types s : xproc D.

Lemma waitPointer_silent x y n : silent (waitPointer (D := D) x y n).
Proof.
  induction n as [|n IH]; cbn; [apply silent_ret|]. apply silent_bind.
  - unfold queryPointer. apply silent_bind; [apply query_pointer_silent|silence].
  - intros [[px py] err]. case_match; [apply silent_ret|done].
Qed.

Lemma d_WarpMouse_in x y b :
  owner b = true → dpy (xp b) = true → is_sint 32 x → is_sint 32 y →
  ∃ d, d_WarpMouse polls x y b = Val None
    (with_xp (emit (xp b) [XWarpPointer (clamp x (screen_w (xp b))) (clamp y (screen_h (xp b))); XSync] d) b).
Proof.
  intros Ho Hd Hx Hy. unfold d_WarpMouse.
  assert ((x <? MinInt32) || (MaxInt32 <? x) || (y <? MinInt32) || (MaxInt32 <? y) = false) as ->.
  { unfold is_sint in *. assert (MaxInt32 = 2 ^ 31 - 1 ∧ MinInt32 = - 2 ^ 31) as [-> ->] by done.
    rewrite !orb_false_iff, !Z.ltb_ge. lia. }
  unfold run_owner. rewrite Ho. cbn [negb]. unfold mbind, B_bind, onX, moveMouse.
  rewrite !swrap_small by (done || lia).
  destruct (move_mouse_does x y (xp b) Hd) as [d ->]. cbn [xerr negb Z.eqb].
  destruct (does_silent (waitPointer x y polls)
    (emit (xp b) [XWarpPointer (clamp x (screen_w (xp b))) (clamp y (screen_h (xp b))); XSync] d)
    (waitPointer_silent x y polls)) as [d' E].
  exists d'. cbn [xp with_xp]. rewrite E, emit_emit, app_nil_r. done.
Qed.

Lemma d_WarpMouse_out x y b :
  ¬ (is_sint 32 x ∧ is_sint 32 y) →
  d_WarpMouse polls x y b = Val (Some errCoordOutOfRange) b.
Proof.
  intros Hn. unfold d_WarpMouse.
  assert ((x <? MinInt32) || (MaxInt32 <? x) || (y <? MinInt32) || (MaxInt32 <? y) = true) as ->; [|done].
  apply not_false_iff_true. intros E. apply Hn. bools. unfold is_sint.
  assert (MaxInt32 = 2 ^ 31 - 1 ∧ MinInt32 = - 2 ^ 31) as [? ?] by done. lia.
Qed.

(** The message that asks the window manager to activate a window. *)
Definition activate_message (a xid cur : Z) : client_message :=
  {| cm_window := xid; cm_message_type := a; cm_format := 32; cm_l := [2; CurrentTime; cur; 0; 0] |}.

Lemma sendNetActive_spec xid s rc s' :
  sendNetActive xid s = (rc, s') →
  (requests s' = requests s ∧ rc = -1) ∨
  (requests s' = requests s ++
     [XSendEvent ActivateEventMask
       (activate_message (a_net_active s) xid (fst (getActiveXID s))); XSync] ∧
     xid ≠ 0 ∧ (rc = 0 ∨ rc = -1)).
Proof.
  unfold sendNetActive, send_net_active, unless_ready, unless_dpy, mbind, X_bind, gets,
    mret, X_ret.
  destruct (dpy s); [|intros; simplify_eq; auto].
  destruct (dest_atoms_ready s); [|intros; simplify_eq; auto].
  destruct (xid =? 0) eqn:Ex; bools; [intros; simplify_eq; auto|].
  pose proof (does_silent get_active_xid s get_active_xid_silent) as [d E].
  cbv beta iota. rewrite E, emit_nil. unfold request.
  destruct (submit _ (server (with_server d s))) as [ok d1]. cbn.
  unfold sync, mbind, X_bind, request, mret, X_ret. cbn. destruct (submit XSync d1) as [ok' d2].
  intros; simplify_eq. right.
  split_and!; [|done|destruct ok; auto]. cbn [requests]. by rewrite <-app_assoc.
Qed.

Lemma setInputFocus_spec xid s rc s' :
  setInputFocus xid s = (rc, s') →
  (requests s' = requests s ∧ rc = -1) ∨
  (requests s' = requests s ++ [XSetInputFocus xid RevertToParent; XSync] ∧ rc = 0).
Proof.
  destruct (dpy s) eqn:Hd.
  - unfold setInputFocus, set_input_focus, unless_dpy, mbind at 1, X_bind at 1, gets. rewrite Hd.
    case_match; [unfold mret, X_ret; intros; simplify_eq; auto|].
    assert (does (_ ← request (XSetInputFocus xid RevertToParent); _ ← sync; mret 0) s
      [XSetInputFocus xid RevertToParent; XSync] 0) as [d ->].
    { apply does_then. intros. apply does_sync. intros. apply does_ret. }
    intros; simplify_eq. by right.
  - unfold setInputFocus, set_input_focus. rewrite no_dpy by done. intros; simplify_eq. auto.
Qed.

(** The state in which an activation is sent: the atoms were interned and the
    window manager's list of supported ones was read. *)
Definition supported_state s : xproc D :=
  snd (netSupportedHas "_NET_ACTIVE_WINDOW" (snd (internDestAtoms s))).

(** The atom the server gives out for _NET_ACTIVE_WINDOW, the third one that is
    interned. *)
Definition active_atom (d : D) : Z :=
  let d := snd (XInternAtom "_NET_SUPPORTED" d) in
  let d := snd (XInternAtom "_NET_CLIENT_LIST" d) in
  fst (XInternAtom "_NET_ACTIVE_WINDOW" d).

Lemma internDestAtoms_active s :
  fst (internDestAtoms s) = 0 → a_net_active (snd (internDestAtoms s)) = active_atom (server s).
Proof.
  unfold internDestAtoms, intern_dest_atoms, unless_dpy, active_atom, mbind, X_bind, gets, query,
    mret, X_ret. destruct (dpy s); [|done]. intros _.
  repeat (match goal with |- context [XInternAtom ?n ?d] =>
    destruct (XInternAtom n d) as [? ?] eqn:? end; cbn [snd fst server with_server] in * ).
  done.
Qed.

Lemma supported_state_active s :
  fst (internDestAtoms s) = 0 → a_net_active (supported_state s) = active_atom (server s).
Proof.
  intros Hs. rewrite <-internDestAtoms_active by done. unfold supported_state.
  by rewrite <-(netSupportedHas_silent "_NET_ACTIVE_WINDOW" (snd (internDestAtoms s))).
Qed.

Lemma d_ActivateAlwaysBoth_spec ref b err b' :
  d_ActivateAlwaysBoth ref b = (err, b') →
  (err = Some ErrUnavailable ∧ requests (xp b') = requests (xp b)) ∨
  (err = Some errXCall) ∨
  (err = None ∧ requests (xp b') = requests (xp b) ++
    [XSendEvent ActivateEventMask (activate_message (active_atom (server (xp b))) (RXID ref)
       (fst (getActiveXID (supported_state (xp b))))); XSync;
     XSetInputFocus (RXID ref) RevertToParent; XSync]).
Proof.
  unfold d_ActivateAlwaysBoth, when_supported. cbn [foldr].
  pose proof (internDestAtoms_quiet (xp b)) as Hq. pose proof (supported_state_active (xp b)) as Ha.
  pose proof (silent_quiet _ (netSupportedHas_silent NetActiveWindowAtom)
    (snd (internDestAtoms (xp b)))) as Hq'.
  unfold supported_state in *. change "_NET_ACTIVE_WINDOW" with NetActiveWindowAtom in *.
  unfold mbind, B_bind, onX, mret, B_ret.
  destruct (internDestAtoms (xp b)) as [rc s] eqn:Ei. cbn [fst snd xp with_xp] in *.
  destruct (rc =? 0) eqn:Er; bools; cbn [negb xp with_xp]; [subst|intros; simplify_eq; auto].
  destruct (netSupportedHas NetActiveWindowAtom s) as [n s1]. cbn [snd xp with_xp] in *.
  destruct (n =? 1) eqn:En; bools; cbn [negb xp with_xp];
    [|intros; simplify_eq; left; split; [done|]; cbn; congruence].
  specialize (Ha eq_refl).
  destruct (sendNetActive (RXID ref) s1) as [rc1 s2] eqn:E1.
  destruct (rc1 =? 0) eqn:Er1; bools; cbn [negb xp with_xp]; [subst|intros; simplify_eq; auto].
  cbn [xp with_xp]. destruct (setInputFocus (RXID ref) s2) as [rc2 s3] eqn:E2.
  destruct (rc2 =? 0) eqn:Er2; bools; cbn [negb xp with_xp]; intros; simplify_eq; [|auto].
  right; right. split; [done|].
  apply sendNetActive_spec in E1 as [[_ ?]|(E1 & _)]; [done|].
  apply setInputFocus_spec in E2 as [[_ ?]|[E2 _]]; [done|].
  cbn. by rewrite E2, E1, Ha, Hq', Hq, <-app_assoc.
Qed.
End requests.

(** ** A display nobody else changes *)

(** While no other client acts, reading the display does not change it. *)
Class QuietServer (D : Type) `{Xlib D} := {
  quiet_atom name (d : D) : snd (XInternAtom name d) = d;
  quiet_property w p n t (d : D) : snd (XGetWindowProperty w p n t d) = d;
  quiet_geometry w (d : D) : snd (XGetGeometry w d) = d;
  quiet_translate w (d : D) : snd (XTranslateCoordinates w d) = d;
  quiet_class w (d : D) : snd (XGetClassHint w d) = d;
  quiet_name w (d : D) : snd (XFetchName w d) = d;
}.

Section undisturbed.
Context {D : Type} `{QuietServer D}.
Implicit Types s : xproc D.
Implicit Types b : xDestBackend D.

Definition pure {A} (m : XM D A) : Prop := ∀ s, snd (m s) = s.

Lemma pure_ret {A} (a : A) : pure (mret a).
Proof. done. Qed.
Lemma pure_gets {A} (f : xproc D → A) : pure (gets f).
Proof. done. Qed.
Lemma pure_query {A} (q : D → A * D) : (∀ d, snd (q d) = d) → pure (query q).
Proof.
  intros Hq s. unfold query. specialize (Hq (server s)). destruct (q (server s)) as [a d].
  cbn in *. subst. by destruct s.
Qed.
Lemma pure_bind {A A'} (m : XM D A) (f : A → XM D A') :
  pure m → (∀ a, pure (f a)) → pure (m ≫= f).
Proof.
  intros Hm Hf s. unfold mbind, X_bind. specialize (Hm s). destruct (m s) as [a s1].
  cbn in Hm. subst. apply Hf.
Qed.

Ltac purely :=
  intros;
  repeat first
    [ done
    | apply pure_ret | apply pure_gets
    | apply pure_query; intros;
      first [ apply quiet_atom | apply quiet_property | apply quiet_geometry
            | apply quiet_translate | apply quiet_class | apply quiet_name ]
    | apply pure_bind; [|intros]
    | match goal with |- pure (match ?x with _ => _ end) => destruct x end
    | match goal with |- pure (if ?x then _ else _) => destruct x end ].

Lemma netSupportedHas_pure name : pure (netSupportedHas name).
Proof.
  unfold netSupportedHas, net_supported_has, get_atom_list, unless_ready, unless_dpy. purely.
Qed.
Lemma refreshClientList_pure : pure refreshClientList.
Proof. unfold refreshClientList, refresh_client_list, unless_ready, unless_dpy. purely. Qed.
Lemma windowClass_pure xid : pure (windowClass xid).
Proof. unfold windowClass, window_class, unless_dpy. purely. Qed.
Lemma windowPID_pure xid : pure (windowPID xid).
Proof. unfold windowPID, window_pid, unless_ready, unless_dpy. purely. Qed.
Lemma windowName_pure xid : pure (windowName xid).
Proof. unfold windowName, window_name, unless_dpy. purely. Qed.
Lemma windowGeometry_pure xid : pure (windowGeometry xid).
Proof. unfold windowGeometry, window_geometry, unless_dpy. purely. Qed.
Lemma windowHasFullscreen_pure xid : pure (windowHasFullscreen xid).
Proof.
  unfold windowHasFullscreen, window_has_fullscreen, get_atom_list, unless_ready, unless_dpy. purely.
Qed.

(** Interning the atoms again changes nothing. *)
Lemma internDestAtoms_idemp s rc s1 :
  internDestAtoms s = (rc, s1) → internDestAtoms s1 = (rc, s1).
Proof.
  unfold internDestAtoms, intern_dest_atoms, unless_dpy, mbind, X_bind, gets, query, mret, X_ret.
  destruct (dpy s) eqn:Hd.
  - repeat match goal with
    | |- context [XInternAtom ?n ?d] =>
      let a := fresh "a" in let Hq := fresh "Hq" in
      pose proof (quiet_atom n d) as Hq; destruct (XInternAtom n d) as [a ?] eqn:?;
      cbn [snd with_server server] in Hq |- *; subst
    end.
    cbn. intros; simplify_eq. cbn. rewrite Hd.
    repeat (cbn [server with_server];
      match goal with E : XInternAtom _ _ = _ |- _ => rewrite E; clear E end). done.
  - intros; simplify_eq. by rewrite Hd.
Qed.

Lemma pure_run {A} (m : XM D A) s : pure m → m s = (fst (m s), s).
Proof. intros Hm. specialize (Hm s). destruct (m s). cbn in *. congruence. Qed.

(** The windows are read without changing anything, and carry the current
    generations. *)
Lemma window_info_pure id b : snd (window_info id b) = b.
Proof.
  unfold window_info, mbind, B_bind, getb, onX.
  rewrite (pure_run _ _ (windowClass_pure id)). cbn [xp with_xp].
  rewrite (pure_run _ _ (windowPID_pure id)). cbn [xp with_xp].
  rewrite (pure_run _ _ (windowName_pure id)). cbn [xp with_xp].
  rewrite (pure_run _ _ (windowGeometry_pure id)). cbn [xp with_xp].
  destruct (fst (windowGeometry id (xp b))) as [[[[x y] w] h] ge].
  rewrite (pure_run _ _ (windowHasFullscreen_pure id)). by destruct b.
Qed.

Lemma window_info_ref id b :
  let w := fst (window_info id b) in
  XID w = id ∧ Class w = fst (windowClass id (xp b)) ∧ PID w = fst (windowPID id (xp b)) ∧
  DisplayGen w = displayGen b ∧ ObserveGen w = observeGen b.
Proof.
  unfold window_info, mbind, B_bind, getb, onX.
  rewrite (pure_run _ _ (windowClass_pure id)). cbn [xp with_xp].
  rewrite (pure_run _ _ (windowPID_pure id)). cbn [xp with_xp].
  rewrite (pure_run _ _ (windowName_pure id)). cbn [xp with_xp].
  rewrite (pure_run _ _ (windowGeometry_pure id)). cbn [xp with_xp].
  destruct (fst (windowGeometry id (xp b))) as [[[[x y] w] h] ge].
  rewrite (pure_run _ _ (windowHasFullscreen_pure id)). done.
Qed.

Lemma window_infos_spec xids b :
  window_infos xids b = (map (λ id, fst (window_info id b)) xids, b).
Proof.
  induction xids as [|id xids IH]; [done|]. cbn [window_infos map].
  unfold mbind at 1, B_bind at 1. pose proof (window_info_pure id b) as Hp.
  destruct (window_info id b) as [w b1]. cbn [snd] in Hp. subst.
  unfold mbind, B_bind. by rewrite IH.
Qed.
End undisturbed.

(** ** An example: a display with one window *)
Record one_window := { ow_list : list Z; ow_class : string }.

Definition ow_atom (name : string) : Z := Z.of_nat (String.length name).

#[global] Instance one_window_Xlib : Xlib one_window := {|
  submit r d := (true, d);
  XInitThreads d := (true, d);
  XOpenDisplay d := (true, d);
  XQueryExtension _ d := (false, d);
  DisplayWidth _ := 1280;
  DisplayHeight _ := 720;
  DefaultRootWindow _ := 1;
  XQueryKeymap d := ([], d);
  XStringToKeysym _ := NoSymbol;
  XKeysymToKeycode _ _ := 0;
  XInternAtom name d := (ow_atom name, d);
  XGetWindowProperty w p n t d :=
    (if t =? XA_ATOM then
       {| p_status := Success; p_type := t; p_format := 32; p_nitems := 2;
          p_data := Some [ow_atom NetClientListAtom; ow_atom NetActiveWindowAtom] |}
     else if t =? XA_WINDOW then
       {| p_status := Success; p_type := t; p_format := 32;
          p_nitems := Z.of_nat (length (ow_list d)); p_data := Some (ow_list d) |}
     else {| p_status := 1; p_type := 0; p_format := 0; p_nitems := 0; p_data := None |}, d);
  XGetGeometry _ d := (Some (640, 480), d);
  XTranslateCoordinates _ d := ((10, 20), d);
  XGetClassHint _ d := (Some (Some (ow_class d)), d);
  XFetchName _ d := (None, d);
  XQueryPointer d := (None, d)
|}.

#[global] Instance one_window_quiet : QuietServer one_window.
Proof. split; done. Qed.

Definition ow_backend (list : list Z) : xDestBackend one_window :=
  destBackend (opened {| ow_list := list; ow_class := "Example" |} 1280 720).

Definition ow_ref (gen xid : Z) : WindowRef :=
  {| RDisplayGen := 1; RObserveGen := gen; RXID := xid; ExpectedClass := "Example";
     ExpectedPID := 0 |}.

Lemma run_owner_val {D A} `{Xlib D} (m : B D A) b :
  owner b = true → run_owner m b = Val (fst (m b)) (snd (m b)).
Proof. intros Ho. unfold run_owner. rewrite Ho. cbn. by destruct (m b). Qed.

(** A window request starts with the revalidation, and ends with it if it
    fails. *)
Lemma Dispatch_revalidates sch r sess :
  Op r = OpActivate ∨ Op r = OpFullscreen →
  ∃ k, Dispatch sch r sess false = Call (Revalidate (Window r)) k ∧
       ∀ e, k (Some e) = Ret (mapBackendError (Some e), sess).
Proof.
  intros [Hop|Hop]; unfold Dispatch; rewrite Hop; eexists; (split; [reflexivity|done]).
Qed.

(** The client list is read the same way the second time. *)
Lemma observed_again {D} `{QuietServer D} (b b' : xDestBackend D) xids s :
  observed b = (Some xids, s) → xp b' = s → observed b' = (Some xids, s).
Proof.
  unfold observed. destruct (internDestAtoms (xp b)) as [rc s1] eqn:E1.
  destruct (negb (rc =? 0)) eqn:Er; [done|].
  pose proof (netSupportedHas_pure NetClientListAtom s1) as H1.
  destruct (netSupportedHas NetClientListAtom s1) as [n s2] eqn:E2. cbn [snd] in H1. subst s2.
  destruct (negb (n =? 1)) eqn:En; [done|].
  pose proof (refreshClientList_pure s1) as H2.
  destruct (refreshClientList s1) as [[xs rc'] s3] eqn:E3. cbn [snd] in H2. subst s3.
  destruct (rc' <? 0) eqn:Ec; [done|]. intros [= <- <-] Hx.
  rewrite Hx, (internDestAtoms_idemp _ _ _ E1), Er, E2, En, E3, Ec. done.
Qed.

Lemma d_ManagedClients_unfold {D} `{Xlib D} (b : xDestBackend D) :
  d_ManagedClients b =
  match observed b with
  | (None, s) => (([], Some ErrUnavailable), with_xp s b)
  | (Some xids, s) =>
    let '(out, b') := window_infos xids
      (with_list (next_gen b xids) (list_sum xids) (with_xp s b)) in
    ((out, None), b')
  end.
Proof.
  unfold d_ManagedClients, when_supported, observed, next_gen, list_changed.
  cbn [foldr]. unfold mbind, B_bind, onX, getb, set_list.
  destruct (internDestAtoms (xp b)) as [rc s1]. destruct (negb (rc =? 0)); [done|].
  cbn [xp with_xp]. destruct (netSupportedHas NetClientListAtom s1) as [n s2].
  destruct (negb (n =? 1)); [done|].
  cbn [xp with_xp]. destruct (refreshClientList s2) as [[xids rc'] s3].
  destruct (rc' <? 0); [done|]. done.
Qed.

(** ** The theorems *)

(** C6: revalidation is exact.  When the window manager's client list can be
    read, [Revalidate] records its 64-bit hash.  If a hash was recorded before
    (one that is not zero) and the new one differs, the observation generation
    moves on and every reference is refused; otherwise the generation stays, and
    the reference is accepted exactly when both its generations are current, its
    window is in the list and the window has the expected class and process.
    The hash may collide for some pairs of lists, but not when one window of the
    recorded list is replaced by another one: then, if the recorded hash is not
    zero, every reference is refused.
    An unreadable list refuses every reference as Unavailable and records
    nothing. *)
Theorem dest_revalidate_exact {D} `{Xlib D} ref (b : xDestBackend D) :
  let '(seen, s) := observed b in
  let '(err, b') := d_Revalidate ref b in
  match seen with
  | None => err = Some ErrUnavailable ∧ b' = with_xp s b
  | Some xids =>
    let changed := listHash b ≠ 0 ∧ list_sum xids ≠ listHash b in
    listHash b' = list_sum xids ∧ displayGen b' = displayGen b ∧
    (changed → err = Some ErrRefMismatch ∧ observeGen b' = (observeGen b + 1) mod 2 ^ 64) ∧
    (¬ changed →
       observeGen b' = observeGen b ∧ (err = None ∨ err = Some ErrRefMismatch) ∧
       (err = None ↔ RDisplayGen ref = displayGen b ∧ RObserveGen ref = observeGen b ∧
                     RXID ref ∈ xids ∧ window_fits ref s)) ∧
    (∀ old, listHash b = list_sum old → listHash b ≠ 0 → replaced old xids →
       err = Some ErrRefMismatch)
  end.
Proof.
  rewrite d_Revalidate_unfold. destruct (observed b) as [[xids|] s]; [|done]. cbv zeta.
  destruct (list_changed b xids) eqn:Hc; pose proof (list_changed_spec b xids) as Hn; rewrite Hc in Hn.
  { unfold next_gen. rewrite Hc. split_and!; [done..|naive_solver|done]. }
  pose proof (check_ref_spec ref xids (with_list (next_gen b xids) (list_sum xids) (with_xp s b)))
    as ([s' Hs] & He & Hi).
  destruct (check_ref ref xids _) as [err b'']. cbn [fst snd] in *. subst.
  cbn [listHash displayGen observeGen with_xp with_list xp] in *.
  unfold next_gen in *. rewrite Hc in *. split_and!; [done..|].
  intros old Ho Hz Hr%list_sum_replaced. destruct Hn. split; [done|congruence].
Qed.

(** The one window of the display was replaced since the last look. *)
Definition ow_replaced : xDestBackend one_window :=
  let b := snd (d_Revalidate (ow_ref 1 7) (ow_backend [7])) in
  with_xp (with_server {| ow_list := [8]; ow_class := "Example" |} (xp b)) b.

Lemma dest_revalidate_exact_witness : fst (d_Revalidate (ow_ref 1 8) ow_replaced) = Some ErrRefMismatch.
Proof.
  pose proof (dest_revalidate_exact (ow_ref 1 8) ow_replaced) as H.
  replace (observed ow_replaced) with (Some [8], snd (observed ow_replaced)) in H
    by (vm_compute; reflexivity).
  destruct (d_Revalidate (ow_ref 1 8) ow_replaced) as [err b'].
  destruct H as (_ & _ & _ & _ & H). apply (H [7]).
  - vm_compute. reflexivity.
  - vm_compute. discriminate.
  - exists [], 7, 8, []. repeat split; vm_compute; congruence.
Defined.

(** C5: a stale reference cannot act: if revalidation refuses the window of an
    activate or fullscreen line, the reply is the code of that refusal, the
    session is untouched and not one request is submitted to the X server. *)
Theorem stale_window_untouched {D} `{Xlib D} polls sch line r sess (b : xDestBackend D) e :
  owner b = true → denotes line r → Op r = OpActivate ∨ Op r = OpFullscreen →
  fst (d_Revalidate (Window r) b) = Some e →
  ∃ b', run (H := dest_backend polls) (HandleLine sch line sess false) b =
          Val (mapBackendError (Some e), sess) b' ∧
        requests (xp b') = requests (xp b).
Proof.
  intros Ho Hd Hop He. exists (snd (d_Revalidate (Window r) b)).
  split; [|apply d_Revalidate_quiet].
  unfold HandleLine. rewrite (proj2 (Decode_submitted line r) Hd). cbn [Code submitted].
  rewrite bool_decide_eq_true_2 by done.
  destruct (Dispatch_revalidates sch r sess Hop) as (k & -> & Hk).
  cbn [run]. change (handle (Revalidate (Window r)) b) with (run_owner (d_Revalidate (Window r)) b).
  by rewrite run_owner_val, He, Hk.
Qed.

Lemma stale_window_untouched_witness :
  ∃ b', run (H := dest_backend 25)
          (HandleLine tree_schedule (render (window_request OpActivate (ow_ref 1 8) false))
             (Some NewSession) false) (ow_backend [7]) =
          Val (mapBackendError (Some ErrRefMismatch), Some NewSession) b' ∧
        requests (xp b') = requests (xp (ow_backend [7])).
Proof.
  apply (stale_window_untouched 25 tree_schedule _ (window_request OpActivate (ow_ref 1 8) false)).
  - reflexivity.
  - apply Decode_submitted. vm_compute. reflexivity.
  - left. reflexivity.
  - vm_compute. reflexivity.
Defined.

(** What inspect shows can be acted on: on a display that nobody else
    changes, the reference made from any window of the inspect reply (its
    generations, identifier, class and process) passes revalidation
    afterwards. *)
Theorem dest_inspect_then_revalidate {D} `{QuietServer D} (b b' : xDestBackend D) ws w :
  d_ManagedClients b = ((ws, None), b') → w ∈ ws →
  fst (d_Revalidate {| RDisplayGen := DisplayGen w; RObserveGen := ObserveGen w; RXID := XID w;
                       ExpectedClass := Class w; ExpectedPID := PID w |} b') = None.
Proof.
  rewrite d_ManagedClients_unfold. destruct (observed b) as [[xids|] s] eqn:Eo; [|done].
  rewrite window_infos_spec. intros E Hw. simplify_eq.
  apply list_elem_of_fmap in Hw as (id & -> & Hid).
  set (b1 := with_list (next_gen b xids) (list_sum xids) (with_xp s b)).
  rewrite d_Revalidate_unfold, (observed_again b b1 xids s Eo) by done. cbv zeta.
  unfold list_changed. cbn [listHash b1 with_list]. rewrite Z.eqb_refl, andb_false_r.
  apply check_ref_spec. pose proof (window_info_ref id b1) as Hw. revert Hw. cbv zeta.
  generalize (fst (window_info id b1)). intros w (Hx & Hc & Hp & Hd & Ho).
  cbn [RDisplayGen RObserveGen RXID]. rewrite Hd, Ho, Hx. unfold next_gen, list_changed.
  cbn [listHash observeGen displayGen with_list with_xp b1]. rewrite Z.eqb_refl, andb_false_r.
  split_and!; try done. unfold window_fits. cbn [ExpectedClass ExpectedPID RXID xp with_xp with_list].
  rewrite Hc, Hp. split; right; [done|].
  case_decide; [done|]. by rewrite windowClass_pure.
Qed.

Lemma dest_inspect_then_revalidate_witness :
  fst (d_Revalidate (ow_ref 1 4194307)
    (snd (d_ManagedClients (ow_backend [4194307])))) = None.
Proof.
  apply (dest_inspect_then_revalidate (ow_backend [4194307]) _
    (fst (fst (d_ManagedClients (ow_backend [4194307]))))
    {| XID := 4194307; Class := "Example"; PID := 0; Name := ""; X := 10; Y := 20; Width := 640;
       Height := 480; State := []; DisplayGen := 1; ObserveGen := 1 |}).
  - vm_compute. reflexivity.
  - vm_compute. left.
Defined.

(** C27: a move is bounded and exact: coordinates outside the 32-bit range of
    Xlib are refused without touching the backend; with an open display of at
    least one pixel, any others lead to success and to exactly one warp, to the
    nearest point of the screen. *)
Theorem dest_warp_exact {D} `{Xlib D} polls x y (b : xDestBackend D) :
  owner b = true → dpy (xp b) = true →
  1 ≤ screen_w (xp b) ≤ MaxInt32 → 1 ≤ screen_h (xp b) ≤ MaxInt32 →
  (¬ (is_sint 32 x ∧ is_sint 32 y) →
     d_WarpMouse polls x y b = Val (Some errCoordOutOfRange) b) ∧
  (is_sint 32 x → is_sint 32 y →
     ∃ d, d_WarpMouse polls x y b = Val None (with_xp (emit (xp b)
       [XWarpPointer (Z.max 0 (Z.min x (screen_w (xp b) - 1)))
                     (Z.max 0 (Z.min y (screen_h (xp b) - 1))); XSync] d) b)).
Proof.
  intros Ho Hd Hw Hh. split; [apply d_WarpMouse_out|]. intros Hx Hy.
  rewrite <-!clamp_screen by done. by apply d_WarpMouse_in.
Qed.

Lemma dest_warp_exact_witness :
  ∃ d, d_WarpMouse 25 2000 (-3) (ow_backend [7]) =
    Val None (with_xp (emit (xp (ow_backend [7])) [XWarpPointer 1279 0; XSync] d) (ow_backend [7])).
Proof.
  apply (dest_warp_exact 25 2000 (-3) (ow_backend [7])); vm_compute; intuition congruence.
Defined.

(** C28: an activation that is reported as done used both mechanisms, in order:
    the client message _NET_ACTIVE_WINDOW (by the atom the server gives out for
    that name) to the root window for the window of the reference, with the
    pager source indication, no time stamp, the window that was active and both
    substructure masks, then the input focus, each flushed; one reported as
    Unavailable submitted nothing. *)
Theorem dest_activation_exact {D} `{Xlib D} ref (b : xDestBackend D) err b' :
  d_ActivateAlwaysBoth ref b = (err, b') →
  (err = None → requests (xp b') = requests (xp b) ++
     [XSendEvent (Z.lor (2 ^ 20) (2 ^ 19))
        {| cm_window := RXID ref; cm_message_type := active_atom (server (xp b)); cm_format := 32;
           cm_l := [2; 0; fst (getActiveXID (supported_state (xp b))); 0; 0] |}; XSync;
      XSetInputFocus (RXID ref) 2; XSync]) ∧
  (err = Some ErrUnavailable → requests (xp b') = requests (xp b)).
Proof. intros [[-> ?]|[->|[-> ?]]]%d_ActivateAlwaysBoth_spec; naive_solver. Qed.

(** The atom of _NET_ACTIVE_WINDOW is 18 on the display of the example. *)
Lemma dest_activation_exact_witness :
  requests (xp (snd (d_ActivateAlwaysBoth (ow_ref 1 7) (ow_backend [7])))) =
    requests (xp (ow_backend [7])) ++
    [XSendEvent 1572864
       {| cm_window := 7; cm_message_type := 18; cm_format := 32; cm_l := [2; 0; 7; 0; 0] |}; XSync;
     XSetInputFocus 7 2; XSync].
Proof.
  assert (d_ActivateAlwaysBoth (ow_ref 1 7) (ow_backend [7]) =
    (None, snd (d_ActivateAlwaysBoth (ow_ref 1 7) (ow_backend [7])))) as E by (vm_compute; reflexivity).
  rewrite (proj1 (dest_activation_exact _ _ _ _ E) eq_refl). vm_compute. reflexivity.
Defined.
