(* ===== verification/Scanner.v ===== *)
(** * Lines on a connection (bufio.Scanner with ScanLines)

    The tokens a line scanner produces from everything a connection delivers.
    The buffer of a scanner holds at most [max] bytes: a line together with its
    terminator must fit, and an unterminated last line must leave room for the
    read that finds the end. *)

From S2P Require Import Prelude GoStrings.
Local Open Scope Z_scope.

Definition lf : ascii := "010"%char.
Definition cr : ascii := "013"%char.

(** [dropCR], on a reversed line. *)
Definition drop_cr_rev (l : list ascii) : list ascii :=
  match l with
  | c :: l' => if bool_decide (c = cr) then l' else l
  | [] => []
  end.

Definition token_of (cur : list ascii) : string := str (reverse (drop_cr_rev cur)).

(** [cur] is the line being read, last byte first, [n] its length.  The second
    result is [sc.Err()], with [ioerr] the error that ended the connection
    ([None]: end of file). *)
Fixpoint scan_from (max : Z) (ioerr : option error) (cur : list ascii) (n : Z) (l : list ascii)
    : list string * option error :=
  match l with
  | [] => ((if n =? 0 then [] else [token_of cur]), ioerr)
  | c :: l' =>
    if bool_decide (c = lf) then
      let '(toks, err) := scan_from max ioerr [] 0 l' in (token_of cur :: toks, err)
    else if max <=? n + 1 then ([], Some bufio_ErrTooLong)
    else scan_from max ioerr (c :: cur) (n + 1) l'
  end.

Definition ScanAll (max : Z) (ioerr : option error) (l : list ascii) : list string * option error :=
  scan_from max ioerr [] 0 l.

(** The limits in use: the default one and the daemon's. *)
Definition MaxScanTokenSize : Z := 64 * 1024.
Definition maxLine : Z := Z.shiftl 1 20.

(** ** Facts *)

(** A line without its carriage return. *)
Definition dropCR (s : string) : string := str (reverse (drop_cr_rev (reverse (bytes s)))).

Lemma token_of_line s : token_of (reverse (bytes s)) = dropCR s.
Proof. done. Qed.

Lemma scan_line max ioerr cur n x l :
  lf ∉ x → n + Z.of_nat (length x) < max →
  scan_from max ioerr cur n (x ++ lf :: l) =
  let '(toks, err) := scan_from max ioerr [] 0 l in (token_of (reverse x ++ cur) :: toks, err).
Proof.
  revert cur n. induction x as [|c x IH]; intros cur n Hx Hn; cbn [app scan_from].
  - by rewrite bool_decide_eq_true_2.
  - apply not_elem_of_cons in Hx as [Hc Hx]. cbn [length] in Hn.
    rewrite bool_decide_eq_false_2, (proj2 (Z.leb_gt max (n + 1))) by (done || lia).
    rewrite IH by (done || lia). by rewrite reverse_cons, <-app_assoc.
Qed.

Lemma scan_too_long max ioerr cur n x l :
  lf ∉ x → 0 ≤ n < max → max ≤ n + Z.of_nat (length x) →
  scan_from max ioerr cur n (x ++ l) = ([], Some bufio_ErrTooLong).
Proof.
  revert cur n. induction x as [|c x IH]; intros cur n Hx Hn Hm; cbn [length] in Hm; [lia|].
  apply not_elem_of_cons in Hx as [Hc Hx]. cbn [app scan_from].
  rewrite bool_decide_eq_false_2 by done.
  destruct (max <=? n + 1) eqn:E; [done|]. bools. apply IH; [done|lia|lia].
Qed.

(** Terminated lines that fit are scanned one by one, whatever follows. *)
Lemma ScanAll_lines max ioerr ls l :
  Forall (λ s, (lf ∉ bytes s) ∧ len s < max) ls →
  ScanAll max ioerr (concat (map (λ s, bytes s ++ [lf]) ls) ++ l) =
  let '(toks, err) := ScanAll max ioerr l in (map dropCR ls ++ toks, err).
Proof.
  unfold ScanAll. induction 1 as [|s ls [Hs Hl] _ IH]; [cbn; by case_match|].
  cbn [map concat]. rewrite <-!app_assoc. cbn [app]. unfold len in Hl.
  rewrite scan_line by (done || lia). rewrite IH. rewrite app_nil_r.
  by destruct (scan_from max ioerr [] 0 l).
Qed.

(** No token holds a line feed, and none is longer than the buffer. *)
Lemma drop_cr_rev_suffix l : ∃ k, l = k ++ drop_cr_rev l.
Proof.
  destruct l as [|c l]; [by exists []|]. cbn. case_match; [by exists [c]|by exists []].
Qed.

Lemma token_of_clean cur n max :
  lf ∉ cur → Z.of_nat (length cur) = n → n < max →
  (lf ∉ bytes (token_of cur)) ∧ len (token_of cur) < max.
Proof.
  intros Hc Hn Hm. unfold token_of, len. rewrite bytes_str, elem_of_reverse, length_reverse.
  destruct (drop_cr_rev_suffix cur) as [k Hk]. rewrite Hk in Hc, Hn.
  rewrite length_app in Hn. apply not_elem_of_app in Hc as [_ ?]. split; [done|lia].
Qed.

Lemma scan_from_tokens max ioerr cur n l toks err :
  lf ∉ cur → Z.of_nat (length cur) = n → n < max →
  scan_from max ioerr cur n l = (toks, err) →
  Forall (λ s, (lf ∉ bytes s) ∧ len s < max) toks.
Proof.
  revert cur n toks. induction l as [|c l IH]; intros cur n toks Hc Hn Hm; cbn [scan_from].
  - intros; simplify_eq. case_match; [constructor|]. constructor; [|constructor].
    by eapply token_of_clean.
  - case_bool_decide as E.
    + destruct (scan_from max ioerr [] 0 l) as [toks' err'] eqn:Es. intros; simplify_eq.
      constructor; [by eapply token_of_clean|].
      apply (IH [] 0 toks'); [apply not_elem_of_nil|done|lia|done].
    + destruct (max <=? n + 1) eqn:El; [intros; simplify_eq; constructor|]. bools.
      apply IH; [|cbn [length]; lia|lia]. apply not_elem_of_cons. auto.
Qed.

Lemma ScanAll_tokens max ioerr l :
  0 < max → Forall (λ s, (lf ∉ bytes s) ∧ len s < max) (fst (ScanAll max ioerr l)).
Proof.
  intros Hm. unfold ScanAll. destruct (scan_from max ioerr [] 0 l) as [toks err] eqn:E.
  eapply (scan_from_tokens _ _ [] 0); [apply not_elem_of_nil|done|done|exact E].
Qed.
