(* ===== verification/Client.v ===== *)
(** * The client library (x11input/client.go)

    A client writes lines to a command connection.  The connection and the
    context are what their methods answer; each operation gives its result and
    what it does to the connection. *)

From S2P Require Import Prelude GoStrings Scanner.
Local Open Scope Z_scope.
Import strings.

Record Client := {
  conn : bool;       (* not nil *)
  ready : string;
}.

Definition New : Client := {| conn := true; ready := "" |}.

(** A context: nil, or its error and whether it has a deadline. *)
Record context := { ctx_err : option error; has_deadline : bool }.

(** [Dial]: [dialed] is the answer of [DialContext]. *)
Definition Dial (ctx : option context) (dialed : option error) : result Client :=
  match ctx with
  | None => Err (errors_New "x11input: nil context")
  | Some _ =>
    match dialed with
    | Some err => Err (fmt_Errorf "x11input: dial: " err)
    | None => Ok New
    end
  end.

(** [WaitReady]: [input] is what the reader delivers ([None]: a nil reader),
    [ioerr] the error it ends with, [done] says that the context was done
    first. *)
Definition WaitReady (ctx : option context) (input : option (list ascii)) (ioerr : option error)
    (done : option error) : result string :=
  match ctx with
  | None => Err (errors_New "x11input: nil context")
  | Some _ =>
    match input with
    | None => Err (errors_New "x11input: nil reader")
    | Some l =>
      match done with
      | Some err => Err err
      | None =>
        match ScanAll MaxScanTokenSize ioerr l with
        | ([], err) => Err (fmt_Errorf "x11input: read READY: " (default io_EOF err))
        | (line :: _, _) =>
          if negb (bool_decide (line = "READY")) && negb (HasPrefix line "READY tcp:")
          then Err (errors_New "x11input: unexpected handshake")
          else Ok line
        end
      end
    end
  end.

Definition Ready (c : option Client) : string :=
  match c with None => "" | Some c => ready c end.

Definition SetReady (c : option Client) (r : string) : option Client :=
  match c with None => None | Some c => Some {| conn := conn c; ready := r |} end.

(** [WriteLine]: the error returned and the bytes handed to [conn.Write], if it
    was called.  [set_deadline] and [written] are the answers of the
    connection. *)
Definition WriteLine (ctx : option context) (c : option Client) (line : string)
    (set_deadline : option error) (written : Z * option error)
    : option error * option (list ascii) :=
  match ctx with
  | None => (Some (errors_New "x11input: nil context"), None)
  | Some ctx =>
    match ctx_err ctx with
    | Some err => (Some err, None)
    | None =>
      match c with
      | None => (Some (errors_New "x11input: nil client"), None)
      | Some c =>
        if negb (conn c) then (Some net_ErrClosed, None) else
        let trimmed := TrimRight line [lf] in
        if ContainsAny trimmed [lf; "000"%char]
        then (Some (errors_New "x11input: line must be a single command"), None)
        else if Z.shiftl 1 20 <? len trimmed
        then (Some (errors_New "x11input: line too long"), None)
        else
          let payload := bytes trimmed ++ [lf] in
          match (if has_deadline ctx then set_deadline else None) with
          | Some err => (Some (fmt_Errorf "x11input: write deadline: " err), None)
          | None =>
            let '(n, err) := written in
            match err with
            | Some err => (Some (fmt_Errorf "x11input: write: " err), Some payload)
            | None =>
              if negb (n =? Z.of_nat (length payload))
              then (Some (fmt_Errorf "x11input: write: " io_ErrShortWrite), Some payload)
              else (None, Some payload)
            end
          end
      end
    end
  end.

(** [Close]: the error, the client afterwards and whether the connection was
    closed; [closed] is the answer of [conn.Close]. *)
Definition Close (c : option Client) (closed : option error)
    : option error * option Client * bool :=
  match c with
  | None => (None, None, false)
  | Some c =>
    if negb (conn c) then (None, Some c, false)
    else (closed, Some {| conn := false; ready := ready c |}, true)
  end.
