(* ===== verification/Ready.v ===== *)
(** * Readiness lines (cmd/xtest-server/ready.go) *)

From S2P Require Import Prelude GoStrings.

Definition stdinReadyLine : string := "READY".
Definition tcpReadyLine (port : Z) : string := "READY tcp:" +:+ strconv.Itoa port.
Definition destModeLine (path : string) : string := "xtest-server: mode dest unix " +:+ path.
