(* ===== verification/ClientSpec.v ===== *)
(** * The client and the daemon agree on lines and on the handshake *)

From S2P Require Import Prelude GoStrings Scanner Client Ready.
Local Open Scope Z_scope.
Import strings.

Lemma ContainsAny_spec s cs : ContainsAny s cs = false ↔ ∀ c, c ∈ cs → c ∉ bytes s.
Proof.
  unfold ContainsAny. split.
  - intros E c Hc Hs. apply not_true_iff_false in E. apply E. apply existsb_exists.
    exists c. split; [by apply list_elem_of_In|]. apply existsb_exists.
    exists c. split; [by apply list_elem_of_In|]. by apply bool_decide_eq_true_2.
  - intros Hc. apply not_true_iff_false. intros (c & Hin & (d & Hd & E)%existsb_exists)%existsb_exists.
    bools. subst. apply (Hc d); by apply list_elem_of_In.
Qed.

(** What a write that was attempted handed to the connection. *)
Lemma WriteLine_payload ctx c line sd wr err payload :
  WriteLine ctx c line sd wr = (err, Some payload) →
  payload = bytes (TrimRight line [lf]) ++ [lf] ∧
  (lf ∉ bytes (TrimRight line [lf])) ∧ ("000"%char ∉ bytes (TrimRight line [lf])) ∧
  len (TrimRight line [lf]) ≤ Z.shiftl 1 20.
Proof.
  unfold WriteLine. intros H.
  repeat (case_match; try discriminate H). all: simplify_eq; bools.
  all: match goal with Hc : ContainsAny _ _ = false |- _ => rewrite ContainsAny_spec in Hc;
    split_and!; [done|apply Hc; set_solver|apply Hc; set_solver|done] end.
Qed.

(** A line as the daemon gets it. *)
Definition received (line : string) : string := dropCR (TrimRight line [lf]).

Lemma scan_first max ioerr cur n l c rest toks err t :
  cur = rest ++ [c] → c ≠ cr ∨ rest ≠ [] →
  scan_from max ioerr cur n l = (t :: toks, err) → 0 < n → ∃ s, t = String c s.
Proof.
  revert cur n rest. induction l as [|d l IH]; intros cur n rest -> Hr; cbn [scan_from].
  - intros E Hn. rewrite (proj2 (Z.eqb_neq n 0)) in E by lia. simplify_eq.
    unfold token_of. destruct rest as [|x rest]; cbn [app drop_cr_rev].
    + rewrite bool_decide_eq_false_2 by (by destruct Hr). by exists "".
    + case_match; cbn [app]; rewrite ?reverse_cons, reverse_app; eexists; done.
  - case_bool_decide.
    + destruct (scan_from max ioerr [] 0 l) as [toks' err']. intros E Hn. simplify_eq.
      unfold token_of. destruct rest as [|x rest]; cbn [app drop_cr_rev].
      * rewrite bool_decide_eq_false_2 by (by destruct Hr). by exists "".
      * case_match; cbn [app]; rewrite ?reverse_cons, reverse_app; eexists; done.
    + case_match; [done|]. intros E Hn. eapply (IH _ _ (d :: rest)); [done|by right|done|lia].
Qed.

(** The first token of a text starts as the text starts. *)
Lemma ScanAll_first max ioerr c l t toks err :
  c ≠ cr → c ≠ lf → ScanAll max ioerr (c :: l) = (t :: toks, err) → ∃ s, t = String c s.
Proof.
  intros Hr Hl. unfold ScanAll. cbn [scan_from]. rewrite bool_decide_eq_false_2 by done.
  case_match; [done|]. intros E. eapply (scan_first _ _ [c] _ _ c []); [done|by left|exact E|lia].
Qed.

(** ** The theorems *)

(** At most one line is written at a time: whatever the arguments and the
    answers of the connection, the bytes handed to it end with a newline and
    hold no other newline and no NUL. *)
Theorem write_is_one_line ctx c line sd wr err payload :
  WriteLine ctx c line sd wr = (err, Some payload) →
  ∃ body, payload = body ++ [lf] ∧ (lf ∉ body) ∧ "000"%char ∉ body.
Proof. intros (-> & H1 & H2 & _)%WriteLine_payload. eauto. Qed.

Lemma write_is_one_line_witness :
  ∃ body, bytes "click 1" ++ [lf] = body ++ [lf] ∧ (lf ∉ body) ∧ "000"%char ∉ body.
Proof.
  apply (write_is_one_line (Some {| ctx_err := None; has_deadline := false |}) (Some New)
    "click 1" None (8, None) None). vm_compute. reflexivity.
Defined.

(** C37: lines written by the client arrive: when each of a series of writes
    succeeded and each line is shorter than 1 MiB, the daemon's scanner reads
    from the connection exactly these lines, in order (without the line ends),
    and then whatever follows. *)
Theorem written_lines_arrive ctx c (ls : list (string * Z)) payloads ioerr rest :
  Forall2 (λ p payload, WriteLine ctx c (fst p) None (snd p, None) = (None, Some payload)) ls payloads →
  Forall (λ p, len (TrimRight (fst p) [lf]) < maxLine) ls →
  ScanAll maxLine ioerr (concat payloads ++ rest) =
  let '(toks, err) := ScanAll maxLine ioerr rest in
  (map (λ p, received (fst p)) ls ++ toks, err).
Proof.
  intros H2 Hl.
  pose proof (ScanAll_lines maxLine ioerr (map (λ p, TrimRight (fst p) [lf]) ls) rest) as HS.
  assert (concat payloads =
    concat (map (λ s, bytes s ++ [lf]) (map (λ p, TrimRight (fst p) [lf]) ls))) as ->.
  { clear HS Hl. induction H2 as [|p payload ls payloads Hw _ IH]; [done|].
    cbn [map concat]. rewrite IH. by apply WriteLine_payload in Hw as [-> _]. }
  rewrite HS.
  - by rewrite map_map.
  - clear HS. apply Forall_map. revert Hl. induction H2 as [|p payload ls payloads Hw _ IH]; intros Hl;
      [constructor|]. apply Forall_cons_1 in Hl as [? ?].
    apply WriteLine_payload in Hw as (_ & ? & _). constructor; auto.
Qed.

Lemma written_lines_arrive_witness :
  ScanAll maxLine None
    (concat [bytes "keydown a" ++ [lf]; bytes "keyup a" ++ [lf]] ++ []) =
  (["keydown a"; "keyup a"], None).
Proof.
  apply (written_lines_arrive (Some {| ctx_err := None; has_deadline := true |}) (Some New)
    [("keydown a", 10); ("keyup a", 8)]).
  - repeat constructor.
  - apply (bool_decide_unpack _). vm_compute. exact I.
Defined.

(** The two sides disagree by one byte about the longest line: a line of
    exactly 1 MiB is accepted and written by the client, and makes the daemon's
    scanner stop with an error before any command of it is handled. *)
Theorem longest_line_refused s :
  len s = maxLine → lf ∉ bytes s → "000"%char ∉ bytes s →
  TrimRight s [lf] = s →
  WriteLine (Some {| ctx_err := None; has_deadline := false |}) (Some New) s None (maxLine + 1, None)
    = (None, Some (bytes s ++ [lf])) ∧
  ScanAll maxLine None (bytes s ++ [lf]) = ([], Some bufio_ErrTooLong).
Proof.
  intros Hlen Hl H0 Ht. split.
  - unfold WriteLine. cbn [ctx_err conn negb has_deadline New]. rewrite Ht.
    rewrite (proj2 (ContainsAny_spec s [lf; "000"%char])) by (intros c Hc; set_solver).
    assert ((Z.shiftl 1 20 <? len s) = false) as ->
      by (apply Z.ltb_ge; unfold maxLine in Hlen; lia).
    rewrite length_app. cbn [length]. unfold len in Hlen.
    replace (maxLine + 1 =? Z.of_nat (length (bytes s) + 1)) with true; [done|].
    symmetry. apply Z.eqb_eq. lia.
  - unfold len in Hlen. apply (scan_too_long maxLine None [] 0 (bytes s) [lf]); [done|done|].
    rewrite Hlen. done.
Qed.

Lemma TrimRight_id s k d cs :
  bytes s = k ++ [d] → existsb (λ e, bool_decide (d = e)) cs = false → TrimRight s cs = s.
Proof.
  intros E Hd. unfold TrimRight. rewrite E, reverse_app. change (reverse [d]) with [d].
  cbn [app drop_while]. rewrite Hd, reverse_cons, reverse_involutive, <-E. apply str_bytes.
Qed.

Lemma TrimRight_replicate n :
  (0 < n)%nat → TrimRight (str (replicate n "a"%char)) [lf] = str (replicate n "a"%char).
Proof.
  intros Hn. apply (TrimRight_id _ (replicate (n - 1) "a"%char) "a"%char); [|done].
  rewrite bytes_str. destruct n as [|n]; [lia|].
  replace (S n - 1)%nat with n by lia. by rewrite replicate_S_end.
Qed.

Lemma longest_line_refused_witness :
  ScanAll maxLine None (bytes (str (replicate (Z.to_nat maxLine) "a"%char)) ++ [lf]) =
  ([], Some bufio_ErrTooLong).
Proof.
  refine (proj2 (longest_line_refused (str (replicate (Z.to_nat maxLine) "a"%char)) _ _ _ _)).
  - unfold len. rewrite bytes_str, length_replicate. apply Z2Nat.id. vm_compute. congruence.
  - rewrite bytes_str. intros [E _]%elem_of_replicate. discriminate E.
  - rewrite bytes_str. intros [E _]%elem_of_replicate. discriminate E.
  - apply TrimRight_replicate. change 0%nat with (Z.to_nat 0). apply Z2Nat.inj_lt;
      vm_compute; congruence.
Defined.

(** ** The port line *)
Lemma tcpReadyLine_bytes port :
  0 ≤ port → Forall (λ c, 0x20 ≤ b2z c) (bytes (tcpReadyLine port)).
Proof.
  intros Hp. unfold tcpReadyLine. rewrite bytes_app. apply Forall_app_2.
  - apply (bool_decide_unpack _). vm_compute. exact I.
  - unfold strconv.Itoa. rewrite (proj2 (Z.ltb_ge port 0)), bytes_str by lia.
    eapply Forall_impl; [|by apply strconv.digits_forall].
    intros c [d [? ?]%strconv.digit_inv]. lia.
Qed.

Lemma digits_loop_length fuel n acc :
  (length (strconv.digits_loop fuel n acc) ≤ length acc + fuel + 1)%nat.
Proof.
  revert n acc. induction fuel as [|fuel IH]; intros n acc; cbn [strconv.digits_loop]; [cbn; lia|].
  case_match; [cbn; lia|]. etransitivity; [apply IH|]. cbn. lia.
Qed.

Lemma tcpReadyLine_no_lf port : 0 ≤ port → lf ∉ bytes (tcpReadyLine port).
Proof.
  intros Hp Hin%list_elem_of_In. pose proof (tcpReadyLine_bytes port Hp) as H.
  rewrite Stdlib.Lists.List.Forall_forall in H. by apply H in Hin.
Qed.

Lemma tcpReadyLine_length port :
  0 ≤ port < 65536 → 0 + Z.of_nat (length (bytes (tcpReadyLine port))) < MaxScanTokenSize.
Proof.
  intros Hp. unfold tcpReadyLine. rewrite bytes_app, length_app.
  change (length (bytes "READY tcp:")) with 10%nat.
  unfold strconv.Itoa. rewrite (proj2 (Z.ltb_ge port 0)), bytes_str by lia.
  unfold strconv.digits. pose proof (digits_loop_length (Z.to_nat (Z.log2 port)) port []).
  assert (Z.log2 port ≤ Z.log2 65536) by (apply Z.log2_le_mono; lia).
  change (Z.log2 65536) with 16 in *. unfold MaxScanTokenSize. cbn [length] in *. lia.
Qed.

Lemma dropCR_id s : cr ∉ bytes s → dropCR s = s.
Proof.
  intros H. unfold dropCR. destruct (reverse (bytes s)) as [|c l] eqn:E.
  - cbn. apply (f_equal reverse) in E. rewrite reverse_involutive in E.
    rewrite <-(str_bytes s), E. done.
  - cbn [drop_cr_rev]. rewrite bool_decide_eq_false_2, <-E, reverse_involutive; [apply str_bytes|].
    intros ->. apply H. rewrite <-elem_of_reverse, E. apply elem_of_cons. by left.
Qed.

Lemma tcpReadyLine_dropCR port : 0 ≤ port → dropCR (tcpReadyLine port) = tcpReadyLine port.
Proof.
  intros Hp. apply dropCR_id. intros Hin%list_elem_of_In.
  pose proof (tcpReadyLine_bytes port Hp) as H.
  rewrite Stdlib.Lists.List.Forall_forall in H. by apply H in Hin.
Qed.

(** The handshake accepts what the legacy daemon prints and nothing the
    destination daemon prints: the two readiness lines are read back as they
    are, for every port, and no text that starts with the destination mode line
    is taken for a handshake. *)
Theorem handshake_exact ctx port path rest ioerr :
  (0 ≤ port < 65536) →
  WaitReady (Some ctx) (Some (bytes stdinReadyLine ++ lf :: rest)) ioerr None = Ok "READY" ∧
  WaitReady (Some ctx) (Some (bytes (tcpReadyLine port) ++ lf :: rest)) ioerr None =
    Ok (tcpReadyLine port) ∧
  (∃ e, WaitReady (Some ctx) (Some (bytes (destModeLine path) ++ rest)) ioerr None = Err e).
Proof.
  intros Hp. split_and!.
  - unfold WaitReady, ScanAll. rewrite scan_line; [|by apply (bool_decide_unpack _)|done].
    by destruct (scan_from _ _ _ _ rest).
  - unfold WaitReady, ScanAll. rewrite scan_line;
      [|apply tcpReadyLine_no_lf; lia|by apply tcpReadyLine_length].
    rewrite app_nil_r, token_of_line, tcpReadyLine_dropCR by lia.
    destruct (scan_from _ _ _ _ rest). unfold tcpReadyLine.
    by rewrite HasPrefix_app, andb_false_r.
  - unfold WaitReady. change (bytes (destModeLine path) ++ rest) with
      ("x"%char :: (bytes ("test-server: mode dest unix " +:+ path) ++ rest)).
    destruct (ScanAll _ _ _) as [[|line toks] err] eqn:E; [eauto|].
    apply ScanAll_first in E as [t ->]; [|done..]. cbn. eauto.
Qed.

Lemma handshake_exact_witness :
  WaitReady (Some {| ctx_err := None; has_deadline := true |})
    (Some (bytes (tcpReadyLine 5900) ++ lf :: [])) None None = Ok "READY tcp:5900".
Proof.
  apply (handshake_exact {| ctx_err := None; has_deadline := true |} 5900 "/run/x.sock" [] None).
  split; [vm_compute; congruence|vm_compute; reflexivity].
Defined.
