(* ===== verification/Crypto.v ===== *)
(** * crypto/sha1 and encoding/base64

    The two library functions the WebSocket handshake uses, as their standards
    define them (FIPS 180-4; RFC 4648 with padding). *)

From S2P Require Import Prelude.
Local Open Scope Z_scope.

Module sha1.
Definition add32 (a b : Z) : Z := uwrap 32 (a + b).
Definition rotl (n x : Z) : Z := uwrap 32 (Z.lor (Z.shiftl x n) (Z.shiftr x (32 - n))).

Definition be32 (v : Z) : list ascii :=
  [z2b (Z.shiftr v 24); z2b (Z.shiftr v 16); z2b (Z.shiftr v 8); z2b v].

(** The message with its padding and its length in bits. *)
Definition pad (m : list ascii) : list ascii :=
  let n := Z.of_nat (length m) in
  m ++ [z2b 0x80] ++ replicate (Z.to_nat ((55 - n) mod 64)) "000"%char ++
  be32 (Z.shiftr (8 * n) 32) ++ be32 (8 * n).

Fixpoint words32 (l : list ascii) : list Z :=
  match l with
  | a :: b :: c :: d :: l' =>
    (((b2z a * 256 + b2z b) * 256 + b2z c) * 256 + b2z d) :: words32 l'
  | _ => []
  end.

(** The message schedule, newest word first: [n] more words. *)
Fixpoint extend (n : nat) (w : list Z) : list Z :=
  match n with
  | O => w
  | S n' =>
    extend n' (rotl 1 (Z.lxor (Z.lxor (nth 2 w 0) (nth 7 w 0))
                              (Z.lxor (nth 13 w 0) (nth 15 w 0))) :: w)
  end.

Definition round (t : Z) (b c d : Z) : Z * Z :=
  if t <? 20 then (Z.lor (Z.land b c) (Z.land (Z.lxor b 0xFFFFFFFF) d), 0x5A827999)
  else if t <? 40 then (Z.lxor (Z.lxor b c) d, 0x6ED9EBA1)
  else if t <? 60 then (Z.lor (Z.lor (Z.land b c) (Z.land b d)) (Z.land c d), 0x8F1BBCDC)
  else (Z.lxor (Z.lxor b c) d, 0xCA62C1D6).

Definition state : Type := Z * Z * Z * Z * Z.

Fixpoint rounds (t : Z) (w : list Z) (s : state) : state :=
  match w with
  | [] => s
  | x :: w' =>
    let '(a, b, c, d, e) := s in
    let '(f, k) := round t b c d in
    rounds (t + 1) w' (add32 (add32 (add32 (add32 (rotl 5 a) f) e) k) x, a, rotl 30 b, c, d)
  end.

Definition block (s : state) (w : list Z) : state :=
  let '(a, b, c, d, e) := s in
  let '(a', b', c', d', e') := rounds 0 (reverse (extend 64 (reverse w))) s in
  (add32 a a', add32 b b', add32 c c', add32 d d', add32 e e').

Fixpoint blocks (fuel : nat) (s : state) (w : list Z) : state :=
  match fuel, w with
  | S fuel', _ :: _ => blocks fuel' (block s (take 16 w)) (drop 16 w)
  | _, _ => s
  end.

(** [sha1.Sum]: 20 bytes. *)
Definition Sum (m : list ascii) : list ascii :=
  let w := words32 (pad m) in
  let '(a, b, c, d, e) :=
    blocks (length w) (0x67452301, 0xEFCDAB89, 0x98BADCFE, 0x10325476, 0xC3D2E1F0) w in
  be32 a ++ be32 b ++ be32 c ++ be32 d ++ be32 e.
End sha1.

Module base64.
(** The alphabet of [base64.StdEncoding]. *)
Definition sextet (z : Z) : ascii :=
  if z <? 26 then z2b (65 + z)
  else if z <? 52 then z2b (97 + (z - 26))
  else if z <? 62 then z2b (48 + (z - 52))
  else if z =? 62 then "+"%char else "/"%char.

Fixpoint encode (l : list ascii) : list ascii :=
  match l with
  | a :: b :: c :: l' =>
    let v := (b2z a * 256 + b2z b) * 256 + b2z c in
    sextet (Z.shiftr v 18) :: sextet (Z.land (Z.shiftr v 12) 63) ::
    sextet (Z.land (Z.shiftr v 6) 63) :: sextet (Z.land v 63) :: encode l'
  | [a; b] =>
    let v := (b2z a * 256 + b2z b) * 256 in
    [sextet (Z.shiftr v 18); sextet (Z.land (Z.shiftr v 12) 63);
     sextet (Z.land (Z.shiftr v 6) 63); "="%char]
  | [a] =>
    let v := b2z a * 65536 in
    [sextet (Z.shiftr v 18); sextet (Z.land (Z.shiftr v 12) 63); "="%char; "="%char]
  | [] => []
  end.
End base64.
