(* ===== verification/Ws.v ===== *)
(** * WebSocket framing (cmd/xtest-server/ws.go)

    A connection is the list of bytes it still delivers, ending in an end of
    file.  Reading gives the bytes and what is left. *)

From S2P Require Import Prelude GoStrings Scanner Crypto.
Local Open Scope Z_scope.

Definition protocolHealthPath : string := "/healthz".
Definition protocolHealthBody : string := "x11-input/2" +:+ String lf "".
Definition wsMagic : string := "258EAFA5-E914-47DA-95CA-C5AB0DC85B11".

(** [io.ReadFull] of [n] bytes. *)
Definition ReadFull (n : nat) (l : list ascii) : result (list ascii * list ascii) :=
  if decide (n ≤ length l)%nat then Ok (take n l, drop n l)
  else Err (match l with [] => io_EOF | _ => io_ErrUnexpectedEOF end).

(** [binary.BigEndian.Uint16] and [Uint64], and [PutUint64]. *)
Definition big_endian (l : list ascii) : Z := foldl (λ n c, 256 * n + b2z c) 0 l.
Fixpoint put_be (n : nat) (v : Z) : list ascii :=
  match n with
  | O => []
  | S n' => z2b (Z.shiftr v (8 * Z.of_nat n')) :: put_be n' v
  end.

Definition xor_byte (a b : ascii) : ascii := z2b (Z.lxor (b2z a) (b2z b)).

(** [payload[i] ^= mask[i%4]], starting at index [i]. *)
Fixpoint unmask (mask : list ascii) (i : nat) (payload : list ascii) : list ascii :=
  match payload with
  | [] => []
  | c :: l => xor_byte c (nth (i mod 4) mask "000"%char) :: unmask mask (S i) l
  end.

(** The body of the loop of [wsConn.Read] up to the switch on the opcode: the
    two header bytes, the payload without its mask and what is left. *)
Definition read_frame (l : list ascii) : result (ascii * ascii * list ascii * list ascii) :=
  '(hdr, l) ← ReadFull 2 l;
  let hdr0 := nth 0 hdr "000"%char in
  let hdr1 := nth 1 hdr "000"%char in
  let opcode := Z.land (b2z hdr0) 0x0F in
  let masked := negb (Z.land (b2z hdr1) 0x80 =? 0) in
  let payLen := Z.land (b2z hdr1) 0x7F in
  '(payLen, l) ←
    (if payLen =? 126 then '(ext, l) ← ReadFull 2 l; mret (big_endian ext, l)
     else if payLen =? 127 then '(ext, l) ← ReadFull 8 l; mret (big_endian ext, l)
     else mret (payLen, l));
  if Z.shiftl 1 20 <? payLen then Err errWSFrameTooLarge else
  if (0x08 <=? opcode) && (125 <? payLen) then Err errWSControlLarge else
  '(mask, l) ←
    (if masked then ReadFull 4 l else mret (replicate 4 "000"%char, l));
  '(payload, l) ←
    (if 0 <? payLen then ReadFull (Z.to_nat payLen) l else mret ([], l));
  mret (hdr0, hdr1, if masked then unmask mask 0 payload else payload, l).

(** What a call of [Read] did: the bytes copied into the buffer or an error, the
    rest of the connection, and what was written to it meanwhile. *)
Record read_result := {
  r_data : result (list ascii);
  r_rest : list ascii;
  r_written : list (list ascii);
}.

Definition pong (hdr1 : ascii) (payload : list ascii) : list ascii :=
  z2b 0x8A :: z2b (Z.land (b2z hdr1) 0x7F) :: payload.

(** [wsConn.Read] with a buffer of [n] bytes.  A frame takes at least two bytes,
    so that [length l + 1] iterations are enough; see [ws_Read_fuel]. *)
Fixpoint ws_read (fuel n : nat) (l : list ascii) (written : list (list ascii)) : read_result :=
  match fuel with
  | O => {| r_data := Err io_EOF; r_rest := l; r_written := written |}
  | S fuel' =>
    match read_frame l with
    | Err e => {| r_data := Err e; r_rest := []; r_written := written |}
    | Ok (hdr0, hdr1, payload, l') =>
      let opcode := Z.land (b2z hdr0) 0x0F in
      if opcode =? 0x01 then
        {| r_data := Ok (take n payload); r_rest := l'; r_written := written |}
      else if opcode =? 0x08 then
        {| r_data := Err io_EOF; r_rest := l'; r_written := written |}
      else if opcode =? 0x09 then ws_read fuel' n l' (written ++ [pong hdr1 payload])
      else ws_read fuel' n l' written
    end
  end.

Definition ws_Read (n : nat) (l : list ascii) : read_result := ws_read (S (length l)) n l [].

(** [wsConn.Write]: the frame written. *)
Definition ws_Write (p : list ascii) : list ascii :=
  let n := Z.of_nat (length p) in
  let encoded := put_be 8 n in
  let header :=
    if n <? 126 then [nth 7 encoded "000"%char]
    else if n <? 65536 then z2b 126 :: drop 6 encoded
    else z2b 127 :: encoded in
  z2b 0x81 :: header ++ p.

(** [connReader.Read] with a buffer of [n] bytes, from a reader that delivers
    [chunk] on its next call: the bytes read and the prefix left. *)
Definition connReader_Read (prefix : list ascii) (n : nat) (chunk : list ascii)
    : list ascii * list ascii :=
  match prefix with
  | [] => (take n chunk, [])
  | _ => (take n prefix, drop n prefix)
  end.

(** ** The handshake *)

(** What [tryUpgradeWS] decides.  [Plain]: not HTTP, the connection is read from
    its first byte.  [Handled]: answered (with the given bytes) and done.
    [WebSocket]: upgraded, with the answer and the bytes left to read. *)
Inductive upgrade :=
  | Plain (rest : list ascii)
  | Handled (resp : list ascii)
  | WebSocket (resp rest : list ascii).

Definition crlf : string := String cr (String lf "").

Definition health_response : string :=
  "HTTP/1.1 200 OK" +:+ crlf +:+ "Content-Type: text/plain" +:+ crlf +:+ "Content-Length: " +:+
  strconv.Itoa (len protocolHealthBody) +:+ crlf +:+ "Connection: close" +:+ crlf +:+ crlf +:+
  protocolHealthBody.

Definition accept_key (wsKey : string) : string :=
  str (base64.encode (sha1.Sum (bytes (wsKey +:+ wsMagic)))).

Definition switching_response (wsKey : string) : string :=
  "HTTP/1.1 101 Switching Protocols" +:+ crlf +:+ "Upgrade: websocket" +:+ crlf +:+
  "Connection: Upgrade" +:+ crlf +:+ "Sec-WebSocket-Accept: " +:+ accept_key wsKey +:+ crlf +:+ crlf.

Definition key_header : string := "Sec-WebSocket-Key:".

(** The header loop: the request line, the key and the number of lines read, or
    [None] when the lines end before a blank one. *)
Fixpoint headers (lines : list string) (requestLine wsKey : string) (n : nat)
    : option (string * string * nat) :=
  match lines with
  | [] => None
  | line :: lines' =>
    if bool_decide (requestLine = "") then headers lines' line wsKey (S n)
    else if bool_decide (line = "") then Some (requestLine, wsKey, S n)
    else headers lines' requestLine
           (if strings.HasPrefix line key_header
            then strings.TrimSpace (str (drop (length (bytes key_header)) (bytes line)))
            else wsKey) (S n)
  end.

(** What follows the first [n] lines. *)
Fixpoint drop_lines (n : nat) (l : list ascii) : list ascii :=
  match n, l with
  | O, _ => l
  | _, [] => []
  | S n', c :: l' => if bool_decide (c = lf) then drop_lines n' l' else drop_lines n l'
  end.

(** [extra]: how many bytes behind the headers the header scanner had already
    taken into its buffer; they are not read again.  [sent]: writing the answer
    succeeded. *)
Definition tryUpgradeWS (extra : nat) (sent : bool) (l : list ascii) : upgrade :=
  match ReadFull 4 l with
  | Err _ => Handled []
  | Ok (buf, _) =>
    if negb (bool_decide (str buf = "GET ")) then Plain l else
    match headers (fst (ScanAll 4096 None l)) "" "" 0 with
    | None => Handled []
    | Some (requestLine, wsKey, n) =>
      if bool_decide (requestLine = "GET " +:+ protocolHealthPath +:+ " HTTP/1.1")
      then Handled (bytes health_response)
      else if bool_decide (wsKey = "") then Handled []
      else if negb sent then Handled []
      else WebSocket (bytes (switching_response wsKey)) (drop extra (drop_lines n l))
    end
  end.
