(* ===== verification/WsSpec.v ===== *)
(** * WebSocket frames are read back as they were written *)

From S2P Require Import Prelude GoStrings Scanner Crypto Ws.
Local Open Scope Z_scope.

(** ** Bytes *)
Lemma low7 c : Z.land (b2z c) 0x7F = b2z c mod 128.
Proof. by destruct c as [[] [] [] [] [] [] [] []]. Qed.
Lemma bit7 c : negb (Z.land (b2z c) 0x80 =? 0) = (128 <=? b2z c).
Proof. by destruct c as [[] [] [] [] [] [] [] []]. Qed.

Lemma xor_byte_invol a b : xor_byte (xor_byte a b) b = a.
Proof.
  apply b2z_inj. unfold xor_byte. rewrite !b2z_z2b_mod.
  assert (∀ x y, Z.lxor (x mod 256) y mod 256 = Z.lxor x y mod 256) as Hm.
  { intros x y. change 256 with (2 ^ 8). apply Z.bits_inj'. intros n Hn.
    destruct (decide (n < 8)).
    - by rewrite !Z.mod_pow2_bits_low, !Z.lxor_spec, Z.mod_pow2_bits_low by lia.
    - by rewrite !Z.mod_pow2_bits_high by lia. }
  rewrite Hm, Z.lxor_assoc, Z.lxor_nilpotent, Z.lxor_0_r. apply Z.mod_small, b2z_range.
Qed.

Lemma unmask_length mask i p : length (unmask mask i p) = length p.
Proof. revert i. induction p as [|c p IH]; intros i; cbn; [done|]. by rewrite IH. Qed.

Lemma unmask_invol mask i p : unmask mask i (unmask mask i p) = p.
Proof.
  revert i. induction p as [|c p IH]; intros i; cbn [unmask]; [done|].
  by rewrite xor_byte_invol, IH.
Qed.

Lemma put_be_length n v : length (put_be n v) = n.
Proof. induction n as [|n IH]; cbn; [done|]. by rewrite IH. Qed.

Lemma big_endian_acc a l : foldl (λ n c, 256 * n + b2z c) a l = 256 ^ Z.of_nat (length l) * a + big_endian l.
Proof.
  revert a. unfold big_endian. induction l as [|c l IH]; intros a.
  - cbn [length foldl]. rewrite Z.pow_0_r. lia.
  - cbn [foldl length]. rewrite IH, (IH (256 * 0 + b2z c)).
    rewrite Nat2Z.inj_succ, Z.pow_succ_r by lia. ring.
Qed.

Lemma big_endian_put n v : 0 ≤ v → big_endian (put_be n v) = v mod 256 ^ Z.of_nat n.
Proof.
  intros Hv. induction n as [|n IH].
  - cbn. by rewrite Z.mod_1_r.
  - unfold big_endian. cbn [put_be foldl]. rewrite big_endian_acc, put_be_length, IH.
    rewrite b2z_z2b_mod, Z.shiftr_div_pow2 by lia.
    replace (2 ^ (8 * Z.of_nat n)) with (256 ^ Z.of_nat n)
      by (rewrite Z.pow_mul_r by lia; done).
    rewrite Nat2Z.inj_succ, Z.pow_succ_r by lia.
    rewrite (Z.mul_comm 256 (256 ^ _)), Z.rem_mul_r by lia. lia.
Qed.

(** ** Writing a frame as a client does *)

(** A number in [k] bytes, the most significant one first. *)
Definition be_bytes (k : nat) (n : Z) : list ascii :=
  (λ i, z2b (n / 256 ^ Z.of_nat i)) <$> reverse (seq 0 k).

Lemma put_be_bytes k n : put_be k n = be_bytes k n.
Proof.
  unfold be_bytes. induction k as [|k IH]; [done|]. cbn [put_be].
  rewrite seq_S, reverse_snoc, fmap_cons, <-IH. f_equal. f_equal.
  rewrite Z.shiftr_div_pow2, Z.pow_mul_r by lia. done.
Qed.

(** The length field, with the mask bit. *)
Definition frame_length (bit n : Z) : list ascii :=
  if n <? 126 then [z2b (bit + n)]
  else if n <? 65536 then z2b (bit + 126) :: be_bytes 2 n
  else z2b (bit + 127) :: be_bytes 8 n.

(** The payload under a mask of four bytes (RFC 6455, section 5.3): byte [i] of
    the payload is combined by exclusive or with byte [i] modulo 4 of the
    mask. *)
Definition masked (m p : list ascii) : list ascii :=
  imap (λ i c, z2b (Z.lxor (b2z c) (b2z (nth (i mod 4) m "000"%char)))) p.

Definition frame (b0 : ascii) (mask : option (list ascii)) (p : list ascii) : list ascii :=
  let n := Z.of_nat (length p) in
  match mask with
  | None => b0 :: frame_length 0 n ++ p
  | Some m => b0 :: frame_length 128 n ++ m ++ masked m p
  end.

Lemma masked_unmask m p : masked m p = unmask m 0 p.
Proof.
  assert (∀ k, imap (λ i c, z2b (Z.lxor (b2z c) (b2z (nth ((k + i) mod 4) m "000"%char)))) p =
               unmask m k p) as H; [|exact (H 0%nat)].
  induction p as [|c p IH]; intros k; [done|].
  rewrite imap_cons. cbn [unmask]. f_equal; [by rewrite Nat.add_0_r|].
  rewrite <-IH. apply imap_ext. intros i d _. cbn. by rewrite Nat.add_succ_r.
Qed.

Lemma ReadFull_app k l : ReadFull (length k) (k ++ l) = Ok (k, l).
Proof.
  unfold ReadFull. rewrite decide_True by (rewrite length_app; lia).
  by rewrite take_app_length, drop_app_length.
Qed.

Lemma ReadFull_n n k l : length k = n → ReadFull n (k ++ l) = Ok (k, l).
Proof. intros <-. apply ReadFull_app. Qed.

(** The header byte of a length field and the length it announces. *)
Lemma frame_length_read bit n l :
  bit = 0 ∨ bit = 128 → 0 ≤ n < 2 ^ 64 →
  ∃ h1 ext, frame_length bit n = h1 :: ext ∧
    negb (Z.land (b2z h1) 0x80 =? 0) = (128 <=? bit) ∧
    (n ≤ 125 → Z.land (b2z h1) 0x7F = n) ∧
    (if Z.land (b2z h1) 0x7F =? 126 then '(e, l) ← ReadFull 2 (ext ++ l); mret (big_endian e, l)
     else if Z.land (b2z h1) 0x7F =? 127 then '(e, l) ← ReadFull 8 (ext ++ l); mret (big_endian e, l)
     else mret (Z.land (b2z h1) 0x7F, ext ++ l)) = Ok (n, l).
Proof.
  intros Hb Hn. unfold frame_length. rewrite <-!put_be_bytes.
  assert (∀ k, 0 ≤ k < 128 → b2z (z2b (bit + k)) mod 128 = k ∧ (128 <=? b2z (z2b (bit + k))) = (128 <=? bit))
    as Hk.
  { intros k Hk. rewrite b2z_z2b by lia. destruct Hb as [-> | ->].
    - rewrite Z.mod_small by lia. split; [lia|]. apply Z.leb_gt. lia.
    - rewrite Z.add_comm, <-(Z.mul_1_l 128), Z.mod_add, Z.mod_small by lia.
      split; [done|]. apply Z.leb_le. lia. }
  destruct (n <? 126) eqn:E1; bools; [|destruct (n <? 65536) eqn:E2; bools].
  - destruct (Hk n) as [H1 H2]; [lia|]. eexists _, _. split; [done|].
    rewrite bit7, low7, H1, H2. split_and!; [done|done|].
    rewrite (proj2 (Z.eqb_neq n 126)), (proj2 (Z.eqb_neq n 127)) by lia. done.
  - destruct (Hk 126) as [H1 H2]; [lia|]. eexists _, _. split; [done|].
    rewrite bit7, low7, H1, H2. split_and!; [done|lia|]. cbn [Z.eqb Pos.eqb].
    rewrite ReadFull_n by apply put_be_length. cbn [mbind result_bind].
    rewrite big_endian_put, Z.mod_small by lia. done.
  - destruct (Hk 127) as [H1 H2]; [lia|]. eexists _, _. split; [done|].
    rewrite bit7, low7, H1, H2. split_and!; [done|lia|]. cbn [Z.eqb Pos.eqb].
    rewrite ReadFull_n by apply put_be_length. cbn [mbind result_bind].
    rewrite big_endian_put, Z.mod_small by lia. done.
Qed.

(** A frame the reader accepts: at most 1 MiB, a control frame at most 125
    bytes, four bytes of mask. *)
Definition frame_ok (b0 : ascii) (mask : option (list ascii)) (p : list ascii) : Prop :=
  Z.of_nat (length p) ≤ Z.shiftl 1 20 ∧
  (0x08 ≤ Z.land (b2z b0) 0x0F → Z.of_nat (length p) ≤ 125) ∧
  (match mask with None => True | Some m => length m = 4%nat end).

Lemma read_payload p l :
  (if 0 <? Z.of_nat (length p) then ReadFull (Z.to_nat (Z.of_nat (length p))) (p ++ l)
   else mret ([], p ++ l)) = Ok (p, l).
Proof.
  destruct (0 <? Z.of_nat (length p)) eqn:E; bools.
  - rewrite Nat2Z.id. apply ReadFull_app.
  - destruct p; [done|]. cbn [length] in E. lia.
Qed.

Lemma read_frame_frame b0 mask p rest :
  frame_ok b0 mask p →
  ∃ h1, read_frame (frame b0 mask p ++ rest) = Ok (b0, h1, p, rest) ∧
        (Z.of_nat (length p) ≤ 125 → Z.land (b2z h1) 0x7F = Z.of_nat (length p)).
Proof.
  intros (Hn & Hc & Hm). change (Z.shiftl 1 20) with 1048576 in Hn.
  assert (0 ≤ Z.of_nat (length p) < 2 ^ 64) as Hr by lia.
  assert ((Z.shiftl 1 20 <? Z.of_nat (length p)) = false) as Hn'
    by (apply Z.ltb_ge; done).
  assert ((0x08 <=? Z.land (b2z b0) 0x0F) && (125 <? Z.of_nat (length p)) = false) as Hc'.
  { apply andb_false_iff. destruct (decide (0x08 ≤ Z.land (b2z b0) 0x0F)).
    - right. apply Z.ltb_ge. auto.
    - left. apply Z.leb_gt. lia. }
  destruct mask as [m|]; unfold frame; [rewrite masked_unmask|].
  - destruct (frame_length_read 128 (Z.of_nat (length p)) (m ++ unmask m 0 p ++ rest))
      as (h1 & ext & E & Hb & Hs & Hl); [by right|done|].
    exists h1. split; [|done]. rewrite E. unfold read_frame. cbn [app].
    change (b0 :: h1 :: ?x) with ([b0; h1] ++ x). rewrite ReadFull_n by done.
    cbn [mbind result_bind nth]. rewrite <-!app_assoc, Hl. cbn [mbind result_bind].
    rewrite Hn', Hc', Hb. change (128 <=? 128) with true. cbn [mbind].
    rewrite ReadFull_n by done. cbn [mbind result_bind].
    pose proof (read_payload (unmask m 0 p) rest) as Hp. rewrite unmask_length in Hp.
    rewrite Hp. cbn. by rewrite unmask_invol.
  - destruct (frame_length_read 0 (Z.of_nat (length p)) (p ++ rest))
      as (h1 & ext & E & Hb & Hs & Hl); [by left|done|].
    exists h1. split; [|done]. rewrite E. unfold read_frame. cbn [app].
    change (b0 :: h1 :: ?x) with ([b0; h1] ++ x). rewrite ReadFull_n by done.
    cbn [mbind result_bind nth]. rewrite <-!app_assoc, Hl. cbn [mbind result_bind].
    rewrite Hn', Hc', Hb. change (128 <=? 0) with false. cbn [mbind result_bind mret result_ret].
    by rewrite read_payload.
Qed.

(** ** Reading *)

Lemma ReadFull_length n k a b :
  ReadFull n k = Ok (a, b) → (length k = n + length b)%nat.
Proof.
  unfold ReadFull. case_decide; [|done]. intros; simplify_eq. rewrite length_drop. lia.
Qed.

(** A frame takes at least its two header bytes. *)
Lemma read_frame_shrinks l hdr0 hdr1 p l' :
  read_frame l = Ok (hdr0, hdr1, p, l') → (length l' < length l)%nat.
Proof.
  unfold read_frame.
  intros ([hdr l1] & H1%ReadFull_length & ([payLen l2] & H2 & H)%result_bind_Ok)%result_bind_Ok.
  assert (length l2 ≤ length l1)%nat as Hl2.
  { unfold mret, result_ret in H2. destruct (_ =? 126); [|destruct (_ =? 127)].
    - apply result_bind_Ok in H2 as ([e k] & He%ReadFull_length & Hk). simplify_eq. lia.
    - apply result_bind_Ok in H2 as ([e k] & He%ReadFull_length & Hk). simplify_eq. lia.
    - by simplify_eq. }
  destruct (_ <? payLen); [done|]. destruct (_ && _); [done|].
  apply result_bind_Ok in H as ([mask l3] & H3 & ([pl l4] & H4 & H)%result_bind_Ok).
  unfold mret, result_ret in *. injection H as _ _ _ <-.
  assert (length l3 ≤ length l2)%nat
    by (destruct (negb _); [apply ReadFull_length in H3; lia|by simplify_eq]).
  assert (length l4 ≤ length l3)%nat
    by (destruct (0 <? payLen); [apply ReadFull_length in H4; lia|by simplify_eq]).
  lia.
Qed.

(** More iterations than frames change nothing: the loop ends. *)
Lemma ws_read_fuel f f' n l w :
  (length l < f)%nat → (length l < f')%nat → ws_read f n l w = ws_read f' n l w.
Proof.
  revert f' l w. induction f as [|f IH]; intros [|f'] l w Hf Hf'; [lia..|].
  cbn [ws_read]. destruct (read_frame l) as [[[[hdr0 hdr1] p] l']|e] eqn:E; [|done].
  apply read_frame_shrinks in E. repeat (case_match; [done|]).
  case_match; apply IH; lia.
Qed.

Lemma ws_Read_fuel f n l : (length l < f)%nat → ws_read f n l [] = ws_Read n l.
Proof. intros Hf. apply ws_read_fuel; lia. Qed.

(** One step of the loop. *)
Lemma ws_read_step f n l w hdr0 hdr1 p l' :
  read_frame l = Ok (hdr0, hdr1, p, l') → (length l < f)%nat →
  ws_read f n l w =
  let opcode := Z.land (b2z hdr0) 0x0F in
  if opcode =? 0x01 then {| r_data := Ok (take n p); r_rest := l'; r_written := w |}
  else if opcode =? 0x08 then {| r_data := Err io_EOF; r_rest := l'; r_written := w |}
  else if opcode =? 0x09 then ws_read f n l' (w ++ [pong hdr1 p])
  else ws_read f n l' w.
Proof.
  intros E Hf. pose proof (read_frame_shrinks _ _ _ _ _ E). destruct f as [|f]; [lia|].
  cbv zeta. rewrite !(ws_read_fuel (S f) f n l') by lia.
  cbn [ws_read]. by rewrite E.
Qed.

(** Frames that are answered or skipped before a text frame: pings and frames
    with an opcode that is neither text nor close. *)
Definition skipped (x : ascii * option (list ascii) * list ascii) : Prop :=
  let '(b0, mask, p) := x in
  frame_ok b0 mask p ∧ Z.land (b2z b0) 0x0F ≠ 0x01 ∧ Z.land (b2z b0) 0x0F ≠ 0x08.

Definition frame3 (x : ascii * option (list ascii) * list ascii) : list ascii :=
  let '(b0, mask, p) := x in frame b0 mask p.

(** The pong that answers a ping. *)
Definition answers (x : ascii * option (list ascii) * list ascii) : list (list ascii) :=
  let '(b0, mask, p) := x in
  if Z.land (b2z b0) 0x0F =? 0x09 then [z2b 0x8A :: z2b (Z.of_nat (length p)) :: p] else [].

Lemma ws_read_skip f n xs l w :
  Forall skipped xs → (length (concat (map frame3 xs) ++ l) < f)%nat →
  ws_read f n (concat (map frame3 xs) ++ l) w = ws_read f n l (w ++ concat (map answers xs)).
Proof.
  intros H. revert w. induction H as [|[[b0 mask] p] xs (Hok & H1 & H8) Hxs IH]; intros w Hf.
  { cbn. by rewrite app_nil_r. }
  cbn [map concat] in Hf |- *. rewrite <-app_assoc in Hf |- *.
  change (frame3 (b0, mask, p)) with (frame b0 mask p) in Hf |- *.
  destruct (read_frame_frame b0 mask p (concat (map frame3 xs) ++ l) Hok) as (h1 & E & Hp).
  rewrite (ws_read_step f n _ w _ _ _ _ E Hf). cbv zeta.
  rewrite (proj2 (Z.eqb_neq _ _) H1), (proj2 (Z.eqb_neq _ _) H8).
  apply read_frame_shrinks in E. unfold answers at 1.
  destruct (Z.land (b2z b0) 0x0F =? 0x09) eqn:E9; bools; rewrite IH by lia.
  - unfold pong. rewrite Hp by (apply Hok; lia). by rewrite <-app_assoc.
  - done.
Qed.

(** ** The theorems *)

(** C35: a text frame arrives: whatever pings, pongs and other frames come before
    it, with or without masks (byte i of the payload is masked by exclusive or
    with byte i mod 4 of the mask) and in any of the three length encodings,
    [Read] with a buffer that is large enough returns the payload of the first
    text frame, unmasked, and leaves the
    connection at the byte after it; each ping on the way is answered with a
    pong that carries its payload, in order. *)
Theorem ws_text_arrives xs mask p rest n :
  Forall skipped xs → frame_ok (z2b 0x81) mask p → (length p ≤ n)%nat →
  ws_Read n (concat (map frame3 xs) ++ frame (z2b 0x81) mask p ++ rest) =
  {| r_data := Ok p; r_rest := rest; r_written := concat (map answers xs) |}.
Proof.
  intros Hxs Hok Hn. unfold ws_Read. rewrite ws_read_skip by (done || lia). cbn [app].
  destruct (read_frame_frame (z2b 0x81) mask p rest Hok) as (h1 & E & _).
  rewrite (ws_read_step _ _ _ _ _ _ _ _ E) by (rewrite (length_app (concat _)); lia).
  cbv zeta. change (Z.land (b2z (z2b 0x81)) 0x0F =? 0x01) with true. cbv iota.
  by rewrite take_ge.
Qed.

(** A masked ping "hi" and the masked text "click 1", byte by byte. *)
Lemma ws_text_arrives_witness :
  ws_Read 64 (map z2b ([0x89; 0x82; 1; 2; 3; 4; 0x69; 0x6B] ++
      [0x81; 0x87; 9; 8; 7; 6; 0x6A; 0x64; 0x6E; 0x65; 0x62; 0x28; 0x36] ++ [0x78])) =
  {| r_data := Ok (bytes "click 1"); r_rest := bytes "x";
     r_written := [map z2b [0x8A; 2; 0x68; 0x69]] |}.
Proof.
  apply (ws_text_arrives [(z2b 0x89, Some [z2b 1; z2b 2; z2b 3; z2b 4], bytes "hi")]
    (Some [z2b 9; z2b 8; z2b 7; z2b 6]) (bytes "click 1") (bytes "x")).
  - constructor; [|constructor]. vm_compute. intuition congruence.
  - vm_compute. intuition congruence.
  - cbn. lia.
Defined.

(** C36: what the daemon writes is a frame that reads back: for any bytes up to
    1 MiB, [Write] produces one unmasked final text frame, from which [Read]
    gets exactly these bytes. *)
Theorem ws_write_read p rest n :
  Z.of_nat (length p) ≤ Z.shiftl 1 20 → (length p ≤ n)%nat →
  ws_Write p = frame (z2b 0x81) None p ∧
  ws_Read n (ws_Write p ++ rest) = {| r_data := Ok p; r_rest := rest; r_written := [] |}.
Proof.
  intros Hl Hn.
  assert (ws_Write p = frame (z2b 0x81) None p) as ->.
  { unfold ws_Write, frame, frame_length. rewrite <-!put_be_bytes. repeat case_match; done. }
  split; [done|].
  assert (frame_ok (z2b 0x81) None p) as Hok by (repeat split; [done|vm_compute; congruence]).
  destruct (read_frame_frame (z2b 0x81) None p rest Hok) as (h1 & E & _).
  unfold ws_Read. rewrite (ws_read_step _ _ _ _ _ _ _ _ E) by lia.
  cbv zeta. change (Z.land (b2z (z2b 0x81)) 0x0F =? 0x01) with true. cbv iota.
  by rewrite take_ge.
Qed.

Lemma ws_write_read_witness :
  ws_Read 16 (ws_Write (bytes "ok") ++ []) =
  {| r_data := Ok (bytes "ok"); r_rest := []; r_written := [] |}.
Proof. apply (ws_write_read (bytes "ok") [] 16); [vm_compute; congruence|cbn; lia]. Defined.

(** A text payload longer than the buffer of the reader is cut off: the
    bytes that do not fit are dropped, and the next read starts behind the
    frame.  The daemon's line scanner reads with a buffer of at most 64 KiB at
    first, and frames of up to 1 MiB are accepted. *)
Theorem ws_long_text_truncated mask p rest n :
  frame_ok (z2b 0x81) mask p → (n < length p)%nat →
  ws_Read n (frame (z2b 0x81) mask p ++ rest) =
  {| r_data := Ok (take n p); r_rest := rest; r_written := [] |} ∧
  ∃ c lost, p = take n p ++ c :: lost.
Proof.
  intros Hok Hn. split.
  - destruct (read_frame_frame (z2b 0x81) mask p rest Hok) as (h1 & E & _).
    unfold ws_Read. by rewrite (ws_read_step _ _ _ _ _ _ _ _ E) by lia.
  - destruct (drop n p) as [|c lost] eqn:E.
    + apply (f_equal length) in E. rewrite length_drop in E. cbn in E. lia.
    + exists c, lost. by rewrite <-E, take_drop.
Qed.

Lemma ws_long_text_truncated_witness :
  ws_Read 3 (frame (z2b 0x81) None (bytes "click 1") ++ []) =
  {| r_data := Ok (bytes "cli"); r_rest := []; r_written := [] |}.
Proof.
  apply (ws_long_text_truncated None (bytes "click 1") [] 3); [|cbn; lia].
  vm_compute. intuition congruence.
Defined.

(** The handshake answer is the one of RFC 6455: for its sample request the
    daemon upgrades the connection and answers with the sample accept key;
    health checks are answered and closed, and plain commands are left to the
    line protocol from their first byte. *)
Theorem ws_handshake_rfc6455 :
  let req := "GET /chat HTTP/1.1" +:+ crlf +:+ "Host: server.example.com" +:+ crlf +:+
    "Sec-WebSocket-Key: dGhlIHNhbXBsZSBub25jZQ==" +:+ crlf +:+ crlf in
  accept_key "dGhlIHNhbXBsZSBub25jZQ==" = "s3pPLMBiTxaQ9kYGzzhZRbK+xOo=" ∧
  tryUpgradeWS 0 true (bytes req) =
    WebSocket (bytes (switching_response "dGhlIHNhbXBsZSBub25jZQ==")) [] ∧
  tryUpgradeWS 0 true (bytes ("GET /healthz HTTP/1.1" +:+ crlf +:+ crlf)) =
    Handled (bytes health_response) ∧
  (∀ extra sent l, (4 ≤ length l)%nat → str (take 4 l) ≠ "GET " → tryUpgradeWS extra sent l = Plain l).
Proof.
  cbv zeta. split_and!; [vm_compute; reflexivity..|].
  intros extra sent l Hl Hg. unfold tryUpgradeWS, ReadFull. rewrite decide_True by done.
  by rewrite bool_decide_eq_false_2.
Qed.
