(* ===== verification/Legacy.v ===== *)
(** * The legacy daemon (cmd/xtest-server/handle.go, serve.go, ws.go)

    Command lines from standard input, TCP or WebSocket connections, carried out
    on the display one at a time under the process-global mutex. *)

From S2P Require Import Prelude GoStrings Scanner V2Line Ws VNext Xlib X11.
Local Open Scope Z_scope.

Section legacy.
Context {D : Type} `{Xlib D}.

(** [xActuator]: what the display is asked for an action of the dispatcher.
    Sleeping and logging do not concern the display. *)
Definition actuate (a : action) : XM D unit :=
  match a with
  | AKeycodeFor name => _ ← keysymToKeycode name; mret tt
  | ASendKey keycode press => _ ← sendKey keycode press; mret tt
  | AMoveMouse x y => _ ← moveMouse x y; mret tt
  | ASendButton button press => _ ← sendButton button press; mret tt
  | AReleaseAll => _ ← releaseAll; mret tt
  | ASleep _ | ALog _ => mret tt
  end.

Fixpoint actuate_all (acts : list action) : XM D unit :=
  match acts with
  | [] => mret tt
  | a :: acts' => _ ← actuate a; actuate_all acts'
  end.

(** The messages among the actions. *)
Definition logged (acts : list action) : list string :=
  omap (λ a, match a with ALog msg => Some msg | _ => None end) acts.

(** [handleCommand]: the messages on standard error, after the effect on the
    display. *)
Definition handleCommand (debugLog : bool) (cmd : string) : XM D (list string) := λ s,
  let first := if debugLog then ["xtest: <- " +:+ RedactLine cmd +:+ LF] else [] in
  let cmd := strings.TrimSpace cmd in
  if bool_decide (cmd = "") then (first, s) else
  let acts := Dispatch (λ name, fst (keysymToKeycode name s)) cmd false false in
  let '(_, s') := actuate_all acts s in
  (first ++ logged acts, s').

Definition releaseAllHeld : XM D unit := _ ← releaseAll; mret tt.

Fixpoint handle_lines (debugLog : bool) (lines : list string) : XM D (list string) :=
  match lines with
  | [] => mret []
  | line :: lines' =>
    msgs ← handleCommand debugLog line;
    rest ← handle_lines debugLog lines';
    mret (msgs ++ rest)
  end.

(** [serveScanner] on everything the connection delivers. *)
Definition serveScanner (debugLog : bool) (ioerr : option error) (input : list ascii)
    : XM D (list string * option error) :=
  let '(lines, err) := ScanAll maxLine ioerr input in
  msgs ← handle_lines debugLog lines;
  mret (msgs, err).

(** What a scanner reads through a WebSocket: [sizes] are the sizes of the free
    part of its buffer at each read.  The text, the error that ended it and the
    control frames written on the way. *)
Fixpoint ws_stream (sizes : list nat) (input : list ascii)
    : list ascii * option error * list (list ascii) :=
  match sizes with
  | [] => ([], None, [])
  | n :: sizes' =>
    let r := ws_Read n input in
    match r_data r with
    | Err io_EOF => ([], None, r_written r)
    | Err e => ([], Some e, r_written r)
    | Ok data =>
      let '(text, err, written) := ws_stream sizes' (r_rest r) in
      (data ++ text, err, r_written r ++ written)
    end
  end.

(** [serveScannerWithAck]: one acknowledgement per line; and the pongs the reader
    writes. *)
Definition serveScannerWithAck (debugLog : bool) (sizes : list nat) (input : list ascii)
    : XM D (list string * list (list ascii) * list (list ascii)) :=
  let '(text, err, pongs) := ws_stream sizes input in
  let '(lines, _) := ScanAll maxLine err text in
  msgs ← handle_lines debugLog lines;
  mret (msgs, map (λ _, ws_Write (bytes ("ok" +:+ LF))) lines, pongs).

(** One connection of [serveTCP], which ends with [ioerr]: what the server
    writes to it, and the pongs that [wsConn.Read] writes in between. *)
Definition serve_conn (debugLog : bool) (extra : nat) (sent : bool) (sizes : list nat)
    (ioerr : option error) (input : list ascii) : XM D (list (list ascii) * list (list ascii)) :=
  match tryUpgradeWS extra sent input with
  | Handled resp => mret ([resp], [])
  | Plain rest =>
    _ ← serveScanner debugLog ioerr rest;
    _ ← releaseAllHeld;
    mret ([], [])
  | WebSocket resp rest =>
    '(_, acks, pongs) ← serveScannerWithAck debugLog sizes rest;
    _ ← releaseAllHeld;
    mret (resp :: acks, pongs)
  end.

(** The standard-input mode of [main]. *)
Definition serve_stdin (debugLog : bool) (ioerr : option error) (input : list ascii) : XM D unit :=
  _ ← serveScanner debugLog ioerr input;
  releaseAllHeld.
End legacy.
