(* ===== verification/LegacySpec.v ===== *)
(** * What legacy commands do to the display *)

From S2P Require Import Prelude GoStrings Scanner V2Line Ws VNext Xlib X11 X11Spec Legacy.
Local Open Scope Z_scope.

(** The nearest coordinate on an axis of [size] pixels; it has to be a C int. *)
Definition nearest (v size : Z) : Z := swrap 32 (Z.min (Z.max 0 (to_cint v)) (size - 1)).

(** The requests of one action, on a screen of the size of [s]. *)
Definition action_requests {D} (s : xproc D) (a : action) : list xreq :=
  match a with
  | ASendKey kc press => [XTestFakeKeyEvent (to_cuint kc) press; XSync]
  | AMoveMouse x y => [XWarpPointer (nearest x (screen_w s)) (nearest y (screen_h s)); XSync]
  | ASendButton b press => [XTestFakeButtonEvent (to_cuint b) press; XSync]
  | _ => []
  end.

(** [emitting m]: whatever the state, the call changes no variable of the
    program, it only submits requests. *)
Definition emitting {D A} (m : XM D A) : Prop := ∀ s, ∃ rs d, snd (m s) = emit s rs d.

Section legacy.
Context {D : Type} `{Xlib D}.
Implicit Types s : xproc D.

Lemma does_discard {A} (m : XM D A) s rs a : does m s rs a → does (_ ← m; mret tt) s rs tt.
Proof.
  intros Hm. rewrite <-(app_nil_r rs). eapply does_bind; [exact Hm|]. intros. apply does_ret.
Qed.

Lemma actuate_does a s :
  dpy s = true → a ≠ AReleaseAll → does (actuate a) s (action_requests s a) tt.
Proof.
  intros Hd Ha. destruct a; cbn [actuate action_requests]; try done; try apply does_ret;
    eapply does_discard.
  - apply does_silent, keysym_to_keycode_silent.
  - by apply send_key_does.
  - unfold nearest. rewrite <-!clamp_nearest by (apply swrap_range; lia). by apply move_mouse_does.
  - by apply send_button_does.
Qed.

Lemma actuate_all_does acts s :
  dpy s = true → AReleaseAll ∉ acts → does (actuate_all acts) s (acts ≫= action_requests s) tt.
Proof.
  revert s. induction acts as [|a acts IH]; intros s Hd Ha; [apply does_ret|].
  apply not_elem_of_cons in Ha as [Ha Hacts]. cbn [actuate_all]. rewrite bind_cons.
  eapply does_bind; [by apply actuate_does|]. intros d.
  exact (IH (emit s (action_requests s a) d) Hd Hacts).
Qed.

Lemma handleCommand_does c s :
  dpy s = true → valid_cmd c → c ≠ Releaseall →
  let acts := performs (λ name, fst (keysymToKeycode name s)) c in
  does (handleCommand false (line_of c)) s (acts ≫= action_requests s) (logged acts).
Proof.
  intros Hd Hv Hc. cbv zeta. unfold does, handleCommand, line_of. cbv beta zeta.
  rewrite TrimSpace_Join by (by apply words_token).
  rewrite bool_decide_eq_false_2.
  2: { destruct (Join_ends (words c)) as (x & l & _ & _ & E & _); [by destruct c|by apply words_token|].
       intros E'. by rewrite E' in E. }
  rewrite Dispatch_Join by (first [by apply words_token|by destruct c]).
  rewrite dispatch_words by done.
  destruct (actuate_all_does (performs (λ name, fst (keysymToKeycode name s)) c) s) as [d E].
  - done.
  - destruct c; cbn [performs]; unfold keyed; try case_decide; try (by set_solver); done.
  - exists d. by rewrite E.
Qed.

(** ** Nothing but requests *)
Lemma emitting_does {A} (m : XM D A) : (∀ s, ∃ rs a, does m s rs a) → emitting m.
Proof. intros Hm s. destruct (Hm s) as (rs & a & d & E). exists rs, d. by rewrite E. Qed.

Lemma emitting_silent {A} (m : XM D A) : silent m → emitting m.
Proof. intros Hm. apply emitting_does. intros s. eexists _, _. by apply does_silent. Qed.

Lemma emitting_bind {A A'} (m : XM D A) (f : A → XM D A') :
  emitting m → (∀ a, emitting (f a)) → emitting (m ≫= f).
Proof.
  intros Hm Hf s. unfold mbind, X_bind. destruct (Hm s) as (rs & d & E).
  destruct (m s) as [a s1]. cbn [snd] in E. subst. destruct (Hf a (emit s rs d)) as (rs' & d' & E').
  exists (rs ++ rs'), d'. by rewrite E', emit_emit.
Qed.

Lemma emitting_dpy {A} (m : XM D A) a (f : xproc D → list xreq) :
  (∀ s, dpy s = true → does m s (f s) a) → (∀ s, dpy s = false → ∃ b, m s = (b, s)) → emitting m.
Proof.
  intros Hm Hn s. destruct (dpy s) eqn:Hd.
  - destruct (Hm s Hd) as [d E]. exists (f s), d. by rewrite E.
  - destruct (Hn s Hd) as [b E]. exists [], (server s). by rewrite E, emit_same.
Qed.

Lemma emitting_ret {A} (a : A) : emitting (mret a : XM D A).
Proof. apply emitting_silent, silent_ret. Qed.

Lemma releaseAll_emitting : emitting (releaseAll (D := D)).
Proof.
  eapply emitting_dpy; [intros s; apply release_all_does|].
  intros s Hd. exists (-1). by apply no_dpy.
Qed.

Lemma actuate_emitting a : emitting (actuate (D := D) a).
Proof.
  destruct a; cbn [actuate]; try apply emitting_ret;
    (apply emitting_bind; [|intros; apply emitting_ret]).
  - apply emitting_silent, keysym_to_keycode_silent.
  - eapply emitting_dpy; [intros s; apply send_key_does|].
    intros s Hd. exists (-1). by apply no_dpy.
  - eapply emitting_dpy; [intros s; apply move_mouse_does|].
    intros s Hd. exists (-1). by apply no_dpy.
  - eapply emitting_dpy; [intros s; apply send_button_does|].
    intros s Hd. exists (-1). by apply no_dpy.
  - apply releaseAll_emitting.
Qed.

Lemma actuate_all_emitting acts : emitting (actuate_all (D := D) acts).
Proof.
  induction acts as [|a acts IH]; [apply emitting_ret|].
  apply emitting_bind; [apply actuate_emitting|done].
Qed.

Lemma handleCommand_emitting debug cmd : emitting (handleCommand (D := D) debug cmd).
Proof.
  intros s. unfold handleCommand. case_bool_decide.
  - exists [], (server s). by rewrite emit_same.
  - destruct (actuate_all_emitting (Dispatch (λ name, fst (keysymToKeycode name s))
      (strings.TrimSpace cmd) false false) s) as (rs & d & E).
    exists rs, d. by destruct (actuate_all _ s).
Qed.

Lemma handle_lines_emitting debug lines : emitting (handle_lines (D := D) debug lines).
Proof.
  induction lines as [|line lines IH]; [apply emitting_ret|].
  apply emitting_bind; [apply handleCommand_emitting|]. intros.
  apply emitting_bind; [done|]. intros. apply emitting_ret.
Qed.

(** What ends a connection: the global release, from a state in which only the
    requests of the commands were added. *)
Definition final_release (s : xproc D) : list xreq :=
  ((λ kc, XTestFakeKeyEvent kc false) <$> pressed_keys s) ++
  [XTestFakeButtonEvent 1 false; XTestFakeButtonEvent 2 false; XTestFakeButtonEvent 3 false; XSync].

Lemma then_release {A A'} (m : XM D A) (a : A') s :
  emitting m → dpy s = true →
  ∃ rs d d', snd ((_ ← m; _ ← releaseAllHeld; mret a) s) =
             emit s (rs ++ final_release (emit s rs d)) d'.
Proof.
  intros Hm Hd. destruct (Hm s) as (rs & d & E). exists rs, d.
  unfold mbind at 1, X_bind at 1. destruct (m s) as [x s1]. cbn [snd] in E. subst.
  destruct (release_all_does (emit s rs d) Hd) as [d' E'].
  exists d'. unfold releaseAllHeld, releaseAll, mbind, X_bind, mret, X_ret.
  rewrite E'. cbn [snd]. by rewrite emit_emit.
Qed.

Lemma serve_conn_shape debug extra sent sizes ioerr input s :
  (∃ resp, tryUpgradeWS extra sent input = Handled resp) ∨
  ∃ A A' (m : XM D A) (a : A'), emitting m ∧
    snd (serve_conn debug extra sent sizes ioerr input s) = snd ((_ ← m; _ ← releaseAllHeld; mret a) s).
Proof.
  unfold serve_conn. destruct (tryUpgradeWS extra sent input) as [rest|resp|resp rest]; [|eauto|].
  - right. eexists _, _, (serveScanner debug ioerr rest), (@nil (list ascii), @nil (list ascii)).
    split; [|done]. unfold serveScanner. destruct (ScanAll maxLine ioerr rest).
    apply emitting_bind; [apply handle_lines_emitting|]. intros. apply emitting_ret.
  - right. unfold serveScannerWithAck. destruct (ws_stream sizes rest) as [[text err] w].
    destruct (ScanAll maxLine err text) as [lines err'].
    eexists _, _, (handle_lines debug lines), tt.
    split; [apply handle_lines_emitting|].
    unfold mbind, X_bind, mret, X_ret. destruct (handle_lines debug lines s) as [msgs s1].
    by destruct (releaseAllHeld s1).
Qed.
End legacy.

(** ** The theorems *)

(** C31: a legacy command reaches the X server as written: on an open display,
    every command of the protocol but the global release leads to exactly the
    requests of its actions, in order, each followed by a sync, with pointer
    targets clamped to the screen; an unknown key name leads to none and to the
    one fixed log message. *)
Theorem legacy_command_requests {D} `{Xlib D} c (s : xproc D) :
  dpy s = true → valid_cmd c → c ≠ Releaseall →
  let acts := performs (λ name, fst (keysymToKeycode name s)) c in
  does (handleCommand false (line_of c)) s (acts ≫= action_requests s) (logged acts).
Proof. apply handleCommand_does. Qed.

Lemma legacy_command_requests_witness :
  does (handleCommand false (line_of (Mousemove 2000 (-4))))
    (opened {| caps := false |} 1280 720) [XWarpPointer 1279 0; XSync] [].
Proof.
  apply (legacy_command_requests (Mousemove 2000 (-4)) (opened {| caps := false |} 1280 720)).
  - reflexivity.
  - vm_compute. intuition congruence.
  - discriminate.
Defined.

(** No legacy connection leaves the display without the global release:
    once a connection is taken for commands (plain or WebSocket), whatever it
    sends, the last requests submitted for it are ups for all keys the server
    reports as pressed at that point and for the buttons 1 to 3. *)
Theorem legacy_connection_releases {D} `{Xlib D} debug extra sent sizes ioerr input (s : xproc D) :
  dpy s = true → (∀ resp, tryUpgradeWS extra sent input ≠ Handled resp) →
  ∃ rs d d', snd (serve_conn debug extra sent sizes ioerr input s) =
             emit s (rs ++ final_release (emit s rs d)) d'.
Proof.
  intros Hd Hn. destruct (serve_conn_shape debug extra sent sizes ioerr input s)
    as [[resp E]|(A & A' & m & a & Hm & ->)]; [by apply Hn in E|].
  by apply then_release.
Qed.

Lemma legacy_connection_releases_witness :
  ∃ rs d d', snd (serve_conn false 0 true [] None (bytes "mousedown 1")
                    (opened {| caps := false |} 1280 720)) =
             emit (opened {| caps := false |} 1280 720)
               (rs ++ final_release (emit (opened {| caps := false |} 1280 720) rs d)) d'.
Proof.
  apply (legacy_connection_releases false 0 true [] None (bytes "mousedown 1")).
  - reflexivity.
  - intros resp. vm_compute. discriminate.
Defined.

(** The global release does not know about the other buttons: a client that
    presses button 4 (accepted like any other) and disconnects leaves it
    pressed, since the last transition the server gets for it is the press. *)
Theorem legacy_button4_stays_down :
  let s := snd (serve_conn false 0 true [] None (bytes "mousedown 4") (opened {| caps := false |} 1280 720)) in
  XTestFakeButtonEvent 4 true ∈ requests s ∧ XTestFakeButtonEvent 4 false ∉ requests s.
Proof. split; apply (bool_decide_unpack _); vm_compute; exact I. Qed.
