(* ===== verification/Input.v ===== *)
(** * The keys and buttons that are down on the display

    What the X server does with the input events the program fakes, as laws of
    a server ([InputServer]), and with them what the program achieves: not only
    which requests it makes but in which state they leave the display.  This
    file holds the laws, the X11 layer and the legacy connections; file
    [DisplaySpec] has the destination daemon. *)

From S2P Require Import Prelude GoStrings VNext Xlib X11 X11Spec.
From S2P Require Import Scanner V2Line Ws Legacy LegacySpec.
Local Open Scope Z_scope.

(** The documented behaviour of the X server and the XTEST extension.  [down d]
    are the keys ([inl]) and the buttons ([inr]) that are down.  A faked key or
    button event moves that key or button and no other; keycodes are 8 to 255,
    an event for any other is refused; the three basic buttons exist.  The key
    map shows the keys that are down.  Nothing else the program asks for moves a
    key or a button. *)
Class InputServer (D : Type) `{Xlib D} (down : D → gset (Z + Z)) := {
  down_keys_range kc (d : D) : inl kc ∈ down d → 8 ≤ kc < 256;
  down_key kc press (d : D) x :
    8 ≤ kc < 256 →
    x ∈ down (snd (submit (XTestFakeKeyEvent kc press) d)) ↔
    if decide (x = inl kc) then press = true else x ∈ down d;
  down_no_key kc press (d : D) :
    ¬ 8 ≤ kc < 256 → down (snd (submit (XTestFakeKeyEvent kc press) d)) = down d;
  down_button b press (d : D) :
    1 ≤ b ≤ 3 → inr b ∈ down (snd (submit (XTestFakeButtonEvent b press) d)) ↔ press = true;
  down_other_button b press (d : D) x :
    x ≠ inr b → x ∈ down (snd (submit (XTestFakeButtonEvent b press) d)) ↔ x ∈ down d;
  down_request r (d : D) :
    match r with
    | XTestFakeKeyEvent _ _ | XTestFakeButtonEvent _ _ => True
    | _ => down (snd (submit r d)) = down d
    end;
  keymap_down kc (d : D) :
    0 ≤ kc < 256 →
    Z.testbit (nth (Z.to_nat (kc / 8)) (fst (XQueryKeymap d)) 0) (kc mod 8) = true ↔ inl kc ∈ down d;
  keycode_range ks (d : D) : XKeysymToKeycode ks d = 0 ∨ 8 ≤ XKeysymToKeycode ks d < 256;
  keymap_keeps (d : D) : down (snd (XQueryKeymap d)) = down d;
  atom_keeps name (d : D) : down (snd (XInternAtom name d)) = down d;
  property_keeps w p n t (d : D) : down (snd (XGetWindowProperty w p n t d)) = down d;
  geometry_keeps w (d : D) : down (snd (XGetGeometry w d)) = down d;
  translate_keeps w (d : D) : down (snd (XTranslateCoordinates w d)) = down d;
  class_keeps w (d : D) : down (snd (XGetClassHint w d)) = down d;
  name_keeps w (d : D) : down (snd (XFetchName w d)) = down d;
  pointer_keeps (d : D) : down (snd (XQueryPointer d)) = down d;
}.

(** The keys and buttons down on the display of the process. *)
Definition held_on {D} (down : D → gset (Z + Z)) (s : xproc D) : gset (Z + Z) := down (server s).

Section input.
Context {D : Type} `{InputServer D down}.
Implicit Types s : xproc D.
Abbreviation held := (held_on down).

(** ** One faked event *)
Lemma request_key kc press s x :
  8 ≤ kc < 256 →
  x ∈ held (snd (request (XTestFakeKeyEvent kc press) s)) ↔
  if decide (x = inl kc) then press = true else x ∈ held s.
Proof.
  intros Hk. pose proof (down_key kc press (server s) x Hk) as E. unfold request, held_on.
  by destruct (submit _ (server s)).
Qed.

Lemma request_button b press s :
  1 ≤ b ≤ 3 → inr b ∈ held (snd (request (XTestFakeButtonEvent b press) s)) ↔ press = true.
Proof.
  intros Hb. pose proof (down_button b press (server s) Hb) as E. unfold request, held_on.
  by destruct (submit _ (server s)).
Qed.

Lemma request_other_button b press s x :
  x ≠ inr b → x ∈ held (snd (request (XTestFakeButtonEvent b press) s)) ↔ x ∈ held s.
Proof.
  intros Hx. pose proof (down_other_button b press (server s) x Hx) as E. unfold request, held_on.
  by destruct (submit _ (server s)).
Qed.

(** A release can only take something away. *)
Lemma request_up_key kc s : held (snd (request (XTestFakeKeyEvent kc false) s)) ⊆ held s.
Proof.
  destruct (decide (8 ≤ kc < 256)) as [Hk|Hk].
  - intros x. rewrite request_key by done. by case_decide.
  - unfold held_on, request. pose proof (down_no_key kc false (server s) Hk) as E.
    destruct (submit _ (server s)). cbn in *. by rewrite E.
Qed.

Lemma request_up_button b s :
  1 ≤ b ≤ 3 → held (snd (request (XTestFakeButtonEvent b false) s)) ⊆ held s ∖ {[inr b]}.
Proof.
  intros Hb x Hx. destruct (decide (x = inr b)) as [->|Hn].
  - by apply request_button in Hx.
  - apply request_other_button in Hx; set_solver.
Qed.

Lemma request_sync s : held (snd (sync s)) = held s.
Proof.
  unfold sync, mbind, X_bind, request, held_on. pose proof (down_request XSync (server s)) as E.
  by destruct (submit _ (server s)).
Qed.

(** ** One key or button of the X11 layer *)
Lemma request_dpy r s : dpy (snd (request r s)) = dpy s.
Proof. unfold request. by destruct (submit r (server s)). Qed.

(** A faked event and its sync: it succeeds, and only the event counts. *)
Lemma event_synced r s :
  dpy s = true →
  let '(rc, s') := unless_dpy (-1) (_ ← request r; _ ← sync; mret 0) s in
  rc = 0 ∧ dpy s' = true ∧ held s' = held (snd (request r s)).
Proof.
  intros Hd. unfold unless_dpy, gets, mbind at 1, X_bind at 1. rewrite Hd.
  unfold mbind at 1, X_bind at 1. pose proof (request_dpy r s) as Hr.
  destruct (request r s) as [ok s1]. cbn [snd] in *.
  pose proof (request_sync s1) as Hy. pose proof (request_dpy XSync s1) as Hz.
  unfold sync in *. rewrite then_server in Hy. unfold mbind, X_bind, mret, X_ret in *.
  destruct (request XSync s1) as [ok2 s2]. cbn in *. rewrite Hz, Hr. done.
Qed.

Lemma sendKey_held kc press s :
  dpy s = true → 8 ≤ kc < 256 →
  let '(rc, s') := sendKey kc press s in
  rc = 0 ∧ dpy s' = true ∧
  ∀ x, x ∈ held s' ↔ if decide (x = inl kc) then press = true else x ∈ held s.
Proof.
  intros Hd Hk. unfold sendKey, send_key. rewrite (uwrap_small 32 kc) by (split; [lia|]; change (2 ^ 32) with 4294967296; lia).
  pose proof (event_synced (XTestFakeKeyEvent kc press) s Hd) as E.
  destruct (unless_dpy _ _ s) as [rc s']. destruct E as (-> & -> & ->).
  split_and!; [done|done|]. intros x. by apply request_key.
Qed.

Lemma sendButton_held b press s :
  dpy s = true → 1 ≤ b ≤ 3 →
  let '(rc, s') := sendButton b press s in
  rc = 0 ∧ dpy s' = true ∧
  ∀ x, x ∈ held s' ↔ if decide (x = inr b) then press = true else x ∈ held s.
Proof.
  intros Hd Hb. unfold sendButton, send_button. rewrite (uwrap_small 32 b) by (split; [lia|]; change (2 ^ 32) with 4294967296; lia).
  pose proof (event_synced (XTestFakeButtonEvent b press) s Hd) as E.
  destruct (unless_dpy _ _ s) as [rc s']. destruct E as (-> & -> & ->).
  split_and!; [done|done|]. intros x. case_decide as Hx; [subst; by apply request_button|].
  by apply request_other_button.
Qed.

(** ** The global release *)
Lemma release_pressed_held keys kcs s :
  held (snd (release_pressed keys kcs s)) ⊆ held s ∧
  ∀ kc, kc ∈ kcs → key_bit keys kc = true → 8 ≤ kc < 256 →
    inl kc ∉ held (snd (release_pressed keys kcs s)).
Proof.
  revert s. induction kcs as [|k kcs IH]; intros s; cbn [release_pressed].
  { split; [done|]. intros kc Hk. by apply elem_of_nil in Hk. }
  destruct (key_bit keys k) eqn:Ek.
  - rewrite then_server. destruct (IH (snd (request (XTestFakeKeyEvent k false) s))) as [Hs Hn].
    split; [etransitivity; [exact Hs|apply request_up_key]|].
    intros kc [->|Hk]%elem_of_cons Hb Hr; [|by apply Hn].
    intros Hx%Hs. apply request_key in Hx; [|done]. by rewrite decide_True in Hx.
  - destruct (IH s) as [Hs Hn]. split; [done|].
    intros kc [->|Hk]%elem_of_cons Hb Hr; [congruence|by apply Hn].
Qed.

Lemma release_all_server s :
  dpy s = true →
  snd (releaseAll s) =
  let '(keys, d) := XQueryKeymap (server s) in
  let s2 := snd (release_pressed keys (seqZ 0 256) (with_server d s)) in
  let s3 := snd (request (XTestFakeButtonEvent 1 false) s2) in
  let s4 := snd (request (XTestFakeButtonEvent 2 false) s3) in
  let s5 := snd (request (XTestFakeButtonEvent 3 false) s4) in
  snd (sync s5).
Proof.
  intros Hd. unfold releaseAll, release_all, unless_dpy, gets, mbind at 1, X_bind at 1. rewrite Hd.
  unfold mbind at 1, X_bind at 1. unfold query.
  destruct (XQueryKeymap (server s)) as [keys d]. cbv zeta. by rewrite !then_server.
Qed.

(** After the global release no key is down and none of the three buttons. *)
Lemma release_all_held s :
  dpy s = true →
  held (snd (releaseAll s)) ⊆ held s ∧
  (∀ kc, inl kc ∉ held (snd (releaseAll s))) ∧
  (∀ b, 1 ≤ b ≤ 3 → inr b ∉ held (snd (releaseAll s))).
Proof.
  intros Hd. rewrite (release_all_server s Hd).
  pose proof (λ kc, keymap_down kc (server s)) as Hmap.
  pose proof (keymap_keeps (server s)) as Hkeep.
  destruct (XQueryKeymap (server s)) as [keys d]. cbn [fst snd] in *. cbv zeta.
  set (s1 := with_server d s). assert (held s1 = held s) as E1 by (by unfold held_on, s1; destruct s).
  destruct (release_pressed_held keys (seqZ 0 256) s1) as [Hs2 Hn2].
  set (s2 := snd (release_pressed keys (seqZ 0 256) s1)) in *.
  set (s3 := snd (request (XTestFakeButtonEvent 1 false) s2)).
  set (s4 := snd (request (XTestFakeButtonEvent 2 false) s3)).
  set (s5 := snd (request (XTestFakeButtonEvent 3 false) s4)).
  rewrite request_sync.
  assert (held s3 ⊆ held s2 ∖ {[inr 1]}) as H3 by (apply request_up_button; lia).
  assert (held s4 ⊆ held s3 ∖ {[inr 2]}) as H4 by (apply request_up_button; lia).
  assert (held s5 ⊆ held s4 ∖ {[inr 3]}) as H5 by (apply request_up_button; lia).
  assert (∀ x, x ∈ held s5 → x ∈ held s2 ∧ x ≠ inr 1 ∧ x ≠ inr 2 ∧ x ≠ inr 3) as Hx.
  { intros x [[[? N1]%H3%elem_of_difference N2]%H4%elem_of_difference N3]%H5%elem_of_difference.
    rewrite not_elem_of_singleton in N1, N2, N3. done. }
  split_and!.
  - intros x [Hx2%Hs2 _]%Hx. by rewrite <-E1.
  - intros kc [Hk2 _]%Hx. assert (inl kc ∈ held s) as Hk by (rewrite <-E1; by apply Hs2).
    pose proof (down_keys_range kc (server s) Hk) as Hr.
    apply (Hn2 kc); [apply elem_of_seqZ; lia| |done|done].
    rewrite key_bit_spec. apply Hmap; [lia|done].
  - intros b Hb (_ & H1 & H2 & H6)%Hx.
    assert (b = 1 ∨ b = 2 ∨ b = 3) as [-> | [-> | ->]] by lia; done.
Qed.
End input.

(** ** A server with nothing but keys and buttons *)

Fixpoint bits (l : list bool) : Z :=
  match l with [] => 0 | b :: l' => Z.b2z b + 2 * bits l' end.

Lemma bits_testbit l n : Z.testbit (bits l) (Z.of_nat n) = nth n l false.
Proof.
  revert n. induction l as [|b l IH]; intros n; cbn [bits]; [rewrite Z.bits_0; by destruct n|].
  rewrite Z.add_comm. destruct n as [|n].
  - change (Z.of_nat 0) with 0. apply Z.testbit_0_r.
  - rewrite Nat2Z.inj_succ, Z.testbit_succ_r by lia. apply IH.
Qed.

Record pad_server := { pressed : gset (Z + Z) }.

(** What is down: of the keys only those that exist. *)
Definition pad_valid (x : Z + Z) : bool :=
  match x with inl kc => bool_decide (8 ≤ kc < 256) | inr _ => true end.
Definition pad_down (d : pad_server) : gset (Z + Z) := filter (λ x, pad_valid x = true) (pressed d).

(** Byte [i] of the key map. *)
Definition pad_byte (d : pad_server) (i : Z) : Z :=
  bits (map (λ j, bool_decide (inl (8 * i + j) ∈ pad_down d)) (seqZ 0 8)).

Definition pad_move (x : Z + Z) (press : bool) (d : pad_server) : pad_server :=
  {| pressed := if press then {[x]} ∪ pressed d else pressed d ∖ {[x]} |}.

#[global] Instance pad_server_Xlib : Xlib pad_server := {|
  submit r d :=
    match r with
    | XTestFakeKeyEvent kc press =>
      if pad_valid (inl kc) then (true, pad_move (inl kc) press d) else (false, d)
    | XTestFakeButtonEvent b press => (true, pad_move (inr b) press d)
    | _ => (true, d)
    end;
  XInitThreads d := (true, d);
  XOpenDisplay d := (true, d);
  XQueryExtension _ d := (false, d);
  DisplayWidth _ := 1280;
  DisplayHeight _ := 720;
  DefaultRootWindow _ := 1;
  XQueryKeymap d := (map (pad_byte d) (seqZ 0 32), d);
  XStringToKeysym name := if decide (name = "F1") then 0xffbe else NoSymbol;
  XKeysymToKeycode ks _ := if ks =? 0xffbe then 67 else 0;
  XInternAtom _ d := (1, d);
  XGetWindowProperty _ _ _ _ d :=
    ({| p_status := 1; p_type := 0; p_format := 0; p_nitems := 0; p_data := None |}, d);
  XGetGeometry _ d := (None, d);
  XTranslateCoordinates _ d := ((0, 0), d);
  XGetClassHint _ d := (None, d);
  XFetchName _ d := (None, d);
  XQueryPointer d := (None, d)
|}.

Lemma pad_down_elem x d : x ∈ pad_down d ↔ pad_valid x = true ∧ x ∈ pressed d.
Proof. unfold pad_down. by rewrite elem_of_filter. Qed.

Lemma pad_move_down x press d y :
  pad_valid x = true →
  y ∈ pad_down (pad_move x press d) ↔ if decide (y = x) then press = true else y ∈ pad_down d.
Proof.
  intros Hx. rewrite !pad_down_elem. unfold pad_move. cbn.
  destruct press; case_decide; subst; set_solver.
Qed.

Lemma nth_seqZ (f : Z → bool) m n : 0 ≤ m < n → nth (Z.to_nat m) (map f (seqZ 0 n)) false = f m.
Proof.
  intros Hm. assert (map f (seqZ 0 n) !! Z.to_nat m = Some (f m)) as E.
  { change (map f (seqZ 0 n)) with (f <$> seqZ 0 n). rewrite list_lookup_fmap.
    rewrite lookup_seqZ_lt by lia. cbn. f_equal. f_equal. lia. }
  by apply nth_lookup_Some with (d := false) in E.
Qed.

Lemma pad_keymap kc d :
  0 ≤ kc < 256 →
  Z.testbit (nth (Z.to_nat (kc / 8)) (map (pad_byte d) (seqZ 0 32)) 0) (kc mod 8) = true ↔
  inl kc ∈ pad_down d.
Proof.
  intros Hk. assert (0 ≤ kc / 8 < 32) as Hq.
  { split; [apply Z.div_pos; lia|apply Z.div_lt_upper_bound; lia]. }
  assert (map (pad_byte d) (seqZ 0 32) !! Z.to_nat (kc / 8) = Some (pad_byte d (kc / 8))) as E.
  { change (map (pad_byte d) (seqZ 0 32)) with (pad_byte d <$> seqZ 0 32).
    rewrite list_lookup_fmap, lookup_seqZ_lt by lia. cbn. f_equal. f_equal. lia. }
  apply nth_lookup_Some with (d := 0) in E. rewrite E.
  pose proof (Z.mod_pos_bound kc 8). unfold pad_byte.
  rewrite <-(Z2Nat.id (kc mod 8)) at 1 by lia. rewrite bits_testbit, nth_seqZ by lia.
  rewrite bool_decide_eq_true. rewrite (Z.div_mod kc 8) at 3 by lia. done.
Qed.

#[global] Instance pad_server_input : InputServer pad_server pad_down.
Proof.
  split; cbn; try done.
  - intros kc d [Hv _]%pad_down_elem. cbn in Hv. by bools.
  - intros kc press d x Hk. rewrite bool_decide_true by done. cbn.
    apply pad_move_down. cbn. by apply bool_decide_eq_true.
  - intros kc press d Hk. by rewrite bool_decide_false by done.
  - intros b press d _. rewrite pad_move_down by done. by rewrite decide_True.
  - intros b press d x Hx. rewrite pad_move_down by done. by rewrite decide_False.
  - by intros [].
  - apply pad_keymap.
  - intros ks d. destruct (_ =? _); [right; lia|by left].
Qed.

(** ** The legacy daemon *)

(** C30: a legacy client leaves the display clear: on a server that behaves as
    documented, once a connection (plain, WebSocket or standard input) that was
    taken for commands is over, whatever it sent and whatever other clients had
    pressed, no key is down and none of the buttons 1, 2 and 3. *)
Theorem legacy_display_clear {D} `{InputServer D down} debug extra sent sizes ioerr input (s : xproc D) :
  dpy s = true →
  (∀ resp, tryUpgradeWS extra sent input ≠ Handled resp) →
  let clear s' := (∀ kc, inl kc ∉ down (server s')) ∧ ∀ b, 1 ≤ b ≤ 3 → inr b ∉ down (server s') in
  clear (snd (serve_conn debug extra sent sizes ioerr input s)) ∧
  clear (snd (serve_stdin debug ioerr input s)).
Proof.
  intros Hd Hn clear. assert (∀ A (m : XM D A), emitting m → clear (snd (releaseAll (snd (m s))))) as Hc.
  { intros A m Hm. destruct (Hm s) as (rs & d & E).
    apply release_all_held. rewrite E. exact Hd. }
  split.
  - destruct (serve_conn_shape debug extra sent sizes ioerr input s)
      as [[resp E]|(A & A' & m & a & Hm & ->)]; [by destruct (Hn resp)|].
    rewrite then_server. unfold releaseAllHeld. rewrite !then_server. by apply Hc.
  - unfold serve_stdin. rewrite then_server. unfold releaseAllHeld. rewrite then_server. apply Hc.
    unfold serveScanner. destruct (ScanAll maxLine ioerr input).
    apply emitting_bind; [apply handle_lines_emitting|]. intros. apply emitting_ret.
Qed.

Lemma legacy_display_clear_witness :
  (∀ kc, inl kc ∉ pad_down (server (snd (serve_conn false 0 true [] None (bytes "keydown F1")
                              (opened {| pressed := {[inr 1]} |} 1280 720))))) ∧
  ∀ b, 1 ≤ b ≤ 3 → inr b ∉ pad_down (server (snd (serve_conn false 0 true [] None (bytes "keydown F1")
                              (opened {| pressed := {[inr 1]} |} 1280 720)))).
Proof.
  refine (proj1 (legacy_display_clear false 0 true [] None (bytes "keydown F1")
    (opened {| pressed := {[inr 1]} |} 1280 720) eq_refl _)).
  intros resp. vm_compute. discriminate.
Defined.
