(* ===== verification/Owner.v ===== *)
(** * The owner thread (cmd/xtest-server/dest_owner.go)

    Callers put a job into a bounded channel and wait for it; the owner runs the
    jobs one after another.  The steps of all goroutines, in any interleaving. *)

From S2P Require Import Prelude.
Local Open Scope Z_scope.

Definition destQueueCap : nat := 256.

(** [jobs] is the channel, oldest job first; [running] the job the owner is
    executing; [history] and [completed] record which calls were accepted and
    which ran, in order; [waiting] are the callers in [call]. *)
Record xOwner := {
  jobs : list nat;
  running : option nat;
  waiting : list nat;
  history : list nat;
  completed : list nat;
}.

Definition startXOwner : xOwner :=
  {| jobs := []; running := None; waiting := []; history := []; completed := [] |}.

(** ** What each step does to the channel and to the callers *)

(** [o.jobs <- func]: the job is put into the channel, the caller waits. *)
Definition own_call (c : nat) (o : xOwner) : xOwner :=
  {| jobs := jobs o ++ [c]; running := running o; waiting := c :: waiting o;
     history := history o ++ [c]; completed := completed o |}.
(** [for fn := range o.jobs]: the owner takes the next job. *)
Definition own_take (c : nat) (rest : list nat) (o : xOwner) : xOwner :=
  {| jobs := rest; running := Some c; waiting := waiting o;
     history := history o; completed := completed o |}.
(** [fn()] returns and closes [done]. *)
Definition own_done (c : nat) (o : xOwner) : xOwner :=
  {| jobs := jobs o; running := None; waiting := waiting o;
     history := history o; completed := completed o ++ [c] |}.
(** [<-done]: the caller goes on. *)
Definition own_return (c : nat) (o : xOwner) : xOwner :=
  {| jobs := jobs o; running := running o; waiting := filter (λ d, d ≠ c) (waiting o);
     history := history o; completed := completed o |}.

Inductive step : xOwner → xOwner → Prop :=
  | step_call o c :
    (length (jobs o) < destQueueCap)%nat → c ∉ history o → step o (own_call c o)
  | step_take o c rest :
    running o = None → jobs o = c :: rest → step o (own_take c rest o)
  | step_done o c :
    running o = Some c → step o (own_done c o)
  | step_return o c :
    c ∈ waiting o → c ∈ completed o → step o (own_return c o).

Inductive reachable : xOwner → Prop :=
  | reach_start : reachable startXOwner
  | reach_step o o' : reachable o → step o o' → reachable o'.

(** ** The invariant *)
Definition owner_ok (o : xOwner) : Prop :=
  history o = completed o ++ option_list (running o) ++ jobs o ∧
  NoDup (history o) ∧
  (length (jobs o) ≤ destQueueCap)%nat ∧
  (∀ c, c ∈ history o → c ∉ completed o → c ∈ waiting o).

Lemma owner_ok_start : owner_ok startXOwner.
Proof.
  split_and!; [done|constructor|cbn; lia|]. intros c Hc. by apply elem_of_nil in Hc.
Qed.

Lemma owner_ok_step o o' : owner_ok o → step o o' → owner_ok o'.
Proof.
  intros (Hh & Hn & Hl & Hw) Hs. destruct Hs as [o c Hr Hc|o c rest Hr Hj|o c Hr|o c H1 H2].
  - split_and!; cbn.
    + by rewrite Hh, <-!app_assoc.
    + apply list.NoDup_app. split_and!; [done| |apply NoDup_singleton].
      intros x Hx Hx'%list_elem_of_singleton. by subst.
    + rewrite length_app. cbn. lia.
    + intros x [Hx|Hx%list_elem_of_singleton]%elem_of_app Hx'.
      * right. by apply Hw.
      * subst. by left.
  - rewrite Hr, Hj in Hh. split_and!; cbn; [done|done| |done].
    rewrite Hj in Hl. cbn in Hl. lia.
  - rewrite Hr in Hh. split_and!; cbn; [by rewrite Hh, <-app_assoc|done|done|].
    intros x Hx [Hx' _]%not_elem_of_app. by apply Hw.
  - split_and!; cbn; [done|done|done|]. intros x Hx Hx'.
    apply list_elem_of_filter. split; [by intros ->|by apply Hw].
Qed.

Lemma reachable_ok o : reachable o → owner_ok o.
Proof. induction 1; [apply owner_ok_start|by eapply owner_ok_step]. Qed.

(** ** The theorems *)

(** C38: the owner thread serializes its callers: in every reachable state the
    jobs that ran, the one running and the ones queued are, in this order,
    exactly the accepted calls in the order they were made, each once; the
    queue holds at most 256 jobs; and a caller whose job has not run is still
    waiting, so that no call returns before its job ran. *)
Theorem owner_fifo o :
  reachable o →
  history o = completed o ++ option_list (running o) ++ jobs o ∧
  NoDup (history o) ∧
  (length (jobs o) ≤ destQueueCap)%nat ∧
  (∀ c, c ∈ history o → c ∉ completed o → c ∈ waiting o).
Proof. apply reachable_ok. Qed.

Lemma owner_fifo_witness :
  history {| jobs := []; running := Some 1%nat; waiting := [1%nat]; history := [1%nat]; completed := [] |}
  = [] ++ [1%nat] ++ [].
Proof.
  apply (owner_fifo {| jobs := []; running := Some 1%nat; waiting := [1%nat]; history := [1%nat];
                       completed := [] |}).
  apply (reach_step {| jobs := [1%nat]; running := None; waiting := [1%nat]; history := [1%nat];
                       completed := [] |}).
  - apply (reach_step startXOwner); [apply reach_start|].
    apply (step_call startXOwner 1%nat); [unfold destQueueCap; cbn; lia|apply not_elem_of_nil].
  - exact (step_take {| jobs := [1%nat]; running := None; waiting := [1%nat]; history := [1%nat];
                        completed := [] |} 1%nat [] eq_refl eq_refl).
Defined.

(** The owner never gets stuck: whenever an accepted call has not returned,
    the owner can take or finish a job, or the caller can go on. *)
Theorem owner_progress o c :
  reachable o → c ∈ waiting o → c ∈ history o → ∃ o', step o o'.
Proof.
  intros Hr Hw Hh. pose proof (reachable_ok o Hr) as (E & _).
  destruct (decide (c ∈ completed o)) as [Hc|Hc].
  - eexists. by eapply step_return.
  - destruct (running o) as [d|] eqn:Er; [eexists; by eapply step_done|].
    rewrite E in Hh. cbn in Hh. apply elem_of_app in Hh as [Hh|Hh]; [done|].
    destruct (jobs o) as [|d rest] eqn:Ej; [by apply elem_of_nil in Hh|].
    eexists. by eapply step_take.
Qed.

Lemma owner_progress_witness :
  ∃ o', step {| jobs := [1%nat]; running := None; waiting := [1%nat]; history := [1%nat];
                completed := [] |} o'.
Proof.
  apply (owner_progress _ 1%nat); [|left..].
  apply (reach_step startXOwner); [apply reach_start|].
  apply (step_call startXOwner 1%nat); [unfold destQueueCap; cbn; lia|apply not_elem_of_nil].
Defined.
