(* ===== verification/Serve.v ===== *)
(** * Serving destination clients (cmd/xtest-server/dest.go, lines 386-496)

    One connection, and the accept loops that start connections.  A connection
    is everything its client sends; what the operating system and the scheduler
    decide (map orders, failing writes, ends of connections) are arguments. *)

From S2P Require Import Prelude GoStrings Json VNext Request Wire.
From S2P Require Import Backend Session Dispatch Scanner X11 DestBackend.
Local Open Scope Z_scope.

(** What is decided outside while a line is served: the order in which a release
    visits the holds, and whether the reply could be written. *)
Record turn := { t_sch : schedule; t_sent : bool }.

(** The loop of [serveVNextConn]: [replies] are the texts handed to the
    connection.  [json.Marshal] cannot fail on a reply. *)
Fixpoint vnext_loop (lines : list string) (turns : nat → turn) (sess : option Session)
    (replies : list (list ascii)) : prog (option Session * list (list ascii)) :=
  match lines with
  | [] => Ret (sess, replies)
  | line :: lines' =>
    '(out, sess) ← HandleLine (t_sch (turns 0%nat)) line sess false;
    let replies := replies ++ [WireJSON out ++ [lf]] in
    if t_sent (turns 0%nat) then vnext_loop lines' (λ n, turns (S n)) sess replies
    else Ret (sess, replies)
  end.

(** The session the connection ends with, after the deferred release, and the
    replies. *)
Definition serveVNextConn (input : list ascii) (ioerr : option error) (turns : nat → turn)
    (last : schedule) : prog (option Session * list (list ascii)) :=
  let lines := fst (ScanAll maxLine ioerr input) in
  '(sess, replies) ← vnext_loop lines turns (Some NewSession) [];
  '(_, sess) ← Release last sess false;
  Ret (sess, replies).

(** ** Peers *)

(** What is known of a connection: whether it is a Unix connection, its
    descriptor if [SyscallConn] and [Control] give access to it, and what the
    kernel answers when asked for the credentials of a descriptor. *)
Record peer := {
  is_unix : bool;
  raw_fd : option Z;
  peercred : Z → option (Z * Z);
}.

Definition allowPeer (conn : peer) (allow gids : list Z) : bool :=
  match allow with
  | [] => false
  | _ =>
    if negb (is_unix conn) then false else
    match raw_fd conn with
    | None => false
    | Some fd =>
      let '(uid, gid, got) := peerUID (peercred conn) fd in
      if negb got then false else
      let uidOK := existsb (λ a, a =? uid) allow in
      if negb uidOK then false else
      match gids with
      | [] => true
      | _ => existsb (λ g, g =? gid) gids
      end
    end
  end.

(** ** The accept loops *)

(** What can happen to a listening daemon: a connection arrives, accepting fails
    because the listener was closed or otherwise, a connection ends. *)
Inductive arrival :=
  | Arrived (id : nat) (conn : peer)
  | AcceptClosed
  | AcceptFailed
  | Ended (id : nat).

(** [serving] are the connections that hold a slot of [connSem]. *)
Record listener := {
  serving : list (nat * peer);
  finished : option Z;      (* the exit status, when the loop is over *)
}.

Definition listening : listener := {| serving := []; finished := None |}.

(** A connection gives its slot back. *)
Definition end_conn (id : nat) (st : listener) : listener :=
  {| serving := filter (λ c, c.1 ≠ id) (serving st); finished := finished st |}.

(** One iteration of the loop of [serveVNext]. *)
Definition accept_vnext (allow gids : list Z) (st : listener) (a : arrival) : listener :=
  match a with
  | Ended id => end_conn id st
  | _ =>
    if bool_decide (is_Some (finished st)) then st else
    match a with
    | AcceptClosed => {| serving := serving st; finished := Some 0 |}
    | AcceptFailed => {| serving := serving st; finished := Some 1 |}
    | Arrived id conn =>
      if negb (allowPeer conn allow gids) then st
      else if Z.of_nat (length (serving st)) <? destMaxConns
      then {| serving := (id, conn) :: serving st; finished := finished st |}
      else st
    | Ended id => st
    end
  end.

(** One iteration of the loop of [serveTCP]: every peer is taken, and failing to
    accept does not end it. *)
Definition maxConns : Z := 10.

Definition accept_tcp (st : listener) (a : arrival) : listener :=
  match a with
  | Ended id => end_conn id st
  | AcceptClosed | AcceptFailed => st
  | Arrived id conn =>
    if Z.of_nat (length (serving st)) <? maxConns
    then {| serving := (id, conn) :: serving st; finished := finished st |}
    else st
  end.

(** The result of [serveVNext] before its loop: an empty allowlist does not
    listen. *)
Definition serve_vnext_start (allow : list Z) (listen : option error) : option Z :=
  match allow with
  | [] => Some 2
  | _ => match listen with Some _ => Some 1 | None => None end
  end.

(** [net.Listen] is tried three times by [serveTCP]; [attempts] are its
    answers. *)
Fixpoint listen_attempts (n : nat) (attempts : nat → option error) : option error :=
  match n with
  | O => None
  | S n' =>
    match attempts 0%nat with
    | None => None
    | Some e => match n' with O => Some e | _ => listen_attempts n' (λ k, attempts (S k)) end
    end
  end.
Definition serve_tcp_start (attempts : nat → option error) : option Z :=
  match listen_attempts 3 attempts with Some _ => Some 1 | None => None end.
