(* ===== verification/ServeSpec.v ===== *)
(** * What a destination connection guarantees *)

From S2P Require Import Prelude GoStrings Json JsonText VNext Request RequestSpec Wire.
From S2P Require Import Backend Session Dispatch DispatchSpec Scanner X11 DestBackend Admission Serve.
Local Open Scope Z_scope.

(** ** One connection *)
Lemma vnext_loop_session lines turns s replies evs sess' replies' :
  exec (vnext_loop lines turns (Some s) replies) evs (sess', replies') →
  sess' = Some (foldl track s evs).
Proof.
  revert turns s replies evs. induction lines as [|line lines IH]; intros turns s replies evs.
  - intros [-> ?]%exec_ret_inv. by simplify_eq.
  - cbn [vnext_loop]. intros (evs1 & evs2 & [out sess1] & -> & H1 & H2)%exec_bind.
    apply HandleLine_session in H1 as ->. rewrite foldl_app.
    destruct (t_sent (turns 0%nat)); [by apply IH in H2|].
    apply exec_ret_inv in H2 as [-> ?]. by simplify_eq.
Qed.

(** The text is the reply to the line: handling the line in session [s] makes the
    calls [evs] and leaves session [s'], and the text is one line that shows the
    outcome, which reports the calls. *)
Definition answers (sch : schedule) (line : string) (s s' : Session) (evs : list event)
    (reply : list ascii) : Prop :=
  ∃ out text, exec (HandleLine sch line (Some s) false) evs (out, Some s') ∧
    reply = text ++ [lf] ∧ ¬ (lf ∈ text) ∧ shows_reply text out ∧ reports out evs.

Lemma HandleLine_answers sch line s evs out sess :
  exec (HandleLine sch line (Some s) false) evs (out, sess) →
  ∃ s', sess = Some s' ∧ answers sch line s s' evs (WireJSON out ++ [lf]).
Proof.
  intros H. pose proof (HandleLine_session _ _ _ _ _ _ H) as ->.
  eexists. split; [done|]. exists out, (WireJSON out).
  split_and!; [done|done|apply WireJSON_no_lf|apply reply_shown|by eapply HandleLine_reports].
Qed.

(** The replies of a loop that starts in session [s]: reply [i] answers line [i],
    in the session that line [i - 1] left; the loop ends at the first reply that
    cannot be sent. *)
Definition replies_answer (lines : list string) (turns : nat → turn) (s : nat → Session)
    (evss : list (list event)) (replies : list (list ascii)) : Prop :=
  length evss = length replies ∧ (length replies ≤ length lines)%nat ∧
  (∀ i line ev reply, lines !! i = Some line → evss !! i = Some ev → replies !! i = Some reply →
     answers (t_sch (turns i)) line (s i) (s (S i)) ev reply) ∧
  (∀ i, (S i < length replies)%nat → t_sent (turns i) = true) ∧
  ((length replies < length lines)%nat →
     ∃ i, length replies = S i ∧ t_sent (turns i) = false).

Lemma replies_answer_nil s0 turns : replies_answer [] turns (λ _, s0) [] [].
Proof. split_and!; cbn; intros; try done; lia. Qed.

Lemma replies_answer_unsent line lines turns s0 s1 ev reply :
  answers (t_sch (turns 0%nat)) line s0 s1 ev reply → t_sent (turns 0%nat) = false →
  replies_answer (line :: lines) turns (λ i, match i with O => s0 | _ => s1 end) [ev] [reply].
Proof.
  intros Ha Hs. split_and!; cbn; [done|lia| |lia|by exists 0%nat].
  intros [|i] ? ? ? E1 E2 E3; cbn in *; by simplify_eq.
Qed.

Lemma replies_answer_cons line lines turns s0 s ev evss reply replies :
  answers (t_sch (turns 0%nat)) line s0 (s 0%nat) ev reply → t_sent (turns 0%nat) = true →
  replies_answer lines (λ n, turns (S n)) s evss replies →
  replies_answer (line :: lines) turns (λ i, match i with O => s0 | S i => s i end)
    (ev :: evss) (reply :: replies).
Proof.
  intros Ha Hs (Hl & Hm & Hi & Hc & He). split_and!; cbn; [by f_equal|lia|..].
  - intros [|i] ? ? ? E1 E2 E3; cbn in *; [by simplify_eq|by eapply Hi].
  - intros [|i] Hlt; [done|]. apply Hc. lia.
  - intros Hlt. destruct He as (i & -> & E); [lia|]. by exists (S i).
Qed.

Lemma vnext_loop_replies lines turns s0 replies evs sess' replies' :
  exec (vnext_loop lines turns (Some s0) replies) evs (sess', replies') →
  ∃ more evss s, replies' = replies ++ more ∧ evs = concat evss ∧ s 0%nat = s0 ∧
    replies_answer lines turns s evss more.
Proof.
  revert turns s0 replies evs. induction lines as [|line lines IH]; intros turns s0 replies evs.
  - intros [-> ?]%exec_ret_inv. simplify_eq. exists [], [], (λ _, s0). rewrite app_nil_r.
    auto using replies_answer_nil.
  - cbn [vnext_loop]. intros (evs1 & evs2 & [out sess1] & -> & H1 & H2)%exec_bind.
    apply HandleLine_answers in H1 as (s1 & -> & Ha).
    destruct (t_sent (turns 0%nat)) eqn:Et.
    + apply IH in H2 as (more & evss & s & -> & -> & <- & Hr). rewrite <-app_assoc.
      eexists _, (evs1 :: evss), _. split_and!; [done|done| |by apply replies_answer_cons]. done.
    + apply exec_ret_inv in H2 as [-> ?]. simplify_eq.
      eexists _, [evs1], _. split_and!; [done|cbn; by rewrite app_nil_r| |by eapply replies_answer_unsent].
      done.
Qed.

(** A hold that survives a release was tried and failed. *)
Lemma Release_failed sch s evs out s' :
  exec (Release sch (Some s) false) evs (out, Some s') →
  (∀ kc, KeyDown kc s' = true → ∃ e, ESendKey kc false (Some e) ∈ evs) ∧
  (∀ b, ButtonDown b s' = true → ∃ e, ESendButton b false (Some e) ∈ evs).
Proof.
  intros H. pose proof (Release_down _ _ _ _ _ H) as (s1 & E & Hk & Hb). simplify_eq.
  pose proof (Release_commands _ _ _ _ H) as Hc.
  assert (∀ c, c ∈ command <$> evs → ∃ e, c = command e ∧ e ∈ evs) as Hin.
  { intros c (e & -> & He)%list_elem_of_fmap. eauto. }
  rewrite Hc in Hin. split.
  - intros kc [Hd Hn]%Hk. destruct (Hin (ESendKey kc false None)) as (e & Ee & He).
    { apply elem_of_app. left. apply list_elem_of_fmap. exists kc. split; [done|].
      apply held_in_spec. unfold KeyDown in Hd. by destruct (keys s !! kc) as [[]|]. }
    destruct e; cbn in Ee; simplify_eq. destruct err as [e|]; [by exists e|done].
  - intros b [Hd Hn]%Hb. destruct (Hin (ESendButton b false None)) as (e & Ee & He).
    { apply elem_of_app. right. apply list_elem_of_fmap. exists b. split; [done|].
      apply held_in_spec. unfold ButtonDown in Hd. by destruct (buttons s !! b) as [[]|]. }
    destruct e; cbn in Ee; simplify_eq. destruct err as [e|]; [by exists e|done].
Qed.

Lemma serveVNextConn_inv input ioerr turns last evs sess replies :
  exec (serveVNextConn input ioerr turns last) evs (sess, replies) →
  ∃ evs1 evs2 s1 out, evs = evs1 ++ evs2 ∧
    exec (vnext_loop (fst (ScanAll maxLine ioerr input)) turns (Some NewSession) []) evs1 (Some s1, replies) ∧
    s1 = foldl track NewSession evs1 ∧
    exec (Release last (Some s1) false) evs2 (out, sess) ∧
    sess = Some (foldl track NewSession evs).
Proof.
  unfold serveVNextConn.
  intros (evs1 & evs2 & [sess1 replies1] & -> & H1 & H2)%exec_bind.
  pose proof (vnext_loop_session _ _ _ _ _ _ _ H1) as ->.
  apply exec_bind in H2 as (evs3 & evs4 & [out sess2] & -> & H2 & H3).
  apply exec_ret_inv in H3 as [-> ?]. simplify_eq. rewrite app_nil_r.
  exists evs1, evs3, (foldl track NewSession evs1), out. split_and!; try done.
  pose proof (Release_exec _ _ _ _ _ H2) as (? & ? & _ & _ & _ & -> & _).
  by rewrite foldl_app.
Qed.

(** What is down when a connection is over was tried to be released, and the
    release failed. *)
Lemma serveVNextConn_releases input ioerr turns last evs sess replies :
  exec (serveVNextConn input ioerr turns last) evs (sess, replies) →
  (∀ kc, last_key kc evs = Some true → ∃ e, ESendKey kc false (Some e) ∈ evs) ∧
  (∀ b, last_button b evs = Some true → ∃ e, ESendButton b false (Some e) ∈ evs).
Proof.
  intros (evs1 & evs2 & s1 & out & -> & _ & Es & H2 & ->)%serveVNextConn_inv.
  destruct (Release_failed _ _ _ _ _ H2) as [Hk Hb].
  assert (∀ kc, last_key kc (evs1 ++ evs2) = Some true → ∃ e, ESendKey kc false (Some e) ∈ evs1 ++ evs2) as Hk'.
  { intros kc Hl. destruct (Hk kc) as [e He]; [by rewrite track_last_key, Hl|].
    exists e. apply elem_of_app. by right. }
  assert (∀ b, last_button b (evs1 ++ evs2) = Some true → ∃ e, ESendButton b false (Some e) ∈ evs1 ++ evs2) as Hb'.
  { intros b Hl. destruct (Hb b) as [e He]; [by rewrite track_last_button, Hl|].
    exists e. apply elem_of_app. by right. }
  done.
Qed.

(** ** The accept loop *)
Definition slots_ok (allow gids : list Z) (st : listener) : Prop :=
  Z.of_nat (length (serving st)) ≤ destMaxConns ∧
  Forall (λ c, allowPeer c.2 allow gids = true) (serving st).

Lemma end_conn_ok allow gids id st : slots_ok allow gids st → slots_ok allow gids (end_conn id st).
Proof.
  intros [Hl Ha]. unfold slots_ok, end_conn. cbn. split.
  - etransitivity; [|exact Hl]. apply Nat2Z.inj_le, length_filter.
  - apply Stdlib.Lists.List.Forall_forall. intros c [_ Hc]%list_elem_of_In%list_elem_of_filter.
    rewrite Stdlib.Lists.List.Forall_forall in Ha. by apply Ha, list_elem_of_In.
Qed.

Lemma accept_vnext_ok allow gids st a :
  slots_ok allow gids st → slots_ok allow gids (accept_vnext allow gids st a).
Proof.
  intros Hs. destruct a; cbn [accept_vnext]; try by apply end_conn_ok.
  all: case_bool_decide; [done|]; try done.
  destruct (allowPeer conn allow gids) eqn:Ea; cbn [negb]; [|done].
  destruct (_ <? _) eqn:El; bools; [|done]. destruct Hs as [Hl Ha].
  split; cbn [serving length]; [lia|by constructor].
Qed.

Lemma accept_tcp_ok st a :
  Z.of_nat (length (serving st)) ≤ maxConns → Z.of_nat (length (serving (accept_tcp st a))) ≤ maxConns.
Proof.
  intros Hl. destruct a; cbn [accept_tcp]; try done.
  - destruct (_ <? _) eqn:El; bools; cbn [serving length]; lia.
  - cbn. etransitivity; [|exact Hl]. apply Nat2Z.inj_le, length_filter.
Qed.

Lemma foldl_invariant {A S} (P : S → Prop) (f : S → A → S) s l :
  P s → (∀ s a, P s → P (f s a)) → P (foldl f s l).
Proof. intros H0 Hf. revert s H0. induction l as [|a l IH]; intros s H0; cbn; auto. Qed.

(** ** An example: a client presses a key and goes away *)
Definition press_line : string := render (key_request "F1" true).
Definition press_input : list ascii := bytes press_line ++ [lf].
Definition all_sent : nat → turn := λ _, {| t_sch := tree_schedule; t_sent := true |}.
Definition press_events : list event :=
  [EKeycodeFor "F1" 67; ESendKey 67 true None; ESendKey 67 false None].

(** The same client, which also sends an empty object. *)
Definition two_input : list ascii := press_input ++ bytes "{}" ++ [lf].
Definition two_replies : list (list ascii) :=
  [WireJSON submitted ++ [lf]; WireJSON (snd (Decode "{}")) ++ [lf]].

Lemma press_line_exec :
  exec (HandleLine tree_schedule press_line (Some NewSession) false)
    [EKeycodeFor "F1" 67; ESendKey 67 true None] (submitted, Some (noteKey 67 true NewSession)).
Proof.
  unfold HandleLine.
  replace (Decode press_line) with (key_request "F1" true, submitted) by (vm_compute; reflexivity).
  apply (exec_call (KeycodeFor "F1") _ 67), (exec_call (SendKey 67 true) _ None), exec_ret.
Qed.

Lemma empty_line_exec sess :
  exec (HandleLine tree_schedule "{}" sess false) [] (snd (Decode "{}"), sess).
Proof.
  unfold HandleLine. rewrite (surjective_pairing (Decode "{}")).
  replace (bool_decide (Code (snd (Decode "{}")) = CodeSubmitted)) with false
    by (vm_compute; reflexivity).
  apply exec_ret.
Qed.

Lemma release_exec (replies : list (list ascii)) :
  exec ('(_, sess) ← Release tree_schedule (Some (noteKey 67 true NewSession)) false;
        Ret (sess, replies)) [ESendKey 67 false None]
    (Some (noteKey 67 false (noteKey 67 true NewSession)), replies).
Proof.
  apply exec_bind. exists [ESendKey 67 false None], [],
    (submitted, Some (noteKey 67 false (noteKey 67 true NewSession))).
  split_and!; [done| |apply exec_ret]. apply (exec_call (SendKey 67 false) _ None), exec_ret.
Qed.

Lemma press_exec :
  exec (serveVNextConn press_input None all_sent tree_schedule) press_events
    (Some (noteKey 67 false (noteKey 67 true NewSession)), [WireJSON submitted ++ [lf]]).
Proof.
  unfold serveVNextConn.
  replace (fst (ScanAll maxLine None press_input)) with [press_line] by (vm_compute; reflexivity).
  cbv zeta. apply exec_bind. eexists _, _, _. split_and!; cycle 1.
  - cbn [vnext_loop]. apply exec_bind. eexists _, _, _.
    split_and!; [|apply press_line_exec|apply exec_ret]. reflexivity.
  - apply release_exec.
  - done.
Qed.

Lemma two_exec :
  exec (serveVNextConn two_input None all_sent tree_schedule) press_events
    (Some (noteKey 67 false (noteKey 67 true NewSession)), two_replies).
Proof.
  unfold serveVNextConn.
  replace (fst (ScanAll maxLine None two_input)) with [press_line; "{}"] by (vm_compute; reflexivity).
  cbv zeta. apply exec_bind. eexists _, _, _. split_and!; cycle 1.
  - cbn [vnext_loop]. apply exec_bind. eexists _, _, _. split_and!; [|apply press_line_exec|].
    1: reflexivity.
    cbn [all_sent t_sent]. apply exec_bind. eexists _, _, _.
    split_and!; [|apply empty_line_exec|apply exec_ret]. reflexivity.
  - apply release_exec.
  - done.
Qed.

(** ** The theorems *)

(** C2: a client that goes away leaves nothing pressed behind its back: in every
    execution of a connection, against any backend and however the connection
    ends, a key or button whose last submitted transition is a press was asked
    to be released and the backend reported a failure for it.  So if no call
    failed, nothing the client pressed is still down. *)
Theorem connection_releases_holds input ioerr turns last evs sess replies :
  exec (serveVNextConn input ioerr turns last) evs (sess, replies) →
  (∀ kc, last_key kc evs = Some true → ∃ e, ESendKey kc false (Some e) ∈ evs) ∧
  (∀ b, last_button b evs = Some true → ∃ e, ESendButton b false (Some e) ∈ evs) ∧
  (Forall (λ e, ev_error e = None) evs →
     ∀ n, last_key n evs ≠ Some true ∧ last_button n evs ≠ Some true).
Proof.
  intros [Hk' Hb']%serveVNextConn_releases.
  split_and!; [done|done|]. intros Hall n. rewrite Stdlib.Lists.List.Forall_forall in Hall.
  split; intros Hl.
  - destruct (Hk' n Hl) as [e He%list_elem_of_In]. by apply Hall in He.
  - destruct (Hb' n Hl) as [e He%list_elem_of_In]. by apply Hall in He.
Qed.

Lemma connection_releases_holds_witness :
  last_key 67 press_events ≠ Some true ∧ last_button 67 press_events ≠ Some true.
Proof.
  apply (connection_releases_holds _ _ _ _ _ _ _ press_exec). repeat constructor.
Defined.

(** C17: every line is answered once, in order: reply [i] of a connection is the
    answer to line [i].  The calls of the connection are those of its lines, in
    order, followed by those of the final release; line [i] is handled in the
    session the lines before it left, and reply [i] is one line of JSON that shows
    the outcome of handling it, which reports the calls made for it.  There is at
    most one reply per line; a reply is followed by another only if it could be
    sent, and a line stays without a reply only behind one that could not. *)
Theorem connection_replies input ioerr turns last evs sess replies :
  exec (serveVNextConn input ioerr turns last) evs (sess, replies) →
  let lines := fst (ScanAll maxLine ioerr input) in
  ∃ evss rel s, evs = concat evss ++ rel ∧ s 0%nat = NewSession ∧
    length evss = length replies ∧ (length replies ≤ length lines)%nat ∧
    (∀ i line ev reply, lines !! i = Some line → evss !! i = Some ev → replies !! i = Some reply →
       ∃ out text, exec (HandleLine (t_sch (turns i)) line (Some (s i)) false) ev (out, Some (s (S i))) ∧
         reply = text ++ [lf] ∧ ¬ (lf ∈ text) ∧ shows_reply text out ∧ reports out ev) ∧
    (∀ i, (S i < length replies)%nat → t_sent (turns i) = true) ∧
    ((length replies < length lines)%nat →
       ∃ i, length replies = S i ∧ t_sent (turns i) = false).
Proof.
  intros (evs1 & evs2 & s1 & out & -> & H1 & _)%serveVNextConn_inv. cbv zeta.
  apply vnext_loop_replies in H1 as (more & evss & s & -> & -> & E & Hr).
  by exists evss, evs2, s.
Qed.

(** Two lines, a key press and one that is no request, and their replies. *)
Lemma connection_replies_witness :
  two_replies = [quote_marks "{'code':'Submitted'}" ++ [lf];
                 quote_marks "{'code':'NotSubmitted'}" ++ [lf]] ∧
  ∃ s s' ev out text, exec (HandleLine tree_schedule "{}" (Some s) false) ev (out, Some s') ∧
    quote_marks "{'code':'NotSubmitted'}" ++ [lf] = text ++ [lf] ∧ ¬ (lf ∈ text) ∧
    shows_reply text out ∧ reports out ev.
Proof.
  split; [vm_compute; reflexivity|].
  destruct (connection_replies _ _ _ _ _ _ _ two_exec)
    as (evss & rel & s & _ & _ & Hl & _ & Hi & _).
  destruct (lookup_lt_is_Some_2 evss 1) as [ev He]; [rewrite Hl; cbn; lia|].
  destruct (Hi 1%nat "{}" ev (quote_marks "{'code':'NotSubmitted'}" ++ [lf]))
    as (out & text & Hrun & Hrest); [vm_compute; reflexivity|done|vm_compute; reflexivity|].
  by exists (s 1%nat), (s 2%nat), ev, out, text.
Defined.

(** C21: exactly the listed peers are admitted: a connection is accepted if and
    only if it is a Unix connection whose peer credentials can be read, the user
    is on the allowlist, and the group is on the group list or there is none.
    With the default allowlist that is the daemon's own user. *)
Theorem peer_admitted_exact conn allow gids euid :
  (allowPeer conn allow gids = true ↔
     is_unix conn = true ∧
     ∃ fd uid gid, raw_fd conn = Some fd ∧ peercred conn (to_cint fd) = Some (uid, gid) ∧
       uid ∈ allow ∧ (gids = [] ∨ gid ∈ gids)) ∧
  (0 ≤ euid ≤ MaxUint32 → ParseAllowlist euid "euid" = Ok [euid]).
Proof.
  assert (∀ l x, existsb (λ a, a =? x) l = true ↔ x ∈ l) as He.
  { intros l x. rewrite existsb_exists, list_elem_of_In. split.
    - intros (y & Hy & E). bools. by subst.
    - intros Hx. exists x. by rewrite Z.eqb_refl. }
  split.
  - unfold allowPeer. destruct allow as [|a allow].
    { split; [done|]. intros (_ & fd & uid & gid & _ & _ & Hin & _). by apply elem_of_nil in Hin. }
    generalize (a :: allow) as l. intros l. unfold peerUID, peer_ucred.
    destruct (is_unix conn); cbn [negb]; [|naive_solver].
    destruct (raw_fd conn) as [fd|]; [|naive_solver].
    destruct (peercred conn (to_cint fd)) as [[uid gid]|] eqn:Ec; cbn [Z.eqb negb]; [|naive_solver].
    destruct (existsb (λ a, a =? uid) l) eqn:El; cbn [negb].
    + apply He in El. destruct gids as [|g gids]; [naive_solver|]. rewrite He. naive_solver.
    + split; [done|]. intros (_ & ? & u & g & [= <-] & E & Hin%He & _). simplify_eq. congruence.
  - intros Hid. apply ParseAllowlist_exact.
    + unfold is_sint. assert (MaxUint32 = 2 ^ 32 - 1) by done. lia.
    + split; [done|]. change (entries "euid") with ["euid"]. constructor; [|constructor]. by left.
Qed.

Lemma peer_admitted_exact_witness : ParseAllowlist 1000 "euid" = Ok [1000].
Proof.
  apply (peer_admitted_exact {| is_unix := true; raw_fd := None; peercred := λ _, None |} [] [] 1000).
  vm_compute. split; congruence.
Defined.

(** The number of connections is bounded and only admitted peers hold one:
    after any sequence of arrivals, failures and ends, the destination daemon
    serves at most ten connections, each from an admitted peer, and the legacy
    daemon at most ten. *)
Theorem connections_bounded allow gids arrivals :
  slots_ok allow gids (foldl (accept_vnext allow gids) listening arrivals) ∧
  Z.of_nat (length (serving (foldl accept_tcp listening arrivals))) ≤ 10.
Proof.
  split.
  - apply foldl_invariant; [|intros; by apply accept_vnext_ok]. split; [done|constructor].
  - apply (foldl_invariant (λ st, Z.of_nat (length (serving st)) ≤ maxConns)); [done|].
    intros. by apply accept_tcp_ok.
Qed.
