(* ===== verification/CallSpec.v ===== *)
(** * The calls a connection makes are well formed

    Whatever a client sends, the backend is only called with arguments of its
    types and within the protocol: coordinates are Go integers, buttons are 1 to
    3, window references are complete, key names are usable as C strings, and a
    key is moved only if the same connection looked up its code before. *)

From S2P Require Import Prelude GoStrings VNext Request RequestSpec Backend Session.
From S2P Require Import Dispatch DispatchSpec Scanner Serve ServeSpec.
Local Open Scope Z_scope.

(** The keycodes known after a call. *)
Definition learn (K : gset Z) (e : event) : gset Z :=
  match e with EKeycodeFor _ kc => {[kc]} ∪ K | _ => K end.

(** The arguments of a call, with the keycodes known so far. *)
Definition call_ok (K : gset Z) (e : event) : Prop :=
  match e with
  | EKeycodeFor name _ => name ≠ "" ∧ strings.ContainsByte name "000" = false
  | EWarpMouse x y _ => is_sint 64 x ∧ is_sint 64 y
  | ESendKey kc _ _ => kc ∈ K ∧ kc ≠ 0
  | ESendButton b _ _ => 1 ≤ b ≤ 3
  | ERevalidate ref _ | EActivate ref _ | ESetFullscreen ref _ _ => valid_ref ref
  | EScreenGeometry _ | EManagedClients _ | EActiveWindow _ => True
  end.

Fixpoint well_called (K : gset Z) (evs : list event) : Prop :=
  match evs with
  | [] => True
  | e :: evs' => call_ok K e ∧ well_called (learn K e) evs'
  end.

Lemma well_called_app K l l' :
  well_called K (l ++ l') ↔ well_called K l ∧ well_called (foldl learn K l) l'.
Proof.
  revert K. induction l as [|e l IH]; intros K; cbn; [tauto|]. rewrite IH. tauto.
Qed.

Lemma call_ok_mono K K' e : K ⊆ K' → call_ok K e → call_ok K' e.
Proof. intros HK. destruct e; cbn; set_solver. Qed.

Lemma learn_mono K e : K ⊆ learn K e.
Proof. destruct e; cbn; set_solver. Qed.

Lemma learned_mono K l : K ⊆ foldl learn K l.
Proof.
  revert K. induction l as [|e l IH]; intros K; cbn; [done|].
  etransitivity; [apply (learn_mono K e)|apply IH].
Qed.

Lemma well_called_forall K l : Forall (call_ok K) l → well_called K l.
Proof.
  intros Hl. assert (∀ K', K ⊆ K' → well_called K' l) as H; [|by apply H].
  induction Hl as [|e l He _ IH]; intros K' HK; [done|]. split; [by eapply call_ok_mono|].
  apply IH. etransitivity; [exact HK|apply learn_mono].
Qed.

(** ** Sessions hold known keys and real buttons *)
Definition session_ok (K : gset Z) (s : Session) : Prop :=
  (∀ kc, KeyDown kc s = true → kc ∈ K ∧ kc ≠ 0) ∧ (∀ b, ButtonDown b s = true → 1 ≤ b ≤ 3).

Lemma track_ok K s e : call_ok K e → session_ok K s → session_ok (learn K e) (track s e).
Proof.
  intros He [Hk Hb]. split.
  - intros kc. rewrite track_key. pose proof (learn_mono K e) as HK.
    destruct e; try (intros [? ?]%Hk; set_solver). destruct err as [err|]; [intros [? ?]%Hk; set_solver|].
    cbn in *. case_decide; [by subst|apply Hk].
  - intros b. rewrite track_button. destruct e; try apply Hb. destruct err; [apply Hb|].
    case_decide; [by subst|apply Hb].
Qed.

Lemma tracked_ok K s l :
  well_called K l → session_ok K s → session_ok (foldl learn K l) (foldl track s l).
Proof.
  revert K s. induction l as [|e l IH]; intros K s Hl Hs; [done|].
  destruct Hl as [He Hl]. cbn. apply IH; [done|by apply track_ok].
Qed.

(** ** The calls of a line *)
Lemma Release_called K sch s evs o :
  session_ok K s → exec (Release sch (Some s) false) evs o → well_called K evs.
Proof.
  destruct o as [out sess']. intros [Hk Hb] H.
  apply Release_exec in H as (e1 & e2 & _ & _ & -> & _).
  apply well_called_forall, Forall_app. split; apply Stdlib.Lists.List.Forall_forall; intros e He.
  - apply list_elem_of_In, elem_of_lookup_zip_with in He as (i & kc & err & -> & Hkc & _).
    apply list_elem_of_lookup_2, held_in_spec in Hkc. apply Hk. unfold KeyDown. by rewrite Hkc.
  - apply list_elem_of_In, elem_of_lookup_zip_with in He as (i & b & err & -> & Hbt & _).
    apply list_elem_of_lookup_2, held_in_spec in Hbt. apply Hb. unfold ButtonDown. by rewrite Hbt.
Qed.

Lemma Dispatch_called K sch r s evs o :
  session_ok K s → valid_request r → exec (Dispatch sch r (Some s) false) evs o → well_called K evs.
Proof.
  intros Hs Hv H. destruct (decide (Op r = OpRelease)) as [Hr|Hr].
  { rewrite (Dispatch_release _ _ _ Hr) in H. by eapply Release_called. }
  destruct o as [out sess']. destruct Hv; try done; unfold Dispatch in H; cbn in H; run_inv;
    cbn [well_called call_ok learn Ev]; bools; try done; split_and!; done || set_solver.
Qed.

Lemma HandleLine_called K sch line s evs o :
  session_ok K s → exec (HandleLine sch line (Some s) false) evs o → well_called K evs.
Proof.
  intros Hs H. destruct (HandleLine_cases sch line (Some s) false)
    as [(r & _ & Hv & E)|(_ & c & _ & _ & E)]; rewrite E in H.
  - by eapply Dispatch_called.
  - by apply exec_ret_inv in H as [-> _].
Qed.

Lemma vnext_loop_called K lines turns s replies evs o :
  session_ok K s → exec (vnext_loop lines turns (Some s) replies) evs o → well_called K evs.
Proof.
  revert K turns s replies evs. induction lines as [|line lines IH]; intros K turns s replies evs Hs.
  - by intros [-> _]%exec_ret_inv.
  - cbn [vnext_loop]. intros (evs1 & evs2 & [out sess1] & -> & H1 & H2)%exec_bind.
    pose proof (HandleLine_called K _ _ _ _ _ Hs H1) as Hc.
    apply HandleLine_session in H1 as ->. apply well_called_app. split; [done|].
    destruct (t_sent (turns 0%nat)); [|by apply exec_ret_inv in H2 as [-> _]].
    eapply IH; [by apply tracked_ok|exact H2].
Qed.

Lemma serveVNextConn_called input ioerr turns last evs o :
  exec (serveVNextConn input ioerr turns last) evs o → well_called ∅ evs.
Proof.
  destruct o as [sess replies].
  intros (evs1 & evs2 & s1 & out & -> & H1 & -> & H2 & _)%serveVNextConn_inv.
  assert (session_ok ∅ NewSession) as H0 by (split; intros n Hn; done).
  pose proof (vnext_loop_called ∅ _ _ _ _ _ _ H0 H1) as Hc.
  apply well_called_app. split; [done|]. eapply Release_called; [by apply tracked_ok|exact H2].
Qed.

(** ** Connections that are not over *)
Definition any_answer {R : Set} (c : call R) : R :=
  match c in call R return R with
  | KeycodeFor _ => 0
  | WarpMouse _ _ | SendKey _ _ | SendButton _ _ => None
  | ScreenGeometry => (0, 0, None)
  | ManagedClients => ([], None)
  | Revalidate _ | ActivateAlwaysBoth _ | SetFullscreen _ _ => None
  | ActiveWindow => (0, None)
  end.

(** Every program can be run to its end. *)
Lemma exec_exists {A} (p : prog A) : ∃ evs a, exec p evs a.
Proof.
  induction p as [a|R c k IH]; [by exists [], a; constructor|].
  destruct (IH (any_answer c)) as (evs & a & H). eexists _, a. by constructor.
Qed.

Lemma learned_elem kc K l : kc ∈ foldl learn K l → kc ∈ K ∨ ∃ name, EKeycodeFor name kc ∈ l.
Proof.
  revert K. induction l as [|e l IH]; intros K; cbn; [by left|].
  intros [Hk|[name Hn]]%IH; [|right; exists name; by right].
  destruct e; cbn in Hk; auto. apply elem_of_union in Hk as [->%elem_of_singleton|Hk]; [|auto].
  right. eexists. left.
Qed.

(** ** The theorem *)

(** C15: the backend is called by the rules: in every execution of a connection,
    whatever the client sends and the backend answers, coordinates are Go
    integers, buttons are 1 to 3, window references have the machine types of
    their fields and a window, key names are not empty and have no NUL byte, and
    a keycode that is pressed or released is not 0 and was an answer to an
    earlier lookup of the same connection. *)
Theorem calls_well_typed input ioerr turns last evs sess replies :
  exec (serveVNextConn input ioerr turns last) evs (sess, replies) → well_called ∅ evs.
Proof. apply serveVNextConn_called. Qed.

Lemma calls_well_typed_witness : well_called ∅ press_events.
Proof. exact (calls_well_typed _ _ _ _ _ _ _ press_exec). Defined.
