(* ===== verification/Concurrent.v ===== *)
(** * The destination daemon as a whole (cmd/xtest-server/dest.go, serveVNext)

    The accept loop and all the connections it starts, interleaved in any way.
    A connection is a program over the backend ([serveVNextConn]); all of them
    share one backend.  The calls of one connection are answered one at a time,
    in any order relative to those of the others.  The model covers the runs in
    which accepting does not fail (a failure ends the process). *)

From S2P Require Import Prelude Backend Session DestBackend Serve.

(** A client that connects: who it is, everything it sends, how its connection
    ends, and what the scheduler decides while it is served. *)
Record conn := {
  c_peer : peer;
  c_input : list ascii;
  c_ioerr : option error;
  c_turns : nat → turn;
  c_last : schedule;
}.

(** What a connection leaves behind: its session and the replies. *)
Abbreviation served := (option Session * list (list ascii))%type.

(** [serveVNextConn(c, &backend)] *)
Definition serve_of (c : conn) : prog served :=
  serveVNextConn (c_input c) (c_ioerr c) (c_turns c) (c_last c).

(** The state of [serveVNext]: the accept loop, the clients that were taken and
    what each of them has left to do (both in the order of acceptance), the
    backend, the clients still to come, and the calls made so far, each with
    the connection that made it. *)
Record daemon (W : Type) := {
  accepting : listener;
  clients : list conn;
  threads : list (prog served);
  shared : W;
  coming : list conn;
  log : list (nat * event);
}.
Arguments accepting {W} _.
Arguments clients {W} _.
Arguments threads {W} _.
Arguments shared {W} _.
Arguments coming {W} _.
Arguments log {W} _.

(** The calls one connection made. *)
Definition calls_of (i : nat) (l : list (nat * event)) : list event :=
  (filter (λ x, x.1 = i) l).*2.

Section daemon.
Context {W : Type} `{Backend W}.
Context (allow gids : list Z).

(** The daemon when [serveVNext] enters its loop. *)
Definition started (w : W) (cs : list conn) : daemon W :=
  {| accepting := listening; clients := []; threads := []; shared := w; coming := cs; log := [] |}.

(** Whether the loop starts a goroutine for a client: it is admitted and there
    is a slot. *)
Definition takes (l : listener) (p : peer) : bool :=
  negb (bool_decide (is_Some (finished l))) && allowPeer p allow gids &&
  (Z.of_nat (length (serving l)) <? destMaxConns)%Z.

(** One round of the loop. *)
Definition accept_conn (c : conn) (rest : list conn) (d : daemon W) : daemon W :=
  let b := takes (accepting d) (c_peer c) in
  {| accepting := accept_vnext allow gids (accepting d) (Arrived (length (threads d)) (c_peer c));
     clients := if b then clients d ++ [c] else clients d;
     threads := if b then threads d ++ [serve_of c] else threads d;
     shared := shared d; coming := rest; log := log d |}.

(** The backend answers a call of connection [i], which goes on with [p]. *)
Definition answered (i : nat) (p : prog served) (e : event) (w : W) (d : daemon W) : daemon W :=
  {| accepting := accepting d; clients := clients d; threads := <[i := p]> (threads d);
     shared := w; coming := coming d; log := log d ++ [(i, e)] |}.

(** The goroutine of connection [i] gives its slot back. *)
Definition left_slot (i : nat) (d : daemon W) : daemon W :=
  {| accepting := accept_vnext allow gids (accepting d) (Ended i);
     clients := clients d; threads := threads d; shared := shared d; coming := coming d;
     log := log d |}.

Inductive vstep : daemon W → daemon W → Prop :=
  | v_accept d c rest :
    coming d = c :: rest → vstep d (accept_conn c rest d)
  | v_call d i {R : Set} (c : call R) k r w' :
    threads d !! i = Some (Call c k) → handle c (shared d) = Val r w' →
    vstep d (answered i (k r) (Ev c r) w' d)
  | v_end d i a :
    threads d !! i = Some (Ret a) → i ∈ (serving (accepting d)).*1 → vstep d (left_slot i d).

(** The steps as a function: a schedule names the next step each time. *)
Inductive move := MAccept | MCall (i : nat) | MEnd (i : nat).

Definition vmove (m : move) (d : daemon W) : option (daemon W) :=
  match m with
  | MAccept => match coming d with c :: rest => Some (accept_conn c rest d) | [] => None end
  | MCall i =>
    match threads d !! i with
    | Some (Call c k) =>
      match handle c (shared d) with
      | Val r w' => Some (answered i (k r) (Ev c r) w' d)
      | Panicked _ _ => None
      end
    | _ => None
    end
  | MEnd i =>
    match threads d !! i with
    | Some (Ret _) =>
      if bool_decide (i ∈ (serving (accepting d)).*1) then Some (left_slot i d) else None
    | _ => None
    end
  end.

Fixpoint vrun (ms : list move) (d : daemon W) : option (daemon W) :=
  match ms with
  | [] => Some d
  | m :: ms' => match vmove m d with Some d' => vrun ms' d' | None => None end
  end.

(** Everybody came and went. *)
Definition idle (d : daemon W) : Prop :=
  coming d = [] ∧ serving (accepting d) = [] ∧ Forall (λ p, ∃ a, p = Ret a) (threads d).
End daemon.
