(* ===== verification/ConcurrentSpec.v ===== *)
(** * What holds of all connections together

    The connections of the destination daemon do not disturb each other: each
    of them runs as it would alone, against a backend that the others use too;
    what is down is held by a client that is still there; and every run comes
    to rest. *)

From S2P Require Import Prelude Steps Backend Session Dispatch DispatchSpec Fake.
From S2P Require Import DestBackend DestSpec Xlib Serve ServeSpec Concurrent.
From stdpp Require Import relations.

(** ** The calls of one connection *)

Lemma calls_of_snoc i l j e :
  calls_of i (l ++ [(j, e)]) = calls_of i l ++ (if decide (j = i) then [e] else []).
Proof.
  unfold calls_of. rewrite filter_app, fmap_app, filter_cons, filter_nil. cbn.
  by case_decide.
Qed.

(** [p] has become [q] by the answers [evs]: what [q] still does completes an
    execution of [p]. *)
Definition reaches {A} (p : prog A) (evs : list event) (q : prog A) : Prop :=
  ∀ evs' a, exec q evs' a → exec p (evs ++ evs') a.

Lemma reaches_nil {A} (p : prog A) : reaches p [] p.
Proof. by intros evs a. Qed.

Lemma reaches_call {A} (p : prog A) evs {R : Set} (c : call R) k r :
  reaches p evs (Call c k) → reaches p (evs ++ [Ev c r]) (k r).
Proof.
  intros Hp evs' a Ha. rewrite <-app_assoc. apply Hp. by constructor.
Qed.

Lemma reaches_ret {A} (p : prog A) evs a : reaches p evs (Ret a) → exec p evs a.
Proof. intros Hp. rewrite <-(app_nil_r evs). apply Hp, exec_ret. Qed.

(** The transition of a key or a button that a call brought about. *)
Definition key_moved (kc : Z) (e : event) : option bool :=
  match e with
  | ESendKey k press None => if decide (k = kc) then Some press else None
  | _ => None
  end.
Definition button_moved (b : Z) (e : event) : option bool :=
  match e with
  | ESendButton k press None => if decide (k = b) then Some press else None
  | _ => None
  end.

Lemma last_key_snoc kc l e :
  last_key kc (l ++ [e]) = match key_moved kc e with Some p => Some p | None => last_key kc l end.
Proof. unfold last_key, key_moved. rewrite foldl_app. cbn. by repeat case_match. Qed.

Lemma last_button_snoc b l e :
  last_button b (l ++ [e]) =
  match button_moved b e with Some p => Some p | None => last_button b l end.
Proof. unfold last_button, button_moved. rewrite foldl_app. cbn. by repeat case_match. Qed.

(** The last transition in a log of many connections is the last one of the
    connection that made it. *)
Lemma last_holder (last : list event → option bool) (moved : event → option bool) l p :
  (∀ l e, last (l ++ [e]) = match moved e with Some p => Some p | None => last l end) →
  last [] = None →
  last l.*2 = Some p → ∃ i, i ∈ l.*1 ∧ last (calls_of i l) = Some p.
Proof.
  intros Hs Hn. induction l as [|[j e] l IH] using rev_ind; [cbn; congruence|].
  rewrite (fmap_app snd l [(j, e)]), (fmap_app fst l [(j, e)]). cbn [fmap list_fmap fst snd].
  rewrite Hs. destruct (moved e) as [q|] eqn:Ee.
  - intros [= ->]. exists j. split; [apply elem_of_app; right; by left|].
    by rewrite calls_of_snoc, decide_True, Hs, Ee.
  - intros (i & Hi & Hk)%IH. exists i. split; [apply elem_of_app; by left|].
    rewrite calls_of_snoc. case_decide; [by rewrite Hs, Ee|by rewrite app_nil_r].
Qed.

Lemma last_key_holder kc l p :
  last_key kc l.*2 = Some p → ∃ i, i ∈ l.*1 ∧ last_key kc (calls_of i l) = Some p.
Proof. apply (last_holder _ (key_moved kc)); [apply last_key_snoc|done]. Qed.

Lemma last_button_holder b l p :
  last_button b l.*2 = Some p → ∃ i, i ∈ l.*1 ∧ last_button b (calls_of i l) = Some p.
Proof. apply (last_holder _ (button_moved b)); [apply last_button_snoc|done]. Qed.

(** ** The invariant *)
Section invariant.
Context {W : Type} `{Backend W}.
Context (allow gids : list Z).
Abbreviation vstep := (vstep allow gids).

Record daemon_ok (d : daemon W) : Prop := {
  ok_length : length (clients d) = length (threads d);
  ok_reaches i c p : clients d !! i = Some c → threads d !! i = Some p →
    reaches (serve_of c) (calls_of i (log d)) p;
  ok_log i e : (i, e) ∈ log d → (i < length (threads d))%nat;
  ok_serving i : i ∈ (serving (accepting d)).*1 → (i < length (threads d))%nat;
  ok_busy i p : threads d !! i = Some p → (∃ a, p = Ret a) ∨ i ∈ (serving (accepting d)).*1;
  ok_slots : slots_ok allow gids (accepting d);
  ok_open : finished (accepting d) = None;
  ok_admitted c : c ∈ clients d → allowPeer (c_peer c) allow gids = true;
}.

Lemma started_ok w cs : daemon_ok (started w cs).
Proof.
  split; cbn; try done; try (split; [done|constructor]);
    intros; by match goal with Hx : _ ∈ [] |- _ => apply elem_of_nil in Hx end.
Qed.

(** The accept loop takes a client exactly when it says so. *)
Lemma accept_vnext_takes l i p :
  finished l = None →
  accept_vnext allow gids l (Arrived i p) =
  if takes allow gids l p
  then {| serving := (i, p) :: serving l; finished := finished l |} else l.
Proof.
  intros Hf. unfold takes. cbn [accept_vnext]. rewrite Hf. cbn.
  by destruct (allowPeer p allow gids), (_ <? _)%Z; cbn.
Qed.

Lemma calls_of_fresh n l : (∀ i e, (i, e) ∈ l → (i < n)%nat) → calls_of n l = [].
Proof.
  intros Hl. unfold calls_of. destruct (filter (λ x, x.1 = n) l) as [|[i e] l'] eqn:E; [done|].
  assert ((i, e) ∈ filter (λ x, x.1 = n) l) as [? Hi]%list_elem_of_filter by (rewrite E; left).
  apply Hl in Hi. cbn in *. lia.
Qed.

Lemma accept_conn_ok d c rest :
  daemon_ok d → daemon_ok (accept_conn allow gids c rest d).
Proof.
  intros [Hl Hr Hg Hs Hb Ho Hf Ha].
  pose proof (accept_vnext_takes (accepting d) (length (threads d)) (c_peer c) Hf) as E.
  pose proof (accept_vnext_ok allow gids (accepting d) (Arrived (length (threads d)) (c_peer c)) Ho) as Ho'.
  unfold accept_conn. destruct (takes allow gids (accepting d) (c_peer c)) eqn:Et; rewrite E in *.
  - split; cbn [clients threads log accepting serving finished]; try done.
    + by rewrite !length_app, Hl.
    + intros i c' p. rewrite !lookup_app_Some.
      intros [Hc|[Hi Hc]] [Hp|[Hi' Hp]]; try (apply lookup_lt_Some in Hc; lia);
        try (apply lookup_lt_Some in Hp; lia); eauto.
      rewrite Hl in *. apply list_lookup_singleton_Some in Hc as [Hi0 <-].
      apply list_lookup_singleton_Some in Hp as [_ <-].
      assert (i = length (threads d)) as -> by lia.
      rewrite calls_of_fresh by exact Hg. apply reaches_nil.
    + intros i e He%Hg. rewrite length_app. cbn. lia.
    + intros i [->|Hi%Hs]%elem_of_cons; rewrite length_app; cbn; lia.
    + intros i p. rewrite lookup_app_Some. intros [Hp|[Hi Hp]].
      * destruct (Hb i p Hp); [by left|right; by right].
      * apply list_lookup_singleton_Some in Hp as [Hi' _]. right.
        assert (i = length (threads d)) as -> by lia. by left.
    + intros c' [Hc|Hc%list_elem_of_singleton]%elem_of_app; [by apply Ha|]. subst.
      unfold takes in Et. by bools.
  - split; cbn [clients threads log accepting]; done.
Qed.

Lemma answered_ok d i {R : Set} (c : call R) k r w' :
  daemon_ok d → threads d !! i = Some (Call c k) →
  daemon_ok (answered i (k r) (Ev c r) w' d).
Proof.
  intros [Hl Hr Hg Hs Hb Ho Hf Ha] Hi. pose proof (lookup_lt_Some _ _ _ Hi) as Hlt.
  split; cbn [clients threads log accepting answered]; try rewrite length_insert; try done.
  - intros j c' p Hc Hp. rewrite calls_of_snoc.
    apply list_lookup_insert_Some in Hp as [(-> & <- & _)|[Hn Hp]].
    + rewrite decide_True by done. eapply reaches_call, Hr; eauto.
    + rewrite decide_False, app_nil_r by done. by apply Hr.
  - intros j e [He|He%list_elem_of_singleton]%elem_of_app; [by eapply Hg|]. by simplify_eq.
  - intros j p Hp. apply list_lookup_insert_Some in Hp as [(-> & <- & _)|[Hn Hp]]; [|by apply Hb].
    right. destruct (Hb j _ Hi) as [[a Hx]|Hx]; [done|done].
Qed.

Lemma left_slot_ok d i a :
  daemon_ok d → threads d !! i = Some (Ret a) → daemon_ok (left_slot allow gids i d).
Proof.
  intros [Hl Hr Hg Hs Hb Ho Hf Ha] Hi.
  split; cbn [clients threads log accepting left_slot accept_vnext end_conn finished]; try done.
  - intros j (x & -> & [_ Hx]%list_elem_of_filter)%list_elem_of_fmap. by apply Hs, list_elem_of_fmap_2.
  - intros j p Hp. destruct (decide (j = i)) as [->|Hn].
    + left. rewrite Hi in Hp. simplify_eq. eauto.
    + destruct (Hb j p Hp) as [Hx|Hx]; [by left|right].
      apply list_elem_of_fmap in Hx as (x & -> & Hx). apply list_elem_of_fmap_2, list_elem_of_filter.
      by split.
  - by apply end_conn_ok.
Qed.

Lemma vstep_ok d d' : daemon_ok d → vstep d d' → daemon_ok d'.
Proof.
  intros Hd Hs. destruct Hs; [by apply accept_conn_ok|by apply answered_ok|by eapply left_slot_ok].
Qed.

Lemma reachable_daemon_ok w cs d : rtc vstep (started w cs) d → daemon_ok d.
Proof. apply rtc_invariant; [exact vstep_ok|apply started_ok]. Qed.
End invariant.

Lemma calls_of_elem i l e : e ∈ calls_of i l ↔ (i, e) ∈ l.
Proof.
  unfold calls_of. rewrite list_elem_of_fmap. split.
  - intros ([j e'] & -> & [Hj Hin]%list_elem_of_filter). cbn in *. by subst.
  - intros Hin. exists (i, e). split; [done|]. by apply list_elem_of_filter.
Qed.

(** A connection that made calls is being served, or it is over and has tried
    to release what it pressed. *)
Lemma daemon_ended {W} allow gids (d : daemon W) i :
  daemon_ok allow gids d → i ∈ (log d).*1 →
  i ∈ (serving (accepting d)).*1 ∨
  (∀ kc, last_key kc (calls_of i (log d)) = Some true →
     ∃ e, ESendKey kc false (Some e) ∈ calls_of i (log d)) ∧
  (∀ b, last_button b (calls_of i (log d)) = Some true →
     ∃ e, ESendButton b false (Some e) ∈ calls_of i (log d)).
Proof.
  intros Hd ([j e] & -> & Hin)%list_elem_of_fmap. cbn [fst].
  pose proof (ok_log _ _ _ Hd _ _ Hin) as Hlt.
  destruct (lookup_lt_is_Some_2 (threads d) j Hlt) as [p Hp].
  rewrite <-(ok_length _ _ _ Hd) in Hlt.
  destruct (lookup_lt_is_Some_2 (clients d) j Hlt) as [c Hc].
  destruct (ok_busy _ _ _ Hd j p Hp) as [[[sess replies] ->]|?]; [right|by left].
  eapply serveVNextConn_releases. by eapply reaches_ret, ok_reaches.
Qed.

(** ** Backends that answer

    What a backend promises to its clients: in the states [ok] it answers every
    call, without a panic, and stays in such a state. *)
Class TotalBackend (W : Type) `{Backend W} (ok : W → Prop) :=
  handle_total : ∀ (R : Set) (c : call R) w, ok w → ∃ r w', handle c w = Val r w' ∧ ok w'.
Arguments handle_total {W _ ok _} R c w.

(** ** No run goes on forever *)

(** A program after one more answer. *)
Definition next {A} (p q : prog A) : Prop :=
  match p with
  | Ret _ => False
  | Call c k => ∃ r, q = k r
  end.

(** One of many programs gets an answer. *)
Definition shrinks {A} (ts' ts : list (prog A)) : Prop :=
  ∃ i p q, ts !! i = Some p ∧ next p q ∧ ts' = <[i := q]> ts.

Lemma shrinks_cons {A} (p : prog A) ts : Acc shrinks ts → Acc shrinks (p :: ts).
Proof.
  revert ts. induction p as [a|R c k IHk]; intros ts Hts; induction Hts as [ts Hts IHts];
    constructor; intros ts' ([|i] & p & q & Hi & Hn & ->).
  - by injection Hi as <-.
  - apply IHts. by exists i, p, q.
  - injection Hi as <-. destruct Hn as [r ->]. apply IHk. by constructor.
  - apply IHts. by exists i, p, q.
Qed.

Lemma shrinks_wf {A} (ts : list (prog A)) : Acc shrinks ts.
Proof.
  induction ts as [|p ts IH]; [|by apply shrinks_cons].
  constructor. intros ts' (i & p & q & Hi & _). done.
Qed.

Lemma filter_shorter {A} (P : A → Prop) `{∀ x, Decision (P x)} x l :
  x ∈ l → ¬ P x → (length (filter P l) < length l)%nat.
Proof.
  intros Hx Hn. induction Hx as [x l|x y l _ IH].
  - rewrite filter_cons_False by done. cbn. pose proof (length_filter P l). lia.
  - rewrite filter_cons. case_decide; cbn; [by apply IH in Hn; lia|].
    pose proof (length_filter P l). lia.
Qed.

Lemma vstep_wf {W} `{Backend W} allow gids (d : daemon W) : Acc (flip (vstep allow gids)) d.
Proof.
  remember (length (coming d)) as n eqn:En. revert d En.
  induction n as [n IHn] using lt_wf_ind. intros d En.
  pose proof (shrinks_wf (threads d)) as Hts. remember (threads d) as ts eqn:Ets.
  revert d En Ets. induction Hts as [ts _ IHts]. intros d En Ets.
  remember (length (serving (accepting d))) as m eqn:Em. revert d En Ets Em.
  induction m as [m IHm] using lt_wf_ind. intros d En Ets Em.
  constructor. intros d' Hs. destruct Hs as [d c rest Hc|d i R c k r w' Hi Hh|d i a Hi Hin].
  - eapply IHn; [|reflexivity]. cbn [coming accept_conn]. rewrite En, Hc. cbn. lia.
  - eapply (IHts (<[i := k r]> (threads d))); [|done|done]. exists i, (Call c k), (k r).
    subst ts. split_and!; [done|by exists r|done].
  - eapply IHm; [|done|done|reflexivity]. subst m. cbn.
    apply list_elem_of_fmap in Hin as (x & -> & Hx). eapply filter_shorter; [exact Hx|]. by intros [].
Qed.

(** ** The schedule as a function *)
Lemma vmove_sound {W} `{Backend W} allow gids m (d d' : daemon W) :
  vmove allow gids m d = Some d' → vstep allow gids d d'.
Proof.
  destruct m as [|i|i]; cbn.
  - destruct (coming d) as [|c rest] eqn:E; [done|]. intros [= <-]. by apply v_accept.
  - destruct (threads d !! i) as [[a|R c k]|] eqn:E; try done.
    destruct (handle c (shared d)) as [r w'|] eqn:Eh; [|done]. intros [= <-]. by eapply v_call.
  - destruct (threads d !! i) as [[a|R c k]|] eqn:E; try done.
    case_bool_decide; [|done]. intros [= <-]. by eapply v_end.
Qed.

Lemma vrun_sound {W} `{Backend W} allow gids ms (d d' : daemon W) :
  vrun allow gids ms d = Some d' → rtc (vstep allow gids) d d'.
Proof.
  revert d. induction ms as [|m ms IH]; intros d; cbn; [intros [= <-]; apply rtc_refl|].
  destruct (vmove allow gids m d) as [d1|] eqn:E; [|done]. intros Hr%IH.
  eapply rtc_l; [by eapply vmove_sound|done].
Qed.

#[global] Instance Fake_total : TotalBackend Fake (λ _, True).
Proof. intros R c f _. destruct c; cbn; eauto. Qed.

#[global] Instance dest_total {D} `{Xlib D} polls :
  TotalBackend (H := dest_backend polls) (xDestBackend D) (λ b, owner b = true).
Proof. intros R c b Ho. by apply dest_handle_total. Qed.

(** ** An example: two clients press the same key *)
Definition demo_conn : conn :=
  {| c_peer := {| is_unix := true; raw_fd := Some 7%Z; peercred := λ _, Some (1000, 1000)%Z |};
     c_input := press_input; c_ioerr := None; c_turns := all_sent; c_last := tree_schedule |}.
Definition demo_run (ms : list move) : daemon Fake :=
  default (started NewFake []) (vrun [1000%Z] [] ms (started NewFake [demo_conn; demo_conn])).
Definition demo_moves : list move :=
  [MAccept; MCall 0; MAccept; MCall 1; MCall 1; MCall 0; MCall 0].

(** ** The theorems *)

(** C11: connections do not disturb each other: in every run of the daemon,
    however the calls of the connections are interleaved, the calls that a
    finished connection made and the answers it got are an execution of that
    connection alone, with the session and the replies of that execution; and
    every connection that was served was admitted, at most ten at a time. *)
Theorem connections_isolated {W} `{Backend W} allow gids w cs (d : daemon W) :
  rtc (vstep allow gids) (started w cs) d →
  (∀ i c a, clients d !! i = Some c → threads d !! i = Some (Ret a) →
     exec (serveVNextConn (c_input c) (c_ioerr c) (c_turns c) (c_last c)) (calls_of i (log d)) a) ∧
  (∀ c, c ∈ clients d → allowPeer (c_peer c) allow gids = true) ∧
  (Z.of_nat (length (serving (accepting d))) ≤ 10)%Z.
Proof.
  intros Hd%reachable_daemon_ok. split_and!.
  - intros i c a Hc Ht. by eapply reaches_ret, ok_reaches.
  - by apply ok_admitted.
  - apply (ok_slots _ _ _ Hd).
Qed.

Lemma connections_isolated_witness :
  (Z.of_nat (length (serving (accepting (demo_run demo_moves)))) ≤ 10)%Z.
Proof.
  apply (connections_isolated [1000%Z] [] NewFake [demo_conn; demo_conn]).
  apply (vrun_sound _ _ demo_moves), default_is_Some. vm_compute. reflexivity.
Defined.

(** What is down is held by a client that is still there: in every state of
    every run, if the last submitted transition of a key or button, over all
    connections, is a press, then some client pressed it last and has not ended,
    or the release at its end was tried and failed. *)
Theorem held_by_connected {W} `{Backend W} allow gids w cs (d : daemon W) :
  rtc (vstep allow gids) (started w cs) d →
  (∀ kc, last_key kc (log d).*2 = Some true →
     ∃ i, last_key kc (calls_of i (log d)) = Some true ∧
       (i ∈ (serving (accepting d)).*1 ∨ ∃ e, (i, ESendKey kc false (Some e)) ∈ log d)) ∧
  (∀ b, last_button b (log d).*2 = Some true →
     ∃ i, last_button b (calls_of i (log d)) = Some true ∧
       (i ∈ (serving (accepting d)).*1 ∨ ∃ e, (i, ESendButton b false (Some e)) ∈ log d)).
Proof.
  intros Hd%reachable_daemon_ok. split; intros n Hl.
  - apply last_key_holder in Hl as (i & Hi & Hk). exists i. split; [done|].
    destruct (daemon_ended _ _ d i Hd Hi) as [?|He]; [by left|right].
    destruct (proj1 He n Hk) as [e Hin]. exists e. by apply calls_of_elem.
  - apply last_button_holder in Hl as (i & Hi & Hk). exists i. split; [done|].
    destruct (daemon_ended _ _ d i Hd Hi) as [?|He]; [by left|right].
    destruct (proj2 He n Hk) as [e Hin]. exists e. by apply calls_of_elem.
Qed.

Lemma held_by_connected_witness :
  ∃ i, last_key 67 (calls_of i (log (demo_run (take 3 demo_moves ++ [MCall 0])))) = Some true ∧
    (i ∈ (serving (accepting (demo_run (take 3 demo_moves ++ [MCall 0])))).*1 ∨
     ∃ e, (i, ESendKey 67 false (Some e)) ∈ log (demo_run (take 3 demo_moves ++ [MCall 0]))).
Proof.
  apply (held_by_connected [1000%Z] [] NewFake [demo_conn; demo_conn]).
  - apply (vrun_sound _ _ (take 3 demo_moves ++ [MCall 0])), default_is_Some.
    vm_compute. reflexivity.
  - vm_compute. reflexivity.
Defined.
