(* ===== verification/OwnerDaemon.v ===== *)
(** * The daemon with its owner thread (dest.go, dest_owner.go)

    The goroutines of the connections do not call the X server themselves: they
    put a job into the channel of the owner thread and wait for it
    ([xOwner.call], file [Owner]).  This is the daemon of file [Concurrent] with
    every call taking that way, in its four steps; only a move that is refused
    because of its coordinates is answered at once.  It refines the daemon in
    which a call is one step: every answer is given by the owner, in the order
    of the channel, and no goroutine waits forever. *)

From S2P Require Import Prelude Steps Backend Owner Fake Xlib DestBackend DestSpec.
From S2P Require Import Serve ServeSpec Concurrent ConcurrentSpec.
From stdpp Require Import relations.

(** Where a goroutine is: running its own code, inside [call] with its job in
    the channel or with the owner, or inside [call] after its job ran. *)
Inductive phase := Going | Queued (id : nat) | Ran (id : nat).

(** [base] are the connections and the backend; [issued] records which
    connection made which call, in the order the channel got them. *)
Record odaemon (W : Type) := {
  base : daemon W;
  phases : list phase;
  own : xOwner;
  issued : list (nat * nat);
}.
Arguments base {W} _.
Arguments phases {W} _.
Arguments own {W} _.
Arguments issued {W} _.

(** The calls a connection answers itself: [WarpMouse] returns before [run] if a
    coordinate does not fit an Xlib [int]. *)
Definition out_of_range (x y : Z) : bool :=
  (x <? MinInt32)%Z || (MaxInt32 <? x)%Z || (y <? MinInt32)%Z || (MaxInt32 <? y)%Z.
Definition direct {R : Set} (c : call R) : bool :=
  match c with WarpMouse x y => out_of_range x y | _ => false end.
Definition direct_event (e : event) : bool :=
  match e with EWarpMouse x y _ => out_of_range x y | _ => false end.

Lemma direct_Ev {R : Set} (c : call R) r : direct_event (Ev c r) = direct c.
Proof. by destruct c. Qed.

(** It is what the live backend does: nothing, without its owner. *)
Lemma direct_live {D} `{Xlib D} polls {R : Set} (c : call R) (b : xDestBackend D) :
  direct c = true → ∃ r, handle (Backend := dest_backend polls) c b = Val r b.
Proof.
  destruct c; try done. cbn. unfold out_of_range, d_WarpMouse. intros ->. by eexists.
Qed.

(** The connections the owner answered, in order. *)
Definition owner_log (l : list (nat * event)) : list nat :=
  (filter (λ x, direct_event x.2 = false) l).*1.

Lemma owner_log_snoc i e l :
  owner_log (l ++ [(i, e)]) = owner_log l ++ (if direct_event e then [] else [i]).
Proof.
  unfold owner_log. rewrite filter_app, fmap_app, filter_cons, filter_nil. cbn.
  by destruct (direct_event e).
Qed.

Section odaemon.
Context {W : Type} `{Backend W}.
Context (allow gids : list Z).

Definition ostarted (w : W) (cs : list conn) : odaemon W :=
  {| base := started w cs; phases := []; own := startXOwner; issued := [] |}.

Definition o_accepted (c : conn) (rest : list conn) (o : odaemon W) : odaemon W :=
  {| base := accept_conn allow gids c rest (base o);
     phases := if takes allow gids (accepting (base o)) (c_peer c)
               then phases o ++ [Going] else phases o;
     own := own o; issued := issued o |}.
Definition o_called (i id : nat) (o : odaemon W) : odaemon W :=
  {| base := base o; phases := <[i := Queued id]> (phases o);
     own := own_call id (own o); issued := issued o ++ [(id, i)] |}.
Definition o_refused (i : nat) (p : prog served) (e : event) (w : W) (o : odaemon W) : odaemon W :=
  {| base := answered i p e w (base o); phases := phases o; own := own o; issued := issued o |}.
Definition o_taken (id : nat) (rest : list nat) (o : odaemon W) : odaemon W :=
  {| base := base o; phases := phases o; own := own_take id rest (own o); issued := issued o |}.
Definition o_ran (i id : nat) (p : prog served) (e : event) (w : W) (o : odaemon W) : odaemon W :=
  {| base := answered i p e w (base o); phases := <[i := Ran id]> (phases o);
     own := own_done id (own o); issued := issued o |}.
Definition o_returned (i id : nat) (o : odaemon W) : odaemon W :=
  {| base := base o; phases := <[i := Going]> (phases o);
     own := own_return id (own o); issued := issued o |}.
Definition o_ended (i : nat) (o : odaemon W) : odaemon W :=
  {| base := left_slot allow gids i (base o); phases := phases o; own := own o;
     issued := issued o |}.

Inductive ostep : odaemon W → odaemon W → Prop :=
  | o_accept o c rest :
    coming (base o) = c :: rest → ostep o (o_accepted c rest o)
  | o_call o i id {R : Set} (c : call R) k :
    threads (base o) !! i = Some (Call c k) → phases o !! i = Some Going → direct c = false →
    (length (jobs (own o)) < destQueueCap)%nat → id ∉ history (own o) →
    ostep o (o_called i id o)
  | o_refuse o i {R : Set} (c : call R) k r w' :
    threads (base o) !! i = Some (Call c k) → phases o !! i = Some Going → direct c = true →
    handle c (shared (base o)) = Val r w' → ostep o (o_refused i (k r) (Ev c r) w' o)
  | o_take o id rest :
    running (own o) = None → jobs (own o) = id :: rest → ostep o (o_taken id rest o)
  | o_run o i id {R : Set} (c : call R) k r w' :
    running (own o) = Some id → phases o !! i = Some (Queued id) →
    threads (base o) !! i = Some (Call c k) → handle c (shared (base o)) = Val r w' →
    ostep o (o_ran i id (k r) (Ev c r) w' o)
  | o_return o i id :
    phases o !! i = Some (Ran id) → id ∈ waiting (own o) → id ∈ completed (own o) →
    ostep o (o_returned i id o)
  | o_end o i a :
    threads (base o) !! i = Some (Ret a) → phases o !! i = Some Going →
    i ∈ (serving (accepting (base o))).*1 → ostep o (o_ended i o).

(** ** The invariant *)
Definition calling {A} (p : prog A) : Prop :=
  match p with Call _ _ => True | Ret _ => False end.
(** The call a connection waits for goes through the owner. *)
Definition awaiting {A} (p : prog A) : Prop :=
  match p with Call c _ => direct c = false | Ret _ => False end.

Record odaemon_ok (o : odaemon W) : Prop := {
  oo_base : daemon_ok allow gids (base o);
  oo_own : reachable (own o);
  oo_length : length (phases o) = length (threads (base o));
  oo_history : history (own o) = fst <$> issued o;
  oo_log : owner_log (log (base o)) = snd <$> take (length (completed (own o))) (issued o);
  oo_issued id i : (id, i) ∈ issued o → id ∉ completed (own o) → phases o !! i = Some (Queued id);
  oo_queued i id : phases o !! i = Some (Queued id) →
    (id, i) ∈ issued o ∧ (id ∉ completed (own o)) ∧
    ∃ p, threads (base o) !! i = Some p ∧ awaiting p;
  oo_ran i id : phases o !! i = Some (Ran id) →
    (id, i) ∈ issued o ∧ id ∈ completed (own o) ∧ id ∈ waiting (own o);
}.

Lemma ostarted_ok w cs : odaemon_ok (ostarted w cs).
Proof.
  split; cbn; try done; [apply started_ok|constructor|].
  intros id i Hin. by apply elem_of_nil in Hin.
Qed.

(** The owner's own invariant, in the terms of this daemon. *)
Lemma odaemon_fifo o :
  odaemon_ok o →
  history (own o) = completed (own o) ++ option_list (running (own o)) ++ jobs (own o) ∧
  NoDup (history (own o)).
Proof. intros Ho. by destruct (reachable_ok _ (oo_own o Ho)) as (? & ? & _). Qed.

(** A call belongs to one connection. *)
Lemma issued_fun o id i j :
  odaemon_ok o → (id, i) ∈ issued o → (id, j) ∈ issued o → i = j.
Proof.
  intros Ho Hi Hj. destruct (odaemon_fifo o Ho) as [_ Hn]. rewrite (oo_history o Ho) in Hn.
  apply list_elem_of_lookup in Hi as [a Ha]. apply list_elem_of_lookup in Hj as [b Hb].
  assert (a = b) as ->; [|congruence].
  eapply (NoDup_lookup (fst <$> issued o)); [done| |].
  - by rewrite list_lookup_fmap, Ha.
  - by rewrite list_lookup_fmap, Hb.
Qed.

(** The job the owner runs is the oldest call that has no answer. *)
Lemma running_next o id :
  odaemon_ok o → running (own o) = Some id →
  (id ∉ completed (own o)) ∧ ∃ i, issued o !! length (completed (own o)) = Some (id, i).
Proof.
  intros Ho Hr. destruct (odaemon_fifo o Ho) as [E Hn]. rewrite Hr in E. cbn in E. split.
  - rewrite E in Hn. apply list.NoDup_app in Hn as (_ & Hd & _). intros Hc. apply (Hd id Hc). by left.
  - assert ((fst <$> issued o) !! length (completed (own o)) = Some id) as Hl.
    { rewrite <-(oo_history o Ho), E, lookup_app_r, Nat.sub_diag by done. done. }
    rewrite list_lookup_fmap in Hl. destruct (issued o !! _) as [[id' i]|]; [|done].
    cbn in Hl. simplify_eq. eauto.
Qed.

Lemma o_accepted_ok o c rest :
  odaemon_ok o → coming (base o) = c :: rest → odaemon_ok (o_accepted c rest o).
Proof.
  intros Ho Hc. pose proof Ho as [Hb Hr Hl Hh Hg Hi Hq Hn].
  split; cbn [base phases own issued o_accepted]; try done.
  - by apply accept_conn_ok.
  - cbn. destruct (takes _ _ _ _); [by rewrite !length_app, Hl|done].
  - intros id i Hin Hx. destruct (takes _ _ _ _); [|by apply Hi]. apply lookup_app_l_Some. by apply Hi.
  - intros i id. cbn. destruct (takes _ _ _ _); [|by apply Hq].
    rewrite lookup_app_Some. intros [Hp|[_ Hp]].
    + destruct (Hq i id Hp) as (? & ? & p & Hp' & ?). split_and!; try done.
      exists p. split; [by apply lookup_app_l_Some|done].
    + by apply list_lookup_singleton_Some in Hp as [_ ?].
  - intros i id. destruct (takes _ _ _ _); [|by apply Hn].
    rewrite lookup_app_Some. intros [Hp|[_ Hp]]; [by apply Hn|].
    by apply list_lookup_singleton_Some in Hp as [_ ?].
Qed.

Lemma o_called_ok o i id {R : Set} (c : call R) k :
  odaemon_ok o → threads (base o) !! i = Some (Call c k) → phases o !! i = Some Going →
  direct c = false → (length (jobs (own o)) < destQueueCap)%nat → id ∉ history (own o) →
  odaemon_ok (o_called i id o).
Proof.
  intros Ho Ht Hp Hd Hj Hf. pose proof Ho as [Hb Hr Hl Hh Hg Hi Hq Hn].
  destruct (odaemon_fifo o Ho) as [E _].
  assert (id ∉ completed (own o)) as Hc.
  { intros Hc. apply Hf. rewrite E. apply elem_of_app. by left. }
  assert (length (completed (own o)) ≤ length (issued o))%nat as Hlen.
  { rewrite <-(length_fmap fst (issued o)), <-Hh, E, length_app. lia. }
  pose proof (lookup_lt_Some _ _ _ Hp) as Hlt.
  split; cbn [base phases own issued o_called]; try done.
  - eapply reach_step; [done|]. by apply step_call.
  - by rewrite length_insert.
  - cbn. by rewrite Hh, fmap_app.
  - cbn. by rewrite take_app_le.
  - cbn. intros id' j [Hin|[= -> ->]%list_elem_of_singleton]%elem_of_app Hx.
    + pose proof (Hi _ _ Hin Hx) as Hq'. apply list_lookup_insert_Some. right.
      split; [|done]. intros <-. congruence.
    + by apply list_lookup_insert_eq.
  - cbn. intros j id' [(-> & [= ->] & _)|[Hne Hj']]%list_lookup_insert_Some.
    + split_and!; [apply elem_of_app; right; by left|done|]. by exists (Call c k).
    + destruct (Hq _ _ Hj') as (? & ? & ?). split_and!; try done. apply elem_of_app. by left.
  - cbn. intros j id' [(_ & ? & _)|[Hne Hj']]%list_lookup_insert_Some; [done|].
    destruct (Hn _ _ Hj') as (? & ? & ?). split_and!; [apply elem_of_app; by left|done|by right].
Qed.

Lemma o_refused_ok o i {R : Set} (c : call R) k r w' :
  odaemon_ok o → threads (base o) !! i = Some (Call c k) → phases o !! i = Some Going →
  direct c = true → odaemon_ok (o_refused i (k r) (Ev c r) w' o).
Proof.
  intros [Hb Hr Hl Hh Hg Hi Hq Hn] Ht Hp Hd.
  split; cbn [base phases own issued o_refused]; try done.
  - by apply answered_ok.
  - cbn. by rewrite length_insert.
  - cbn [log answered]. rewrite owner_log_snoc, direct_Ev, Hd, app_nil_r. done.
  - intros j id Hj. destruct (Hq j id Hj) as (? & ? & p & Hp' & ?). split_and!; try done.
    exists p. split; [|done]. cbn. rewrite list_lookup_insert_ne; [done|congruence].
Qed.

Lemma o_taken_ok o id rest :
  odaemon_ok o → running (own o) = None → jobs (own o) = id :: rest → odaemon_ok (o_taken id rest o).
Proof.
  intros [Hb Hr Hl Hh Hg Hi Hq Hn] Hrun Hj. split; cbn; try done.
  eapply reach_step; [done|]. by apply step_take.
Qed.

Lemma o_ran_ok o i id {R : Set} (c : call R) k r w' :
  odaemon_ok o → running (own o) = Some id → phases o !! i = Some (Queued id) →
  threads (base o) !! i = Some (Call c k) → odaemon_ok (o_ran i id (k r) (Ev c r) w' o).
Proof.
  intros Ho Hrun Hp Ht. pose proof Ho as [Hb Hr Hl Hh Hg Hi Hq Hn].
  destruct (running_next o id Ho Hrun) as (Hc & i' & Hat).
  destruct (Hq _ _ Hp) as (Hin & _ & p0 & Ht' & Hd). rewrite Ht in Ht'. injection Ht' as <-.
  assert (i' = i) as ->.
  { eapply issued_fun; [done| |done]. by eapply list_elem_of_lookup_2. }
  assert (id ∈ waiting (own o)) as Hw.
  { destruct (reachable_ok _ Hr) as (_ & _ & _ & Hw). apply Hw; [|done].
    rewrite Hh. apply list_elem_of_fmap. by exists (id, i). }
  pose proof (lookup_lt_Some _ _ _ Hp) as Hlt.
  split; cbn [base phases own issued o_ran]; try done.
  - by apply answered_ok.
  - eapply reach_step; [done|]. by apply step_done.
  - cbn. by rewrite !length_insert.
  - cbn [base log answered completed own_done]. rewrite owner_log_snoc, direct_Ev, Hd.
    rewrite length_app, Nat.add_1_r, (take_S_r _ _ _ Hat), fmap_app, <-Hg. done.
  - cbn. intros id' j Hin' [Hx Hx']%not_elem_of_app. pose proof (Hi _ _ Hin' Hx) as Hq'.
    apply list_lookup_insert_Some. right. split; [|done]. intros <-. rewrite Hp in Hq'. simplify_eq.
    apply Hx'. by left.
  - cbn. intros j id' [(_ & ? & _)|[Hne Hj']]%list_lookup_insert_Some; [done|].
    destruct (Hq _ _ Hj') as (Hin' & Hx & p & Hp' & ?). split_and!; [done| |].
    + intros [?|Hz%list_elem_of_singleton]%elem_of_app; [done|]. subst id'.
      apply Hne. by eapply issued_fun.
    + exists p. by rewrite list_lookup_insert_ne.
  - cbn. intros j id' [(-> & [= ->] & _)|[Hne Hj']]%list_lookup_insert_Some.
    + split_and!; try done. apply elem_of_app. right. by left.
    + destruct (Hn _ _ Hj') as (? & ? & ?). split_and!; try done. apply elem_of_app. by left.
Qed.

Lemma o_returned_ok o i id :
  odaemon_ok o → phases o !! i = Some (Ran id) → id ∈ waiting (own o) → id ∈ completed (own o) →
  odaemon_ok (o_returned i id o).
Proof.
  intros Ho Hp Hw Hc. pose proof Ho as [Hb Hr Hl Hh Hg Hi Hq Hn].
  destruct (Hn _ _ Hp) as (Hin & _ & _).
  split; cbn [base phases own issued o_returned]; try done.
  - eapply reach_step; [done|]. by apply step_return.
  - by rewrite length_insert.
  - cbn. intros id' j Hin' Hx. pose proof (Hi _ _ Hin' Hx) as Hq'.
    apply list_lookup_insert_Some. right. split; [|done]. intros <-. congruence.
  - cbn. intros j id' [(_ & ? & _)|[Hne Hj']]%list_lookup_insert_Some; [done|]. by apply Hq.
  - cbn. intros j id' [(_ & ? & _)|[Hne Hj']]%list_lookup_insert_Some; [done|].
    destruct (Hn _ _ Hj') as (Hin' & ? & ?). split_and!; try done.
    apply list_elem_of_filter. split; [|done]. intros ->. apply Hne. by eapply issued_fun.
Qed.

Lemma o_ended_ok o i a :
  odaemon_ok o → threads (base o) !! i = Some (Ret a) → odaemon_ok (o_ended i o).
Proof.
  intros [Hb Hr Hl Hh Hg Hi Hq Hn] Ht. split; cbn [base phases own issued o_ended]; try done.
  by eapply left_slot_ok.
Qed.

Lemma ostep_ok o o' : odaemon_ok o → ostep o o' → odaemon_ok o'.
Proof.
  intros Ho Hs. destruct Hs.
  - by apply o_accepted_ok.
  - by eapply o_called_ok.
  - by apply o_refused_ok.
  - by apply o_taken_ok.
  - by apply o_ran_ok.
  - by apply o_returned_ok.
  - by eapply o_ended_ok.
Qed.

(** ** Progress and the measure of invisible steps *)

(** Everybody came and went, and the owner has nothing to do. *)
Definition oidle (o : odaemon W) : Prop :=
  idle (base o) ∧ jobs (own o) = [] ∧ running (own o) = None ∧
  Forall (λ ph, ph = Going) (phases o).

Lemma ran_dec (l : list phase) :
  (∃ i id, l !! i = Some (Ran id)) ∨ ∀ i id, l !! i ≠ Some (Ran id).
Proof.
  induction l as [|ph l [(i & id & Hi)|IH]]; [by right|left; by exists (S i), id|].
  destruct ph as [|id|id]; [right|right|left; by exists 0%nat, id]; intros [|i]; [done|apply IH|done|apply IH].
Qed.

Lemma calling_dec {A} (ts : list (prog A)) :
  (∃ i p, ts !! i = Some p ∧ calling p) ∨ Forall (λ p, ∃ a, p = Ret a) ts.
Proof.
  induction ts as [|p ts [(i & q & Hi & Hq)|IH]]; [right; constructor|left; by exists (S i), q|].
  destruct p as [a|R c k]; [|left; by exists 0%nat, (Call c k)]. right. constructor; [by exists a|done].
Qed.

(** With no job outstanding all goroutines run their own code. *)
Lemma quiet_going o :
  odaemon_ok o → running (own o) = None → jobs (own o) = [] →
  (∀ i id, phases o !! i ≠ Some (Ran id)) → ∀ i ph, phases o !! i = Some ph → ph = Going.
Proof.
  intros Ho Hr Hj Hn i [|id|id] Hi; [done| |by destruct (Hn i id)].
  destruct (oo_queued o Ho i id Hi) as (Hin & Hc & _).
  destruct (odaemon_fifo o Ho) as [E _]. rewrite Hr, Hj in E. cbn in E. rewrite app_nil_r in E.
  destruct Hc. rewrite <-E, (oo_history o Ho). apply list_elem_of_fmap. by exists (id, i).
Qed.

Context (ok : W → Prop) `{!TotalBackend W ok}.

Lemma ostep_running o id :
  odaemon_ok o → ok (shared (base o)) → running (own o) = Some id → ∃ o', ostep o o'.
Proof.
  intros Ho Hok Hr. destruct (running_next o id Ho Hr) as (Hc & i & Hat).
  pose proof (oo_issued o Ho id i (list_elem_of_lookup_2 _ _ _ Hat) Hc) as Hq.
  destruct (oo_queued o Ho i id Hq) as (_ & _ & p & Hp & Hcall).
  destruct p as [a|R c k]; [done|]. destruct (handle_total R c _ Hok) as (r & w' & Hh & _).
  eexists. by eapply o_run.
Qed.

Lemma ostep_progress o :
  odaemon_ok o → ok (shared (base o)) → oidle o ∨ ∃ o', ostep o o'.
Proof.
  intros Ho Hok. destruct (ran_dec (phases o)) as [(i & id & Hi)|Hn].
  { right. destruct (oo_ran o Ho i id Hi) as (_ & ? & ?). eexists. by eapply o_return. }
  destruct (running (own o)) as [id|] eqn:Hr; [right; by eapply ostep_running|].
  destruct (jobs (own o)) as [|id rest] eqn:Hj; [|right; eexists; by eapply o_take].
  destruct (coming (base o)) as [|c rest] eqn:Hc; [|right; eexists; by eapply o_accept].
  pose proof (quiet_going o Ho Hr Hj Hn) as Hg.
  assert (∀ i p, threads (base o) !! i = Some p → phases o !! i = Some Going) as Hph.
  { intros i p Hp%lookup_lt_Some. rewrite <-(oo_length o Ho) in Hp.
    destruct (lookup_lt_is_Some_2 _ _ Hp) as [ph Hi]. by rewrite Hi, (Hg i ph Hi). }
  destruct (calling_dec (threads (base o))) as [(i & p & Hi & Hp)|Hret].
  { right. destruct p as [a|R c k]; [done|]. destruct (direct c) eqn:Hd.
    { destruct (handle_total R c _ Hok) as (r & w' & Hh & _). eexists.
      eapply o_refuse; [done|by eapply Hph|done|done]. }
    eexists.
    eapply (o_call o i (fresh (history (own o)))); [done|by eapply Hph|done| |apply infinite_is_fresh].
    rewrite Hj. unfold destQueueCap. cbn. lia. }
  destruct (serving (accepting (base o))) as [|[i pe] l] eqn:Hs.
  - left. split_and!; try done. apply Forall_forall. intros ph Hin.
    apply list_elem_of_lookup in Hin as [i Hi]. by eapply Hg.
  - right. assert (i ∈ (serving (accepting (base o))).*1) as Hin by (rewrite Hs; left).
    destruct (lookup_lt_is_Some_2 _ _ (ok_serving _ _ _ (oo_base o Ho) i Hin)) as [p Hp].
    destruct (proj1 (Forall_lookup _ _) Hret i p Hp) as [a ->].
    eexists. eapply o_end; [done|by eapply Hph|done].
Qed.

(** A call goes from running to the channel, to the owner and back. *)
Definition weight (ph : phase) : nat :=
  match ph with Going => 3 | Queued _ => 1 | Ran _ => 4 end.
Definition pending (o : odaemon W) : nat := sum_list_with weight (phases o) + length (jobs (own o)).

Lemma sum_weight_insert (l : list phase) i x y :
  l !! i = Some x →
  (sum_list_with weight (<[i := y]> l) + weight x = sum_list_with weight l + weight y)%nat.
Proof.
  revert i. induction l as [|z l IH]; intros [|i] Hi; [done..| |].
  - injection Hi as ->. change (<[0%nat := y]> (x :: l)) with (y :: l).
    cbn [sum_list_with]. lia.
  - apply IH in Hi. change (<[S i := y]> (z :: l)) with (z :: <[i := y]> l).
    cbn [sum_list_with]. lia.
Qed.

(** Every step is a step of the daemon without the owner, or it only moves a
    call closer to its answer. *)
Lemma ostep_base o o' :
  ostep o o' →
  vstep allow gids (base o) (base o') ∨ base o = base o' ∧ (pending o' < pending o)%nat.
Proof.
  intros Hs.
  destruct Hs as [o c rest Hc|o i id R c k Ht Hp Hd Hl Hf|o i R c k r w' Ht Hp Hd Hh
                 |o id rest Hr Hj|o i id R c k r w' Hr Hp Ht Hh
                 |o i id Hp Hw Hc|o i a Ht Hp Hin].
  - left. by apply v_accept.
  - right. split; [done|]. unfold pending. cbn. rewrite length_app. cbn.
    pose proof (sum_weight_insert _ _ _ (Queued id) Hp) as E. cbn in E. lia.
  - left. by eapply v_call.
  - right. split; [done|]. unfold pending. cbn. rewrite Hj. cbn. lia.
  - left. by eapply v_call.
  - right. split; [done|]. unfold pending. cbn.
    pose proof (sum_weight_insert _ _ _ Going Hp) as E. cbn in E. lia.
  - left. by eapply v_end.
Qed.

(** Without the channel and the owner a run is a run of the daemon. *)
Lemma orun_base o o' : rtc ostep o o' → rtc (vstep allow gids) (base o) (base o').
Proof.
  apply rtc_simulates. intros o1 o2 [?|[-> _]]%ostep_base; [by apply rtc_once|done].
Qed.

Lemma ostep_total o o' :
  ok (shared (base o)) → ostep o o' → ok (shared (base o')).
Proof.
  intros Hok Hs.
  destruct Hs as [| |o i R c k r w' Ht Hp Hd Hh| |o i id R c k r w' Hr Hp Ht Hh| |]; try done.
  all: destruct (handle_total R c _ Hok) as (r2 & w2 & Hh2 & Hok2);
    cbn; rewrite Hh in Hh2; by simplify_eq.
Qed.

(** ** The schedule as a function *)
Inductive omove :=
  | OAccept | OCall (i id : nat) | ORefuse (i : nat)
  | OTake | ORun (i : nat) | OReturn (i : nat) | OEnd (i : nat).

Definition omove_fun (m : omove) (o : odaemon W) : option (odaemon W) :=
  match m with
  | OAccept =>
    match coming (base o) with c :: rest => Some (o_accepted c rest o) | [] => None end
  | OCall i id =>
    match threads (base o) !! i, phases o !! i with
    | Some (Call c _), Some Going =>
      if negb (direct c) &&
         bool_decide ((length (jobs (own o)) < destQueueCap)%nat ∧ id ∉ history (own o))
      then Some (o_called i id o) else None
    | _, _ => None
    end
  | ORefuse i =>
    match threads (base o) !! i, phases o !! i with
    | Some (Call c k), Some Going =>
      if direct c then
        match handle c (shared (base o)) with
        | Val r w' => Some (o_refused i (k r) (Ev c r) w' o)
        | Panicked _ _ => None
        end
      else None
    | _, _ => None
    end
  | OTake =>
    match running (own o), jobs (own o) with
    | None, id :: rest => Some (o_taken id rest o)
    | _, _ => None
    end
  | ORun i =>
    match running (own o), phases o !! i, threads (base o) !! i with
    | Some id, Some (Queued id'), Some (Call c k) =>
      if bool_decide (id' = id) then
        match handle c (shared (base o)) with
        | Val r w' => Some (o_ran i id (k r) (Ev c r) w' o)
        | Panicked _ _ => None
        end
      else None
    | _, _, _ => None
    end
  | OReturn i =>
    match phases o !! i with
    | Some (Ran id) =>
      if bool_decide (id ∈ waiting (own o) ∧ id ∈ completed (own o))
      then Some (o_returned i id o) else None
    | _ => None
    end
  | OEnd i =>
    match threads (base o) !! i, phases o !! i with
    | Some (Ret _), Some Going =>
      if bool_decide (i ∈ (serving (accepting (base o))).*1) then Some (o_ended i o) else None
    | _, _ => None
    end
  end.

Fixpoint orun (ms : list omove) (o : odaemon W) : option (odaemon W) :=
  match ms with
  | [] => Some o
  | m :: ms' => match omove_fun m o with Some o' => orun ms' o' | None => None end
  end.

Lemma omove_sound m o o' : omove_fun m o = Some o' → ostep o o'.
Proof.
  destruct m as [|i id|i| |i|i|i]; cbn [omove_fun]; intros E.
  - destruct (coming (base o)) eqn:?; [done|]. injection E as <-. by apply o_accept.
  - destruct (threads (base o) !! i) as [[a|R c k]|] eqn:Et; try done.
    destruct (phases o !! i) as [[]|] eqn:Ep; try done.
    destruct (direct c) eqn:Ed; [done|]. cbn [negb andb] in E.
    case_bool_decide as Hb; [|done]. injection E as <-. destruct Hb. by eapply o_call.
  - destruct (threads (base o) !! i) as [[a|R c k]|] eqn:Et; try done.
    destruct (phases o !! i) as [[]|] eqn:Ep; try done. destruct (direct c) eqn:Ed; [|done].
    destruct (handle c (shared (base o))) eqn:Eh; [|done]. injection E as <-. by eapply o_refuse.
  - destruct (running (own o)) eqn:?, (jobs (own o)) eqn:?; try done. injection E as <-. by apply o_take.
  - destruct (running (own o)) as [id|] eqn:Er; [|done].
    destruct (phases o !! i) as [[|id'|]|] eqn:Ep; try done.
    destruct (threads (base o) !! i) as [[a|R c k]|] eqn:Et; try done.
    case_bool_decide; [|done]. subst id'.
    destruct (handle c (shared (base o))) eqn:Eh; [|done]. injection E as <-. by eapply o_run.
  - destruct (phases o !! i) as [[| |id]|] eqn:Ep; try done.
    case_bool_decide as Hb; [|done]. injection E as <-. destruct Hb. by eapply o_return.
  - destruct (threads (base o) !! i) as [[a|R c k]|] eqn:Et; try done.
    destruct (phases o !! i) as [[]|] eqn:Ep; try done.
    case_bool_decide; [|done]. injection E as <-. by eapply o_end.
Qed.

Lemma orun_sound ms o o' : orun ms o = Some o' → rtc ostep o o'.
Proof.
  revert o. induction ms as [|m ms IH]; intros o; cbn; [intros [= <-]; apply rtc_refl|].
  destruct (omove_fun m o) as [o1|] eqn:E; [|done]. intros Hr%IH.
  eapply rtc_l; [by eapply omove_sound|done].
Qed.
End odaemon.

(** ** The theorems *)

(** C10: the owner thread is invisible: whatever the daemon with its channel,
    owner and waiting goroutines does, the connections and the backend go
    through a run of the daemon in which a call is one step; the owner answers
    the calls of all connections (all but the moves refused before they reach
    it) strictly in the order in which the channel got them; and a connection
    goes on only after its call was answered. *)
Theorem owner_refines {W} `{Backend W} allow gids w cs (o : odaemon W) :
  rtc (ostep allow gids) (ostarted w cs) o →
  rtc (vstep allow gids) (started w cs) (base o) ∧
  owner_log (log (base o)) `prefix_of` (snd <$> issued o) ∧
  (∀ i id, phases o !! i = Some Going → (id, i) ∈ issued o → id ∈ completed (own o)).
Proof.
  intros Hr. assert (odaemon_ok allow gids o) as Ho.
  { eapply rtc_invariant; [exact (ostep_ok allow gids)|apply ostarted_ok|exact Hr]. }
  split_and!.
  - exact (orun_base _ _ _ _ Hr).
  - rewrite (oo_log _ _ _ Ho). eexists. rewrite <-fmap_app, take_drop. done.
  - intros i id Hg Hin. destruct (decide (id ∈ completed (own o))) as [|Hc]; [done|].
    pose proof (oo_issued _ _ _ Ho id i Hin Hc). congruence.
Qed.

(** Two clients on the recording backend: the second one's first call is
    answered between the two calls of the first one. *)
Definition odemo_moves : list omove :=
  [OAccept; OAccept; OCall 0 0; OCall 1 1; OTake; ORun 0; OReturn 0; OCall 0 2; OTake; ORun 1;
   OTake; ORun 0].
Definition odemo : odaemon Fake :=
  default (ostarted NewFake [])
    (orun [1000%Z] [] odemo_moves (ostarted NewFake [demo_conn; demo_conn])).

Lemma owner_refines_witness :
  owner_log (log (base odemo)) `prefix_of` (snd <$> issued odemo).
Proof.
  apply (owner_refines [1000%Z] [] NewFake [demo_conn; demo_conn]).
  apply (orun_sound _ _ odemo_moves), default_is_Some. vm_compute. reflexivity.
Defined.

(** C16: the daemon always comes to rest: with a backend that answers every call,
    whatever clients connect, whatever they send and however the scheduler
    interleaves the accept loop, the connections and the owner thread, every run
    reaches the state in which all clients were served or turned away, all slots
    are free, every connection has made its last release, and the owner has
    nothing to do.  In particular there is no deadlock and no call waits
    forever. *)
Theorem daemon_comes_to_rest {W} `{Backend W} (ok : W → Prop) `{!TotalBackend W ok}
    allow gids w cs :
  ok w → inevitably (ostep allow gids) oidle (ostarted w cs).
Proof.
  intros Hw. apply (simulation_inevitably (ostep allow gids) (vstep allow gids) base
    (λ o, odaemon_ok allow gids o ∧ ok (shared (base o))) pending).
  - intros o o' [Ho Hok] Hs. split; [|by apply ostep_base].
    split; [by eapply ostep_ok|by eapply ostep_total].
  - intros o [Ho Hok]. by eapply ostep_progress.
  - apply vstep_wf.
  - split; [apply ostarted_ok|done].
Qed.

Lemma daemon_comes_to_rest_witness :
  inevitably (ostep (H := dest_backend 25) [1000%Z] []) oidle
    (ostarted (ow_backend [7%Z]) [demo_conn; demo_conn]).
Proof. apply (daemon_comes_to_rest (λ b, owner b = true)). reflexivity. Defined.
