(* ===== verification/Observe.v ===== *)
(** * Inspect, then act

    The interface between the dispatcher and a backend that shows windows: a
    window it has just shown passes revalidation, and acting on a window does
    not report a stale reference by itself.  The recording backend and, on an
    undisturbed display, the live backend implement it; the client's theorem is
    proved against the interface and is about protocol texts: the client reads a
    reference from the reply and sends it back in a line. *)

From S2P Require Import Prelude GoStrings Utf8 Json JsonText VNext Request RequestSpec Wire.
From S2P Require Import Backend Session Dispatch DispatchSpec Fake Xlib X11 X11Spec DestBackend DestSpec.
From S2P Require Import Serve Concurrent ConcurrentSpec.
Local Open Scope Z_scope.

(** An error that does not stand for a stale reference. *)
Definition no_mismatch (err : option error) : Prop :=
  match err with Some e => errors_Is e ErrRefMismatch = false | None => True end.

Class ObservingBackend (W : Type) `{TotalBackend W ok} := {
  shown_is_current w ws w' win :
    ok w → handle ManagedClients w = Val (ws, None) w' → win ∈ ws →
    ∃ w'', handle (Revalidate (ref_of win)) w' = Val None w'';
  activation_errors w ref err w' :
    ok w → handle (ActivateAlwaysBoth ref) w = Val err w' → no_mismatch err;
  fullscreen_errors w ref add err w' :
    ok w → handle (SetFullscreen ref add) w = Val err w' → no_mismatch err;
  active_errors w xid err w' :
    ok w → handle ActiveWindow w = Val (xid, err) w' → no_mismatch err;
}.
Arguments ObservingBackend W {_} ok {_}.

(** ** The client: programs against the interface *)
Section client.
Context {W : Type} `{ObservingBackend W ok}.

Lemma ok_handle {R : Set} (c : call R) w r w' : ok w → handle c w = Val r w' → ok w'.
Proof.
  intros Hw Hh. destruct (handle_total R c w Hw) as (r2 & w2 & E & Hok). rewrite Hh in E.
  by simplify_eq.
Qed.

(** One step of a run. *)
Lemma run_call {A} {R : Set} (c : call R) (k : R → prog A) w r w' :
  handle c w = Val r w' → run (Call c k) w = run (k r) w'.
Proof. intros E. cbn. by rewrite E. Qed.

Lemma mismatch_code e : errors_Is e ErrRefMismatch = false → Code (mapBackendError (Some e)) ≠ CodeConflict.
Proof. intros E. cbn. by rewrite E. Qed.

(** The programs of the two window requests and of inspect. *)
Lemma Dispatch_activate sch r sess :
  Op r = OpActivate →
  Dispatch sch r sess false = Call (Revalidate (Window r)) (λ err,
    match err with
    | Some e => Ret (mapBackendError (Some e), sess)
    | None => Call (ActivateAlwaysBoth (Window r)) (λ err,
        match err with
        | Some e => Ret (mapBackendError (Some e), sess)
        | None => Call ActiveWindow (λ '(obs, err),
            match err with
            | Some e => Ret (mapBackendError (Some e), sess)
            | None =>
              Ret ({| Code := CodeSubmitted; OErr := None; Windows := [];
                      ScreenWidth := 0; ScreenHeight := 0;
                      RequestedActive := RXID (Window r); ObservedActive := obs |}, sess)
            end)
        end)
    end).
Proof. intros Hop. unfold Dispatch. rewrite Hop. reflexivity. Qed.

Lemma Dispatch_fullscreen sch r sess :
  Op r = OpFullscreen →
  Dispatch sch r sess false = Call (Revalidate (Window r)) (λ err,
    match err with
    | Some e => Ret (mapBackendError (Some e), sess)
    | None => Call (SetFullscreen (Window r) (AddState r)) (λ err,
        match err with
        | Some e => Ret (mapBackendError (Some e), sess)
        | None => Ret (submitted, sess)
        end)
    end).
Proof. intros Hop. unfold Dispatch. rewrite Hop. reflexivity. Qed.

(** A window request whose reference revalidates runs to an outcome that is not
    Conflict. *)
Lemma acts_on_current sch sess r w w1 :
  Op r = OpActivate ∨ Op r = OpFullscreen →
  ok w → handle (Revalidate (Window r)) w = Val None w1 →
  ∃ out w', run (Dispatch sch r sess false) w = Val (out, sess) w' ∧ Code out ≠ CodeConflict.
Proof.
  intros Hop Hw Hr. pose proof (ok_handle _ _ _ _ Hw Hr) as Hw1.
  destruct Hop as [Hop|Hop].
  - rewrite (Dispatch_activate _ _ _ Hop), (run_call _ _ _ _ _ Hr).
    destruct (handle_total _ (ActivateAlwaysBoth (Window r)) w1 Hw1) as (err & w2 & E & Hw2).
    rewrite (run_call _ _ _ _ _ E). pose proof (activation_errors _ _ _ _ Hw1 E) as He.
    destruct err as [e|]; [eexists _, _; split; [done|by apply mismatch_code]|].
    destruct (handle_total _ ActiveWindow w2 Hw2) as ([xid err] & w3 & E3 & _).
    rewrite (run_call _ _ _ _ _ E3). pose proof (active_errors _ _ _ _ Hw2 E3) as He3.
    destruct err as [e|]; eexists _, _; (split; [done|]); [by apply mismatch_code|done].
  - rewrite (Dispatch_fullscreen _ _ _ Hop), (run_call _ _ _ _ _ Hr).
    destruct (handle_total _ (SetFullscreen (Window r) (AddState r)) w1 Hw1) as (err & w2 & E & _).
    rewrite (run_call _ _ _ _ _ E). pose proof (fullscreen_errors _ _ _ _ _ Hw1 E) as He.
    destruct err as [e|]; eexists _, _; (split; [done|]); [by apply mismatch_code|done].
Qed.

(** What an inspect line asks of the backend, if its reply shows a window. *)
Lemma inspect_shows sch sess sess1 out w w1 win :
  ok w →
  run (HandleLine sch (render (plain_request OpInspect)) sess false) w = Val (out, sess1) w1 →
  win ∈ Windows out →
  ∃ w0 ws, ok w0 ∧ handle ManagedClients w0 = Val (ws, None) w1 ∧ win ∈ ws.
Proof.
  intros Hw. unfold HandleLine.
  replace (Decode (render (plain_request OpInspect))) with (plain_request OpInspect, submitted)
    by (vm_compute; reflexivity).
  change (bool_decide (Code submitted = CodeSubmitted)) with true. cbv beta iota.
  assert (Dispatch sch (plain_request OpInspect) sess false = Call ScreenGeometry (λ '(width, height, err),
    match err with
    | Some e => Ret (mapBackendError (Some e), sess)
    | None => Call ManagedClients (λ '(windows, err),
        match err with
        | Some e => Ret (mapBackendError (Some e), sess)
        | None =>
          Ret ({| Code := CodeSubmitted; OErr := None; Windows := windows;
                  ScreenWidth := width; ScreenHeight := height;
                  RequestedActive := 0; ObservedActive := 0 |}, sess)
        end)
    end)) as -> by reflexivity.
  assert (∀ e, win ∈ Windows (mapBackendError (Some e)) → False) as Hno.
  { intros e Hin. cbn in Hin. destruct (errors_Is e ErrRefMismatch); by apply elem_of_nil in Hin. }
  destruct (handle_total _ ScreenGeometry w Hw) as ([[width height] err] & w0 & E & Hw0).
  rewrite (run_call _ _ _ _ _ E). destruct err as [e|]; [intros [= <- <- <-] Hin; by apply Hno in Hin|].
  destruct (handle_total _ ManagedClients w0 Hw0) as ([ws err] & w2 & E2 & _).
  rewrite (run_call _ _ _ _ _ E2).
  destruct err as [e|]; [intros [= <- <- <-] Hin; by apply Hno in Hin|].
  intros [= <- <- <-] Hin. eauto.
Qed.
End client.

(** ** What a client reads from a reply

    A number that is left out is zero and a text that is left out is empty. *)
Definition number_at (bits : Z) (v : option (list ascii)) : option Z :=
  match v with
  | None => Some 0
  | Some raw =>
    match json.classify raw with
    | json.Number lit =>
      match strconv.ParseUint lit bits with (n, None) => Some n | _ => None end
    | _ => None
    end
  end.
Definition text_at (v : option (list ascii)) : option string :=
  match v with
  | None => Some ""
  | Some raw => match json.classify raw with json.Str s => Some s | _ => None end
  end.

(** The reference to a window. *)
Definition read_ref (t : list ascii) : option WindowRef :=
  ms ← object_members t;
  let m := list_to_map ms : gmap string (list ascii) in
  dg ← number_at 64 (m !! "displayGen");
  og ← number_at 64 (m !! "observeGen");
  xid ← number_at 32 (m !! "xid");
  class ← text_at (m !! "class");
  pid ← number_at 32 (m !! "pid");
  Some {| RDisplayGen := dg; RObserveGen := og; RXID := xid; ExpectedClass := class;
          ExpectedPID := pid |}.

(** The references to the windows of a reply. *)
Definition read_refs (t : list ascii) : option (list WindowRef) :=
  ms ← object_members t;
  match (list_to_map ms : gmap string (list ascii)) !! "windows" with
  | None => Some []
  | Some raw => els ← array_elements raw; mapM read_ref els
  end.

Lemma number_at_is bits v z n :
  0 ≤ bits → is_number v z → number_at bits v = Some n → n = z ∧ is_uint bits n.
Proof.
  intros Hb (raw & -> & E). cbn. rewrite E.
  destruct (strconv.ParseUint _ _) as [k [e|]] eqn:Ep; [done|]. intros [= ->]. split.
  - by eapply strconv.ParseUint_Itoa_inv.
  - by eapply strconv.ParseUint_range.
Qed.

Lemma number_at_shows bits v z n :
  0 ≤ bits → shows_number v z → number_at bits v = Some n → n = z ∧ is_uint bits n.
Proof.
  intros Hb. unfold shows_number. case_decide; [|by apply number_at_is].
  intros -> [= <-]. split; [done|]. unfold is_uint. pose proof (Z.pow_pos_nonneg 2 bits). lia.
Qed.

Lemma text_at_shows v s t : shows_text v s → text_at v = Some t → t = valid_text s.
Proof.
  unfold shows_text. case_decide; [intros -> [= <-]; by subst|].
  intros (raw & -> & E). cbn. rewrite E. by intros [= <-].
Qed.

(** A reference that is read is that of the window shown, up to bytes of the
    class that are no UTF-8. *)
Lemma read_ref_shown t w ref :
  shows_window t w → read_ref t = Some ref →
  RDisplayGen ref = DisplayGen w ∧ RObserveGen ref = ObserveGen w ∧ RXID ref = XID w ∧
  ExpectedPID ref = PID w ∧ ExpectedClass ref = valid_text (Class w) ∧
  (RXID ref ≠ 0 → valid_ref ref).
Proof.
  intros (ms & E & _ & _ & Hx & Hc & Hp & _ & _ & _ & _ & _ & _ & Hd & Ho). unfold read_ref.
  rewrite E. cbn [mbind option_bind]. cbv zeta. intros Hr.
  destruct (number_at 64 (_ !! "displayGen")) as [dg|] eqn:Ed; cbn in Hr; [|done].
  destruct (number_at 64 (_ !! "observeGen")) as [og|] eqn:Eo; cbn in Hr; [|done].
  destruct (number_at 32 (_ !! "xid")) as [xid|] eqn:Ex; cbn in Hr; [|done].
  destruct (text_at _) as [class|] eqn:Ec; cbn in Hr; [|done].
  destruct (number_at 32 (_ !! "pid")) as [pid|] eqn:Ep; cbn in Hr; [|done].
  injection Hr as <-. unfold valid_ref. cbn.
  apply (number_at_is 64 _ _ _ ltac:(done) Hd) in Ed. apply (number_at_is 64 _ _ _ ltac:(done) Ho) in Eo.
  apply (number_at_is 32 _ _ _ ltac:(done) Hx) in Ex. apply (text_at_shows _ _ _ Hc) in Ec.
  apply (number_at_shows 32 _ _ _ ltac:(done) Hp) in Ep. naive_solver.
Qed.

Lemma read_refs_shown t o refs ref :
  shows_reply t o → read_refs t = Some refs → ref ∈ refs →
  ∃ e w, w ∈ Windows o ∧ shows_window e w ∧ read_ref e = Some ref.
Proof.
  intros (ms & E & _ & _ & _ & Hw & _). unfold read_refs. rewrite E. cbn [mbind option_bind].
  unfold shows_list in Hw. destruct (Windows o) as [|w0 ws0].
  { rewrite Hw. intros [= <-] Hin. by apply elem_of_nil in Hin. }
  destruct Hw as (raw & els & -> & -> & Hs). cbn [mbind option_bind]. intros Hm%mapM_Some Hin.
  apply list_elem_of_lookup in Hin as [i Hi].
  destruct (Forall2_lookup_r _ _ _ _ _ Hm Hi) as (e & He & Hr).
  destruct (Forall2_lookup_l _ _ _ _ _ Hs He) as (w & Hlw & Hsw).
  exists e, w. split_and!; try done. by eapply list_elem_of_lookup_2.
Qed.

Lemma ascii_no_replacement s : ascii_text s → ¬ has_replacement s.
Proof.
  unfold ascii_text. intros Hs (a & b & E). rewrite E in Hs.
  by apply Forall_app in Hs as [_ [??]%Forall_cons_1].
Qed.

(** A class read without a replacement is the window's, and can be written. *)
Lemma read_refs_window t o refs ref :
  shows_reply t o → read_refs t = Some refs → ref ∈ refs →
  RXID ref ≠ 0 → ¬ has_replacement (ExpectedClass ref) →
  ∃ w, w ∈ Windows o ∧ ref = ref_of w ∧ valid_ref ref ∧ utf8_text (ExpectedClass ref).
Proof.
  intros Ht Hr Hin Hx Hc. destruct (read_refs_shown _ _ _ _ Ht Hr Hin) as (e & w & Hw & Hs & Er).
  destruct (read_ref_shown _ _ _ Hs Er) as (Hd & Ho & Hi & Hp & Hcl & Hv).
  exists w. rewrite Hcl in Hc. apply valid_text_utf8_inv in Hc.
  rewrite Hcl, (valid_text_utf8 _ Hc). rewrite (valid_text_utf8 _ Hc) in Hcl.
  split_and!; auto. destruct ref. cbn in *. unfold ref_of. by subst.
Qed.

(** ** The recording backend *)

(** Distinct windows that exist, with no stale generation. *)
Definition fake_ok (f : Fake) : Prop :=
  NoDup (XID <$> Managed f) ∧
  ∀ w, w ∈ Managed f → XID w ≠ 0 ∧ (DisplayGen w = 0 ∨ DisplayGen w = Display f) ∧
    (ObserveGen w = 0 ∨ ObserveGen w = Observe f).

#[global] Instance fake_ok_total : TotalBackend Fake fake_ok.
Proof.
  intros R c f Hf. destruct c; cbn; unfold returns, f_ManagedClients, f_ActivateAlwaysBoth, f_SetFullscreen;
    repeat (case_match; cbn); eauto.
Qed.

(** What the recording backend shows has an identifier and its generations. *)
Lemma fake_shown f f' ws win :
  fake_ok f → f_ManagedClients f = ((ws, None), f') → win ∈ ws →
  XID win ≠ 0 ∧ DisplayGen win = Display f ∧ ObserveGen win = Observe f.
Proof.
  intros [_ Hg] E Hw. unfold f_ManagedClients in E. destruct (negb _); [done|].
  injection E as <- <-. apply list_elem_of_fmap in Hw as (v & -> & Hv).
  destruct (Hg v Hv) as (Hx & Hd & Ho). cbn.
  split_and!; [done|case_match eqn:E..]; bools; lia.
Qed.

#[global] Instance fake_observing : ObservingBackend Fake fake_ok.
Proof.
  split.
  - intros f ws f' win Hf Hh Hw. cbn in Hh. unfold returns in Hh. injection Hh as E E'.
    assert (f_ManagedClients f = ((ws, None), f')) as Hm
      by (by rewrite (surjective_pairing (f_ManagedClients f)), E, E').
    destruct (fake_shown _ _ _ _ Hf Hm Hw) as (Hx & Hd & Ho). destruct Hf as [Hn _].
    exists f'. cbn. f_equal. by eapply fake_inspect_then_revalidate.
  - intros f ref err f' _. cbn. unfold returns, f_ActivateAlwaysBoth. case_match; cbn;
      intros; by simplify_eq.
  - intros f ref add err f' _. cbn. unfold returns, f_SetFullscreen. case_match; cbn;
      intros; by simplify_eq.
  - intros f xid err f' _. cbn. unfold f_ActiveWindow. intros; by simplify_eq.
Qed.

(** ** The live backend *)
Section live.
Context {D : Type} `{QuietServer D} (polls : nat).

(** The error of a method that needs some atoms is that of its body, or
    Unavailable. *)
Lemma when_supported_error {A} (err : A → option error) atoms fail (body : B D A) b :
  no_mismatch (err fail) → (∀ b, no_mismatch (err (fst (body b)))) →
  no_mismatch (err (fst (when_supported atoms fail body b))).
Proof.
  intros Hf Hb. unfold when_supported, mbind, B_bind, onX. destruct (internDestAtoms (xp b)) as [rc s].
  destruct (negb (rc =? 0)); [done|]. generalize (with_xp s b). clear b s.
  induction atoms as [|a atoms IH]; intros b; cbn [foldr]; [done|].
  destruct (netSupportedHas a (xp b)) as [n s]. destruct (negb (n =? 1)); [done|]. apply IH.
Qed.

#[global] Instance dest_observing :
  ObservingBackend (H := dest_backend polls) (xDestBackend D) (λ b, owner b = true).
Proof.
  split.
  - intros b ws b' win Ho Hh Hw. cbn in Hh. rewrite run_owner_val in Hh by done.
    injection Hh as E E'.
    assert (owner b' = true) as Ho'.
    { destruct (dest_handle_total polls ManagedClients b Ho) as (r & b2 & E2 & Ho2). cbn in E2.
      rewrite run_owner_val in E2 by done. injection E2 as _ <-. by rewrite <-E'. }
    eexists. cbn. rewrite run_owner_val by done. f_equal.
    eapply (dest_inspect_then_revalidate b b' ws); [|done].
    by rewrite (surjective_pairing (d_ManagedClients b)), E, E'.
  - intros b ref err b' Ho Hh. cbn in Hh. rewrite run_owner_val in Hh by done. injection Hh as <- _.
    apply (when_supported_error id); [done|]. clear. intros b.
    unfold mbind, B_bind, onX, mret, B_ret, id.
    destruct (sendNetActive (RXID ref) (xp b)) as [rc s]. destruct (negb (rc =? 0)); [done|].
    destruct (setInputFocus _ _) as [rc' s']. by destruct (negb (rc' =? 0)).
  - intros b ref add err b' Ho Hh. cbn in Hh. rewrite run_owner_val in Hh by done.
    injection Hh as <- _. apply (when_supported_error id); [done|]. clear. intros b.
    unfold mbind, B_bind, onX, mret, B_ret, id, xerr.
    destruct (sendNetWMStateFS _ _ _) as [rc s]. cbn. by destruct (negb (rc =? 0)).
  - intros b xid err b' Ho Hh. cbn in Hh. rewrite run_owner_val in Hh by done.
    injection Hh as E _. change err with (snd (xid, err)). rewrite <-E.
    apply (when_supported_error snd); [done|]. clear. intros b.
    unfold mbind, B_bind, onX, mret, B_ret. by destruct (getActiveXID (xp b)).
Qed.
End live.

(** ** The theorem *)

(** C18: what inspect shows can be acted on.  Take a backend that keeps the
    interface (the live one on a display nobody else changes, with its owner
    running; the recording one, with distinct windows and no stale generation).
    If a client reads the windows of the reply to an inspect line and sends, as
    the next line, an activate or fullscreen request with the generations,
    identifier, class and process it read for one of them, the request runs to
    an outcome and the reply is never Conflict.  Conditions: the identifier is not
    zero, the class was read without a U+FFFD (which stands for a byte that is
    no UTF-8, and such a class cannot be sent back), and the line is within the
    size limit. *)
Theorem inspected_window_acts {W} `{ObservingBackend W ok} sch sch' sess sess1 out w w1 refs ref r :
  ok w →
  run (HandleLine sch (render (plain_request OpInspect)) sess false) w = Val (out, sess1) w1 →
  read_refs (WireJSON out) = Some refs → ref ∈ refs →
  RXID ref ≠ 0 → ¬ has_replacement (ExpectedClass ref) →
  r = window_request OpActivate ref false ∨ (∃ add, r = window_request OpFullscreen ref add) →
  len (render r) ≤ maxJSONLine →
  ∃ out' w', run (HandleLine sch' (render r) sess1 false) w1 = Val (out', sess1) w' ∧
    Code out' ≠ "Conflict".
Proof.
  intros Hw Hrun Hrefs Href Hx Hc Hr Hl.
  destruct (read_refs_window _ _ _ _ (reply_shown out) Hrefs Href Hx Hc)
    as (win & Hin & -> & Hv & Hu).
  destruct (inspect_shows _ _ _ _ _ _ _ Hw Hrun Hin) as (w0 & ws & Hw0 & Hh & Hws).
  destruct (shown_is_current _ _ _ _ Hw0 Hh Hws) as [w2 Hcur].
  assert (valid_request r ∧ utf8_request r) as [Hvr Hur].
  { destruct Hr as [-> |[add ->]]; (split; [by constructor|by split]). }
  unfold HandleLine. rewrite (proj2 (Decode_submitted (render r) r)) by (by apply render_denotes).
  change (bool_decide (Code submitted = CodeSubmitted)) with true. cbv beta iota.
  eapply acts_on_current; [|by eapply ok_handle|].
  - destruct Hr as [-> |[add ->]]; auto.
  - by destruct Hr as [-> |[add ->]].
Qed.

(** The live backend on the display with one window: what inspect leaves. *)
Definition ow_inspected : xDestBackend one_window :=
  match run (H := dest_backend 25)
    (HandleLine tree_schedule (render (plain_request OpInspect)) (Some NewSession) false)
    (ow_backend [4194307]) with
  | Val _ b => b
  | _ => ow_backend [4194307]
  end.

(** The bytes of the reply, the reference read from them, and what follows. *)
Lemma inspected_window_acts_witness :
  let win := {| XID := 4194307; Class := "Example"; PID := 0; Name := ""; X := 10; Y := 20;
    Width := 640; Height := 480; State := []; DisplayGen := 1; ObserveGen := 1 |} in
  let out := {| Code := CodeSubmitted; OErr := None; Windows := [win]; ScreenWidth := 1280;
    ScreenHeight := 720; RequestedActive := 0; ObservedActive := 0 |} in
  WireJSON out = quote_marks ("{'code':'Submitted','windows':[{'xid':4194307,'class':'Example'," +:+
    "'x':10,'y':20,'width':640,'height':480,'displayGen':1,'observeGen':1}]," +:+
    "'screenWidth':1280,'screenHeight':720}") ∧
  ∃ out' b', run (H := dest_backend 25)
      (HandleLine tree_schedule (render (window_request OpActivate (ow_ref 1 4194307) false))
        (Some NewSession) false) ow_inspected = Val (out', Some NewSession) b' ∧
    Code out' ≠ "Conflict".
Proof.
  intros win out. split; [vm_compute; reflexivity|].
  apply (inspected_window_acts (H := dest_backend 25) (ok := λ b, owner b = true)
    tree_schedule tree_schedule (Some NewSession) (Some NewSession) out
    (ow_backend [4194307]) ow_inspected [ow_ref 1 4194307] (ow_ref 1 4194307)).
  - reflexivity.
  - vm_compute. reflexivity.
  - vm_compute. reflexivity.
  - left.
  - done.
  - by apply ascii_no_replacement, ascii_text_dec.
  - by left.
  - vm_compute. congruence.
Defined.
