(* ===== verification/DisplaySpec.v ===== *)
(** * The destination daemon and the display

    The whole destination daemon on a server that behaves as documented
    ([InputServer]): which keys and buttons are down on the display at any point
    of any run. *)

From S2P Require Import Prelude GoStrings VNext Steps Backend Session Dispatch DispatchSpec.
From S2P Require Import Xlib X11 X11Spec Input DestBackend DestSpec.
From S2P Require Import Serve ServeSpec CallSpec Concurrent ConcurrentSpec OwnerDaemon.
From stdpp Require Import relations.
Local Open Scope Z_scope.

(** ** Calls that move nothing *)
Definition stands_still {D} (down : D → gset (Z + Z)) {A} (m : XM D A) : Prop :=
  ∀ s, dpy (snd (m s)) = dpy s ∧ held_on down (snd (m s)) = held_on down s.

Section still.
Context {D : Type} `{InputServer D down}.
Implicit Types s : xproc D.
Abbreviation still := (stands_still down).

Lemma still_ret {A} (a : A) : still (mret a).
Proof. done. Qed.
Lemma still_gets {A} (f : xproc D → A) : still (gets f).
Proof. done. Qed.
Lemma still_query {A} (q : D → A * D) : (∀ d, down (snd (q d)) = down d) → still (query q).
Proof.
  intros Hq s. unfold query, held_on. specialize (Hq (server s)). by destruct (q (server s)).
Qed.
Lemma still_bind {A A'} (m : XM D A) (f : A → XM D A') :
  still m → (∀ a, still (f a)) → still (m ≫= f).
Proof.
  intros Hm Hf s. unfold mbind, X_bind. specialize (Hm s). destruct (m s) as [a s1].
  cbn in Hm. destruct Hm as [<- <-]. apply Hf.
Qed.
Lemma still_request r :
  match r with XTestFakeKeyEvent _ _ | XTestFakeButtonEvent _ _ => False | _ => True end →
  still (request r).
Proof.
  intros Hr s. unfold request, held_on. pose proof (down_request r (server s)) as E.
  destruct (submit r (server s)). cbn. split; [done|]. by destruct r.
Qed.
Lemma still_set_atoms sup list act st fs pid name utf :
  still (set_atoms sup list act st fs pid name utf).
Proof. done. Qed.
End still.

Ltac stand :=
  intros;
  repeat first
    [ done
    | apply still_ret | apply still_gets | apply still_set_atoms
    | apply still_request; exact I
    | apply still_query; intros;
      first [ apply atom_keeps | apply property_keeps | apply geometry_keeps
            | apply translate_keeps | apply class_keeps | apply name_keeps
            | apply pointer_keeps ]
    | apply still_bind; [|intros]
    | match goal with |- stands_still _ (match ?x with _ => _ end) => destruct x end
    | match goal with |- stands_still _ (if ?x then _ else _) => destruct x end ].

Section layer.
Context {D : Type} `{InputServer D down}.
Abbreviation still := (stands_still down).

Lemma internDestAtoms_still : still (internDestAtoms (D := D)).
Proof. unfold internDestAtoms, intern_dest_atoms, unless_dpy. stand. Qed.
Lemma netSupportedHas_still name : still (netSupportedHas (D := D) name).
Proof.
  unfold netSupportedHas, net_supported_has, get_atom_list, unless_ready, unless_dpy. stand.
Qed.
Lemma refreshClientList_still : still (refreshClientList (D := D)).
Proof. unfold refreshClientList, refresh_client_list, unless_ready, unless_dpy. stand. Qed.
Lemma keysymToKeycode_still name : still (keysymToKeycode (D := D) name).
Proof. unfold keysymToKeycode, keysym_to_keycode, keysym_keycode, unless_dpy. stand. Qed.
Lemma windowClass_still xid : still (windowClass (D := D) xid).
Proof. unfold windowClass, window_class, unless_dpy. stand. Qed.
Lemma windowPID_still xid : still (windowPID (D := D) xid).
Proof. unfold windowPID, window_pid, unless_ready, unless_dpy. stand. Qed.
Lemma windowName_still xid : still (windowName (D := D) xid).
Proof. unfold windowName, window_name, unless_dpy. stand. Qed.
Lemma windowGeometry_still xid : still (windowGeometry (D := D) xid).
Proof. unfold windowGeometry, window_geometry, unless_dpy. stand. Qed.
Lemma windowHasFullscreen_still xid : still (windowHasFullscreen (D := D) xid).
Proof.
  unfold windowHasFullscreen, window_has_fullscreen, get_atom_list, unless_ready, unless_dpy. stand.
Qed.
Lemma getActiveXID_still : still (getActiveXID (D := D)).
Proof. unfold getActiveXID, get_active_xid, unless_ready, unless_dpy. stand. Qed.
Lemma sendNetActive_still xid : still (sendNetActive (D := D) xid).
Proof.
  unfold sendNetActive, send_net_active, get_active_xid, sync, unless_ready, unless_dpy. stand.
Qed.
Lemma sendNetWMStateFS_still xid add : still (sendNetWMStateFS (D := D) xid add).
Proof. unfold sendNetWMStateFS, send_net_wm_state_fs, sync, unless_ready, unless_dpy. stand. Qed.
Lemma setInputFocus_still xid : still (setInputFocus (D := D) xid).
Proof. unfold setInputFocus, set_input_focus, sync, unless_dpy. stand. Qed.
Lemma moveMouse_still x y : still (moveMouse (D := D) x y).
Proof. unfold moveMouse, move_mouse, sync, unless_dpy. stand. Qed.
Lemma displayGeometry_still : still (displayGeometry (D := D)).
Proof. unfold displayGeometry, display_width, display_height. stand. Qed.
Lemma waitPointer_still x y n : still (waitPointer (D := D) x y n).
Proof.
  induction n; cbn [waitPointer]; unfold queryPointer, query_pointer, unless_dpy; stand.
Qed.
End layer.

(** ** The methods of the live backend *)
Section methods.
Context {D : Type} `{InputServer D down} (polls : nat).
Implicit Types b : xDestBackend D.
Abbreviation held := (held_on down).

Definition stillB {A} (m : B D A) : Prop :=
  ∀ b, dpy (xp (snd (m b))) = dpy (xp b) ∧ held (xp (snd (m b))) = held (xp b).

Lemma stillB_ret {A} (a : A) : stillB (mret a).
Proof. done. Qed.
Lemma stillB_getb {A} (f : xDestBackend D → A) : stillB (getb f).
Proof. done. Qed.
Lemma stillB_set_list gen hash : stillB (set_list gen hash).
Proof. done. Qed.
Lemma stillB_onX {A} (m : XM D A) : stands_still down m → stillB (onX m).
Proof. intros Hm b. unfold onX. specialize (Hm (xp b)). by destruct (m (xp b)). Qed.
Lemma stillB_bind {A A'} (m : B D A) (f : A → B D A') :
  stillB m → (∀ a, stillB (f a)) → stillB (m ≫= f).
Proof.
  intros Hm Hf b. unfold mbind, B_bind. specialize (Hm b). destruct (m b) as [a b1].
  cbn in Hm. destruct Hm as [<- <-]. apply Hf.
Qed.
Lemma stillB_when_supported {A} atoms (fail : A) (body : B D A) :
  stillB body → stillB (when_supported atoms fail body).
Proof.
  intros Hb. apply stillB_bind; [apply stillB_onX, internDestAtoms_still|]. intros rc.
  destruct (negb (rc =? 0)); [apply stillB_ret|].
  induction atoms as [|atom atoms IH]; [done|]. cbn [foldr].
  apply stillB_bind; [apply stillB_onX, netSupportedHas_still|]. intros n.
  destruct (negb (n =? 1)); [apply stillB_ret|done].
Qed.

Ltac standB :=
  intros;
  repeat first
    [ done
    | apply stillB_ret | apply stillB_getb | apply stillB_set_list
    | apply stillB_when_supported
    | apply stillB_onX;
      first [ apply refreshClientList_still | apply keysymToKeycode_still | apply windowClass_still
            | apply windowPID_still | apply windowName_still | apply windowGeometry_still
            | apply windowHasFullscreen_still | apply getActiveXID_still | apply sendNetActive_still
            | apply sendNetWMStateFS_still | apply setInputFocus_still | apply moveMouse_still
            | apply displayGeometry_still | apply waitPointer_still ]
    | apply stillB_bind; [|intros]
    | match goal with |- stillB (match ?x with _ => _ end) => destruct x end
    | match goal with |- stillB (if ?x then _ else _) => destruct x end ].

Lemma window_infos_still xids : stillB (window_infos xids).
Proof. induction xids; cbn [window_infos]; unfold window_info; standB. Qed.

(** What a call does to one key or button, if [P] says whether it was down. *)
Definition moved_to (x : Z + Z) (e : event) (P : Prop) : Prop :=
  match match x with inl kc => key_moved kc e | inr bt => button_moved bt e end with
  | Some press => press = true
  | None => P
  end.

(** The keys and buttons a call may move. *)
Definition moves_ok (e : event) : Prop :=
  match e with
  | ESendKey kc _ _ => 8 ≤ kc < 256
  | ESendButton bt _ _ => 1 ≤ bt ≤ 3
  | _ => True
  end.

(** The answers of the live backend on an open display. *)
Definition answer_ok (e : event) : Prop :=
  match e with
  | EKeycodeFor _ kc => kc = 0 ∨ 8 ≤ kc < 256
  | ESendKey _ _ err | ESendButton _ _ err => err = None
  | _ => True
  end.

Definition effect (b : xDestBackend D) (e : event) (b' : xDestBackend D) : Prop :=
  dpy (xp b') = true ∧ answer_ok e ∧ ∀ x, x ∈ held (xp b') ↔ moved_to x e (x ∈ held (xp b)).

Lemma stillB_effect {A} (m : B D A) b r b' e :
  stillB m → dpy (xp b) = true → run_owner m b = Val r b' → answer_ok e →
  (∀ x P, moved_to x e P = P) → effect b e b'.
Proof.
  intros Hm Hd. unfold run_owner. destruct (owner b); cbn; [|done].
  specialize (Hm b). destruct (m b) as [a b1]. cbn in Hm. destruct Hm as [Hm1 Hm2].
  intros [= -> ->] Ha Hx. split_and!; [by rewrite Hm1|done|]. intros x. by rewrite Hx, Hm2.
Qed.

Lemma d_SendKey_effect kc press b r b' :
  dpy (xp b) = true → 8 ≤ kc < 256 →
  run_owner (d_SendKey kc press) b = Val r b' → effect b (ESendKey kc press r) b'.
Proof.
  intros Hd Hk. unfold run_owner. destruct (owner b); cbn [negb]; [|done].
  unfold d_SendKey, mbind, B_bind, onX, mret, B_ret.
  pose proof (sendKey_held kc press (xp b) Hd Hk) as E.
  destruct (sendKey kc press (xp b)) as [rc s']. destruct E as (-> & Hd' & Hx).
  intros [= <- <-]. split_and!; [done|done|]. intros x. cbn [xp with_xp]. rewrite Hx.
  unfold moved_to. destruct x as [k|bt]; cbn; repeat case_decide; simplify_eq; done.
Qed.

Lemma d_SendButton_effect bt press b r b' :
  dpy (xp b) = true → 1 ≤ bt ≤ 3 →
  run_owner (d_SendButton bt press) b = Val r b' → effect b (ESendButton bt press r) b'.
Proof.
  intros Hd Hk. unfold run_owner. destruct (owner b); cbn [negb]; [|done].
  unfold d_SendButton, mbind, B_bind, onX, mret, B_ret.
  pose proof (sendButton_held bt press (xp b) Hd Hk) as E.
  destruct (sendButton bt press (xp b)) as [rc s']. destruct E as (-> & Hd' & Hx).
  intros [= <- <-]. split_and!; [done|done|]. intros x. cbn [xp with_xp]. rewrite Hx.
  unfold moved_to. destruct x as [k|bt']; cbn; repeat case_decide; simplify_eq; done.
Qed.

Lemma keysymToKeycode_range name s :
  fst (keysymToKeycode name s) = 0 ∨ 8 ≤ fst (keysymToKeycode name s) < 256.
Proof.
  unfold keysymToKeycode, keysym_to_keycode, unless_dpy, keysym_keycode, gets, mbind, X_bind.
  destruct (dpy s); [|by left]. cbv zeta. destruct (_ =? NoSymbol); [by left|]. cbn [fst].
  pose proof (keycode_range (keysym_of (cstring name)) (server s)) as [-> |Hr]; [by left|right].
  rewrite uwrap_small by (unfold is_uint; change (2 ^ 8) with 256; lia). done.
Qed.

(** Every method does to the keys and buttons what its call says. *)
Lemma dest_effect {R : Set} (c : call R) b r b' :
  dpy (xp b) = true → handle (Backend := dest_backend polls) c b = Val r b' → moves_ok (Ev c r) → effect b (Ev c r) b'.
Proof.
  intros Hd Hh Hm. destruct c; cbn [handle dest_backend Ev] in *.
  - eapply stillB_effect; [|done|exact Hh| |]; [unfold d_KeycodeFor; standB| |by intros []].
    unfold run_owner in Hh. destruct (owner b); [|done]. cbn [negb] in Hh.
    unfold d_KeycodeFor, onX in Hh. pose proof (keysymToKeycode_range name (xp b)) as Hr.
    destruct (keysymToKeycode name (xp b)) as [kc s']. by simplify_eq.
  - unfold d_WarpMouse in Hh. destruct (_ || _).
    + simplify_eq. split_and!; [done|done|]. by intros [].
    + eapply stillB_effect; [|done|exact Hh|done|by intros []]. standB.
  - by apply d_SendKey_effect.
  - by apply d_SendButton_effect.
  - eapply stillB_effect; [|done|exact Hh|done|by intros []]. unfold d_ScreenGeometry. standB.
  - eapply stillB_effect; [|done|exact Hh|done|by intros []]. unfold d_ManagedClients. standB.
    apply window_infos_still.
  - eapply stillB_effect; [|done|exact Hh|done|by intros []]. unfold d_Revalidate. standB.
  - eapply stillB_effect; [|done|exact Hh|done|by intros []]. unfold d_ActivateAlwaysBoth. standB.
  - eapply stillB_effect; [|done|exact Hh|done|by intros []]. unfold d_SetFullscreen. standB.
  - eapply stillB_effect; [|done|exact Hh|done|by intros []]. unfold d_ActiveWindow. standB.
Qed.
End methods.

(** ** The whole daemon *)
Section live.
Context {D : Type} `{InputServer D down} (polls : nat) (allow gids : list Z).
Abbreviation held := (held_on down).
Abbreviation step := (vstep (H := dest_backend polls) allow gids).
Implicit Types d : daemon (xDestBackend D).

(** The calls a connection has made so far follow the rules. *)
Lemma daemon_called d i :
  daemon_ok allow gids d → i ∈ (log d).*1 → well_called ∅ (calls_of i (log d)).
Proof.
  intros Hd ([j e] & -> & Hin)%list_elem_of_fmap. cbn [fst].
  pose proof (ok_log _ _ _ Hd _ _ Hin) as Hlt.
  destruct (lookup_lt_is_Some_2 (threads d) j Hlt) as [p Hp].
  rewrite <-(ok_length _ _ _ Hd) in Hlt.
  destruct (lookup_lt_is_Some_2 (clients d) j Hlt) as [c Hc].
  destruct (exec_exists p) as (evs & a & He).
  pose proof (ok_reaches _ _ _ Hd j c p Hc Hp evs a He) as Hx.
  by apply serveVNextConn_called, well_called_app in Hx as [? _].
Qed.

(** Whether the log says that a key or button is down. *)
Definition logged_down (x : Z + Z) (l : list (nat * event)) : Prop :=
  match x with inl kc => last_key kc l.*2 = Some true | inr b => last_button b l.*2 = Some true end.

Lemma logged_down_snoc x l i e :
  logged_down x (l ++ [(i, e)]) ↔ moved_to x e (logged_down x l).
Proof.
  unfold logged_down, moved_to. rewrite fmap_app. cbn [fmap list_fmap snd].
  destruct x as [kc|b]; rewrite ?last_key_snoc, ?last_button_snoc; case_match; naive_solver.
Qed.

Record live_ok d : Prop := {
  lv_daemon : daemon_ok allow gids d;
  lv_dpy : dpy (xp (shared d)) = true;
  lv_answers i e : (i, e) ∈ log d → answer_ok e;
  lv_held x : x ∈ held (xp (shared d)) ↔ logged_down x (log d);
}.

(** A call in the log moves only what exists. *)
Lemma logged_moves_ok d i l e :
  daemon_ok allow gids d → log d = l ++ [(i, e)] → (∀ j e', (j, e') ∈ l → answer_ok e') →
  moves_ok e.
Proof.
  intros Hd El Ha. assert (i ∈ (log d).*1) as Hi.
  { rewrite El, fmap_app. apply elem_of_app. right. by left. }
  pose proof (daemon_called d i Hd Hi) as Hc.
  rewrite El, calls_of_snoc, decide_True in Hc by done.
  apply well_called_app in Hc as [_ [Hc _]]. destruct e; cbn in *; try done.
  destruct Hc as [Hk Hn].
  apply learned_elem in Hk as [Hk|[name Hk]]; [by apply not_elem_of_empty in Hk|].
  apply calls_of_elem in Hk. apply Ha in Hk. cbn in Hk. naive_solver.
Qed.

Lemma live_step d d' : live_ok d → step d d' → live_ok d'.
Proof.
  intros [Hd Hy Ha Hx] Hs.
  assert (daemon_ok allow gids d') as Hd' by (by eapply (vstep_ok (H := dest_backend polls))).
  destruct Hs as [d c rest Hc|d i R c k r w' Hi Hh|d i a Hi Hin]; [by split| |by split].
  assert (moves_ok (Ev c r)) as Hm by (by eapply logged_moves_ok).
  destruct (dest_effect polls c (shared d) r w' Hy Hh Hm) as (Hy' & Ha' & Hx').
  split; cbn [log shared answered]; try done.
  - intros j e [Hj|Hj%list_elem_of_singleton]%elem_of_app; [by eapply Ha|]. by simplify_eq.
  - intros x. rewrite Hx', logged_down_snoc. unfold moved_to. case_match; [done|apply Hx].
Qed.

Lemma live_reachable b cs d :
  dpy (xp b) = true → held (xp b) = ∅ → rtc step (started b cs) d → live_ok d.
Proof.
  intros Hy He. apply rtc_invariant; [exact live_step|].
  split; cbn; try done.
  - apply started_ok.
  - intros i e Hin. by apply elem_of_nil in Hin.
  - intros x. rewrite He. unfold logged_down. destruct x; set_solver.
Qed.
End live.

(** What is down is held by a client that is being served. *)
Lemma live_holders {D} (down : D → gset (Z + Z)) allow gids (d : daemon (xDestBackend D)) x :
  live_ok (down := down) allow gids d → x ∈ down (server (xp (shared d))) →
  ∃ i, i ∈ (serving (accepting d)).*1 ∧
    match x with
    | inl kc => last_key kc (calls_of i (log d)) = Some true
    | inr bt => last_button bt (calls_of i (log d)) = Some true
    end.
Proof.
  intros [Hd _ Ha Hx] Hin%Hx. destruct x as [kc|bt].
  - apply last_key_holder in Hin as (i & Hi & Hk). exists i. split; [|done].
    destruct (daemon_ended _ _ d i Hd Hi) as [?|[Hf _]]; [done|].
    destruct (Hf kc Hk) as [e Hin]. by apply calls_of_elem, Ha in Hin.
  - apply last_button_holder in Hin as (i & Hi & Hk). exists i. split; [|done].
    destruct (daemon_ended _ _ d i Hd Hi) as [?|[_ Hf]]; [done|].
    destruct (Hf bt Hk) as [e Hin]. by apply calls_of_elem, Ha in Hin.
Qed.

Lemma live_clear {D} (down : D → gset (Z + Z)) allow gids (d : daemon (xDestBackend D)) :
  live_ok (down := down) allow gids d → serving (accepting d) = [] →
  down (server (xp (shared d))) = ∅.
Proof.
  intros Hd Hn. apply set_eq. intros x. split; [|set_solver].
  intros (i & Hi & _)%(live_holders _ _ _ _ _ Hd). rewrite Hn in Hi. by apply elem_of_nil in Hi.
Qed.

(** ** An example: two clients press F1 and go away *)
Definition pad_backend : xDestBackend pad_server :=
  destBackend (opened {| pressed := ∅ |} 1280 720).
Definition pad_moves : list omove :=
  [OAccept; OAccept; OCall 0 0; OCall 1 1; OTake; ORun 0; OReturn 0; OTake; ORun 1; OReturn 1;
   OCall 1 2; OTake; OCall 0 3; ORun 1; OReturn 1].
Definition pad_run (ms : list omove) : odaemon (xDestBackend pad_server) :=
  default (ostarted pad_backend [])
    (orun (H := dest_backend 25) [1000] [] ms (ostarted pad_backend [demo_conn; demo_conn])).

(** ** The theorems *)

(** C9: only connected clients hold anything down: on a server that behaves as
    documented, with nothing down when the daemon starts to serve, in every
    state of every run of the destination daemon with its owner thread, each key
    and button that is down on the display was pressed last by a client that is
    still being served; so when no client is left, nothing is down, whatever the
    clients sent and however they went. *)
Theorem daemon_display_held {D} `{InputServer D down} polls allow gids
    (b : xDestBackend D) cs (o : odaemon (xDestBackend D)) :
  dpy (xp b) = true → down (server (xp b)) = ∅ →
  rtc (ostep (H := dest_backend polls) allow gids) (ostarted b cs) o →
  (∀ x, x ∈ down (server (xp (shared (base o)))) →
     ∃ i, i ∈ (serving (accepting (base o))).*1 ∧
       match x with
       | inl kc => last_key kc (calls_of i (log (base o))) = Some true
       | inr bt => last_button bt (calls_of i (log (base o))) = Some true
       end) ∧
  (serving (accepting (base o)) = [] → down (server (xp (shared (base o)))) = ∅).
Proof.
  intros Hy He Hr. apply (orun_base (H := dest_backend polls)) in Hr. cbn [base ostarted] in Hr.
  pose proof (live_reachable polls allow gids b cs _ Hy He Hr) as Hl.
  split; [intros x; by eapply live_holders|by eapply live_clear].
Qed.

Lemma daemon_display_held_witness :
  ∃ i, i ∈ (serving (accepting (base (pad_run pad_moves)))).*1 ∧
    last_key 67 (calls_of i (log (base (pad_run pad_moves)))) = Some true.
Proof.
  refine (proj1 (daemon_display_held (down := pad_down) 25 [1000] [] pad_backend [demo_conn; demo_conn]
    (pad_run pad_moves) eq_refl eq_refl _) (inl 67) _).
  - apply (orun_sound (H := dest_backend 25) _ _ pad_moves), default_is_Some. vm_compute. reflexivity.
  - apply (bool_decide_unpack _). vm_compute. exact I.
Defined.

(** C8: every run of the destination daemon ends with a clear display: on a
    server that behaves as documented, with the display open and nothing down
    at the start, whatever clients connect, whatever they send, however their
    connections end and however the scheduler interleaves the accept loop, the
    connections and the owner thread, every run comes to the state in which all
    clients are gone, the owner is idle, and no key and no button is down. *)
Theorem daemon_run_clears {D} `{InputServer D down} polls allow gids (b : xDestBackend D) cs :
  owner b = true → dpy (xp b) = true → down (server (xp b)) = ∅ →
  inevitably (ostep (H := dest_backend polls) allow gids)
    (λ o, oidle o ∧ down (server (xp (shared (base o)))) = ∅) (ostarted b cs).
Proof.
  intros Ho Hy He.
  apply (simulation_inevitably _ (vstep (H := dest_backend polls) allow gids) base
    (λ o, odaemon_ok allow gids o ∧ owner (shared (base o)) = true ∧
          live_ok (down := down) allow gids (base o)) pending).
  - intros o o' (Hok & Hw & Hl) Hs. pose proof (ostep_base (H := dest_backend polls) allow gids o o' Hs) as Hb.
    split; [|done]. split_and!; [by eapply (ostep_ok (H := dest_backend polls))| |].
    + by eapply (ostep_total (H := dest_backend polls) allow gids (λ b, owner b = true)).
    + destruct Hb as [Hb|[<- _]]; [by eapply (live_step polls)|done].
  - intros o (Hok & Hw & Hl).
    destruct (ostep_progress (H := dest_backend polls) allow gids (λ b, owner b = true) o Hok Hw)
      as [Hi|?]; [left|by right].
    split; [done|]. destruct Hi as [(_ & Hn & _) _]. by eapply live_clear.
  - apply vstep_wf.
  - split_and!; [apply ostarted_ok|done|]. by apply (live_reachable polls allow gids b cs); [| |apply rtc_refl].
Qed.

Lemma daemon_run_clears_witness :
  inevitably (ostep (H := dest_backend 25) [1000] [])
    (λ o, oidle o ∧ pad_down (server (xp (shared (base o)))) = ∅)
    (ostarted pad_backend [demo_conn; demo_conn]).
Proof. apply (daemon_run_clears (down := pad_down)); vm_compute; reflexivity. Defined.
