(* ===== verification/Os.v ===== *)
(** * The operating system, as the daemon sees it

    File system and lock calls are methods of the class [OS] over everything the
    system may remember; calls that change something are also recorded. *)

From S2P Require Import Prelude.
Local Open Scope Z_scope.

(** What [os.Lstat] says of a file; [fi_uid] is the owner in [Sys()]. *)
Record FileInfo := {
  fi_dir : bool;
  fi_symlink : bool;
  fi_socket : bool;
  fi_perm : Z;
  fi_uid : option Z;
}.

Definition EPERM : error := syscall_Errno 1.
Definition ENOENT : error := syscall_Errno 2.
Definition ECONNREFUSED : error := syscall_Errno 111.

(** What [fstat] says of an open file: its mode and its owner. *)
Record Stat_t := { st_mode : Z; st_uid : Z }.
Definition S_IFMT : Z := 0xF000.
Definition S_IFREG : Z := 0x8000.

Class OS (F : Type) := {
  Geteuid : F → Z;
  Getenv : string → F → string;
  Lstat : string → F → result FileInfo;
  DialUnix : string → F → option error * F;
  Remove : string → F → option error * F;
  ListenUnix : string → F → option error * F;
  Chmod : string → Z → F → option error * F;
  CloseListener : string → F → option error * F;   (* removes the socket too *)
  OpenLock : string → F → result Z * F;      (* a descriptor *)
  Fstat : Z → F → result Stat_t;
  CloseFd : Z → F → F;
  FlockNB : Z → F → option error * F;
}.

(** The changes asked of the file system. *)
Inductive oscall :=
  | CRemove (path : string)
  | CListen (path : string)
  | CChmod (path : string) (mode : Z)
  | CClose (path : string).

#[global] Instance oscall_eq_dec : EqDecision oscall.
Proof. solve_decision. Defined.

Record osproc (F : Type) := { os : F; calls : list oscall }.
Arguments os {F} _.
Arguments calls {F} _.

Definition OM (F A : Type) : Type := osproc F → A * osproc F.

#[global] Instance OM_ret F : MRet (OM F) := λ A a s, (a, s).
#[global] Instance OM_bind F : MBind (OM F) := λ A B f m s, let '(a, s') := m s in f a s'.

Definition look {F A} (f : F → A) : OM F A := λ s, (f (os s), s).
Definition call_os {F A} (f : F → A * F) : OM F A := λ s,
  let '(a, d) := f (os s) in (a, {| os := d; calls := calls s |}).
Definition change {F A} (c : oscall) (f : F → A * F) : OM F A := λ s,
  let '(a, d) := f (os s) in (a, {| os := d; calls := calls s ++ [c] |}).

(** lock.go: [currentEUID] *)
Definition currentEUID {F} `{OS F} : OM F (option Z) :=
  id ← look Geteuid;
  mret (if (id <? 0) || (MaxUint32 <? to_uint id) then None else Some (to_uint32 id)).
