(* ===== verification/Listen.v ===== *)
(** * Opening the destination socket (cmd/xtest-server/dest.go, lines 325-384) *)

From S2P Require Import Prelude GoStrings Os.
Local Open Scope Z_scope.

Definition isConnRefused (err : error) : bool := errors_Is err ECONNREFUSED.

(** [os.IsNotExist] *)
Definition IsNotExist (err : error) : bool := errors_Is err os_ErrNotExist || errors_Is err ENOENT.

(** [fmt.Errorf("%w: %s", errLivePeer, path)] *)
Definition live_peer (path : string) : error := fmt_Errorf path errLivePeer.

Section listen.
Context {F : Type} `{OS F}.

Definition checkUnixParent (path : string) : OM F (option error) :=
  let dir := filepath.Dir path in
  fi ← look (Lstat dir);
  match fi with
  | Err err => mret (Some err)
  | Ok fi =>
    if negb (fi_dir fi) || fi_symlink fi then mret (Some errParentNotPrivate) else
    euid ← currentEUID;
    match fi_uid fi, euid with
    | Some uid, Some euid =>
      if negb (uid =? euid) then mret (Some errParentNotPrivate) else
      if negb (Z.land (fi_perm fi) 0x3F =? 0) then mret (Some errParentNotPrivate) else
      mret None
    | _, _ => mret (Some errParentNotPrivate)
    end
  end.

(** Bind the socket and make it private. *)
Definition bind_socket (path : string) : OM F (option error) :=
  err ← change (CListen path) (ListenUnix path);
  match err with
  | Some err => mret (Some err)
  | None =>
    err ← change (CChmod path 0x180) (Chmod path 0x180);
    match err with
    | Some err =>
      _ ← change (CClose path) (CloseListener path);
      _ ← change (CRemove path) (Remove path);
      mret (Some err)
    | None => mret None
    end
  end.

Definition remove_then_bind (path : string) : OM F (option error) :=
  err ← change (CRemove path) (Remove path);
  match err with
  | Some err => mret (Some err)
  | None => bind_socket path
  end.

(** [listenUnixDest]; [None]: it listens. *)
Definition listenUnixDest (path : string) : OM F (option error) :=
  err ← checkUnixParent path;
  match err with
  | Some err => mret (Some err)
  | None =>
    fi ← look (Lstat path);
    match fi with
    | Ok fi =>
      if fi_symlink fi then mret (Some (live_peer path)) else
      if fi_socket fi then
        derr ← call_os (DialUnix path);
        match derr with
        | None => mret (Some (live_peer path))
        | Some derr =>
          if negb (isConnRefused derr) then mret (Some (live_peer path))
          else remove_then_bind path
        end
      else remove_then_bind path
    | Err err => if negb (IsNotExist err) then mret (Some err) else bind_socket path
    end
  end.

(** ** Facts *)

(** The directory of the socket is private to the daemon's user. *)
Definition parent_private (path : string) (d : F) : Prop :=
  ∃ fi, Lstat (filepath.Dir path) d = Ok fi ∧ fi_dir fi = true ∧ fi_symlink fi = false ∧
        fi_uid fi = Some (Geteuid d) ∧ Z.land (fi_perm fi) 0x3F = 0.

Lemma checkUnixParent_same path s : snd (checkUnixParent path s) = s.
Proof.
  unfold checkUnixParent, currentEUID, mbind, OM_bind, look, mret, OM_ret.
  destruct (Lstat (filepath.Dir path) (os s)) as [fi|err]; [|done].
  destruct (negb (fi_dir fi) || fi_symlink fi); [done|].
  destruct (fi_uid fi) as [uid|]; [|done].
  destruct ((Geteuid (os s) <? 0) || (MaxUint32 <? to_uint (Geteuid (os s)))); [done|].
  destruct (negb (uid =? _)); [done|]. by destruct (negb (Z.land _ _ =? 0)).
Qed.

(** A refusal: the parent is not private. *)
Ltac refuse :=
  cbn; split; [done|]; intros [(? & E & ? & ? & ? & ?) ?]; simplify_eq; first [congruence|lia].

Lemma checkUnixParent_private path s :
  is_sint 64 (Geteuid (os s)) →
  fst (checkUnixParent path s) = None ↔
  parent_private path (os s) ∧ 0 ≤ Geteuid (os s) ≤ MaxUint32.
Proof.
  unfold is_sint, checkUnixParent, currentEUID, parent_private, mbind, OM_bind, look, mret, OM_ret.
  intros Hid. assert (MaxUint32 = 2 ^ 32 - 1) as Hm by done.
  destruct (Lstat (filepath.Dir path) (os s)) as [fi|err]; [|refuse].
  destruct (fi_dir fi) eqn:Hd; cbn [negb orb fst]; [|refuse].
  destruct (fi_symlink fi) eqn:Hs; cbn [fst]; [refuse|].
  destruct (fi_uid fi) as [uid|] eqn:Hu; cbn [fst]; [|refuse].
  revert Hid. generalize (Geteuid (os s)) as e. intros e Hid.
  destruct (e <? 0) eqn:E0; bools; cbn [orb fst]; [refuse|].
  rewrite uwrap_small by (unfold is_uint; lia).
  destruct (MaxUint32 <? e) eqn:E1; bools; cbn [fst]; [refuse|].
  rewrite uwrap_small by (unfold is_uint; lia).
  destruct (uid =? e) eqn:E2; bools; cbn [negb fst]; [|refuse].
  destruct (Z.land (fi_perm fi) 0x3F =? 0) eqn:E3; bools; cbn [negb fst]; [|refuse].
  subst. split; [|done]. intros _. split; [|lia]. by exists fi.
Qed.
End listen.

(** ** Listening *)
Section spec.
Context {F : Type} `{OS F}.
Implicit Types s : osproc F.

Lemma bind_socket_calls path s s' :
  bind_socket path s = (None, s') → calls s' = calls s ++ [CListen path; CChmod path 0x180].
Proof.
  unfold bind_socket, mbind, OM_bind, change, mret, OM_ret.
  destruct (ListenUnix path (os s)) as [[e|] d]; [done|]. cbn [os calls].
  destruct (Chmod path 0x180 d) as [[e|] d']; [|intros; simplify_eq; cbn; by rewrite <-app_assoc].
  cbn [os]. destruct (CloseListener path d') as [? d2]. cbn [os].
  by destruct (Remove path d2) as [? ?].
Qed.

Lemma remove_then_bind_calls path s s' :
  remove_then_bind path s = (None, s') →
  calls s' = calls s ++ [CRemove path; CListen path; CChmod path 0x180].
Proof.
  unfold remove_then_bind, mbind, OM_bind, change, mret, OM_ret.
  destruct (Remove path (os s)) as [[e|] d]; [done|].
  intros E%bind_socket_calls. rewrite E. cbn. by rewrite <-app_assoc.
Qed.

(** What is at the path before: a stale socket or a file, or nothing. *)
Definition replaceable (path : string) (d : F) : Prop :=
  match Lstat path d with
  | Ok fi => fi_symlink fi = false ∧
             (fi_socket fi = true → ∃ e, fst (DialUnix path d) = Some e ∧ isConnRefused e = true)
  | Err e => IsNotExist e = true
  end.

Lemma listenUnixDest_ok path s s' :
  listenUnixDest path s = (None, s') →
  fst (checkUnixParent path s) = None ∧ replaceable path (os s) ∧
  (calls s' = calls s ++ [CListen path; CChmod path 0x180] ∨
   calls s' = calls s ++ [CRemove path; CListen path; CChmod path 0x180]).
Proof.
  unfold listenUnixDest, replaceable. unfold mbind at 1, OM_bind at 1.
  pose proof (checkUnixParent_same path s) as Hs.
  destruct (checkUnixParent path s) as [[e|] s0]; [done|]. cbn [snd] in Hs. subst s0.
  unfold mbind, OM_bind, look. destruct (Lstat path (os s)) as [fi|e].
  - destruct (fi_symlink fi); [done|]. destruct (fi_socket fi).
    + unfold call_os. destruct (DialUnix path (os s)) as [[derr|] d] eqn:Ed; [|done].
      destruct (isConnRefused derr) eqn:Er; cbn [negb]; [|done].
      intros E%remove_then_bind_calls. cbn in *. split_and!; [done|done| |by right].
      intros _. by exists derr.
    + intros E%remove_then_bind_calls. split_and!; [done|done|done|by right].
  - destruct (IsNotExist e); cbn [negb]; [|done]. intros E%bind_socket_calls.
    split_and!; [done|done|by left].
Qed.

Lemma listenUnixDest_live path s :
  fst (checkUnixParent path s) = None →
  (∃ fi, Lstat path (os s) = Ok fi ∧
     (fi_symlink fi = true ∨
      fi_socket fi = true ∧ ∀ e, fst (DialUnix path (os s)) = Some e → isConnRefused e = false)) →
  fst (listenUnixDest path s) = Some (live_peer path) ∧
  calls (snd (listenUnixDest path s)) = calls s.
Proof.
  intros Hp (fi & Ef & Hl).
  assert (∃ d, listenUnixDest path s = (Some (live_peer path), {| os := d; calls := calls s |}))
    as [d ->]; [|done].
  unfold listenUnixDest. unfold mbind at 1, OM_bind at 1.
  pose proof (checkUnixParent_same path s) as Hs.
  destruct (checkUnixParent path s) as [err s0]. cbn [fst snd] in *. subst.
  unfold mbind, OM_bind, look. rewrite Ef.
  destruct (fi_symlink fi); [exists (os s); by destruct s|].
  destruct Hl as [?|[-> Hd]]; [done|].
  unfold call_os. destruct (DialUnix path (os s)) as [[derr|] d]; [|by exists d].
  rewrite (Hd derr eq_refl). by exists d.
Qed.
End spec.

(** ** An example file system: a private directory with a stale socket *)
Record stale_fs := { peer_alive : bool }.

#[global] Instance stale_fs_OS : OS stale_fs := {|
  Geteuid _ := 1000;
  Getenv _ _ := "";
  Lstat path _ :=
    if bool_decide (path = "/run/x11") then
      Ok {| fi_dir := true; fi_symlink := false; fi_socket := false; fi_perm := 0x1C0; fi_uid := Some 1000 |}
    else
      Ok {| fi_dir := false; fi_symlink := false; fi_socket := true; fi_perm := 0x180; fi_uid := Some 1000 |};
  DialUnix _ d := (if peer_alive d then None else Some ECONNREFUSED, d);
  Remove _ d := (None, d);
  ListenUnix _ d := (None, d);
  Chmod _ _ d := (None, d);
  CloseListener _ d := (None, d);
  OpenLock _ d := (Err ENOENT, d);
  Fstat _ _ := Err ENOENT;
  CloseFd _ d := d;
  FlockNB _ d := (Some EPERM, d)
|}.

Definition stale_start (alive : bool) : osproc stale_fs :=
  {| os := {| peer_alive := alive |}; calls := [] |}.

(** ** The theorems *)

(** C22: the socket is only opened in private: when the daemon listens, the
    directory of the socket was a real directory owned by the daemon's user
    with no access for group or others, the path was free or held a stale
    socket or a file, and the last things done were binding the socket and
    setting its mode to 0600. *)
Theorem listen_private {F} `{OS F} path (s s' : osproc F) :
  is_sint 64 (Geteuid (os s)) →
  listenUnixDest path s = (None, s') →
  parent_private path (os s) ∧ replaceable path (os s) ∧
  ∃ before, calls s' = calls s ++ before ++ [CListen path; CChmod path 0x180] ∧
            (before = [] ∨ before = [CRemove path]).
Proof.
  intros Hid (Hp & Hr & Hc)%listenUnixDest_ok.
  apply checkUnixParent_private in Hp as [Hp _]; [|done].
  split_and!; [done|done|]. destruct Hc as [->| ->]; [exists []|exists [CRemove path]]; auto.
Qed.

Lemma listen_private_witness :
  parent_private "/run/x11/in.sock" (os (stale_start false)) ∧
  replaceable "/run/x11/in.sock" (os (stale_start false)) ∧
  ∃ before, calls (snd (listenUnixDest "/run/x11/in.sock" (stale_start false))) =
      calls (stale_start false) ++ before ++
      [CListen "/run/x11/in.sock"; CChmod "/run/x11/in.sock" 0x180] ∧
    (before = [] ∨ before = [CRemove "/run/x11/in.sock"]).
Proof.
  apply listen_private; [vm_compute; split; congruence|vm_compute; reflexivity].
Defined.

(** C23: a live socket is never taken over: if the path is a symbolic link, or a
    socket that answers or fails in any way but a refused connection, the
    daemon gives up with the live-peer error and removes, binds and changes
    nothing. *)
Theorem listen_never_steals {F} `{OS F} path (s : osproc F) :
  fst (checkUnixParent path s) = None →
  (∃ fi, Lstat path (os s) = Ok fi ∧
     (fi_symlink fi = true ∨
      fi_socket fi = true ∧ ∀ e, fst (DialUnix path (os s)) = Some e → isConnRefused e = false)) →
  (∃ e, fst (listenUnixDest path s) = Some e ∧ errors_Is e errLivePeer = true) ∧
  calls (snd (listenUnixDest path s)) = calls s.
Proof.
  intros Hp Hl. destruct (listenUnixDest_live path s Hp Hl) as [E Ec].
  split; [|done]. by exists (live_peer path).
Qed.

Lemma listen_never_steals_witness :
  (∃ e, fst (listenUnixDest "/run/x11/in.sock" (stale_start true)) = Some e ∧
        errors_Is e errLivePeer = true) ∧
  calls (snd (listenUnixDest "/run/x11/in.sock" (stale_start true))) = calls (stale_start true).
Proof.
  apply listen_never_steals; [vm_compute; reflexivity|].
  eexists. split; [vm_compute; reflexivity|]. right. split; [reflexivity|].
  vm_compute. discriminate.
Defined.
