(* ===== verification/Lock.v ===== *)
(** * The singleton lock (cmd/xtest-server/lock.go) *)

From S2P Require Import Prelude GoStrings Os.
Local Open Scope Z_scope.

Definition exitLockHeld : Z := 75.

Definition alnum (r : Z) : bool :=
  ((97 <=? r) && (r <=? 122)) || ((65 <=? r) && (r <=? 90)) || ((48 <=? r) && (r <=? 57)).

(** One code point of the display name. *)
Definition lock_rune (r : Z) : list ascii := if alnum r then utf8.EncodeRune r else ["-"%char].

(** [displayLockName] for the value of DISPLAY. *)
Definition displayLockName (display : string) : string :=
  let d := if bool_decide (display = "") then "default" else display in
  "x11-input-" +:+ str (concat (map (λ p, lock_rune (fst p)) (utf8.runes d))) +:+ ".lock".

Definition lockPaths (display : string) : list string :=
  let name := displayLockName display in ["/run/" +:+ name; "/tmp/" +:+ name].

Section lock.
Context {F : Type} `{OS F}.

(** [openLockFile]: the descriptor of a regular file of the process's user. *)
Definition openLockFile (path : string) : OM F (result Z) :=
  fd ← call_os (OpenLock path);
  match fd with
  | Err err => mret (Err err)
  | Ok fd =>
    st ← look (Fstat fd);
    match st with
    | Err err => _ ← call_os (λ d, (tt, CloseFd fd d)); mret (Err err)
    | Ok st =>
      euid ← currentEUID;
      match euid with
      | None => _ ← call_os (λ d, (tt, CloseFd fd d)); mret (Err EPERM)
      | Some euid =>
        if negb (Z.land (st_mode st) S_IFMT =? S_IFREG) || negb (st_uid st =? euid)
        then _ ← call_os (λ d, (tt, CloseFd fd d)); mret (Err EPERM)
        else mret (Ok fd)
      end
    end
  end.

(** The first of the paths that can be opened. *)
Fixpoint open_first (paths : list string) : OM F (option Z) :=
  match paths with
  | [] => mret None
  | p :: paths' =>
    fd ← openLockFile p;
    match fd with
    | Ok fd => mret (Some fd)
    | Err _ => open_first paths'
    end
  end.

(** [n] attempts to lock. *)
Fixpoint lock_attempts (fd : Z) (n : nat) : OM F bool :=
  match n with
  | O => mret false
  | S n' =>
    err ← call_os (FlockNB fd);
    match err with
    | None => mret true
    | Some _ => lock_attempts fd n'
    end
  end.

Definition acquireSingletonLock : OM F (option Z) :=
  display ← look (Getenv "DISPLAY");
  f ← open_first (lockPaths display);
  match f with
  | None => mret None
  | Some fd =>
    ok ← lock_attempts fd 20;
    if (ok : bool) then mret (Some fd)
    else _ ← call_os (λ d, (tt, CloseFd fd d)); mret None
  end.
End lock.

(** ** The lock names *)
Definition lock_byte (c : ascii) : bool :=
  alnum (b2z c) || bool_decide (c = "-"%char) || bool_decide (c = "."%char).

Lemma EncodeRune_ascii r : 0 ≤ r < 0x80 → utf8.EncodeRune r = [z2b r].
Proof.
  intros Hr. unfold utf8.EncodeRune.
  rewrite (proj2 (Z.ltb_ge r 0)), (proj2 (Z.ltb_ge 0x10FFFF r)), (proj2 (Z.leb_gt 0xD800 r)) by lia.
  cbn [orb andb]. by rewrite (proj2 (Z.ltb_lt r 0x80)) by lia.
Qed.

Lemma alnum_range r : alnum r = true → 48 ≤ r ≤ 122.
Proof. unfold alnum. rewrite !orb_true_iff, !andb_true_iff, !Z.leb_le. lia. Qed.

Lemma lock_rune_bytes r : Forall (λ c, lock_byte c = true) (lock_rune r).
Proof.
  unfold lock_rune. destruct (alnum r) eqn:E; [|by repeat constructor].
  pose proof (alnum_range r E). rewrite EncodeRune_ascii by lia.
  constructor; [|constructor]. unfold lock_byte. rewrite b2z_z2b by lia. by rewrite E.
Qed.

Lemma displayLockName_bytes d : Forall (λ c, lock_byte c = true) (bytes (displayLockName d)).
Proof.
  unfold displayLockName. rewrite !bytes_app, bytes_str. apply Forall_app_2.
  { apply (bool_decide_unpack _). vm_compute. exact I. }
  apply Forall_app_2; [|apply (bool_decide_unpack _); vm_compute; exact I].
  apply Forall_concat, Forall_map, Forall_true. intros [r b]. apply lock_rune_bytes.
Qed.

(** ** Acquiring *)
Section facts.
Context {F : Type} `{OS F}.
Implicit Types s : osproc F.

(** The descriptor is that of a regular file of the process's user. *)
Definition own_regular (fd : Z) (d : F) : Prop :=
  ∃ st, Fstat fd d = Ok st ∧ Z.land (st_mode st) S_IFMT = S_IFREG ∧
        0 ≤ Geteuid d ≤ MaxUint32 ∧ st_uid st = Geteuid d.

Lemma openLockFile_ok path s fd s' :
  (∀ d, is_sint 64 (Geteuid (F := F) d)) →
  openLockFile path s = (Ok fd, s') → own_regular fd (os s').
Proof.
  intros Hid. unfold openLockFile, currentEUID, mbind, OM_bind, look, call_os, mret, OM_ret.
  destruct (OpenLock path (os s)) as [[fd'|e] d] eqn:Eo; [|done]. cbn [os].
  destruct (Fstat fd' d) as [st|e] eqn:Ef; [|done]. cbv beta iota. cbn [os].
  destruct ((Geteuid d <? 0) || (MaxUint32 <? to_uint (Geteuid d))) eqn:Ee; [by cbn|].
  destruct (negb (Z.land (st_mode st) S_IFMT =? S_IFREG) ||
            negb (st_uid st =? to_uint32 (Geteuid d))) eqn:Es; [by cbn|].
  intros; simplify_eq. cbn [os].
  specialize (Hid d). unfold is_sint in Hid. assert (MaxUint32 = 2 ^ 32 - 1) by done.
  bools. rewrite uwrap_small in * by (unfold is_uint; lia).
  rewrite (uwrap_small 32) in * by (unfold is_uint; lia).
  exists st. split_and!; try done; lia.
Qed.

Lemma open_first_ok paths s fd s' :
  (∀ d, is_sint 64 (Geteuid (F := F) d)) →
  open_first paths s = (Some fd, s') → own_regular fd (os s').
Proof.
  intros Hid. revert s. induction paths as [|p paths IH]; intros s; cbn [open_first]; [done|].
  unfold mbind, OM_bind. destruct (openLockFile p s) as [[fd'|e] s1] eqn:E; [|apply IH].
  intros [= <- <-]. by eapply openLockFile_ok.
Qed.

(** The last attempt to lock succeeded. *)
Lemma lock_attempts_ok fd n s s' :
  lock_attempts fd n s = (true, s') → ∃ d, FlockNB fd d = (None, os s').
Proof.
  revert s. induction n as [|n IH]; intros s; cbn [lock_attempts]; [done|].
  unfold mbind, OM_bind, call_os. destruct (FlockNB fd (os s)) as [[e|] d] eqn:E; [apply IH|].
  intros [= <-]. by exists (os s).
Qed.
End facts.

(** ** An example: a free lock in /tmp *)
Record lock_fs := { locked_by : option Z }.

#[global] Instance lock_fs_OS : OS lock_fs := {|
  Geteuid _ := 1000;
  Getenv _ _ := ":99";
  Lstat _ _ := Err ENOENT;
  DialUnix _ d := (None, d);
  Remove _ d := (None, d);
  ListenUnix _ d := (None, d);
  Chmod _ _ d := (None, d);
  CloseListener _ d := (None, d);
  OpenLock path d := (if strings.HasPrefix path "/tmp/" then Ok 3 else Err EPERM, d);
  Fstat _ _ := Ok {| st_mode := 0x8180; st_uid := 1000 |};
  CloseFd _ d := d;
  FlockNB fd d := match locked_by d with
                  | None => (None, {| locked_by := Some fd |})
                  | Some _ => (Some (syscall_Errno 11), d)
                  end
|}.

(** ** The theorems *)

(** The lock file cannot be misdirected: whatever DISPLAY holds, the file
    name is made of letters, digits, hyphens and dots only, so that both
    candidate paths lie directly in /run and /tmp. *)
Theorem lock_name_safe display :
  Forall (λ c, lock_byte c = true) (bytes (displayLockName display)) ∧
  ("/"%char ∉ bytes (displayLockName display)) ∧
  lockPaths display = ["/run/" +:+ displayLockName display; "/tmp/" +:+ displayLockName display].
Proof.
  pose proof (displayLockName_bytes display) as Hb. split_and!; [done| |done].
  intros Hin%list_elem_of_In. rewrite Stdlib.Lists.List.Forall_forall in Hb. by apply Hb in Hin.
Qed.

(** A lock that is reported as held is held: the descriptor is that of a
    regular file owned by the daemon's user when it was opened, and the last
    attempt to lock it exclusively succeeded; the daemon tries at most twenty
    times and otherwise reports no lock. *)
Theorem lock_acquired_exclusive {F} `{OS F} (s : osproc F) fd s' :
  (∀ d : F, is_sint 64 (Geteuid d)) →
  acquireSingletonLock s = (Some fd, s') →
  (∃ d, own_regular fd d) ∧ ∃ d, FlockNB fd d = (None, os s').
Proof.
  intros Hid. unfold acquireSingletonLock, mbind, OM_bind, look, mret, OM_ret.
  destruct (open_first _ s) as [[fd'|] s1] eqn:Eo; [|done].
  destruct (lock_attempts fd' 20 s1) as [[] s2] eqn:El.
  - intros [= -> ->]. split.
    + exists (os s1). by eapply open_first_ok.
    + by eapply lock_attempts_ok.
  - unfold call_os. done.
Qed.

Lemma lock_acquired_exclusive_witness :
  (∃ d : lock_fs, own_regular 3 d) ∧ ∃ d, FlockNB 3 d = (None, {| locked_by := Some 3 |}).
Proof.
  apply (lock_acquired_exclusive {| os := {| locked_by := None |}; calls := [] |} 3
    {| os := {| locked_by := Some 3 |}; calls := [] |}).
  - intros d. vm_compute. split; congruence.
  - vm_compute. reflexivity.
Defined.

(** The lock is per spelling, not per display: the two names :99 and :99.0
    of the same X server lead to different lock files, so that a daemon for
    each can hold its lock. *)
Theorem lock_name_per_spelling :
  displayLockName ":99" = "x11-input--99.lock" ∧
  displayLockName ":99.0" = "x11-input--99-0.lock" ∧
  (∀ p, p ∈ lockPaths ":99" → p ∉ lockPaths ":99.0").
Proof.
  split_and!; [vm_compute; reflexivity..|]. intros p Hp.
  apply elem_of_cons in Hp as [->|[-> |[]%elem_of_nil]%elem_of_cons];
    apply (bool_decide_unpack _); vm_compute; exact I.
Qed.
