(* ===== verification/Daemon.v ===== *)
(** * Start-up (cmd/xtest-server/main.go)

    What [main] does with its flags, as the list of its milestones in order.
    The answers of the system (identities, the lock, the display) are
    arguments. *)

From S2P Require Import Prelude GoStrings Admission Lock.
Local Open Scope Z_scope.

Inductive milestone :=
  | PrintVersion
  | TakeLock                        (* the lock was acquired *)
  | OpenDisplay                     (* initDisplay was called *)
  | ServeVNext (addr : string) (allow gids : list Z)
  | ServeTCP (addr : string)
  | ServeStdin
  | Stderr (line : string)          (* a line of its own *)
  | StderrError (err : error)       (* the text of an error *)
  | Exit (status : Z).

Record flags := {
  showVersion : bool;
  tcpAddr : string;
  wsAddr : string;
  vnextSpec : string;
  allowSpec : string;
  gidSpec : string;
}.

(** What [exitIfDisplayInit] does with the result of [initDisplay], [None] if it
    returns. *)
Definition exitIfDisplayInit (rc : Z) : option (list milestone) :=
  if rc =? 0 then None else
  Some ((if negb (rc =? -2) then [Stderr "xtest-server: failed to open X11 display"] else []) ++
        [Exit 1]).

(** The part of [main] behind the lock; [rc] is the result of [initDisplay]. *)
Definition serve (mode : Mode) (addr : string) (allow gids : list Z) (rc : Z) : list milestone :=
  OpenDisplay ::
  match exitIfDisplayInit rc with
  | Some last => last
  | None =>
    if bool_decide (mode = ModeVNext) then [ServeVNext addr allow gids]
    else if negb (bool_decide (addr = "")) then [ServeTCP addr] else [ServeStdin]
  end.

(** The part of [main] behind the flags; [lock] tells whether the lock was
    acquired. *)
Definition lock_and_serve (mode : Mode) (addr : string) (allow gids : list Z) (lock : bool) (rc : Z)
    : list milestone :=
  if negb lock then
    [Stderr "xtest-server: another instance already holds the singleton lock; exiting";
     Exit exitLockHeld]
  else TakeLock :: serve mode addr allow gids rc.

Definition main (f : flags) (euid egid : Z) (lock : bool) (rc : Z) : list milestone :=
  if showVersion f then [PrintVersion] else
  match AdmitFlags (tcpAddr f) (wsAddr f) (vnextSpec f) with
  | (_, _, Some e) => [StderrError e; Exit 2]
  | (mode, addr, None) =>
    if bool_decide (mode = ModeVNext) then
      match ParseAllowlist euid (allowSpec f) with
      | Err e => [StderrError e; Exit 2]
      | Ok allow =>
        match ParseGIDAllowlist egid (gidSpec f) with
        | Err e => [StderrError e; Exit 2]
        | Ok gids => lock_and_serve mode addr allow gids lock rc
        end
      end
    else lock_and_serve mode addr [] [] lock rc
  end.

(** ** Facts *)
Lemma AdmitFlags_vnext tcp ws vnext addr :
  AdmitFlags tcp ws vnext = (ModeVNext, addr, None) → listen_path addr.
Proof.
  unfold AdmitFlags, SelectMode. generalize (if negb (bool_decide (strings.TrimSpace ws = ""))
    then ws else tcp). intros a. repeat case_bool_decide; cbn [negb andb]; try done.
  destruct (ParseUnixListen (strings.TrimSpace vnext)) as [p [e|]] eqn:El; [done|]. intros [= ->].
  by apply ParseUnixListen_exact in El as [_ ?].
Qed.

Lemma serve_exclusive mode addr allow gids rc path a g :
  ServeVNext path a g ∈ serve mode addr allow gids rc →
  mode = ModeVNext ∧ path = addr ∧ a = allow ∧ g = gids ∧ rc = 0 ∧
  serve mode addr allow gids rc = [OpenDisplay; ServeVNext addr allow gids].
Proof.
  unfold serve, exitIfDisplayInit. destruct (rc =? 0) eqn:Er; bools;
    [|by destruct (negb (rc =? -2)); set_solver].
  case_bool_decide; [set_solver|]. case_bool_decide; set_solver.
Qed.

Lemma lock_and_serve_opens mode addr allow gids lock rc :
  OpenDisplay ∈ lock_and_serve mode addr allow gids lock rc →
  lock = true ∧ ∃ rest, lock_and_serve mode addr allow gids lock rc = TakeLock :: OpenDisplay :: rest.
Proof.
  unfold lock_and_serve. destruct lock; cbn [negb]; [|set_solver].
  intros _. split; [done|]. unfold serve. eauto.
Qed.

Lemma lock_and_serve_vnext mode addr al gs lock rc path allow gids :
  ServeVNext path allow gids ∈ lock_and_serve mode addr al gs lock rc →
  mode = ModeVNext ∧ path = addr ∧ allow = al ∧ gids = gs ∧
  lock_and_serve mode addr al gs lock rc = [TakeLock; OpenDisplay; ServeVNext addr al gs].
Proof.
  unfold lock_and_serve. destruct lock; cbn [negb]; [|set_solver]. intros Hin.
  apply elem_of_cons in Hin as [?|Hin]; [done|].
  by apply serve_exclusive in Hin as (? & ? & ? & ? & _ & ->).
Qed.

(** ** The theorems *)

(** Nothing happens out of order: the display is opened only after the flags
    were admitted and right after the lock was acquired, so that refused flags
    (status 2) and a held lock (status 75) leave the display alone. *)
Theorem display_opened_last f euid egid lock rc :
  OpenDisplay ∈ main f euid egid lock rc →
  lock = true ∧ ∃ rest, main f euid egid lock rc = TakeLock :: OpenDisplay :: rest.
Proof.
  unfold main. destruct (showVersion f); [set_solver|].
  destruct (AdmitFlags _ _ _) as [[mode addr] [e|]]; [set_solver|].
  case_bool_decide; [|apply lock_and_serve_opens].
  destruct (ParseAllowlist _ _); [|set_solver].
  destruct (ParseGIDAllowlist _ _); [apply lock_and_serve_opens|set_solver].
Qed.

Definition vnext_flags : flags :=
  {| showVersion := false; tcpAddr := ""; wsAddr := ""; vnextSpec := "unix:/run/x11/in.sock";
     allowSpec := "euid"; gidSpec := "" |}.

Lemma display_opened_last_witness :
  true = true ∧ ∃ rest, main vnext_flags 1000 1000 true 0 = TakeLock :: OpenDisplay :: rest.
Proof.
  apply display_opened_last. vm_compute. right. left.
Defined.

(** C26: the destination socket is served only as configured: to a canonical
    absolute path, with a non-empty list of 32-bit user identifiers, with no
    legacy transport in the same process. *)
Theorem vnext_served_closed f euid egid lock rc path allow gids :
  is_sint 64 euid →
  ServeVNext path allow gids ∈ main f euid egid lock rc →
  listen_path path ∧ allow ≠ [] ∧ Forall (is_uint 32) allow ∧
  main f euid egid lock rc = [TakeLock; OpenDisplay; ServeVNext path allow gids].
Proof.
  intros Hid. unfold main. destruct (showVersion f); [set_solver|].
  destruct (AdmitFlags _ _ _) as [[mode addr] [e|]] eqn:Ea; [set_solver|].
  case_bool_decide as Hm.
  - destruct (ParseAllowlist euid (allowSpec f)) as [al|] eqn:Ep; [|set_solver].
    destruct (ParseGIDAllowlist egid (gidSpec f)) as [gs|]; [|set_solver].
    intros (_ & -> & -> & -> & E)%lock_and_serve_vnext. subst mode.
    split_and!; [| | |done].
    + by eapply AdmitFlags_vnext.
    + by apply ParseAllowlist_exact in Ep as [? _].
    + apply ParseAllowlist_exact in Ep as [_ HF]; [|done]. clear -HF.
      induction HF; constructor; eauto using entry_id_range.
  - intros (? & _)%lock_and_serve_vnext. done.
Qed.

Lemma vnext_served_closed_witness :
  listen_path "/run/x11/in.sock" ∧ [1000] ≠ [] ∧ Forall (is_uint 32) [1000] ∧
  main vnext_flags 1000 1000 true 0 = [TakeLock; OpenDisplay; ServeVNext "/run/x11/in.sock" [1000] []].
Proof.
  apply vnext_served_closed.
  - vm_compute. split; congruence.
  - vm_compute. right. right. left.
Defined.
