(* ===== verification/NoCgo.v ===== *)
(** * The build without cgo (cmd/xtest-server/x11_nocgo.go)

    The stubs that stand for the X11 layer when the daemon is built without
    cgo.  A stub keeps no state, so that it is modelled as its result.  The
    theorems relate this build to the other one: the stubs answer what the real
    layer answers on a display that is not open, and the daemon built with them
    ends before it serves anybody. *)

From S2P Require Import Prelude GoStrings Json JsonText VNext Request RequestSpec Backend Session.
From S2P Require Import Dispatch DispatchSpec Xlib X11 X11Spec DestBackend DestSpec.
From S2P Require Import Legacy LegacySpec Serve Admission Lock Daemon.
Local Open Scope Z_scope.

(** ** The stubs *)
Module NoCgo.
Definition initDisplay : Z := -1.
Definition closeDisplay : unit := tt.
Definition releaseAll : Z := -1.
Definition sendKey (_ : Z) (_ : bool) : Z := -1.
Definition moveMouse (_ _ : Z) : Z := -1.
Definition sendButton (_ : Z) (_ : bool) : Z := -1.
Definition keysymToKeycode (_ : string) : Z := 0.
Definition internDestAtoms : Z := -1.
Definition netSupportedHas (_ : string) : Z := -1.
Definition refreshClientList : list Z * Z := ([], -1).
Definition windowGeometry (_ : Z) : Z * Z * Z * Z * Z := (0, 0, 0, 0, -1).
Definition displayGeometry : Z * Z := (0, 0).
Definition windowPID (_ : Z) : Z := 0.
Definition windowClass (_ : Z) : string := "".
Definition windowName (_ : Z) : string := "".
Definition windowHasFullscreen (_ : Z) : bool := false.
Definition sendNetActive (_ : Z) : Z := -1.
Definition sendNetWMStateFS (_ : Z) (_ : bool) : Z := -1.
Definition setInputFocus (_ : Z) : Z := -1.
Definition getActiveXID : Z := 0.
Definition queryPointer : Z * Z * Z := (0, 0, -1).
Definition moveMouseFake (_ _ : Z) : Z := -1.
Definition peerUID (_ : Z) : Z * Z * bool := (0, 0, false).
End NoCgo.

(** ** The real layer on a display that is not open *)
Section closed.
Context {D : Type} `{Xlib D}.

(** The display was not opened, or was closed. *)
Definition closed (s : xproc D) : Prop := dpy s = false.

(** [m] answers [a] and does nothing. *)
Definition answers {A} (s : xproc D) (m : XM D A) (a : A) : Prop := m s = (a, s).

Lemma answers_unless_dpy {A} s (e : A) m : closed s → answers s (unless_dpy e m) e.
Proof. intros Hd. by apply no_dpy. Qed.

Lemma answers_unless_ready {A} s (e : A) m : closed s → answers s (unless_ready e m) e.
Proof. apply answers_unless_dpy. Qed.

Lemma answers_bind {A A'} s (m : XM D A) (f : A → XM D A') a a' :
  answers s m a → answers s (f a) a' → answers s (m ≫= f) a'.
Proof. unfold answers, mbind, X_bind. by intros ->. Qed.
End closed.

Create HintDb stubs.
#[export] Hint Resolve answers_unless_dpy answers_unless_ready : stubs.

(** One function of the real layer against its stub. *)
Ltac stub := first [ solve [eauto with stubs] | eapply answers_bind; [stub|stub] | reflexivity ].

Section equivalence.
Context {D : Type} `{Xlib D} (s : xproc D) (Hs : closed s).

Lemma closed_input kc bt x y press name :
  answers s releaseAll NoCgo.releaseAll ∧
  answers s (sendKey kc press) (NoCgo.sendKey kc press) ∧
  answers s (sendButton bt press) (NoCgo.sendButton bt press) ∧
  answers s (moveMouse x y) (NoCgo.moveMouse x y) ∧
  answers s (moveMouseFake x y) (NoCgo.moveMouseFake x y) ∧
  answers s queryPointer NoCgo.queryPointer ∧
  answers s (keysymToKeycode name) (NoCgo.keysymToKeycode name).
Proof. split_and!; stub. Qed.

Lemma closed_windows xid add name :
  answers s internDestAtoms NoCgo.internDestAtoms ∧
  answers s (netSupportedHas name) (NoCgo.netSupportedHas name) ∧
  answers s refreshClientList NoCgo.refreshClientList ∧
  answers s (windowGeometry xid) (NoCgo.windowGeometry xid) ∧
  answers s (windowPID xid) (NoCgo.windowPID xid) ∧
  answers s (windowClass xid) (NoCgo.windowClass xid) ∧
  answers s (windowName xid) (NoCgo.windowName xid) ∧
  answers s (windowHasFullscreen xid) (NoCgo.windowHasFullscreen xid) ∧
  answers s (sendNetActive xid) (NoCgo.sendNetActive xid) ∧
  answers s (sendNetWMStateFS xid add) (NoCgo.sendNetWMStateFS xid add) ∧
  answers s (setInputFocus xid) (NoCgo.setInputFocus xid) ∧
  answers s getActiveXID NoCgo.getActiveXID.
Proof. split_and!; stub. Qed.

Lemma closed_closeDisplay : answers s closeDisplay NoCgo.closeDisplay.
Proof.
  unfold answers, closeDisplay, close_display, mbind, X_bind, mret, X_ret, gets. by rewrite Hs.
Qed.
End equivalence.

(** ** The destination backend on a display that is not open *)
Section backend.
Context {D : Type} `{Xlib D} (polls : nat).

Lemma with_xp_same (b : xDestBackend D) : with_xp (xp b) b = b.
Proof. by destruct b. Qed.

Lemma onX_answers {A} (m : XM D A) (b : xDestBackend D) a :
  answers (xp b) m a → onX m b = (a, b).
Proof. unfold answers, onX. intros ->. by rewrite with_xp_same. Qed.

(** What each call answers: nothing is there. *)
Definition nothing {R : Set} (c : call R) (r : R) : Prop :=
  match c in call R return R → Prop with
  | KeycodeFor _ => λ r, r = 0
  | WarpMouse _ _ => λ r, ∃ e, r = Some e ∧ errors_Is e ErrRefMismatch = false
  | SendKey _ _ => λ r, r = Some errXCall
  | SendButton _ _ => λ r, r = Some errXCall
  | ScreenGeometry => λ r, r.2 = Some ErrUnavailable ∨ r.2 = None
  | ManagedClients => λ r, r = ([], Some ErrUnavailable)
  | Revalidate _ => λ r, r = Some ErrUnavailable
  | ActivateAlwaysBoth _ => λ r, r = Some ErrUnavailable
  | SetFullscreen _ _ => λ r, r = Some ErrUnavailable
  | ActiveWindow => λ r, r = (0, Some ErrUnavailable)
  end r.

Lemma unsupported {A} atoms (fail : A) body b :
  closed (xp b) → when_supported atoms fail body b = (fail, b).
Proof.
  intros Hc. unfold when_supported, mbind, B_bind.
  by rewrite (onX_answers _ _ _ (proj1 (closed_windows _ Hc 0 false ""))).
Qed.

Lemma closed_handle {R : Set} (c : call R) (b : xDestBackend D) :
  owner b = true → closed (xp b) →
  ∃ r, handle (Backend := dest_backend polls) c b = Val r b ∧ nothing c r.
Proof.
  intros Ho Hc.
  assert (∀ A (m : B D A) a, m b = (a, b) → run_owner m b = Val a b) as Hrun.
  { intros A m a E. by rewrite run_owner_val, E by done. }
  destruct c; cbn.
  all: try by (eexists; split; [apply Hrun, unsupported|]).
  - destruct (closed_input _ Hc 0 0 0 0 false name) as (_ & _ & _ & _ & _ & _ & Ha).
    eexists; split; [by apply Hrun, onX_answers|done].
  - unfold d_WarpMouse. case_match; [by repeat (eexists; split; [done|])|].
    destruct (closed_input _ Hc 0 0 x y false "") as (_ & _ & _ & Ha & _).
    exists (Some errXCall); split; [apply Hrun|by exists errXCall]. unfold mbind, B_bind.
    by rewrite (onX_answers _ _ _ Ha).
  - destruct (closed_input _ Hc keycode 0 0 0 press "") as (_ & Ha & _).
    eexists; split; [apply Hrun|done]. unfold d_SendKey, mbind, B_bind.
    by rewrite (onX_answers _ _ _ Ha).
  - destruct (closed_input _ Hc 0 button 0 0 press "") as (_ & _ & Ha & _).
    eexists; split; [apply Hrun|done]. unfold d_SendButton, mbind, B_bind.
    by rewrite (onX_answers _ _ _ Ha).
  - rewrite run_owner_val by done. unfold d_ScreenGeometry, displayGeometry, display_width,
      display_height, mbind, B_bind, onX, X_bind, gets, mret, B_ret, X_ret.
    rewrite with_xp_same. case_match; eexists; (split; [done|]); auto.
Qed.

(** A request that is not a release ends with the first failing answer. *)
Lemma closed_dispatch sch r sess (b : xDestBackend D) :
  owner b = true → closed (xp b) →
  Op r ∈ [OpMove; OpKey; OpButton; OpInspect; OpActivate; OpFullscreen] →
  ∃ out, run (H := dest_backend polls) (Dispatch sch r sess false) b = Val (out, sess) b ∧
    Code out = if decide (Op r = OpKey) then CodeInvalidRequest else CodeUnavailable.
Proof.
  intros Ho Hc Hop.
  repeat (apply elem_of_cons in Hop as [Hop|Hop]); [..|by apply elem_of_nil in Hop];
    unfold Dispatch; rewrite Hop; repeat (case_bool_decide; try done); cbn -[handle];
    match goal with |- context [handle ?c b] =>
      destruct (closed_handle c b Ho Hc) as (res & -> & Hn) end;
    cbn in Hn; simplify_eq; try (by eexists; split; [reflexivity|]).
  - destruct Hn as (e & -> & He). eexists; split; [reflexivity|]. cbn. by rewrite He.
  - destruct res as [[w h] err]. cbn in Hn. destruct Hn as [-> | ->]; [by eexists|].
    cbn -[handle]. destruct (closed_handle ManagedClients b Ho Hc) as (res & -> & Hn).
    cbn in Hn. subst res. by eexists.
Qed.
End backend.

(** ** The theorems *)

(** C39: a display that is not open refuses every request and is left alone: a
    line that denotes a move, a button, an inspection, an activation or a
    fullscreen change is answered Unavailable and a key is answered
    InvalidRequest (no name has a key code); the session, the backend and what
    was sent to the X server are the same afterwards. *)
Theorem closed_display_unavailable {D} `{Xlib D} polls sch line r sess (b : xDestBackend D) :
  owner b = true → closed (xp b) → denotes line r → Op r ≠ OpRelease →
  ∃ out, run (H := dest_backend polls) (HandleLine sch line sess false) b = Val (out, sess) b ∧
    Code out = if decide (Op r = OpKey) then CodeInvalidRequest else CodeUnavailable.
Proof.
  intros Ho Hc Hd Hr. unfold HandleLine. rewrite (proj2 (Decode_submitted line r) Hd).
  apply (closed_dispatch polls sch r sess b Ho Hc).
  destruct Hd as (m & _ & _ & _ & Hm). apply accepts_valid in Hm. by destruct Hm; set_solver.
Qed.

(** A process before [initDisplay], or after it failed. *)
Definition unopened : xDestBackend one_window :=
  {| owner := true; displayGen := 1; observeGen := 1; listHash := 0;
     xp := xproc0 {| ow_list := [7]; ow_class := "Example" |} |}.

Lemma closed_display_unavailable_witness :
  ∃ out, run (H := dest_backend 25) (HandleLine tree_schedule (render (button_request 1 true))
      (Some NewSession) false) unopened = Val (out, Some NewSession) unopened ∧
    Code out = CodeUnavailable.
Proof.
  apply (closed_display_unavailable 25 tree_schedule _ (button_request 1 true)).
  - reflexivity.
  - reflexivity.
  - apply Decode_submitted. vm_compute. reflexivity.
  - vm_compute. congruence.
Defined.

(** The run of a daemon that finds no display. *)
Definition no_display : list milestone :=
  [TakeLock; OpenDisplay; Stderr "xtest-server: failed to open X11 display"; Exit 1].

(** C40: the daemon built without cgo is the daemon on a machine without a
    display: each stub answers what the real function answers, without changing
    anything, in a process whose display is not open (the screen size is the
    exception: its stub answers zero, the real layer starts with a default);
    credentials cannot be read, so that no peer is admitted; and with the stub
    for [initDisplay] the daemon serves nobody, whatever its flags: once the
    lock is taken it reports the display and ends with status 1. *)
Theorem nocgo_is_closed {D} `{Xlib D} (s : xproc D) kc bt x y xid press add name fd :
  closed s →
  (answers s releaseAll NoCgo.releaseAll ∧
   answers s (sendKey kc press) (NoCgo.sendKey kc press) ∧
   answers s (sendButton bt press) (NoCgo.sendButton bt press) ∧
   answers s (moveMouse x y) (NoCgo.moveMouse x y) ∧
   answers s (moveMouseFake x y) (NoCgo.moveMouseFake x y) ∧
   answers s queryPointer NoCgo.queryPointer ∧
   answers s (keysymToKeycode name) (NoCgo.keysymToKeycode name)) ∧
  (answers s internDestAtoms NoCgo.internDestAtoms ∧
   answers s (netSupportedHas name) (NoCgo.netSupportedHas name) ∧
   answers s refreshClientList NoCgo.refreshClientList ∧
   answers s (windowGeometry xid) (NoCgo.windowGeometry xid) ∧
   answers s (windowPID xid) (NoCgo.windowPID xid) ∧
   answers s (windowClass xid) (NoCgo.windowClass xid) ∧
   answers s (windowName xid) (NoCgo.windowName xid) ∧
   answers s (windowHasFullscreen xid) (NoCgo.windowHasFullscreen xid) ∧
   answers s (sendNetActive xid) (NoCgo.sendNetActive xid) ∧
   answers s (sendNetWMStateFS xid add) (NoCgo.sendNetWMStateFS xid add) ∧
   answers s (setInputFocus xid) (NoCgo.setInputFocus xid) ∧
   answers s getActiveXID NoCgo.getActiveXID) ∧
  answers s closeDisplay NoCgo.closeDisplay ∧
  peerUID (λ _, None) fd = NoCgo.peerUID fd ∧
  (∀ unix raw allow gids,
    allowPeer {| is_unix := unix; raw_fd := raw; peercred := λ _, None |} allow gids = false) ∧
  ∀ f euid egid, main f euid egid true NoCgo.initDisplay = [PrintVersion] ∨
    (∃ e, main f euid egid true NoCgo.initDisplay = [StderrError e; Exit 2]) ∨
    main f euid egid true NoCgo.initDisplay = no_display.
Proof.
  intros Hs. split; [by apply closed_input|]. split; [by apply closed_windows|].
  split; [by apply closed_closeDisplay|]. split; [done|]. split.
  { intros unix raw allow gids. unfold allowPeer. cbn. by repeat case_match. }
  intros f euid egid. unfold main. by repeat case_match; eauto.
Qed.

Lemma nocgo_is_closed_witness :
  answers (xp unopened) (sendKey 38 true) (NoCgo.sendKey 38 true) ∧
  main vnext_flags 1000 1000 true NoCgo.initDisplay = no_display.
Proof.
  assert (closed (xp unopened)) as Hc by reflexivity.
  split; [|reflexivity].
  apply (nocgo_is_closed (xp unopened) 38 0 0 0 0 true false "" 0 Hc).
Defined.
